(* ===== verification/_CoqProject ===== *)
-Q . S2P
Prelude.v
Json.v
Printed.v
Reading.v
Opi.v
Messages.v
Kube.v
Service.v
StatefulSet.v
Ingress.v
Fixtures.v
Objects.v
Desirer.v
Listing.v
Tasks.v
Routes.v
Interleaving.v
Wiring.v
Races.v
Announce.v
Bifrost.v
Filepath.v
Handler.v
Stager.v
Sha256.v
Registry.v
Droplets.v
Unzip.v
Recipe.v
Environ.v
Staging.v
Launch.v
Cmd.v
Startup.v
Doubles.v
Fakes.v
Tested.v
