(* ===== verification/Prelude.v ===== *)
(** * Eirini: a verification development

    Eirini runs Cloud Foundry applications on Kubernetes.  The cloud controller
    talks HTTP to [opi connect]; a request goes through the handler to Bifrost
    or to the stager, and these drive the Kubernetes backend.  Applications from
    source are staged: a Kubernetes job runs [recipe], which reports back over
    HTTP; the droplet it makes becomes an OCI image in the registry.  An
    application container starts through [launch].  Operations on services
    announce routes on a channel, whose other end publishes them on NATS.

    The Go functions are Rocq functions of the same names.  A function with
    effects has type [M S (result A)]: a state of any type [S] is threaded
    through, a call returns, panics or blocks ([outcome]), and a returned
    [(T, error)] is [Ok] or [Err].  What the program calls but does not contain
    is a class over [S] (the API server, HTTP, files, the cloud controller) or
    without one (URL parsing, archives, the order of [range] over a map).
    Classes of laws say what is relied upon; each has a concrete instance, at
    which the theorems are applied.  [wp] is the weakest precondition over an
    observable view of the state, and all specifications are total: they say
    how a call ends.

    ** The files

    - [Prelude]: results, outcomes and the monad; Go maps, slices and [int32];
      [wp] and its rules.
    - [Json], [Printed], [Reading]: the part of [encoding/json] that is used:
      UTF-8, the printer with its escapes, the reader and the decoders by struct
      tags.  Printing and reading are inverse up to invalid UTF-8, and printed
      texts are valid UTF-8.  A text of [n] bytes is read with fuel [2 n + 2]:
      [Reading.fuel_enough] proves that no larger fuel reads more.
    - [Opi]: [models.go], [models/cf/models.go], [opi/model.go].
    - [Messages]: the requests of the cloud controller with their decoders, HTTP
      as clients use it, and the interfaces of [models.go].
    - [Kube]: the API types and calls that the code uses, the laws of the API
      server (any call may be refused, and a refused write may have happened; an
      update of an object is taken only at the version it was read at; what is
      stored may have defaults filled in where nothing was sent), and a
      reference server with a script of refusals, which fills in some.
    - [Service], [StatefulSet], [Ingress]: [k8s/service.go], [k8s/routes.go];
      [k8s/statefulset.go], [k8s/helpers.go], [k8s/probe.go]; [k8s/ingress.go].
      Rules of the ingress carry pointers, which the code uses in map keys: they
      are references into an explicit heap.  The loop of [Delete] that cuts out
      rules has the number of rules plus one as fuel.
    - [Objects]: theorems on single stored objects.
    - [Desirer]: [k8s/desire.go], the abstract scheduler and the refinement;
      [Listing]: the list of all applications against it.
    - [Tasks]: [k8s/desiretask.go].
    - [Routes]: [route/], the emitter and the senders as a step relation.
    - [Wiring]: how names, labels and ports join the objects of applications and
      the jobs that stage them.
    - [Interleaving], [Races]: the operations of [Desirer] and [Routes] while
      others act on the cluster between their calls.
    - [Announce]: the collector, the emitter and all others as a step relation,
      and its fair runs.
    - [Bifrost]: [bifrost/], [launcher/launcher.go].
    - [Handler]: [handler/], the table of routes and all endpoints.
    - [Stager]: [stager/stager.go].
    - [Sha256], [Filepath]: digests and paths of the standard library.
    - [Registry]: [registry/registry.go], [blobondemand/blonde.go],
      [cmd/opi/cmd/registry.go].
    - [Droplets]: the converter and the registry together.
    - [Unzip], [Recipe]: [recipe/] and [recipe/cmd/recipe.go].
    - [Environ]: the variables that a container finds, for the list in its
      template: a class with the documented laws of Kubernetes.
    - [Staging]: a staging from end to end.
    - [Launch]: [launcher/launchcmd/launch.go].
    - [Cmd]: [cmd/opi/cmd/connect.go] and [simulator.go]: what is served.
    - [Startup]: [cmd/opi/main.go], [root.go], and how [connect], [registry] and
      [simulator] come to serve, as programs that may exit.
    - [Doubles], [Fakes]: the generated test doubles ([opi/opifakes],
      [k8s/k8sfakes], [eirinifakes], [route/routefakes], [bifrost/bifrostfakes],
      [recipe/recipefakes]): their fields and methods over the signature of an
      interface, and the 18 signatures.  [Tested]: components on doubles.
    - [Fixtures]: concrete instances for the witnesses.

    ** What the theorems show

    - The scheduler.  [Desirer.scheduler_refinement]: on a healthy API server
      any allowed sequence of Desire, Update and Stop answers, and leaves the
      cluster, as a map from applications to instances and routes says.
      [Cmd.http_refinement] lifts this to HTTP: requests that run images or
      droplets, update, find, stop and list applications or count their
      instances, and their answers.
      Whatever fails, a command returns and touches no other application
      ([commands_isolated]); [desire_spec], [update_spec_], [stop_removes_all]
      say what each did on every branch.  Two flaws are proved:
      [stop_without_ingress], [desire_again_does_nothing].
    - Interleavings.  [interleaved_isolated]: whatever calls of others fall
      between the calls of an operation, it returns and takes nothing from
      another application, but for the deletion of the ingress.
      [stop_drops_routes], [desire_loses_routes], [stale_listing] are runs of
      healthy requests that lose routes or keep dead ones.
    - From the ingress to the pods.  [Wiring.rules_reach_pods]: whatever fails,
      a rule of an application leads to a service that selects, of the pods of
      StatefulSets, its own, at a port on which they listen; and, which is a
      flaw, the pods of the jobs that stage it, which listen on none.
    - The objects.  [Objects.lrp_stored]: bounds and truncation of what is
      stored, and the part of it that is read back; [Objects.rules_equivalent]: the maps of
      pointers and the cutting loop against plain list operations.
    - Routes.  [batches_delivered]: order, delivery and termination of the
      senders and the emitter; [Announce.routes_announced], [routes_withdrawn]: in
      every fair run the routes of a service are published again and again, and
      those of a service that has gone are not after some moment;
      [routes_listed]; and the lemma [published_message_reads_back].
    - Staging.  [env_reaches_recipe], [report_reaches_cc]: the environment (for values in
      which Kubernetes expands nothing) and the callback from one program to
      the other; the parts in [stage_desires_task],
      [staging_completed], [staging_job_desired], [recipe_reports],
      [install_unpacks], [extract_unpacks], [extract_contained],
      [modify_replaces_keys].
    - The registry.  [registry_addressed]: in every state that requests reach,
      one after the other or with alternating operations, blobs are addressed by
      their digests; [droplet_image_pulls]: the image that the
      converter names can be pulled from the registry it staged the droplet to,
      once; and the lemmas [layer_below_home], [unknown_panics],
      [droplet_is_stored], [manifest_describes_image], [blob_served].
    - Requests.  [convert_spec], [update_applies],
      [requests_routed], [process_guid_found_by_stop_only], [instance_started]
      (for start commands in which Kubernetes expands nothing); and the lemmas [bad_update_panics], [desire_answers],
      [getapp_reports_zero], [getinstances_lists_ready].
    - The start.  [Startup.connect_starts]: the clients are made in one order,
      the first failure exits with status 1, and only with all of them made is
      the handler of [Cmd] served; the lemmas [reg_starts], [simulator_starts].
    - The tests.  [Doubles.fake_answers]: a double answers as the history of its
      uses says.  [Tested.backend_calls_managers] is [k8s/desire_test.go] for all
      answers of the managers, [Tested.bifrost_calls_scheduler] is
      [bifrost/bifrost_test.go] for all answers of the converter and the
      scheduler.

    ** Not modelled

    - Logging and printing.  Cobra, the yaml package and the constructors of the
      NATS, Kubernetes and HTTP clients are parameters.
    - What the Go runtime does when two goroutines write a map at once: the maps
      of the registry are shared between requests without a lock.  Their
      operations are taken as atomic here; interleaving is modelled between
      them, between the calls of the API server and between the sends on the
      work channel, whose blocked senders are served in the order they came.
    - What the vendored router answers itself (not found, redirects), the bytes
      that [jsonpb] writes, gzip, tar and zip, URL parsing: parameters.
    - The kubelet, which starts containers: of the variables that it gives them
      only what [Environ] states, and nothing of references and escapes in them.
    - Most of what the API server fills in: the laws leave open what a field
      becomes that was not set.
    - The text of a [*http.Response] under [%v]: a parameter of [HttpClient].
    - Stubs of doubles that keep a state, and doubles under concurrent calls.
    - The tests themselves, the scripts and the vendored packages. *)

From stdpp Require Import base gmap strings list fin_maps sorting.
From Stdlib Require Import ZArith Lia.

(** ** Go values *)

(** The [error] values the code makes, wraps and passes on.  The texts that
    come from the code itself are kept; the texts of [encoding/json] are not
    modelled, only that the call failed and why. *)
Inductive error :=
  | ErrorString (s : string)              (* errors.New, fmt.Errorf *)
  | WrapError (msg : string) (e : error)  (* errors.Wrap of github.com/pkg/errors *)
  | JsonSyntaxError                       (* *json.SyntaxError *)
  | JsonTypeError                         (* *json.UnmarshalTypeError *)
  | NotFoundError (what : string)         (* a Kubernetes StatusError, reason NotFound *)
  | AlreadyExistsError (what : string)    (* a Kubernetes StatusError, reason AlreadyExists *)
  | ExternalError (s : string).           (* any other error of an external service *)

#[global] Instance error_eq_dec : EqDecision error.
Proof. solve_decision. Defined.

(** A Go function with results [(T, error)]: the callers in this repository
    use the first result only when the error is [nil]. *)
Inductive result (A : Type) :=
  | Ok (a : A)
  | Err (e : error).
Arguments Ok {_} _.
Arguments Err {_} _.

#[global] Instance result_ret : MRet result := λ A a, Ok a.
#[global] Instance result_bind : MBind result := λ A B f r,
  match r with Ok a => f a | Err e => Err e end.
#[global] Instance result_fmap : FMap result := λ A B f r,
  match r with Ok a => Ok (f a) | Err e => Err e end.

Definition is_ok {A} (r : result A) : bool :=
  match r with Ok _ => true | Err _ => false end.

(** How a call ends: it returns, it panics, or it blocks for ever. *)
Inductive outcome (A : Type) :=
  | Ret (a : A)
  | Panic (why : string)
  | Hang.
Arguments Ret {_} _.
Arguments Panic {_} _.
Arguments Hang {_}.

Definition panics {A} (o : outcome A) : bool :=
  match o with Panic _ => true | _ => false end.

(** Effectful code: a state is threaded through, also past a panic. *)
Definition M (S A : Type) : Type := S → outcome A * S.

#[global] Instance M_ret S : MRet (M S) := λ A a s, (Ret a, s).
#[global] Instance M_bind S : MBind (M S) := λ A B k c s,
  match c s with
  | (Ret a, s') => k a s'
  | (Panic why, s') => (Panic why, s')
  | (Hang, s') => (Hang, s')
  end.

Definition throw_panic {S A} (why : string) : M S A := λ s, (Panic why, s).
Definition hang {S A} : M S A := λ s, (Hang, s).

(** [v, err := c; if err != nil { return err }; k v]. *)
Definition try_bind {S A B} (c : M S (result A)) (k : A → M S (result B)) : M S (result B) :=
  r ← c; match r with Ok a => k a | Err e => mret (Err e) end.

(** The same for a pure fallible call. *)
Definition try_pure {S A B} (r : result A) (k : A → M S (result B)) : M S (result B) :=
  match r with Ok a => k a | Err e => mret (Err e) end.

(** A pure computation that may panic, inside effectful code. *)
Definition lift_outcome {S A} (o : outcome A) : M S A := λ s, (o, s).

Declare Scope go_scope.
Delimit Scope go_scope with go.
Open Scope go_scope.
Notation "x <-! c ; k" := (try_bind c (λ x, k))
  (at level 20, c at level 100, k at level 200, right associativity) : go_scope.
Notation "x <-? c ; k" := (try_pure c (λ x, k))
  (at level 20, c at level 100, k at level 200, right associativity) : go_scope.

(** A chain that ended without error did so in every link. *)
Lemma try_bind_ok {S A B} (c : M S (result A)) (k : A → M S (result B)) s b s2 :
  try_bind c k s = (Ret (Ok b), s2) →
  ∃ a s1, c s = (Ret (Ok a), s1) ∧ k a s1 = (Ret (Ok b), s2).
Proof.
  unfold try_bind, mbind, M_bind. destruct (c s) as [[[a|e]|why|] s1]; [|done..]. eauto.
Qed.

(** ** Maps and slices *)

(** A Go map that may be [nil]: reading a [nil] map gives the zero value,
    writing to it panics. *)
Abbreviation gomap V := (option (gmap string V)).

Definition gomap_get (m : gomap string) (k : string) : string :=
  default "" (m ≫= lookup k).

Definition gomap_set (m : gomap string) (k v : string) : outcome (gomap string) :=
  match m with
  | Some m => Ret (Some (<[k:=v]> m))
  | None => Panic "assignment to entry in nil map"
  end.

(** A Go slice that may be [nil]. *)
Abbreviation slice A := (option (list A)).

Definition elems {A} (s : slice A) : list A := default [] s.

(** [range] over a map visits the entries in an unspecified order; the order
    is a parameter, of which only the Go specification's promise is known. *)
Class MapRange := {
  range_order : ∀ {A : Type}, list A → list A;
  range_order_perm : ∀ {A : Type} (l : list A), range_order l ≡ₚ l
}.

(** Two concrete orders, for the witnesses. *)
Definition range_in_order : MapRange :=
  {| range_order := λ A l, l; range_order_perm := λ A l, reflexivity l |}.
Definition range_reversed : MapRange :=
  {| range_order := λ A l, reverse l; range_order_perm := λ A l, reverse_Permutation l |}.

(** ** Machine integers *)

(** The conversion [int32(x)]: truncation to 32 bits, two's complement. *)
Definition to_int32 (x : Z) : Z := ((x + 2 ^ 31) mod 2 ^ 32 - 2 ^ 31)%Z.

Definition is_int32 (x : Z) : Prop := (- 2 ^ 31 ≤ x < 2 ^ 31)%Z.

Lemma to_int32_range x : is_int32 (to_int32 x).
Proof.
  unfold is_int32, to_int32.
  pose proof (Z.mod_pos_bound (x + 2 ^ 31) (2 ^ 32)). lia.
Qed.

Lemma to_int32_id x : is_int32 x → to_int32 x = x.
Proof. unfold is_int32, to_int32. intros. rewrite Z.mod_small; lia. Qed.

Lemma to_int32_congr x : ∃ k, (x = to_int32 x + k * 2 ^ 32)%Z.
Proof.
  exists ((x + 2 ^ 31) / 2 ^ 32)%Z. unfold to_int32.
  pose proof (Z.div_mod (x + 2 ^ 31) (2 ^ 32)). lia.
Qed.

(** ** Reasoning about effectful code through a view of the state

    A component is verified against what it can observe of the state it runs
    on.  [good] is the representation invariant of the state. *)
Class Observed (S V : Type) := {
  view : S → V;
  good : S → Prop
}.

Section Wp.
Context {S V : Type} `{!Observed S V}.

(** [wp c Q v]: from every good state seen as [v], [c] ends in a good state
    and [Q] holds of how it ends and of what is then seen. *)
Definition wp {A} (c : M S A) (Q : outcome A → V → Prop) (v : V) : Prop :=
  ∀ s, good s → view s = v → good (c s).2 ∧ Q (c s).1 (view (c s).2).

Lemma wp_ret {A} (a : A) (Q : outcome A → V → Prop) v :
  Q (Ret a) v → wp (mret a) Q v.
Proof. intros HQ s Hs <-. by split. Qed.

Lemma wp_panic {A} why (Q : outcome A → V → Prop) v :
  Q (Panic why) v → wp (throw_panic why) Q v.
Proof. intros HQ s Hs <-. by split. Qed.

Lemma wp_hang {A} (Q : outcome A → V → Prop) v : Q Hang v → wp hang Q v.
Proof. intros HQ s Hs <-. by split. Qed.

Lemma wp_lift {A} (o : outcome A) (Q : outcome A → V → Prop) v :
  Q o v → wp (lift_outcome o) Q v.
Proof. intros HQ s Hs <-. by split. Qed.

(** A computation that leaves the state alone. *)
Lemma wp_still {A} (c : M S A) (o : outcome A) (Q : outcome A → V → Prop) v :
  (∀ s, c s = (o, s)) → Q o v → wp c Q v.
Proof. intros Hc HQ s Hs <-. rewrite Hc. by split. Qed.

Lemma wp_mono {A} (c : M S A) (Q Q' : outcome A → V → Prop) v :
  wp c Q v → (∀ o v', Q o v' → Q' o v') → wp c Q' v.
Proof. intros Hc HQ s Hs Hv. destruct (Hc s Hs Hv). eauto. Qed.

(** Computations that do the same. *)
Lemma wp_ext {A} (c c' : M S A) (Q : outcome A → V → Prop) v :
  (∀ s, c s = c' s) → wp c' Q v → wp c Q v.
Proof. intros E Hc s Hs Hv. rewrite E. by apply Hc. Qed.

Lemma wp_bind {A B} (c : M S A) (k : A → M S B) (Q : outcome B → V → Prop) v :
  wp c (λ o v', match o with
                | Ret a => wp (k a) Q v'
                | Panic why => Q (Panic why) v'
                | Hang => Q Hang v'
                end) v →
  wp (c ≫= k) Q v.
Proof.
  intros Hc s Hs Hv. destruct (Hc s Hs Hv) as [Hg HQ].
  unfold mbind, M_bind. destruct (c s) as [[a|why|] s'] eqn:E; simpl in *; eauto.
Qed.

Lemma wp_try {A B} (c : M S (result A)) (k : A → M S (result B)) Q v :
  wp c (λ o v', match o with
                | Ret (Ok a) => wp (k a) Q v'
                | Ret (Err e) => Q (Ret (Err e)) v'
                | Panic why => Q (Panic why) v'
                | Hang => Q Hang v'
                end) v →
  wp (try_bind c k) Q v.
Proof.
  intros Hc. apply wp_bind. eapply wp_mono; [exact Hc|].
  intros [[a|e]|why|] v' H; simpl in *; eauto using wp_ret.
Qed.

Lemma wp_try_pure {A B} (r : result A) (k : A → M S (result B)) Q v :
  match r with Ok a => wp (k a) Q v | Err e => Q (Ret (Err e)) v end →
  wp (try_pure r k) Q v.
Proof. destruct r; simpl; eauto using wp_ret. Qed.

Lemma wp_conj {A} (c : M S A) (Q Q' : outcome A → V → Prop) v :
  wp c Q v → wp c Q' v → wp c (λ o v', Q o v' ∧ Q' o v') v.
Proof. intros H H' s Hs Hv. destruct (H s Hs Hv), (H' s Hs Hv). eauto. Qed.
End Wp.
