(* ===== verification/Json.v ===== *)
(** * The part of [encoding/json] the program uses

    Texts are byte strings.  [Utf8] splits a byte string the way
    [utf8.DecodeRune] does; the printer follows [encodeState.string] (HTML
    escaping on), the reader follows the scanner and [unquote].  A text is read
    into a value of type [json], and the [decode_*] functions store such a
    value into a Go value the way [Unmarshal] does. *)

From S2P Require Import Prelude.
From stdpp Require Import base list strings pretty.
From Stdlib Require Import ZArith NArith Ascii Lia.

(** ** Strings as byte sequences *)

Lemma app_cons c s t : String c s +:+ t = String c (s +:+ t).
Proof. reflexivity. Qed.
Lemma app_empty_l t : "" +:+ t = t.
Proof. reflexivity. Qed.
Lemma app_empty_r s : s +:+ "" = s.
Proof. induction s as [|c s IH]; [done|]. by rewrite app_cons, IH. Qed.
Lemma app_assoc_str s t u : (s +:+ t) +:+ u = s +:+ (t +:+ u).
Proof. induction s as [|c s IH]; [done|]. by rewrite !app_cons, IH. Qed.
Lemma length_app_str s t : String.length (s +:+ t) = (String.length s + String.length t)%nat.
Proof. induction s as [|c s IH]; [done|]. rewrite app_cons. simpl. by rewrite IH. Qed.

(** [strings.Split] at a separator of one byte. *)
Fixpoint split_on (sep : ascii) (s : string) : list string :=
  match s with
  | EmptyString => [""]
  | String c t =>
      if (c =? sep)%char then "" :: split_on sep t
      else match split_on sep t with
           | w :: ws => String c w :: ws
           | [] => [String c ""]
           end
  end.

Definition lacks (sep : ascii) (s : string) : bool :=
  forallb (λ c, negb (c =? sep)%char) (String.list_ascii_of_string s).

Lemma split_on_nonempty sep s : split_on sep s ≠ [].
Proof. destruct s as [|c s]; simpl; [done|]. destruct (c =? sep)%char; [done|].
  by destruct (split_on sep s). Qed.

Lemma split_on_lacks sep s : lacks sep s = true → split_on sep s = [s].
Proof.
  unfold lacks. induction s as [|c s IH]; simpl; [done|].
  intros [Hc Hs]%andb_true_iff. apply negb_true_iff in Hc. by rewrite Hc, IH.
Qed.

Lemma lacks_app sep s t : lacks sep (s +:+ t) = lacks sep s && lacks sep t.
Proof.
  unfold lacks. induction s as [|c s IH]; [done|]. rewrite app_cons. simpl. by rewrite IH, andb_assoc.
Qed.

Lemma split_on_app sep s t :
  lacks sep s = true → split_on sep (s +:+ String sep t) = s :: split_on sep t.
Proof.
  unfold lacks. induction s as [|c s IH]; intros Hs.
  - change ("" +:+ String sep t) with (String sep t). cbn [split_on]. by rewrite Ascii.eqb_refl.
  - apply andb_true_iff in Hs as [Hc Hs]. apply negb_true_iff in Hc.
    rewrite app_cons. cbn [split_on]. by rewrite Hc, IH.
Qed.

Create Rewrite HintDb go_str.
#[export] Hint Rewrite app_cons app_empty_l app_empty_r app_assoc_str : go_str.

Definition concat_str (l : list string) : string := foldr String.append "" l.

Lemma concat_str_cons s l : concat_str (s :: l) = s +:+ concat_str l.
Proof. reflexivity. Qed.
Lemma concat_str_app l k : concat_str (l ++ k) = concat_str l +:+ concat_str k.
Proof. induction l as [|s l IH]; simpl; [done|]. by rewrite IH, app_assoc_str. Qed.

(** Byte values. *)
Definition byte_in (lo hi : N) (c : ascii) : bool :=
  (lo <=? N_of_ascii c)%N && (N_of_ascii c <=? hi)%N.

(** ** UTF-8 *)
Module Utf8.

(** A well-formed sequence of one to four bytes, or a byte that starts none
    (read as U+FFFD, width one). *)
Inductive chunk :=
  | Chunk (bytes : string)
  | BadByte.

Inductive lead :=
  | One
  | Two
  | Three (lo hi : N)   (* the range of the second byte *)
  | Four (lo hi : N)
  | Invalid.

Definition classify (c : ascii) : lead :=
  if byte_in 0 0x7F c then One
  else if byte_in 0xC2 0xDF c then Two
  else if byte_in 0xE0 0xE0 c then Three 0xA0 0xBF
  else if byte_in 0xED 0xED c then Three 0x80 0x9F
  else if byte_in 0xE1 0xEF c then Three 0x80 0xBF
  else if byte_in 0xF0 0xF0 c then Four 0x90 0xBF
  else if byte_in 0xF1 0xF3 c then Four 0x80 0xBF
  else if byte_in 0xF4 0xF4 c then Four 0x80 0x8F
  else Invalid.

Definition cont (c : ascii) : bool := byte_in 0x80 0xBF c.

Definition next_chunk (s : string) : option (chunk * string) :=
  match s with
  | EmptyString => None
  | String c0 s0 =>
      match classify c0, s0 with
      | One, _ => Some (Chunk (String c0 ""), s0)
      | Two, String c1 s1 =>
          if cont c1 then Some (Chunk (String c0 (String c1 "")), s1)
          else Some (BadByte, s0)
      | Three lo hi, String c1 (String c2 s2) =>
          if byte_in lo hi c1 && cont c2
          then Some (Chunk (String c0 (String c1 (String c2 ""))), s2)
          else Some (BadByte, s0)
      | Four lo hi, String c1 (String c2 (String c3 s3)) =>
          if byte_in lo hi c1 && cont c2 && cont c3
          then Some (Chunk (String c0 (String c1 (String c2 (String c3 "")))), s3)
          else Some (BadByte, s0)
      | _, _ => Some (BadByte, s0)
      end
  end.

Fixpoint chunks_fuel (fuel : nat) (s : string) : list chunk :=
  match fuel, next_chunk s with
  | S f, Some (c, s') => c :: chunks_fuel f s'
  | _, _ => []
  end.

Definition chunks (s : string) : list chunk := chunks_fuel (String.length s) s.

(** U+FFFD in UTF-8. *)
Definition replacement : string := "�".

Definition chunk_text (c : chunk) : string :=
  match c with Chunk b => b | BadByte => replacement end.

(** The string with every ill-formed byte replaced. *)
Definition sanitize (s : string) : string := concat_str (chunk_text <$> chunks s).

Definition valid (s : string) : Prop := BadByte ∉ chunks s.

(** [utf8.EncodeRune] for a rune that is not a surrogate. *)
Definition bytes_of (l : list N) : string :=
  foldr (λ n, String (ascii_of_N n)) "" l.

Definition encode_rune (r : N) : string :=
  if (r <? 0x80)%N then bytes_of [r]
  else if (r <? 0x800)%N then bytes_of [0xC0 + r / 64; 0x80 + r mod 64]%N
  else if (r <? 0x10000)%N
    then bytes_of [0xE0 + r / 4096; 0x80 + r / 64 mod 64; 0x80 + r mod 64]%N
  else bytes_of [0xF0 + r / 262144; 0x80 + r / 4096 mod 64;
                 0x80 + r / 64 mod 64; 0x80 + r mod 64]%N.

(** *** Facts about the splitting *)

Definition wf_chunk (c : chunk) : Prop :=
  match c with Chunk b => next_chunk b = Some (Chunk b, "") | BadByte => True end.

Lemma next_chunk_spec s c t :
  next_chunk s = Some (c, t) →
  wf_chunk c ∧ (String.length t < String.length s)%nat ∧
  match c with
  | Chunk b => s = b +:+ t
  | BadByte => ∃ c0, s = String c0 t
  end.
Proof.
  destruct s as [|c0 s0]; [done|]. unfold next_chunk. intros H.
  repeat case_match; simplify_eq/=; unfold wf_chunk, next_chunk;
    repeat match goal with
      | H : classify _ = _ |- _ => rewrite H; clear H
      | H : cont _ = true |- _ => rewrite H
      | H : _ && _ = true |- _ => rewrite H
      end; (split; [done|]); split; eauto with lia.
Qed.

Lemma next_chunk_app b t :
  next_chunk b = Some (Chunk b, "") → next_chunk (b +:+ t) = Some (Chunk b, t).
Proof.
  destruct b as [|c0 [|c1 [|c2 [|c3 b]]]]; [done|..];
    autorewrite with go_str; unfold next_chunk; intros H;
    repeat case_match; simplify_eq/=; try done.
Qed.

Lemma next_chunk_cons c s : is_Some (next_chunk (String c s)).
Proof.
  simpl. destruct (classify c), s as [|c1 [|c2 [|c3 s]]]; simpl;
    repeat case_match; eauto.
Qed.

Lemma chunks_fuel_wf fuel s : Forall wf_chunk (chunks_fuel fuel s).
Proof.
  revert s. induction fuel as [|f IH]; intros s; simpl; [constructor|].
  destruct (next_chunk s) as [[c t]|] eqn:E; constructor; [|apply IH].
  by apply next_chunk_spec in E as [? _].
Qed.

Lemma chunks_wf s : Forall wf_chunk (chunks s).
Proof. apply chunks_fuel_wf. Qed.

(** Replacing nothing gives the string back. *)
Lemma sanitize_fuel fuel s :
  (String.length s ≤ fuel)%nat → BadByte ∉ chunks_fuel fuel s →
  concat_str (chunk_text <$> chunks_fuel fuel s) = s.
Proof.
  revert s. induction fuel as [|f IH]; intros s Hlen Hgood.
  { destruct s; [done|simpl in Hlen; lia]. }
  simpl in *. destruct (next_chunk s) as [[c t]|] eqn:E; simpl.
  - apply next_chunk_spec in E as (Hwf & Hlt & Hs). destruct c as [b|].
    + rewrite IH; [simpl; by rewrite Hs|lia|]. intros Hin. apply Hgood. by right.
    + exfalso. apply Hgood. by left.
  - destruct s as [|c s]; [done|]. destruct (next_chunk_cons c s). congruence.
Qed.

Lemma sanitize_valid s : valid s → sanitize s = s.
Proof. by apply sanitize_fuel. Qed.

(** ASCII text is valid. *)
Definition is_ascii (s : string) : Prop :=
  Forall (λ c, byte_in 0 0x7F c = true) (String.list_ascii_of_string s).

Lemma ascii_valid s : is_ascii s → valid s.
Proof.
  unfold is_ascii, valid, chunks.
  induction s as [|c s IH]; simpl; intros H; [by apply not_elem_of_nil|].
  apply Forall_cons in H as [Hc Hs]. unfold classify. rewrite Hc.
  apply not_elem_of_cons. split; [done|by apply IH].
Qed.
End Utf8.

(** ** JSON values, the reader and the printer *)

Definition dquote : ascii := "034"%char.
Definition backslash : ascii := "092"%char.

(** A JSON value; a number keeps its literal. *)
#[warnings="-register-all"]
Inductive json :=
  | JNull
  | JBool (b : bool)
  | JNum (lit : string)
  | JStr (s : string)
  | JArr (l : list json)
  | JObj (l : list (string * json)).

Module Reader.
Import Utf8.

Definition hex_digit (c : ascii) : option N :=
  let n := N_of_ascii c in
  if byte_in 48 57 c then Some (n - 48)%N
  else if byte_in 97 102 c then Some (n - 87)%N
  else if byte_in 65 70 c then Some (n - 55)%N
  else None.

(** [getu4] without the backslash and the [u]. *)
Definition hex4 (s : string) : option (N * string) :=
  match s with
  | String a (String b (String c (String d t))) =>
      a ← hex_digit a; b ← hex_digit b; c ← hex_digit c; d ← hex_digit d;
      Some (4096 * a + 256 * b + 16 * c + d, t)%N
  | _ => None
  end.

(** A pair of surrogates, or U+FFFD for a lone one. *)
Definition rune_after (r : N) (t : string) : string * string :=
  if (0xD800 <=? r)%N && (r <? 0xE000)%N then
    match t with
    | String b (String u t') =>
        if (b =? backslash)%char && (u =? "u")%char then
          match hex4 t' with
          | Some (r1, t'') =>
              if (r <? 0xDC00)%N && (0xDC00 <=? r1)%N && (r1 <? 0xE000)%N
              then (encode_rune (0x10000 + (r - 0xD800) * 1024 + (r1 - 0xDC00)), t'')
              else (replacement, t)
          | None => (replacement, t)
          end
        else (replacement, t)
    | _ => (replacement, t)
    end
  else (encode_rune r, t).

(** What follows a backslash. *)
Definition unescape (s : string) : option (string * string) :=
  match s with
  | String e t =>
      if (e =? dquote)%char || (e =? backslash)%char || (e =? "/")%char
      then Some (String e "", t)
      else if (e =? "b")%char then Some (bytes_of [8%N], t)
      else if (e =? "f")%char then Some (bytes_of [12%N], t)
      else if (e =? "n")%char then Some (bytes_of [10%N], t)
      else if (e =? "r")%char then Some (bytes_of [13%N], t)
      else if (e =? "t")%char then Some (bytes_of [9%N], t)
      else if (e =? "u")%char then
        '(r, t') ← hex4 t; Some (rune_after r t')
      else None
  | EmptyString => None
  end.

Definition prepend (b : string) (r : option (string * string)) : option (string * string) :=
  '(s, t) ← r; Some (b +:+ s, t).

(** The rest of a string literal, after the opening quote. *)
Fixpoint parse_str (fuel : nat) (s : string) : option (string * string) :=
  match fuel, next_chunk s with
  | S f, Some (Chunk (String c EmptyString), s') =>
      if (c =? dquote)%char then Some ("", s')
      else if (c =? backslash)%char then
        '(b, s'') ← unescape s'; prepend b (parse_str f s'')
      else if byte_in 0 0x1F c then None
      else prepend (String c "") (parse_str f s')
  | S f, Some (ch, s') => prepend (chunk_text ch) (parse_str f s')
  | _, _ => None
  end.

(** *** Numbers: the states of the scanner *)
Inductive num_state := NNeg | N1 | N0 | NDot | NDot0 | NE | NESign | NE0.

Definition digit (c : ascii) : bool := byte_in 48 57 c.

Definition num_frac (c : ascii) : option num_state :=
  if (c =? ".")%char then Some NDot
  else if (c =? "e")%char || (c =? "E")%char then Some NE
  else None.

Definition num_step (st : num_state) (c : ascii) : option num_state :=
  match st with
  | NNeg => if (c =? "0")%char then Some N0 else if digit c then Some N1 else None
  | N1 => if digit c then Some N1 else num_frac c
  | N0 => num_frac c
  | NDot => if digit c then Some NDot0 else None
  | NDot0 => if digit c then Some NDot0
             else if (c =? "e")%char || (c =? "E")%char then Some NE else None
  | NE => if (c =? "+")%char || (c =? "-")%char then Some NESign
          else if digit c then Some NE0 else None
  | NESign => if digit c then Some NE0 else None
  | NE0 => if digit c then Some NE0 else None
  end.

Definition num_accepts (st : num_state) : bool :=
  match st with N1 | N0 | NDot0 | NE0 => true | _ => false end.

Definition num_start (c : ascii) : option num_state :=
  if (c =? "-")%char then Some NNeg else num_step NNeg c.

Fixpoint lex_num (st : num_state) (s : string) : option (string * string) :=
  match s with
  | String c t =>
      match num_step st c with
      | Some st' => prepend (String c "") (lex_num st' t)
      | None => if num_accepts st then Some ("", s) else None
      end
  | EmptyString => if num_accepts st then Some ("", "") else None
  end.

(** *** Values *)
Definition is_space (c : ascii) : bool :=
  (c =? " ")%char || byte_in 9 10 c || byte_in 13 13 c.

Fixpoint skip_ws (s : string) : string :=
  match s with
  | String c t => if is_space c then skip_ws t else s
  | EmptyString => ""
  end.

(** The text after [w], if the text starts with [w]. *)
Fixpoint strip (w s : string) : option string :=
  match w, s with
  | EmptyString, _ => Some s
  | String a w', String b s' => if (a =? b)%char then strip w' s' else None
  | _, _ => None
  end.

Definition keyword (w : string) (v : json) (s : string) : option (json * string) :=
  t ← strip w s; Some (v, t).

(** [parse_value] reads a value after optional white space; [parse_elems]
    the elements of an array after the first comma or the bracket, up to
    the closing bracket; [parse_members] the members of an object. *)
Fixpoint parse_value (fuel : nat) (s : string) : option (json * string) :=
  match fuel with
  | O => None
  | S f =>
      match skip_ws s with
      | EmptyString => None
      | String c t =>
          if (c =? "n")%char then keyword "ull" JNull t
          else if (c =? "t")%char then keyword "rue" (JBool true) t
          else if (c =? "f")%char then keyword "alse" (JBool false) t
          else if (c =? dquote)%char then
            '(x, t') ← parse_str f t; Some (JStr x, t')
          else if (c =? "[")%char then
            match skip_ws t with
            | String d t' => if (d =? "]")%char then Some (JArr [], t')
                             else '(l, t'') ← parse_elems f t; Some (JArr l, t'')
            | EmptyString => None
            end
          else if (c =? "{")%char then
            match skip_ws t with
            | String d t' => if (d =? "}")%char then Some (JObj [], t')
                             else '(l, t'') ← parse_members f t; Some (JObj l, t'')
            | EmptyString => None
            end
          else
            st ← num_start c; '(n, t') ← lex_num st t; Some (JNum (String c n), t')
      end
  end
with parse_elems (fuel : nat) (s : string) : option (list json * string) :=
  match fuel with
  | O => None
  | S f =>
      '(v, t) ← parse_value f s;
      match skip_ws t with
      | String d t' =>
          if (d =? ",")%char then '(l, t'') ← parse_elems f t'; Some (v :: l, t'')
          else if (d =? "]")%char then Some ([v], t')
          else None
      | EmptyString => None
      end
  end
with parse_members (fuel : nat) (s : string) : option (list (string * json) * string) :=
  match fuel with
  | O => None
  | S f =>
      match skip_ws s with
      | String q t =>
          if (q =? dquote)%char then
            '(k, t) ← parse_str f t;
            t ← strip ":" (skip_ws t);
            '(v, t) ← parse_value f t;
            match skip_ws t with
            | String d t' =>
                if (d =? ",")%char
                then '(l, t'') ← parse_members f t'; Some ((k, v) :: l, t'')
                else if (d =? "}")%char then Some ([(k, v)], t')
                else None
            | EmptyString => None
            end
          else None
      | EmptyString => None
      end
  end.

(** Every call consumes a byte or hands on to one that does; [Reading.v]
    proves that this much fuel is enough. *)
Definition fuel_for (s : string) : nat := 2 * String.length s + 2.

(** [json.Unmarshal]: the whole text is one value. *)
Definition parse (s : string) : result json :=
  match parse_value (fuel_for s) s with
  | Some (v, t) => match skip_ws t with "" => Ok v | _ => Err JsonSyntaxError end
  | None => Err JsonSyntaxError
  end.

(** [json.NewDecoder(r).Decode]: the first value of the stream. *)
Definition parse_first (s : string) : result json :=
  match parse_value (fuel_for s) s with
  | Some (v, _) => Ok v
  | None => Err JsonSyntaxError
  end.
End Reader.

Module Printer.
Import Utf8.

Definition hex_char (n : N) : ascii :=
  ascii_of_N (if (n <? 10)%N then 48 + n else 87 + n)%N.

(** [\u00XX]. *)
Definition u00 (c : ascii) : string :=
  String backslash ("u00" +:+
    String (hex_char (N_of_ascii c / 16)) (String (hex_char (N_of_ascii c mod 16)) "")).

(** The bytes [encodeState.string] copies ([htmlSafeSet]). *)
Definition html_safe (c : ascii) : bool :=
  negb (byte_in 0 0x1F c || (c =? dquote)%char || (c =? backslash)%char
        || (c =? "<")%char || (c =? ">")%char || (c =? "&")%char).

Definition escape_byte (c : ascii) : string :=
  if html_safe c then String c ""
  else if (c =? dquote)%char || (c =? backslash)%char then String backslash (String c "")
  else if byte_in 10 10 c then String backslash "n"
  else if byte_in 13 13 c then String backslash "r"
  else if byte_in 9 9 c then String backslash "t"
  else u00 c.

Definition escape (ch : chunk) : string :=
  match ch with
  | BadByte => String backslash "ufffd"
  | Chunk (String c EmptyString) => escape_byte c
  | Chunk b =>
      if String.eqb b (bytes_of [0xE2; 0x80; 0xA8]%N) then String backslash "u2028"
      else if String.eqb b (bytes_of [0xE2; 0x80; 0xA9]%N) then String backslash "u2029"
      else b
  end.

Definition quote (s : string) : string :=
  String dquote (concat_str (escape <$> chunks s) +:+ String dquote "").

Fixpoint print (j : json) : string :=
  match j with
  | JNull => "null"
  | JBool true => "true"
  | JBool false => "false"
  | JNum lit => lit
  | JStr s => quote s
  | JArr l =>
      "[" +:+ (fix go (l : list json) : string :=
                 match l with
                 | [] => "]"
                 | [v] => print v +:+ "]"
                 | v :: l => print v +:+ "," +:+ go l
                 end) l
  | JObj l =>
      "{" +:+ (fix go (l : list (string * json)) : string :=
                 match l with
                 | [] => "}"
                 | [(k, v)] => quote k +:+ ":" +:+ print v +:+ "}"
                 | (k, v) :: l => quote k +:+ ":" +:+ print v +:+ "," +:+ go l
                 end) l
  end.
End Printer.

(** ** What is printed is read back *)
Section RoundTrip.
Import Utf8 Reader Printer.

Lemma escape_byte_read c : classify c = One →
  ∀ f t, parse_str (S f) (escape_byte c +:+ t) = prepend (String c "") (parse_str f t).
Proof. destruct c as [[] [] [] [] [] [] [] []]; intros H; try discriminate H; reflexivity. Qed.

Lemma parse_str_wide b f t :
  next_chunk b = Some (Chunk b, "") → (1 < String.length b)%nat →
  parse_str (S f) (b +:+ t) = prepend b (parse_str f t).
Proof.
  intros Hb Hlen. cbn [parse_str]. rewrite (next_chunk_app b t Hb).
  by destruct b as [|c0 [|c1 b]]; [simpl in Hlen; lia..|].
Qed.

Lemma escape_read ch : wf_chunk ch →
  ∀ f t, parse_str (S f) (escape ch +:+ t) = prepend (chunk_text ch) (parse_str f t).
Proof.
  destruct ch as [b|]; intros Hwf f t; [|reflexivity].
  destruct b as [|c0 [|c1 b]]; [done| |].
  - apply escape_byte_read. simpl in Hwf. unfold next_chunk in Hwf.
    destruct (classify c0); by simplify_eq.
  - cbn [escape chunk_text]. destruct (String.eqb_spec (String c0 (String c1 b))
      (bytes_of [0xE2; 0x80; 0xA8]%N)) as [->|_]; [reflexivity|].
    destruct (String.eqb_spec (String c0 (String c1 b))
      (bytes_of [0xE2; 0x80; 0xA9]%N)) as [->|_]; [reflexivity|].
    apply parse_str_wide; [done|simpl; lia].
Qed.

Lemma escape_nonempty ch : wf_chunk ch → (0 < String.length (escape ch))%nat.
Proof.
  destruct ch as [[|c0 [|c1 b]]|]; intros Hwf; simpl; try lia; [done| |].
  - unfold escape_byte. repeat case_match; simpl; lia.
  - repeat case_match; simpl; lia.
Qed.

Lemma escapes_length chs : Forall wf_chunk chs →
  (length chs ≤ String.length (concat_str (escape <$> chs)))%nat.
Proof.
  induction 1 as [|ch chs Hch _ IH]; [done|].
  rewrite fmap_cons, concat_str_cons, length_app_str. cbn [length].
  apply escape_nonempty in Hch. lia.
Qed.

Lemma parse_str_chunks chs : Forall wf_chunk chs → ∀ f t, (length chs < f)%nat →
  parse_str f (concat_str (escape <$> chs) +:+ String dquote t)
  = Some (concat_str (chunk_text <$> chs), t).
Proof.
  induction 1 as [|ch chs Hch _ IH]; intros [|f] t Hf; simpl in Hf; try lia; [done|].
  rewrite !fmap_cons, !concat_str_cons, app_assoc_str, escape_read by done.
  by rewrite IH by lia.
Qed.

(** Reading back a printed string literal. *)
Lemma parse_str_quote s f t :
  (String.length (quote s) ≤ f + 1)%nat →
  parse_str f (concat_str (escape <$> chunks s) +:+ String dquote t) = Some (sanitize s, t).
Proof.
  intros Hf. apply parse_str_chunks; [apply chunks_wf|].
  pose proof (escapes_length _ (chunks_wf s)). unfold quote in Hf.
  cbn [String.length] in Hf. rewrite length_app_str in Hf. cbn [String.length] in Hf. lia.
Qed.

(** *** Numbers *)
Definition number_ok (lit : string) : bool :=
  match lit with
  | String c n =>
      match num_start c ≫= λ st, lex_num st n with Some (_, EmptyString) => true | _ => false end
  | EmptyString => false
  end.

(** What follows a value in a printed text. *)
Definition ends_value (t : string) : bool :=
  match t with
  | EmptyString => true
  | String c _ => (c =? ",")%char || (c =? "]")%char || (c =? "}")%char || (c =? "010")%char
  end.

Lemma lex_num_app st n m t :
  lex_num st n = Some (m, "") → ends_value t = true → lex_num st (n +:+ t) = Some (n, t).
Proof.
  revert st m. induction n as [|c n IH]; intros st m Hn Ht; simpl in Hn.
  - rewrite app_empty_l. destruct t as [|d t]; simpl in *; [by case_match|].
    assert (num_step st d = None) as ->.
    { apply orb_true_iff in Ht as [[[H|H]%orb_true_iff|H]%orb_true_iff|H];
        apply Ascii.eqb_eq in H as ->; by destruct st. }
    by case_match.
  - rewrite app_cons. simpl. destruct (num_step st c) as [st'|].
    + destruct (lex_num st' n) as [[n' u]|] eqn:E; [|done].
      unfold prepend in *. simplify_eq/=. by rewrite (IH _ _ E Ht).
    + by case_match.
Qed.

Lemma num_start_char c st : num_start c = Some st →
  is_space c = false ∧ (c =? "n")%char = false ∧ (c =? "t")%char = false ∧
  (c =? "f")%char = false ∧ (c =? dquote)%char = false ∧ (c =? "[")%char = false ∧
  (c =? "{")%char = false.
Proof.
  destruct c as [[] [] [] [] [] [] [] []]; intros H; try discriminate H; by repeat split.
Qed.

(** *** Values *)
Fixpoint json_ind' (P : json → Prop) (Hnull : P JNull) (Hbool : ∀ b, P (JBool b))
    (Hnum : ∀ n, P (JNum n)) (Hstr : ∀ s, P (JStr s))
    (Harr : ∀ l, Forall P l → P (JArr l))
    (Hobj : ∀ l, Forall (λ kv, P kv.2) l → P (JObj l)) (j : json) : P j :=
  let rec := json_ind' P Hnull Hbool Hnum Hstr Harr Hobj in
  match j with
  | JNull => Hnull
  | JBool b => Hbool b
  | JNum n => Hnum n
  | JStr s => Hstr s
  | JArr l => Harr l ((fix go l := match l return Forall P l with
      | [] => Forall_nil_2 P
      | v :: l => Forall_cons_2 P v l (rec v) (go l)
      end) l)
  | JObj l => Hobj l ((fix go l := match l return Forall (λ kv, P kv.2) l with
      | [] => Forall_nil_2 _
      | kv :: l => Forall_cons_2 _ kv l (rec kv.2) (go l)
      end) l)
  end.

(** The value with every string made well-formed. *)
Fixpoint clean (j : json) : json :=
  match j with
  | JStr s => JStr (sanitize s)
  | JArr l => JArr (clean <$> l)
  | JObj l => JObj ((λ kv, (sanitize kv.1, clean kv.2)) <$> l)
  | _ => j
  end.

Fixpoint numbers_ok (j : json) : bool :=
  match j with
  | JNum lit => number_ok lit
  | JArr l => forallb numbers_ok l
  | JObj l => forallb (λ kv, numbers_ok kv.2) l
  | _ => true
  end.

Fixpoint print_elems (l : list json) : string :=
  match l with
  | [] => "]"
  | [v] => print v +:+ "]"
  | v :: l => print v +:+ "," +:+ print_elems l
  end.

Fixpoint print_members (l : list (string * json)) : string :=
  match l with
  | [] => "}"
  | [(k, v)] => quote k +:+ ":" +:+ print v +:+ "}"
  | (k, v) :: l => quote k +:+ ":" +:+ print v +:+ "," +:+ print_members l
  end.

Lemma print_arr l : print (JArr l) = "[" +:+ print_elems l.
Proof. reflexivity. Qed.
Lemma print_obj l : print (JObj l) = "{" +:+ print_members l.
Proof. reflexivity. Qed.

Definition reads_back (j : json) : Prop :=
  numbers_ok j = true → ∀ f t, (2 * String.length (print j) ≤ f)%nat →
  ends_value t = true → parse_value f (print j +:+ t) = Some (clean j, t).

Lemma quote_app s t :
  quote s +:+ t = String dquote (concat_str (escape <$> chunks s) +:+ String dquote t).
Proof. unfold quote. by autorewrite with go_str. Qed.

Lemma quote_length s : (2 ≤ String.length (quote s))%nat.
Proof. unfold quote. cbn [String.length]. rewrite length_app_str. simpl. lia. Qed.

Lemma print_elems_one v : print_elems [v] = print v +:+ "]".
Proof. reflexivity. Qed.
Lemma print_elems_cons v w l :
  print_elems (v :: w :: l) = print v +:+ "," +:+ print_elems (w :: l).
Proof. reflexivity. Qed.
Lemma print_members_one k v : print_members [(k, v)] = quote k +:+ ":" +:+ print v +:+ "}".
Proof. reflexivity. Qed.
Lemma print_members_cons k v kw l :
  print_members ((k, v) :: kw :: l)
  = quote k +:+ ":" +:+ print v +:+ "," +:+ print_members (kw :: l).
Proof. reflexivity. Qed.

Lemma skip_ws_id c t : is_space c = false → skip_ws (String c t) = String c t.
Proof. simpl. by intros ->. Qed.

(** The elements of an array, up to the closing bracket. *)
Lemma parse_elems_read l : l ≠ [] → Forall reads_back l →
  forallb numbers_ok l = true → ∀ f t,
  (2 * String.length (print_elems l) + 1 ≤ f)%nat →
  parse_elems f (print_elems l +:+ t) = Some (clean <$> l, t).
Proof.
  intros Hne Hl. destruct Hl as [|v l Hv Hl]; [done|]. clear Hne.
  revert v Hv. induction Hl as [|w l Hw Hl IH]; intros v Hv Hok f t Hf;
    apply andb_true_iff in Hok as [Hokv Hok];
    (destruct f as [|f]; [lia|]); cbn [parse_elems].
  - rewrite print_elems_one, length_app_str in *.
    rewrite app_assoc_str, app_cons, app_empty_l.
    rewrite (Hv Hokv f) by (simpl in Hf |- *; lia || done). reflexivity.
  - rewrite print_elems_cons, !length_app_str in *.
    rewrite !app_assoc_str, app_cons, app_empty_l.
    rewrite (Hv Hokv f) by (simpl in Hf |- *; lia || done).
    cbn -[print_elems parse_elems skip_ws]. rewrite skip_ws_id by done.
    cbn -[print_elems parse_elems]. rewrite IH; [done|done|done|].
    cbn -[print_elems] in Hf. lia.
Qed.

Lemma parse_members_read l : l ≠ [] → Forall (λ kv, reads_back kv.2) l →
  forallb (λ kv, numbers_ok kv.2) l = true → ∀ f t,
  (2 * String.length (print_members l) + 1 ≤ f)%nat →
  parse_members f (print_members l +:+ t)
  = Some ((λ kv, (sanitize kv.1, clean kv.2)) <$> l, t).
Proof.
  intros Hne Hl. destruct Hl as [|[k v] l Hv Hl]; [done|]. clear Hne.
  revert k v Hv. induction Hl as [|[k' w] l Hw Hl IH]; intros k v Hv Hok f t Hf;
    apply andb_true_iff in Hok as [Hokv Hok]; cbn [snd] in Hv, Hokv;
    (destruct f as [|f]; [lia|]); pose proof (quote_length k);
    [rewrite print_members_one, !length_app_str in *
    |rewrite print_members_cons, !length_app_str in *];
    rewrite !app_assoc_str, !app_cons, !app_empty_l, quote_app;
    cbn [parse_members]; rewrite skip_ws_id by done; cbn [Ascii.eqb];
    cbn -[print_members parse_members parse_str parse_value quote skip_ws] in Hf |- *;
    rewrite parse_str_quote by lia;
    cbn -[print_members parse_members parse_str parse_value skip_ws];
    rewrite skip_ws_id by done; cbn -[print_members parse_members parse_value skip_ws];
    rewrite (Hv Hokv f) by (simpl; lia || done);
    cbn -[print_members parse_members parse_value skip_ws];
    rewrite skip_ws_id by done;
    cbn -[print_members parse_members parse_value]; [done|].
  rewrite IH; [done|done|done|]. lia.
Qed.

Lemma print_head v : numbers_ok v = true →
  ∃ c u, print v = String c u ∧ is_space c = false ∧ (c =? "]")%char = false.
Proof.
  destruct v as [|[]|[|c n]|s|l|l]; intros Hok;
    try (eexists _, _; split_and!; [reflexivity|done|done]); [done|].
  simpl in Hok. unfold number_ok in Hok.
  destruct (num_start c) as [st|] eqn:E; [|done].
  eexists _, _. split_and!; [done| |].
  - by apply num_start_char in E as (? & _).
  - destruct (Ascii.eqb_spec c "]"%char) as [->|]; done.
Qed.

Lemma print_elems_head v l : numbers_ok v = true →
  ∃ c u, print_elems (v :: l) = String c u ∧ is_space c = false ∧ (c =? "]")%char = false.
Proof.
  intros (c & u & E & ? & ?)%print_head.
  destruct l; [rewrite print_elems_one, E|rewrite print_elems_cons, E];
    rewrite app_cons; eauto.
Qed.

Lemma print_members_head kv l :
  ∃ u, print_members (kv :: l) = String dquote u.
Proof.
  destruct kv as [k v], l; [rewrite print_members_one|rewrite print_members_cons];
    rewrite quote_app; eauto.
Qed.

Lemma parse_value_arr f t : parse_value (S f) (String "["%char t) =
  match skip_ws t with
  | String d t' => if (d =? "]")%char then Some (JArr [], t')
                   else '(l, t'') ← parse_elems f t; Some (JArr l, t'')
  | EmptyString => None
  end.
Proof. reflexivity. Qed.
Lemma parse_value_obj f t : parse_value (S f) (String "{"%char t) =
  match skip_ws t with
  | String d t' => if (d =? "}")%char then Some (JObj [], t')
                   else '(l, t'') ← parse_members f t; Some (JObj l, t'')
  | EmptyString => None
  end.
Proof. reflexivity. Qed.

Lemma arr_reads_back l : Forall reads_back l → reads_back (JArr l).
Proof.
  intros Hl Hok f t Hf Ht. destruct f as [|f]; [simpl in Hf; lia|].
  rewrite print_arr in *. rewrite length_app_str in Hf. simpl in Hf.
  rewrite app_assoc_str, app_cons, app_empty_l.
  rewrite parse_value_arr. destruct l as [|v l]; [done|].
  pose proof Hok as Hv. cbn [numbers_ok forallb] in Hv. apply andb_true_iff in Hv as [Hv _].
  destruct (print_elems_head v l Hv) as (c & u & E & Hsp & Hc).
  rewrite E at 1. rewrite app_cons, skip_ws_id, Hc by done.
  by rewrite parse_elems_read by (done || lia).
Qed.

Lemma obj_reads_back l : Forall (λ kv, reads_back kv.2) l → reads_back (JObj l).
Proof.
  intros Hl Hok f t Hf Ht. destruct f as [|f]; [simpl in Hf; lia|].
  rewrite print_obj in *. rewrite length_app_str in Hf. simpl in Hf.
  rewrite app_assoc_str, app_cons, app_empty_l.
  rewrite parse_value_obj. destruct l as [|kv l]; [done|].
  destruct (print_members_head kv l) as (u & E).
  rewrite E at 1. rewrite app_cons, skip_ws_id by done. cbn [Ascii.eqb Bool.eqb dquote].
  by rewrite parse_members_read by (done || lia).
Qed.

Lemma num_reads_back lit : reads_back (JNum lit).
Proof.
  intros Hok f t Hf Ht. simpl in Hok, Hf. destruct f as [|f].
  { destruct lit; [done|simpl in Hf; lia]. }
  unfold number_ok in Hok. destruct lit as [|c n]; [done|]. simpl print. rewrite app_cons.
  destruct (num_start c) as [st|] eqn:Est; [|done]. simpl in Hok.
  destruct (lex_num st n) as [[m [|]]|] eqn:E; [|done..].
  destruct (num_start_char _ _ Est) as (H0 & H1 & H2 & H3 & H4 & H5 & H6).
  cbn [parse_value skip_ws]. rewrite H0, H1, H2, H3, H4, H5, H6, Est.
  cbn -[lex_num]. by rewrite (lex_num_app _ _ _ _ E Ht).
Qed.

Lemma str_reads_back s : reads_back (JStr s).
Proof.
  intros _ f t Hf _. cbn [print] in Hf. pose proof (quote_length s).
  destruct f as [|f]; [lia|]. simpl print. rewrite quote_app.
  cbn [parse_value]. rewrite skip_ws_id by done.
  cbn -[parse_str]. by rewrite parse_str_quote by lia.
Qed.

(** Every printed value reads back, whatever ends it. *)
Lemma print_reads_back j : reads_back j.
Proof.
  induction j using json_ind'; eauto using arr_reads_back, obj_reads_back,
    num_reads_back, str_reads_back.
  - intros _ [|f] t Hf _; [simpl in Hf; lia|reflexivity].
  - intros _ [|f] t Hf _; destruct b; (simpl in Hf; lia) || reflexivity.
Qed.

Lemma parse_print j : numbers_ok j = true → parse (print j) = Ok (clean j).
Proof.
  intros Hok. unfold parse. rewrite <- (app_empty_r (print j)).
  rewrite print_reads_back; [done|done| |done].
  unfold fuel_for. rewrite app_empty_r. lia.
Qed.
End RoundTrip.

(** The same for a text that ends with a line feed, as an encoder writes it. *)
Lemma parse_print_line j :
  numbers_ok j = true → Reader.parse (Printer.print j +:+ String "010" "") = Ok (clean j).
Proof.
  intros Hok. unfold Reader.parse. rewrite print_reads_back; [done|done| |done].
  unfold Reader.fuel_for. rewrite length_app_str. simpl. lia.
Qed.

(** ** Storing a JSON value into a Go value

    [Unmarshal] goes on after a mismatch and returns the first one; every
    caller in this repository drops the value then, so a decoder returns the
    error alone.  [null] leaves a string, number or struct as it is. *)
Module Decode.
Import Utf8.

Definition decode_string (old : string) (j : json) : result string :=
  match j with
  | JStr s => Ok s
  | JNull => Ok old
  | _ => Err JsonTypeError
  end.

Definition decode_bool (old : bool) (j : json) : result bool :=
  match j with
  | JBool b => Ok b
  | JNull => Ok old
  | _ => Err JsonTypeError
  end.

(** [strconv.ParseInt(lit, 10, 64)] on the literal of a JSON number. *)
Fixpoint parse_digits (acc : Z) (s : string) : option Z :=
  match s with
  | EmptyString => Some acc
  | String c t =>
      if Reader.digit c then parse_digits (10 * acc + Z.of_N (N_of_ascii c) - 48) t
      else None
  end.

Definition parse_int (lit : string) : option Z :=
  match lit with
  | String c t => if (c =? "-")%char then Z.opp <$> parse_digits 0 t
                  else parse_digits 0 lit
  | EmptyString => None
  end.

(** Integers of the range [lo, hi]. *)
Definition decode_int (lo hi : Z) (old : Z) (j : json) : result Z :=
  match j with
  | JNum lit =>
      match parse_int lit with
      | Some n => if (lo <=? n)%Z && (n <=? hi)%Z then Ok n else Err JsonTypeError
      | None => Err JsonTypeError
      end
  | JNull => Ok old
  | _ => Err JsonTypeError
  end.

Definition decode_int64 := decode_int (- 2 ^ 63) (2 ^ 63 - 1).
Definition decode_int32 := decode_int (- 2 ^ 31) (2 ^ 31 - 1).
Definition decode_uint64 := decode_int 0 (2 ^ 64 - 1).

(** A pointer: [null] makes it [nil], anything else is stored in a fresh
    value when it was [nil]. *)
Definition decode_ptr {A} (zero : A) (dec : A → json → result A)
    (old : option A) (j : json) : result (option A) :=
  match j with
  | JNull => Ok None
  | _ => Some <$> dec (default zero old) j
  end.

(** A slice: [null] makes it [nil], an array makes it a slice of fresh
    elements. *)
Fixpoint decode_elems {A} (zero : A) (dec : A → json → result A) (l : list json) :
    result (list A) :=
  match l with
  | [] => Ok []
  | j :: l => a ← dec zero j; k ← decode_elems zero dec l; Ok (a :: k)
  end.

Definition decode_slice {A} (zero : A) (dec : A → json → result A)
    (_ : slice A) (j : json) : result (slice A) :=
  match j with
  | JNull => Ok None
  | JArr l => Some <$> decode_elems zero dec l
  | _ => Err JsonTypeError
  end.

(** A map with string keys: members are added to the map there is. *)
Definition decode_map {A} (zero : A) (dec : A → json → result A)
    (old : gomap A) (j : json) : result (gomap A) :=
  match j with
  | JNull => Ok None
  | JObj l =>
      Some <$> foldl (λ r kv, m ← r; a ← dec zero kv.2; Ok (<[kv.1 := a]> m))
        (Ok (default ∅ old)) l
  | _ => Err JsonTypeError
  end.

(** *** Structs: a member goes to the field of its exact name, else to the
    first field whose name it folds to. *)
Definition fold_chunk (c : chunk) : string :=
  match c with
  | Chunk (String a EmptyString) =>
      if byte_in 65 90 a then String (ascii_of_N (N_of_ascii a + 32)) "" else String a ""
  | Chunk b =>
      if String.eqb b (bytes_of [0xE2; 0x84; 0xAA]%N) then "k"       (* Kelvin sign *)
      else if String.eqb b (bytes_of [0xC5; 0xBF]%N) then "s"        (* long s *)
      else b
  | BadByte => replacement
  end.

Definition fold_key (s : string) : string := concat_str (fold_chunk <$> chunks s).

Definition field_of (names : list string) (key : string) : option string :=
  match list_find (λ n, n = key) names with
  | Some (_, n) => Some n
  | None => snd <$> list_find (λ n, fold_key n = fold_key key) names
  end.

Definition field {A} (names : list string) (members : list (string * json))
    (name : string) (zero : A) (dec : A → json → result A) : result A :=
  foldl (λ r kv, a ← r; if decide (field_of names kv.1 = Some name) then dec a kv.2 else Ok a)
    (Ok zero) members.

Definition members (j : json) : result (list (string * json)) :=
  match j with
  | JObj l => Ok l
  | JNull => Ok []
  | _ => Err JsonTypeError
  end.

(** *** [[]string] *)
Definition decode_strings : slice string → json → result (slice string) :=
  decode_slice "" decode_string.
End Decode.

(** [json.Marshal] and [json.Unmarshal] at the type [[]string]. *)
Definition marshal_strings (l : slice string) : string :=
  Printer.print (match l with Some l => JArr (JStr <$> l) | None => JNull end).

Definition unmarshal_strings (s : string) : result (slice string) :=
  j ← Reader.parse s; Decode.decode_strings None j.

Lemma decode_elems_strings l :
  Decode.decode_elems "" Decode.decode_string (JStr <$> l) = Ok l.
Proof. induction l as [|s l IH]; [done|]. rewrite fmap_cons. simpl. by rewrite IH. Qed.

Lemma numbers_ok_strings l : forallb numbers_ok (JStr <$> l) = true.
Proof. by induction l. Qed.

Lemma unmarshal_marshal_strings l :
  unmarshal_strings (marshal_strings l) = Ok (fmap (M := list) Utf8.sanitize <$> l).
Proof.
  unfold unmarshal_strings, marshal_strings. destruct l as [l|]; [|reflexivity].
  rewrite parse_print by apply numbers_ok_strings. simpl.
  rewrite <- list_fmap_compose. change (clean ∘ JStr) with (JStr ∘ Utf8.sanitize).
  by rewrite list_fmap_compose, decode_elems_strings.
Qed.

Lemma fmap_sanitize_valid l : Forall Utf8.valid l → Utf8.sanitize <$> l = l.
Proof. induction 1; [done|]. rewrite fmap_cons. f_equal; eauto using Utf8.sanitize_valid. Qed.

Example marshal_example :
  marshal_strings (Some ["a.example.com/x?y<z"; "b"]) =
  "[" +:+ String dquote "a.example.com/x?y\u003cz" +:+ String dquote "," +:+
  String dquote "b" +:+ String dquote "]".
Proof. reflexivity. Qed.

Example unmarshal_spaces : unmarshal_strings " [ null ] " = Ok (Some [""]).
Proof. vm_compute. reflexivity. Qed.
Example unmarshal_empty_text : unmarshal_strings "" = Err JsonSyntaxError.
Proof. reflexivity. Qed.
Example unmarshal_number : unmarshal_strings "[1]" = Err JsonTypeError.
Proof. vm_compute. reflexivity. Qed.
Example surrogates :
  Reader.parse (String dquote "\ud83d\ude00\ud83dx" +:+ String dquote "") = Ok (JStr "😀�x").
Proof. vm_compute. reflexivity. Qed.

(** ** Integers as [Marshal] writes them *)
Definition int_text (n : Z) : string := pretty n.

Definition JInt (n : Z) : json := JNum (int_text n).

Fixpoint digits (s : string) : bool :=
  match s with
  | EmptyString => true
  | String c t => Reader.digit c && digits t
  end.

Lemma small_digit d : (d < 10)%N →
  d = 0%N ∨ d = 1%N ∨ d = 2%N ∨ d = 3%N ∨ d = 4%N ∨ d = 5%N ∨ d = 6%N ∨ d = 7%N ∨ d = 8%N ∨ d = 9%N.
Proof. lia. Qed.

Lemma pretty_N_char_digit d : (d < 10)%N →
  Reader.digit (pretty_N_char d) = true ∧
  Z.of_N (N_of_ascii (pretty_N_char d)) = (Z.of_N d + 48)%Z.
Proof. intros Hd%small_digit. by destruct_or! Hd; subst d. Qed.

Lemma pretty_N_go_digits x s : (0 < x)%N →
  ∃ c t, pretty_N_go x s = String c (t +:+ s) ∧ byte_in 49 57 c = true ∧ digits t = true.
Proof.
  revert s. induction (N.lt_wf_0 x) as [x _ IH]. intros s Hx.
  rewrite pretty_N_go_step by done.
  set (d := pretty_N_char (x `mod` 10)).
  assert (x `mod` 10 < 10)%N as Hd by (by apply N.mod_lt).
  destruct (decide (x < 10)%N) as [Hs|Hs].
  - rewrite N.div_small, pretty_N_go_0 by done. exists d, "". split; [done|].
    split; [|done]. unfold d. rewrite N.mod_small by done.
    apply small_digit in Hs. by destruct_or! Hs; subst x.
  - destruct (IH (x `div` 10)%N) with (s := String d s) as (c & t & E & Hc & Ht).
    { apply N.div_lt; lia. }
    { apply N.div_str_pos. lia. }
    exists c, (t +:+ String d ""). rewrite E, app_assoc_str. split_and!; [done|done|].
    clear E. induction t as [|a t IHt]; rewrite ?app_empty_l, ?app_cons; simpl in *.
    + rewrite andb_true_r. apply pretty_N_char_digit. exact Hd.
    + apply andb_true_iff in Ht as [-> Ht]. simpl. eauto.
Qed.

Lemma parse_digits_pretty x s :
  Decode.parse_digits 0 (pretty_N_go x s) = Decode.parse_digits (Z.of_N x) s.
Proof.
  revert s. induction (N.lt_wf_0 x) as [x _ IH]. intros s.
  destruct (decide (x = 0)%N) as [->|Hx]; [by rewrite pretty_N_go_0|].
  rewrite pretty_N_go_step by lia. rewrite IH by (apply N.div_lt; lia). simpl.
  pose proof (N.div_mod x 10 ltac:(done)) as Hdm.
  assert (x `mod` 10 < 10)%N as Hd by (by apply N.mod_lt).
  set (m := (x `mod` 10)%N) in *. set (q := (x `div` 10)%N) in *.
  assert (Reader.digit (pretty_N_char m) = true ∧
    Z.of_N (N_of_ascii (pretty_N_char m)) = Z.of_N m + 48)%Z as [-> ->].
  { by apply pretty_N_char_digit. }
  f_equal. lia.
Qed.

Lemma lex_digits t : digits t = true → Reader.lex_num Reader.N1 t = Some (t, "").
Proof.
  induction t as [|c t IH]; simpl; [done|]. intros [-> Ht]%andb_true_iff.
  by rewrite IH.
Qed.

Lemma start_digit c : byte_in 49 57 c = true →
  Reader.num_start c = Some Reader.N1 ∧ Reader.num_step Reader.NNeg c = Some Reader.N1 ∧
  (c =? "-")%char = false.
Proof. destruct c as [[] [] [] [] [] [] [] []]; intros H; try discriminate H; by repeat split. Qed.

Lemma int_text_pos p : int_text (Z.pos p) = pretty_N_go (N.pos p) "".
Proof. reflexivity. Qed.
Lemma int_text_neg p : int_text (Z.neg p) = String "-" (pretty_N_go (N.pos p) "").
Proof. reflexivity. Qed.

(** An integer is a number of JSON, and reads back. *)
Lemma int_text_ok n : number_ok (int_text n) = true.
Proof.
  destruct n as [|p|p]; [done|..];
    destruct (pretty_N_go_digits (N.pos p) "") as (c & t & E & Hc & Ht); [done| |done|];
    rewrite app_empty_r in E; destruct (start_digit c Hc) as (Hs & Hn & _);
    rewrite ?int_text_pos, ?int_text_neg, E; cbn [number_ok].
  - rewrite Hs. simpl. by rewrite lex_digits.
  - change (match Reader.lex_num Reader.NNeg (String c t) with
            | Some (_, EmptyString) => true | _ => false end = true).
    cbn [Reader.lex_num]. by rewrite Hn, lex_digits.
Qed.

Lemma parse_int_text n : Decode.parse_int (int_text n) = Some n.
Proof.
  destruct n as [|p|p]; [done|..];
    destruct (pretty_N_go_digits (N.pos p) "") as (c & t & E & Hc & Ht); [done| |done|];
    pose proof (parse_digits_pretty (N.pos p) "") as Hp; rewrite E in Hp;
    rewrite app_empty_r in E, Hp; destruct (start_digit c Hc) as (_ & _ & Hm);
    rewrite ?int_text_pos, ?int_text_neg, E.
  - simpl. rewrite Hm. exact Hp.
  - simpl. simpl in Hp. by rewrite Hp.
Qed.

Lemma in_range lo hi n : (lo ≤ n ≤ hi)%Z → (lo <=? n)%Z && (n <=? hi)%Z = true.
Proof. intros ?. by rewrite (proj2 (Z.leb_le _ _)), (proj2 (Z.leb_le _ _)) by lia. Qed.

Lemma decode_int_text lo hi old n :
  (lo ≤ n ≤ hi)%Z → Decode.decode_int lo hi old (JInt n) = Ok n.
Proof.
  intros H. unfold Decode.decode_int, JInt. by rewrite parse_int_text, in_range.
Qed.
