(* ===== verification/Printed.v ===== *)
(** * Printed JSON inside JSON

    The callback of the staging recipe, the annotations of the pods and the
    environment of a task carry JSON texts as strings.  What the printer writes
    is well-formed UTF-8, so it comes through another printing unchanged. *)

From stdpp Require Import base list strings.
From Stdlib Require Import Ascii Lia.
From S2P Require Import Prelude Json.

Import Utf8 Printer.

(** Text that is a sequence of well-formed characters. *)
Definition well_formed (s : string) : Prop :=
  ∃ l, Forall (λ b, next_chunk b = Some (Chunk b, "")) l ∧ s = concat_str l.

Create HintDb wf_text.

Lemma wf_empty : well_formed "".
Proof. by exists []. Qed.

Lemma wf_app s t : well_formed s → well_formed t → well_formed (s +:+ t).
Proof.
  intros (l & Hl & ->) (k & Hk & ->). exists (l ++ k).
  split; [by apply Forall_app|]. by rewrite concat_str_app.
Qed.

Lemma wf_one b : next_chunk b = Some (Chunk b, "") → well_formed b.
Proof. intros H. exists [b]. split; [by constructor|]. simpl. by rewrite app_empty_r. Qed.

Lemma wf_cons c s : classify c = One → well_formed s → well_formed (String c s).
Proof.
  intros Hc Hs. change (String c s) with (String c "" +:+ s). apply wf_app; [|done].
  apply wf_one. unfold next_chunk. by rewrite Hc.
Qed.

#[export] Hint Resolve wf_empty wf_app wf_cons : wf_text.

Lemma chunks_well_formed l fuel :
  Forall (λ b, next_chunk b = Some (Chunk b, "")) l →
  (String.length (concat_str l) ≤ fuel)%nat → chunks_fuel fuel (concat_str l) = Chunk <$> l.
Proof.
  intros Hl. revert fuel. induction Hl as [|b l Hb _ IH]; intros fuel Hf; [by destruct fuel|].
  rewrite concat_str_cons in *. rewrite length_app_str in Hf.
  pose proof (next_chunk_spec _ _ _ Hb) as (_ & Hlt & _). simpl in Hlt.
  destruct fuel as [|fuel]; [lia|]. cbn [chunks_fuel].
  rewrite next_chunk_app by done. rewrite fmap_cons, IH by lia. done.
Qed.

(** Well-formed text is not changed by being stored as a string. *)
Lemma sanitize_well_formed s : well_formed s → sanitize s = s.
Proof.
  intros (l & Hl & ->). unfold sanitize, chunks. rewrite chunks_well_formed by done.
  rewrite <- list_fmap_compose. change (chunk_text ∘ Chunk) with (λ b : string, b).
  by rewrite list_fmap_id.
Qed.

(** ** The printer writes such text *)

Lemma escape_byte_wf c : classify c = One → well_formed (escape_byte c).
Proof.
  destruct c as [[] [] [] [] [] [] [] []]; intros H; try discriminate H;
    vm_compute escape_byte; repeat (apply wf_cons; [reflexivity|]); apply wf_empty.
Qed.

Lemma escape_wf ch : wf_chunk ch → well_formed (escape ch).
Proof.
  destruct ch as [[|c0 [|c1 b]]|]; intros Hwf; [done|..].
  - apply escape_byte_wf. simpl in Hwf. unfold next_chunk in Hwf. destruct (classify c0); by simplify_eq.
  - cbn [escape]. repeat case_match; [..|by apply wf_one];
      repeat (apply wf_cons; [reflexivity|]); apply wf_empty.
  - repeat (apply wf_cons; [reflexivity|]); apply wf_empty.
Qed.

Lemma quote_wf s : well_formed (quote s).
Proof.
  unfold quote. apply wf_cons; [reflexivity|]. apply wf_app; [|by apply wf_cons, wf_empty].
  pose proof (chunks_wf s) as Hs. induction Hs as [|ch chs Hch _ IH]; [apply wf_empty|].
  rewrite fmap_cons, concat_str_cons. auto using wf_app, escape_wf.
Qed.

Lemma digit_ascii c : Reader.digit c = true → classify c = One.
Proof. destruct c as [[] [] [] [] [] [] [] []]; intros H; try discriminate H; done. Qed.

Lemma num_step_ascii st c st' : Reader.num_step st c = Some st' → classify c = One.
Proof.
  destruct c as [[] [] [] [] [] [] [] []]; intros H; try reflexivity;
    destruct st; discriminate H.
Qed.

Lemma lex_num_wf st n m : Reader.lex_num st n = Some (m, "") → well_formed n.
Proof.
  revert st m. induction n as [|c n IH]; intros st m Hn; [apply wf_empty|]. simpl in Hn.
  destruct (Reader.num_step st c) as [st'|] eqn:Ec; [|by case_match].
  destruct (Reader.lex_num st' n) as [[m' u]|] eqn:E; [|done].
  simpl in Hn. simplify_eq. apply wf_cons; [by eapply num_step_ascii|]. by eapply IH.
Qed.

Lemma number_wf lit : number_ok lit = true → well_formed lit.
Proof.
  destruct lit as [|c n]; [done|]. simpl. destruct (Reader.num_start c) as [st|] eqn:Ec; [|done].
  simpl. destruct (Reader.lex_num st n) as [[m [|]]|] eqn:E; [|done..]. intros _.
  apply wf_cons; [|by eapply lex_num_wf]. unfold Reader.num_start in Ec.
  destruct (Ascii.eqb_spec c "-") as [->|_]; [done|]. by eapply num_step_ascii.
Qed.

#[export] Hint Resolve quote_wf number_wf : wf_text.

Lemma print_elems_wf l : Forall (λ j, well_formed (print j)) l → well_formed (print_elems l).
Proof.
  induction 1 as [|v l Hv Hl IH]; [by apply wf_cons, wf_empty|].
  destruct l as [|w l]; [rewrite print_elems_one|rewrite print_elems_cons];
    auto 20 with wf_text.
Qed.

Lemma print_members_wf l :
  Forall (λ kv : string * json, well_formed (print kv.2)) l → well_formed (print_members l).
Proof.
  induction 1 as [|[k v] l Hv Hl IH]; [by apply wf_cons, wf_empty|]. simpl in Hv.
  destruct l as [|w l]; [rewrite print_members_one|rewrite print_members_cons];
    auto 20 with wf_text.
Qed.

Lemma print_wf j : numbers_ok j = true → well_formed (print j).
Proof.
  induction j as [|[]|n|s|l IH|l IH] using json_ind'; intros Hok;
    try (repeat (apply wf_cons; [reflexivity|]); apply wf_empty).
  - by apply number_wf.
  - apply quote_wf.
  - rewrite print_arr. apply wf_app; [by apply wf_cons, wf_empty|]. apply print_elems_wf.
    cbn [numbers_ok] in Hok. rewrite forallb_forall in Hok.
    induction IH as [|v l Hv _ IHl]; [constructor|].
    constructor.
    + apply Hv, (Hok v). by left.
    + apply IHl. intros x Hx. apply Hok. by right.
  - rewrite print_obj. apply wf_app; [by apply wf_cons, wf_empty|]. apply print_members_wf.
    cbn [numbers_ok] in Hok. rewrite forallb_forall in Hok.
    induction IH as [|v l Hv _ IHl]; [constructor|]. constructor.
    + apply Hv, (Hok v). by left.
    + apply IHl. intros x Hx. apply Hok. by right.
Qed.

(** A printed value survives as a string of another. *)
Lemma sanitize_print j : numbers_ok j = true → sanitize (print j) = print j.
Proof. intros H. by apply sanitize_well_formed, print_wf. Qed.
