(* ===== verification/Reading.v ===== *)
(** * The JSON reader has enough fuel

    Every call of the reader consumes a byte or hands on to one that does, so
    with [fuel_for] a text it never runs out: no larger fuel reads more. *)

From stdpp Require Import base list strings.
From Stdlib Require Import Ascii Lia.
From S2P Require Import Prelude Json.

Import Utf8 Reader.

#[local] Abbreviation len := String.length.

(** What is read is taken off the text. *)
Definition shrinks {A} (r : option (A * string)) (s : string) : Prop :=
  match r with Some (_, t) => len t < len s | None => True end.

Lemma skip_ws_le s : len (skip_ws s) ≤ len s.
Proof. induction s as [|c s IH]; simpl; [lia|]. destruct (is_space c); simpl; lia. Qed.

Lemma strip_le w s t : strip w s = Some t → len t ≤ len s.
Proof.
  revert s. induction w as [|a w IH]; intros [|b s]; simpl; try (intros [= <-]; simpl; lia).
  destruct (_ =? _)%char; [|done]. intros E%IH. lia.
Qed.

Lemma hex4_lt s r t : hex4 s = Some (r, t) → len t < len s.
Proof.
  destruct s as [|a [|b [|c [|d s]]]]; simpl; try done.
  destruct (hex_digit a), (hex_digit b), (hex_digit c), (hex_digit d); simpl; try done.
  intros [= _ <-]. lia.
Qed.

Lemma rune_after_le r t : len (rune_after r t).2 ≤ len t.
Proof.
  unfold rune_after. repeat case_match; simpl; try lia.
  all: match goal with H : hex4 _ = Some _ |- _ => apply hex4_lt in H end; lia.
Qed.

Lemma unescape_lt s b t : unescape s = Some (b, t) → len t < len s.
Proof.
  destruct s as [|c s]; [done|]. unfold unescape.
  repeat (destruct (_ : bool); [by intros [= _ <-]; simpl; lia|]).
  destruct (c =? "u")%char; [|done].
  destruct (hex4 s) as [[r t']|] eqn:E; simpl; [|done]. intros [= E2].
  apply hex4_lt in E. pose proof (rune_after_le r t') as Hle. rewrite E2 in Hle. simpl in Hle. lia.
Qed.

Lemma prepend_shrinks b r s : shrinks r s → shrinks (prepend b r) s.
Proof. by destruct r as [[x t]|]. Qed.

Lemma shrinks_le {A} (r : option (A * string)) s s' :
  shrinks r s' → len s' ≤ len s → shrinks r s.
Proof. destruct r as [[x t]|]; simpl; [lia|done]. Qed.

(** *** Strings *)
Lemma parse_str_shrinks f s : shrinks (parse_str f s) s.
Proof.
  revert s. induction f as [|f IH]; intros s; [done|]. cbn [parse_str].
  destruct (next_chunk s) as [[ch t]|] eqn:E; [|done]. apply next_chunk_spec in E as (_ & E & _).
  assert (∀ b, shrinks (prepend b (parse_str f t)) s) as Hgo.
  { intros b. apply prepend_shrinks. eapply shrinks_le; [apply IH|lia]. }
  destruct ch as [[|c [|c' b]]|]; try apply Hgo.
  destruct (c =? dquote)%char; [simpl; lia|]. destruct (c =? backslash)%char.
  - destruct (unescape t) as [[b t']|] eqn:Eu; simpl; [|done]. apply unescape_lt in Eu.
    apply prepend_shrinks. eapply shrinks_le; [apply IH|lia].
  - destruct (byte_in _ _ c); [done|apply Hgo].
Qed.

Lemma parse_str_stable f g s : len s < f → len s < g → parse_str f s = parse_str g s.
Proof.
  revert g s. induction f as [|f IH]; intros [|g] s Hf Hg; [lia..|]. cbn [parse_str].
  destruct (next_chunk s) as [[ch t]|] eqn:E; [|done]. apply next_chunk_spec in E as (_ & E & _).
  rewrite (IH g t) by lia. destruct ch as [[|c [|c' b]]|]; [done| |done..].
  destruct (unescape t) as [[b' t']|] eqn:Eu; [|done]. apply unescape_lt in Eu.
  simpl. by rewrite (IH g t') by lia.
Qed.

(** *** Values *)
Lemma lex_num_le st s n t : lex_num st s = Some (n, t) → len t ≤ len s.
Proof.
  revert st n. induction s as [|c s IH]; intros st n; simpl.
  - destruct (num_accepts st); [|done]. intros [= _ <-]. simpl. lia.
  - destruct (num_step st c) as [st'|].
    + destruct (lex_num st' s) as [[m t']|] eqn:E; [|done]. intros [= _ <-].
      apply IH in E. lia.
    + destruct (num_accepts st); [|done]. intros [= _ <-]. simpl. lia.
Qed.

(** Fuel for a value, and for the elements or members of one. *)
Abbreviation value_fuel s := (2 * len s + 1).
Abbreviation items_fuel s := (2 * len s + 2).

Lemma values_shrink f :
  (∀ s, shrinks (parse_value f s) s) ∧ (∀ s, shrinks (parse_elems f s) s) ∧
  (∀ s, shrinks (parse_members f s) s).
Proof.
  induction f as [|f (IHv & IHe & IHm)]; [done|]. split_and!; intros s.
  - cbn [parse_value]. pose proof (skip_ws_le s) as Hs. destruct (skip_ws s) as [|c t]; [done|].
    simpl in Hs.
    assert (∀ w v, shrinks (keyword w v t) s) as Hk.
    { intros w v. unfold keyword. destruct (strip w t) as [t'|] eqn:E; simpl; [|done].
      apply strip_le in E. lia. }
    do 3 (destruct (_ =? _)%char; [apply Hk|]).
    destruct (_ =? _)%char.
    { pose proof (parse_str_shrinks f t) as H. destruct (parse_str f t) as [[x t']|]; simpl in *; [lia|done]. }
    pose proof (skip_ws_le t) as Ht.
    destruct (_ =? _)%char.
    { destruct (skip_ws t) as [|d t']; [done|]. simpl in Ht. destruct (_ =? _)%char; [simpl; lia|].
      pose proof (IHe t) as H. destruct (parse_elems f t) as [[x t'']|]; simpl in *; [lia|done]. }
    destruct (_ =? _)%char.
    { destruct (skip_ws t) as [|d t']; [done|]. simpl in Ht. destruct (_ =? _)%char; [simpl; lia|].
      pose proof (IHm t) as H. destruct (parse_members f t) as [[x t'']|]; simpl in *; [lia|done]. }
    destruct (num_start c) as [st|]; simpl; [|done].
    destruct (lex_num st t) as [[n t']|] eqn:E; simpl; [|done]. apply lex_num_le in E. lia.
  - cbn [parse_elems]. pose proof (IHv s) as H. destruct (parse_value f s) as [[v t]|]; simpl in *; [|done].
    pose proof (skip_ws_le t) as Ht. destruct (skip_ws t) as [|d t']; [done|].
    simpl in Ht. destruct (_ =? _)%char; [|destruct (_ =? _)%char; [simpl; lia|done]].
    pose proof (IHe t') as H'. destruct (parse_elems f t') as [[x t'']|]; simpl in *; [lia|done].
  - cbn [parse_members]. pose proof (skip_ws_le s) as Hs. destruct (skip_ws s) as [|q t]; [done|].
    simpl in Hs. destruct (_ =? _)%char; [|done].
    pose proof (parse_str_shrinks f t) as H. destruct (parse_str f t) as [[k t1]|]; cbn [mbind option_bind shrinks] in *; [|exact I].
    pose proof (skip_ws_le t1). destruct (strip ":" (skip_ws t1)) as [t2|] eqn:E; [|exact I].
    apply strip_le in E. simpl. pose proof (IHv t2).
    destruct (parse_value f t2) as [[v t3]|]; simpl in *; [|done]. pose proof (skip_ws_le t3). destruct (skip_ws t3) as [|d t4]; [done|]. simpl in *.
    destruct (_ =? _)%char; [|destruct (_ =? _)%char; [simpl; lia|done]].
    pose proof (IHm t4). destruct (parse_members f t4) as [[x t5]|]; simpl in *; [lia|done].
Qed.

Lemma value_lt f s v t : parse_value f s = Some (v, t) → len t < len s.
Proof. intros E. pose proof (proj1 (values_shrink f) s) as H. by rewrite E in H. Qed.

Lemma str_lt f s v t : parse_str f s = Some (v, t) → len t < len s.
Proof. intros E. pose proof (parse_str_shrinks f s) as H. by rewrite E in H. Qed.

Lemma values_stable f :
  (∀ g s, value_fuel s ≤ f → value_fuel s ≤ g → parse_value f s = parse_value g s) ∧
  (∀ g s, items_fuel s ≤ f → items_fuel s ≤ g → parse_elems f s = parse_elems g s) ∧
  (∀ g s, items_fuel s ≤ f → items_fuel s ≤ g → parse_members f s = parse_members g s).
Proof.
  induction f as [|f (IHv & IHe & IHm)]; [split_and!; intros; lia|].
  split_and!; intros [|g] s Hf Hg; try lia.
  - cbn [parse_value]. pose proof (skip_ws_le s) as Hs. destruct (skip_ws s) as [|c t]; [done|].
    simpl in Hs. by rewrite (parse_str_stable f g t), (IHe g t), (IHm g t) by lia.
  - cbn [parse_elems]. rewrite (IHv g s) by lia.
    destruct (parse_value g s) as [[v t]|] eqn:E; [|done]. apply value_lt in E.
    simpl. pose proof (skip_ws_le t) as Ht. destruct (skip_ws t) as [|d t']; [done|].
    simpl in Ht. by rewrite (IHe g t') by lia.
  - cbn [parse_members]. pose proof (skip_ws_le s) as Hs. destruct (skip_ws s) as [|q t]; [done|].
    simpl in Hs. rewrite (parse_str_stable f g t) by lia.
    destruct (parse_str g t) as [[k t1]|] eqn:Ek; [|done]. apply str_lt in Ek. cbn [mbind option_bind].
    pose proof (skip_ws_le t1). destruct (strip ":" (skip_ws t1)) as [t2|] eqn:E2; [|done].
    apply strip_le in E2. cbn [mbind option_bind]. rewrite (IHv g t2) by lia.
    destruct (parse_value g t2) as [[v t3]|] eqn:E3; [|done]. apply value_lt in E3. simpl.
    pose proof (skip_ws_le t3) as Ht. destruct (skip_ws t3) as [|d t4]; [done|].
    simpl in Ht. by rewrite (IHm g t4) by lia.
Qed.

(** What is not read with this fuel is not read with any. *)
Lemma fuel_enough f s : fuel_for s ≤ f → parse_value f s = parse_value (fuel_for s) s.
Proof. unfold fuel_for. intros Hf. apply values_stable; lia. Qed.
