(* ===== verification/Opi.v ===== *)
(** * The data the components exchange, and the interfaces between them

    [src/opi/model.go] (LRPs, tasks, the [Desirer] and [TaskDesirer]
    interfaces), [src/models.go] (environment variable names, [Routes],
    [StagerConfig], the [CfClient] interface, service names) and
    [src/models/cf/models.go] (the requests of Cloud Controller).
    A [uint], an [int] and an [int32] are integers of type [Z]; conversions
    between them are written out where the code makes them. *)

From S2P Require Import Prelude Json.
From stdpp Require Import base gmap strings list.
From Stdlib Require Import ZArith.

(** ** [opi/model.go] *)

Record Healtcheck := {
  hc_Type : string;
  hc_Port : Z;
  hc_Endpoint : string;
  hc_TimeoutMs : Z
}.

Record LRP := {
  lrp_Name : string;
  lrp_Image : string;
  lrp_Command : list string;
  lrp_Env : gomap string;
  lrp_Health : Healtcheck;
  lrp_TargetInstances : Z;
  lrp_RunningInstances : Z;
  lrp_Metadata : gomap string
}.

Record Task := {
  task_Image : string;
  task_Command : list string;
  task_Env : gomap string
}.

(** The zero values. *)
Definition zero_Healtcheck : Healtcheck :=
  {| hc_Type := ""; hc_Port := 0; hc_Endpoint := ""; hc_TimeoutMs := 0 |}.
Definition zero_LRP : LRP :=
  {| lrp_Name := ""; lrp_Image := ""; lrp_Command := []; lrp_Env := None;
     lrp_Health := zero_Healtcheck; lrp_TargetInstances := 0;
     lrp_RunningInstances := 0; lrp_Metadata := None |}.

(** What [opi] promises to its clients: the operations of a scheduler. *)
Class Desirer (S : Type) := {
  desirer_Desire : LRP → M S (result unit);
  desirer_List : M S (result (list LRP));
  desirer_Get : string → M S (result LRP);
  desirer_Update : LRP → M S (result unit);
  desirer_Stop : string → M S (result unit)
}.

Class TaskDesirer (S : Type) := {
  task_Desire : Task → M S (result unit);
  task_DesireStaging : Task → M S (result unit);
  task_Delete : string → M S (result unit)
}.

(** ** [models.go] *)

Definition EnvDownloadURL : string := "DOWNLOAD_URL".
Definition EnvBuildpacks : string := "BUILDPACKS".
Definition EnvDropletUploadURL : string := "DROPLET_UPLOAD_URL".
Definition EnvAppID : string := "APP_ID".
Definition EnvStagingGUID : string := "STAGING_GUID".
Definition EnvCompletionCallback : string := "COMPLETION_CALLBACK".
Definition EnvCfUsername : string := "CF_USERNAME".
Definition EnvCfPassword : string := "CF_PASSWORD".
Definition EnvAPIAddress : string := "API_ADDRESS".
Definition EnvEiriniAddress : string := "EIRINI_ADDRESS".

Definition RegisteredRoutes : string := "routes".

Definition CCUploaderInternalURL : string := "cc-uploader.service.cf.internal".
Definition CCCertsMountPath : string := "/etc/config/certs".
Definition CCCertsSecretName : string := "cc-certs".
Definition CCCertsVolumeName : string := "cc-certs-volume".

Record Properties := {
  KubeConfig : string;
  KubeNamespace : string;
  KubeEndpoint : string;
  NatsPassword : string;
  NatsIP : string;
  RegistryEndpoint : string;
  CcUploaderIP : string;
  CcAPI : string;
  Backend : string;
  CfUsername : string;
  CfPassword : string;
  CcUser : string;
  CcPassword : string;
  RegistryAddress : string;
  EiriniAddress : string;
  SkipSslValidation : bool;
  InsecureSkipVerify : bool
}.

Record Routes := {
  rt_Routes : slice string;
  rt_UnregisteredRoutes : slice string;
  rt_Name : string
}.

Record StagerConfig := {
  sc_CfUsername : string;
  sc_CfPassword : string;
  sc_APIAddress : string;
  sc_EiriniAddress : string;
  sc_SkipSslValidation : bool
}.

Definition GetInternalServiceName (appName : string) : string := "cf-" +:+ appName.

Definition GetInternalHeadlessServiceName (appName : string) : string :=
  "cf-" +:+ appName +:+ "-headless".

Lemma app_str_inj_l s t u : s +:+ t = s +:+ u → t = u.
Proof. induction s as [|c s IH]; [done|]. rewrite !app_cons. intros H. injection H. eauto. Qed.

Lemma app_str_inj_r s t u : s +:+ u = t +:+ u → s = t.
Proof.
  revert t. induction s as [|c s IH]; intros [|d t]; rewrite ?app_cons, ?app_empty_l; [done|..].
  - intros H. exfalso. apply (f_equal String.length) in H.
    simpl in H. rewrite length_app_str in H. lia.
  - intros H. exfalso. apply (f_equal String.length) in H.
    simpl in H. rewrite length_app_str in H. lia.
  - intros H. injection H as -> H. f_equal. eauto.
Qed.

#[global] Instance service_name_inj : Inj (=) (=) GetInternalServiceName.
Proof. intros a b. apply app_str_inj_l. Qed.

#[global] Instance headless_name_inj : Inj (=) (=) GetInternalHeadlessServiceName.
Proof. intros a b H. by apply app_str_inj_l, app_str_inj_r in H. Qed.

(** A service name is the headless name of another application only when the
    application names differ by the suffix. *)
Lemma service_headless_clash a b :
  GetInternalServiceName a = GetInternalHeadlessServiceName b ↔ a = b +:+ "-headless".
Proof. split; [apply app_str_inj_l|by intros ->]. Qed.

Lemma service_name_neq_headless a : GetInternalServiceName a ≠ GetInternalHeadlessServiceName a.
Proof.
  rewrite service_headless_clash. intros H. apply (f_equal String.length) in H.
  rewrite length_app_str in H. simpl in H. lia.
Qed.

(** ** [models/cf/models.go] *)

Definition VcapAppName : string := "application_name".
Definition VcapVersion : string := "version".
Definition VcapAppUris : string := "application_uris".
Definition VcapAppID : string := "application_id".
Definition VcapSpaceName : string := "space_name".
Definition LastUpdated : string := "last_updated".
Definition ProcessGUID : string := "process_guid".
Definition RunningState : string := "RUNNING".

Record VcapApp := {
  va_AppName : string;
  va_AppID : string;
  va_Version : string;
  va_AppUris : slice string;
  va_SpaceName : string
}.

Record DesireLRPRequest := {
  dr_ProcessGUID : string;
  dr_DockerImageURL : string;
  dr_DropletHash : string;
  dr_StartCommand : string;
  dr_Environment : gomap string;
  dr_NumInstances : Z;
  dr_LastUpdated : string;
  dr_HealthCheckType : string;
  dr_HealthCheckHTTPEndpoint : string;
  dr_HealthCheckTimeoutMs : Z
}.

Record Instance_ := { inst_Index : Z; inst_State : string }.

Record GetInstancesResponse := {
  gir_Error : string;
  gir_ProcessGUID : string;
  gir_Instances : list Instance_
}.

(** *** The decoders [encoding/json] derives from the struct tags *)

Definition decode_VcapApp (j : json) : result VcapApp :=
  let names := ["application_name"; "application_id"; "version"; "application_uris"; "space_name"] in
  ms ← Decode.members j;
  name ← Decode.field names ms "application_name" "" Decode.decode_string;
  id ← Decode.field names ms "application_id" "" Decode.decode_string;
  version ← Decode.field names ms "version" "" Decode.decode_string;
  uris ← Decode.field names ms "application_uris" None Decode.decode_strings;
  space ← Decode.field names ms "space_name" "" Decode.decode_string;
  Ok {| va_AppName := name; va_AppID := id; va_Version := version;
        va_AppUris := uris; va_SpaceName := space |}.

Definition decode_DesireLRPRequest (j : json) : result DesireLRPRequest :=
  let names := ["process_guid"; "docker_image"; "droplet_hash"; "start_command";
    "environment"; "instances"; "last_updated"; "health_check_type";
    "health_check_http_endpoint"; "health_check_timeout_ms"] in
  ms ← Decode.members j;
  let str name := Decode.field names ms name "" Decode.decode_string in
  guid ← str "process_guid";
  image ← str "docker_image";
  hash ← str "droplet_hash";
  cmd ← str "start_command";
  env ← Decode.field names ms "environment" None (Decode.decode_map "" Decode.decode_string);
  n ← Decode.field names ms "instances" 0%Z Decode.decode_int64;
  upd ← str "last_updated";
  hct ← str "health_check_type";
  hce ← str "health_check_http_endpoint";
  ms ← Decode.field names ms "health_check_timeout_ms" 0%Z Decode.decode_uint64;
  Ok {| dr_ProcessGUID := guid; dr_DockerImageURL := image; dr_DropletHash := hash;
        dr_StartCommand := cmd; dr_Environment := env; dr_NumInstances := n;
        dr_LastUpdated := upd; dr_HealthCheckType := hct;
        dr_HealthCheckHTTPEndpoint := hce; dr_HealthCheckTimeoutMs := ms |}.

Example decode_request :
  (Reader.parse_first (String dquote "x" +:+ String dquote "")) ≫= decode_DesireLRPRequest
  = Err JsonTypeError.
Proof. vm_compute. reflexivity. Qed.
