(* ===== verification/Messages.v ===== *)
(** * The messages and interfaces between the parts

    The requests of the cloud controller with the decoders their struct tags
    give ([cc_messages] and [bbs/models], vendored), HTTP as the clients of this
    repository use it, and the interfaces of [models.go]. *)

From stdpp Require Import base gmap strings list.
From Stdlib Require Import ZArith.
From S2P Require Import Prelude Json Opi.

(** ** HTTP *)

Record Request := {
  rq_Method : string;
  rq_URL : string;
  rq_Header : list (string * string);
  rq_Body : string;
  rq_ContentLength : Z
}.

Definition str_len (s : string) : Z := Z.of_nat (String.length s).

Record Response := { rs_StatusCode : Z; rs_Body : string }.

(** A client: [http_NewRequest] is the check of [http.NewRequest] on a URL;
    [http_show] is what [fmt] makes of a [*http.Response] for the verb [%v],
    which may depend on where it is in memory. *)
Class HttpClient (S : Type) := {
  http_url_valid : string → bool;
  http_Do : Request → M S (result Response);
  http_show : Response → S → string
}.

(** The length of a buffer is known to [NewRequest]. *)
Definition http_NewRequest {S} `{!HttpClient S} (method url body : string) : result Request :=
  if http_url_valid url
  then Ok {| rq_Method := method; rq_URL := url; rq_Header := []; rq_Body := body;
             rq_ContentLength := str_len body |}
  else Err (ExternalError "parse: invalid URL").

(** [request.Header.Set]. *)
Definition header_Set (k v : string) (r : Request) : Request :=
  {| rq_Method := rq_Method r; rq_URL := rq_URL r;
     rq_Header := filter (λ kv, kv.1 ≠ k) (rq_Header r) ++ [(k, v)]; rq_Body := rq_Body r;
     rq_ContentLength := rq_ContentLength r |}.

(** [request.ContentLength = n]. *)
Definition with_ContentLength (n : Z) (r : Request) : Request :=
  {| rq_Method := rq_Method r; rq_URL := rq_URL r; rq_Header := rq_Header r;
     rq_Body := rq_Body r; rq_ContentLength := n |}.

Definition StatusOK : Z := 200.
Definition StatusCreated : Z := 201.
Definition StatusAccepted : Z := 202.
Definition StatusBadRequest : Z := 400.
Definition StatusNotFound : Z := 404.
Definition StatusInternalServerError : Z := 500.

(** What a handler wrote: 200 unless it set another status. *)
Record Answer := { an_Status : Z; an_ContentType : string; an_Body : string }.

Definition status (n : Z) : Answer := {| an_Status := n; an_ContentType := ""; an_Body := "" |}.

(** [err.Error()]: the texts of errors are not modelled. *)
Class ErrorText := { error_text : error → string }.

(** What an [io.Reader] has left to give, and how it ends. *)
Record reader := { rd_rest : string; rd_error : option error }.

(** The reader after it was read to its end. *)
Definition drained (r : reader) : reader := {| rd_rest := ""; rd_error := rd_error r |}.

(** ** Fields and their types *)

Definition Decode_uint32 := Decode.decode_int 0 (2 ^ 32 - 1).

(** A [*json.RawMessage]: [null] makes it [nil]; the text of the value is
    represented by the value it denotes. *)
Definition decode_raw (_ : option json) (j : json) : result (option json) :=
  match j with JNull => Ok None | _ => Ok (Some j) end.

(** ** [bbs/models] *)

(** The routes are a pointer to a map of raw messages. *)
Record DesiredLRPUpdate := {
  du_Instances : option Z;
  du_Routes : option (gomap (option json));
  du_Annotation : option string
}.

Record UpdateDesiredLRPRequest := {
  ud_ProcessGuid : string;
  ud_Update : option DesiredLRPUpdate
}.

Record DesiredLRP := { dl_ProcessGuid : string; dl_Instances : Z }.

Record DesiredLRPSchedulingInfo := { si_ProcessGuid : string; si_Annotation : string }.

Record TaskCallbackResponse := {
  tc_TaskGuid : string;
  tc_Failed : bool;
  tc_FailureReason : string;
  tc_Result : string;
  tc_Annotation : string;
  tc_CreatedAt : Z
}.

Definition zero_DesiredLRPUpdate : DesiredLRPUpdate :=
  {| du_Instances := None; du_Routes := None; du_Annotation := None |}.

Definition decode_DesiredLRPUpdate (old : DesiredLRPUpdate) (j : json) : result DesiredLRPUpdate :=
  let names := ["instances"; "routes"; "annotation"] in
  ms ← Decode.members j;
  n ← Decode.field names ms "instances" (du_Instances old) (Decode.decode_ptr 0%Z Decode.decode_int32);
  routes ← Decode.field names ms "routes" (du_Routes old)
    (Decode.decode_ptr None (Decode.decode_map None decode_raw));
  annotation ← Decode.field names ms "annotation" (du_Annotation old)
    (Decode.decode_ptr "" Decode.decode_string);
  Ok {| du_Instances := n; du_Routes := routes; du_Annotation := annotation |}.

Definition decode_UpdateDesiredLRPRequest (j : json) : result UpdateDesiredLRPRequest :=
  let names := ["process_guid"; "update"] in
  ms ← Decode.members j;
  guid ← Decode.field names ms "process_guid" "" Decode.decode_string;
  update ← Decode.field names ms "update" None
    (Decode.decode_ptr zero_DesiredLRPUpdate decode_DesiredLRPUpdate);
  Ok {| ud_ProcessGuid := guid; ud_Update := update |}.

Definition decode_TaskCallbackResponse (j : json) : result TaskCallbackResponse :=
  let names := ["task_guid"; "failed"; "failure_reason"; "result"; "annotation"; "created_at"] in
  ms ← Decode.members j;
  guid ← Decode.field names ms "task_guid" "" Decode.decode_string;
  failed ← Decode.field names ms "failed" false Decode.decode_bool;
  reason ← Decode.field names ms "failure_reason" "" Decode.decode_string;
  res ← Decode.field names ms "result" "" Decode.decode_string;
  annotation ← Decode.field names ms "annotation" "" Decode.decode_string;
  created ← Decode.field names ms "created_at" 0%Z Decode.decode_int64;
  Ok {| tc_TaskGuid := guid; tc_Failed := failed; tc_FailureReason := reason;
        tc_Result := res; tc_Annotation := annotation; tc_CreatedAt := created |}.

(** [annotation] is left out when empty. *)
Definition encode_TaskCallbackResponse (t : TaskCallbackResponse) : json :=
  JObj ([("task_guid", JStr (tc_TaskGuid t)); ("failed", JBool (tc_Failed t));
         ("failure_reason", JStr (tc_FailureReason t)); ("result", JStr (tc_Result t))]
    ++ (if String.eqb (tc_Annotation t) "" then [] else [("annotation", JStr (tc_Annotation t))])
    ++ [("created_at", JInt (tc_CreatedAt t))]).

(** *** Types the code decodes and does not look at *)

Definition decode_EnvironmentVariable (_ : unit) (j : json) : result unit :=
  let names := ["name"; "value"] in
  ms ← Decode.members j;
  _ ← Decode.field names ms "name" "" Decode.decode_string;
  _ ← Decode.field names ms "value" "" Decode.decode_string;
  Ok tt.

Definition decode_PortRange (_ : unit) (j : json) : result unit :=
  let names := ["start"; "end"] in
  ms ← Decode.members j;
  _ ← Decode.field names ms "start" 0%Z Decode_uint32;
  _ ← Decode.field names ms "end" 0%Z Decode_uint32;
  Ok tt.

Definition decode_ICMPInfo (_ : unit) (j : json) : result unit :=
  let names := ["type"; "code"] in
  ms ← Decode.members j;
  _ ← Decode.field names ms "type" 0%Z Decode.decode_int32;
  _ ← Decode.field names ms "code" 0%Z Decode.decode_int32;
  Ok tt.

Definition decode_SecurityGroupRule (_ : unit) (j : json) : result unit :=
  let names := ["protocol"; "destinations"; "ports"; "port_range"; "icmp_info"; "log";
    "annotations"] in
  ms ← Decode.members j;
  _ ← Decode.field names ms "protocol" "" Decode.decode_string;
  _ ← Decode.field names ms "destinations" None Decode.decode_strings;
  _ ← Decode.field names ms "ports" None (Decode.decode_slice 0%Z Decode_uint32);
  _ ← Decode.field names ms "port_range" None (Decode.decode_ptr tt decode_PortRange);
  _ ← Decode.field names ms "icmp_info" None (Decode.decode_ptr tt decode_ICMPInfo);
  _ ← Decode.field names ms "log" false Decode.decode_bool;
  _ ← Decode.field names ms "annotations" None Decode.decode_strings;
  Ok tt.

(** ** [cc_messages] *)

Record StagingRequestFromCC := {
  sr_AppId : string;
  sr_LogGuid : string;
  sr_Lifecycle : string;
  sr_LifecycleData : option json;
  sr_CompletionCallback : string
}.

Record Buildpack := { bp_Name : string; bp_Key : string; bp_Url : string; bp_SkipDetect : bool }.

Record BuildpackStagingData := {
  bs_AppBitsDownloadUri : string;
  bs_DropletUploadUri : string;
  bs_Buildpacks : slice Buildpack
}.

Record StagingTaskAnnotation := { sa_Lifecycle : string; sa_CompletionCallback : string }.

Definition decode_StagingRequestFromCC (j : json) : result StagingRequestFromCC :=
  let names := ["app_id"; "file_descriptors"; "memory_mb"; "disk_mb"; "environment";
    "egress_rules"; "timeout"; "log_guid"; "lifecycle"; "lifecycle_data";
    "completion_callback"; "isolation_segment"] in
  ms ← Decode.members j;
  let str name := Decode.field names ms name "" Decode.decode_string in
  let int name := Decode.field names ms name 0%Z Decode.decode_int64 in
  app ← str "app_id";
  _ ← int "file_descriptors";
  _ ← int "memory_mb";
  _ ← int "disk_mb";
  _ ← Decode.field names ms "environment" None
    (Decode.decode_slice None (Decode.decode_ptr tt decode_EnvironmentVariable));
  _ ← Decode.field names ms "egress_rules" None
    (Decode.decode_slice None (Decode.decode_ptr tt decode_SecurityGroupRule));
  _ ← int "timeout";
  log ← str "log_guid";
  lifecycle ← str "lifecycle";
  data ← Decode.field names ms "lifecycle_data" None decode_raw;
  callback ← str "completion_callback";
  _ ← str "isolation_segment";
  Ok {| sr_AppId := app; sr_LogGuid := log; sr_Lifecycle := lifecycle;
        sr_LifecycleData := data; sr_CompletionCallback := callback |}.

Definition zero_Buildpack : Buildpack :=
  {| bp_Name := ""; bp_Key := ""; bp_Url := ""; bp_SkipDetect := false |}.

Definition decode_Buildpack (old : Buildpack) (j : json) : result Buildpack :=
  let names := ["name"; "key"; "url"; "skip_detect"] in
  ms ← Decode.members j;
  name ← Decode.field names ms "name" (bp_Name old) Decode.decode_string;
  key ← Decode.field names ms "key" (bp_Key old) Decode.decode_string;
  url ← Decode.field names ms "url" (bp_Url old) Decode.decode_string;
  skip ← Decode.field names ms "skip_detect" (bp_SkipDetect old) Decode.decode_bool;
  Ok {| bp_Name := name; bp_Key := key; bp_Url := url; bp_SkipDetect := skip |}.

Definition encode_Buildpack (b : Buildpack) : json :=
  JObj [("name", JStr (bp_Name b)); ("key", JStr (bp_Key b)); ("url", JStr (bp_Url b));
        ("skip_detect", JBool (bp_SkipDetect b))].

Definition encode_Buildpacks (l : slice Buildpack) : json :=
  match l with Some l => JArr (encode_Buildpack <$> l) | None => JNull end.

Definition decode_BuildpackStagingData (j : json) : result BuildpackStagingData :=
  let names := ["app_bits_download_uri"; "build_artifacts_cache_download_uri";
    "build_artifacts_cache_upload_uri"; "buildpacks"; "droplet_upload_uri"; "stack"] in
  ms ← Decode.members j;
  let str name := Decode.field names ms name "" Decode.decode_string in
  bits ← str "app_bits_download_uri";
  _ ← str "build_artifacts_cache_download_uri";
  _ ← str "build_artifacts_cache_upload_uri";
  packs ← Decode.field names ms "buildpacks" None
    (Decode.decode_slice zero_Buildpack decode_Buildpack);
  droplet ← str "droplet_upload_uri";
  _ ← str "stack";
  Ok {| bs_AppBitsDownloadUri := bits; bs_DropletUploadUri := droplet; bs_Buildpacks := packs |}.

Definition encode_StagingTaskAnnotation (a : StagingTaskAnnotation) : json :=
  JObj [("lifecycle", JStr (sa_Lifecycle a));
        ("completion_callback", JStr (sa_CompletionCallback a))].

Definition decode_StagingTaskAnnotation (j : json) : result StagingTaskAnnotation :=
  let names := ["lifecycle"; "completion_callback"] in
  ms ← Decode.members j;
  lifecycle ← Decode.field names ms "lifecycle" "" Decode.decode_string;
  callback ← Decode.field names ms "completion_callback" "" Decode.decode_string;
  Ok {| sa_Lifecycle := lifecycle; sa_CompletionCallback := callback |}.

(** ** The interfaces of [models.go] *)

Class CfClient (S : Type) := {
  cf_GetDropletByAppGuid : string → M S (result string);
  cf_PushDroplet : string → string → M S (result unit);
  cf_GetAppBitsByAppGuid : string → M S (result Response)
}.

Class Bifrost (S : Type) := {
  bifrost_Transfer : DesireLRPRequest → M S (result unit);
  bifrost_List : M S (result (list DesiredLRPSchedulingInfo));
  bifrost_Update : UpdateDesiredLRPRequest → M S (result unit);
  bifrost_Stop : string → M S (result unit);
  bifrost_GetApp : string → M S (option DesiredLRP);
  bifrost_GetInstances : string → M S (result (list Instance_))
}.

Class Stager (S : Type) := {
  stager_Stage : string → StagingRequestFromCC → M S (result unit);
  stager_CompleteStaging : TaskCallbackResponse → M S (result unit)
}.

(** ** Reading encoded values *)

(** Which member goes to which field is decided by computation. *)
Ltac read_fields :=
  repeat first [rewrite decide_True by (vm_compute; reflexivity)
               |rewrite decide_False by (vm_compute; discriminate)].

Definition clean_Buildpack (b : Buildpack) : Buildpack :=
  {| bp_Name := Utf8.sanitize (bp_Name b); bp_Key := Utf8.sanitize (bp_Key b);
     bp_Url := Utf8.sanitize (bp_Url b); bp_SkipDetect := bp_SkipDetect b |}.

Lemma decode_encode_Buildpack old b :
  decode_Buildpack old (clean (encode_Buildpack b)) = Ok (clean_Buildpack b).
Proof.
  destruct b as [name key url skip]. unfold decode_Buildpack, clean_Buildpack. simpl.
  unfold Decode.field. simpl. read_fields. reflexivity.
Qed.

Lemma decode_encode_Buildpacks l :
  (Reader.parse (Printer.print (encode_Buildpacks l))) ≫=
    Decode.decode_slice zero_Buildpack decode_Buildpack None
  = Ok (fmap (M := list) clean_Buildpack <$> l).
Proof.
  rewrite parse_print.
  - destruct l as [l|]; [|done]. simpl. f_equal.
    assert (Decode.decode_elems zero_Buildpack decode_Buildpack (clean <$> (encode_Buildpack <$> l))
      = Ok (clean_Buildpack <$> l)) as ->; [|done].
    induction l as [|b l IH]; [done|]. rewrite !fmap_cons.
    cbn [Decode.decode_elems]. rewrite decode_encode_Buildpack. simpl. by rewrite IH.
  - destruct l as [l|]; [|done]. simpl. by induction l.
Qed.
