(* ===== verification/Kube.v ===== *)
(** * The Kubernetes API as the code sees it

    The fields of the API types that the code sets or reads, the calls of
    [client-go] the code makes (an interface, [KubeClient]) and what the API
    server documents about them ([KubeLaws]): a call may fail at any time, a
    failed write may or may not have been applied, and a call that succeeds did
    what it says; the server may fill in what a pod template leaves unset and
    add labels to that of a job.  A reference server implements the interface
    and fills in the documented defaults. *)

From S2P Require Import Prelude Json Opi.
From stdpp Require Import base gmap strings list fin_maps pretty.
From Stdlib Require Import ZArith Ascii.

(** ** API types *)

(** [ResourceVersion] is set by the server; the code never names it, but sends
    it back with every object it has read. *)
Record ObjectMeta := {
  om_Name : string;
  om_Namespace : string;
  om_ResourceVersion : string;
  om_Labels : gomap string;
  om_Annotations : gomap string
}.

(** An [EnvVar]; the value may come from a field of the pod. *)
Record EnvVar := { ev_Name : string; ev_Value : string; ev_FieldPath : option string }.

Record HTTPGetAction := { hga_Path : string; hga_Port : Z }.
Record TCPSocketAction := { tsa_Port : Z }.

Record Probe := {
  pr_HTTPGet : option HTTPGetAction;
  pr_TCPSocket : option TCPSocketAction;
  pr_InitialDelaySeconds : Z;
  pr_FailureThreshold : Z
}.

Record ContainerPort := { cp_Name : string; cp_ContainerPort : Z }.
Record VolumeMount := { vm_Name : string; vm_ReadOnly : bool; vm_MountPath : string }.
Record Volume := { vol_Name : string; vol_SecretName : string }.
Record HostAlias := { ha_IP : string; ha_Hostnames : list string }.

Record Container := {
  ct_Name : string;
  ct_Image : string;
  ct_Command : list string;
  ct_Env : list EnvVar;
  ct_Ports : list ContainerPort;
  ct_LivenessProbe : option Probe;
  ct_ReadinessProbe : option Probe;
  ct_VolumeMounts : list VolumeMount
}.

Record PodTemplateSpec := {
  pt_Labels : gomap string;
  pt_Containers : list Container;
  pt_RestartPolicy : string;
  pt_HostAliases : list HostAlias;
  pt_Volumes : list Volume
}.

Record StatefulSetSpec := {
  ss_Replicas : option Z;
  ss_Selector : gomap string;
  ss_Template : PodTemplateSpec
}.

Record StatefulSet := {
  sts_meta : ObjectMeta;
  sts_Spec : StatefulSetSpec;
  sts_ReadyReplicas : Z      (* Status.ReadyReplicas *)
}.

Record ServicePort := { sp_Name : string; sp_Port : Z }.

Record ServiceSpec := {
  svs_ClusterIP : string;
  svs_Ports : list ServicePort;
  svs_Selector : gomap string
}.

Record Service := { svc_meta : ObjectMeta; svc_Spec : ServiceSpec }.

Record IngressBackend := { ib_ServiceName : string; ib_ServicePort : Z }.
Record HTTPIngressPath := { hip_Path : string; hip_Backend : IngressBackend }.

(** The [HTTP] pointer of a rule is [nil] or leads to the paths. *)
Record IngressRule := { ir_Host : string; ir_HTTP : option (list HTTPIngressPath) }.

Record Ingress := {
  ing_meta : ObjectMeta;
  ing_Kind : string;
  ing_APIVersion : string;
  ing_Rules : list IngressRule
}.

Record JobSpec := {
  js_ActiveDeadlineSeconds : option Z;
  js_Template : PodTemplateSpec
}.

Record Job := { job_meta : ObjectMeta; job_Spec : JobSpec }.

(** ** Kinds and the objects a namespace holds *)

Inductive kind := StatefulSets | Services | Ingresses | Jobs.

#[global] Instance kind_eq_dec : EqDecision kind.
Proof. solve_decision. Defined.

Definition obj (k : kind) : Type :=
  match k with
  | StatefulSets => StatefulSet
  | Services => Service
  | Ingresses => Ingress
  | Jobs => Job
  end.

Definition meta_of (k : kind) : obj k → ObjectMeta :=
  match k with
  | StatefulSets => sts_meta
  | Services => svc_meta
  | Ingresses => ing_meta
  | Jobs => job_meta
  end.

Definition name_of (k : kind) (o : obj k) : string := om_Name (meta_of k o).
Definition namespace_of (k : kind) (o : obj k) : string := om_Namespace (meta_of k o).
Definition version_of (k : kind) (o : obj k) : string := om_ResourceVersion (meta_of k o).

(** What the server fills in where nothing is set: the restart policy, and of a
    probe the path and the failures it takes. *)
Definition fill (s d : string) : string := if String.eqb s "" then d else s.

Definition fill_action (a : HTTPGetAction) : HTTPGetAction :=
  {| hga_Path := fill (hga_Path a) "/"; hga_Port := hga_Port a |}.

Definition fill_probe (p : Probe) : Probe :=
  {| pr_HTTPGet := fill_action <$> pr_HTTPGet p;
     pr_TCPSocket := pr_TCPSocket p;
     pr_InitialDelaySeconds := pr_InitialDelaySeconds p;
     pr_FailureThreshold := if (pr_FailureThreshold p =? 0)%Z then 3%Z else pr_FailureThreshold p |}.

Definition fill_container (c : Container) : Container :=
  {| ct_Name := ct_Name c; ct_Image := ct_Image c; ct_Command := ct_Command c; ct_Env := ct_Env c;
     ct_Ports := ct_Ports c; ct_LivenessProbe := fill_probe <$> ct_LivenessProbe c;
     ct_ReadinessProbe := fill_probe <$> ct_ReadinessProbe c; ct_VolumeMounts := ct_VolumeMounts c |}.

Definition fill_template (labels : gomap string) (t : PodTemplateSpec) : PodTemplateSpec :=
  {| pt_Labels := labels; pt_Containers := fill_container <$> pt_Containers t;
     pt_RestartPolicy := fill (pt_RestartPolicy t) "Always"; pt_HostAliases := pt_HostAliases t;
     pt_Volumes := pt_Volumes t |}.

Definition fill_set (s : StatefulSetSpec) : StatefulSetSpec :=
  {| ss_Replicas := Some (default 1%Z (ss_Replicas s)); ss_Selector := ss_Selector s;
     ss_Template := fill_template (pt_Labels (ss_Template s)) (ss_Template s) |}.

(** The pods of a job get a label of their own. *)
Definition fill_job (name : string) (s : JobSpec) : JobSpec :=
  let labels := default ∅ (pt_Labels (js_Template s)) in
  {| js_ActiveDeadlineSeconds := js_ActiveDeadlineSeconds s;
     js_Template := fill_template
       (Some (match labels !! "job-name" with
              | Some _ => labels
              | None => <["job-name" := name]> labels
              end)) (js_Template s) |}.

(** What the server sets in an object it stores. *)
Definition with_server (ns rv : string) (m : ObjectMeta) : ObjectMeta :=
  {| om_Name := om_Name m; om_Namespace := ns; om_ResourceVersion := rv;
     om_Labels := om_Labels m; om_Annotations := om_Annotations m |}.

Definition on_server (ns rv : string) (k : kind) : obj k → obj k :=
  match k with
  | StatefulSets => λ o, {| sts_meta := with_server ns rv (sts_meta o);
      sts_Spec := fill_set (sts_Spec o); sts_ReadyReplicas := sts_ReadyReplicas o |}
  | Services => λ o, {| svc_meta := with_server ns rv (svc_meta o); svc_Spec := svc_Spec o |}
  | Ingresses => λ o, {| ing_meta := with_server ns rv (ing_meta o); ing_Kind := ing_Kind o;
      ing_APIVersion := ing_APIVersion o; ing_Rules := ing_Rules o |}
  | Jobs => λ o, {| job_meta := with_server ns rv (job_meta o);
      job_Spec := fill_job (om_Name (job_meta o)) (job_Spec o) |}
  end.

(** An object's key: its namespace and name. *)
Abbreviation key := (string * string)%type.

Record Cluster := {
  cl_sts : gmap key StatefulSet;
  cl_svc : gmap key Service;
  cl_ing : gmap key Ingress;
  cl_job : gmap key Job
}.

Definition objs (c : Cluster) (k : kind) : gmap key (obj k) :=
  match k with
  | StatefulSets => cl_sts c
  | Services => cl_svc c
  | Ingresses => cl_ing c
  | Jobs => cl_job c
  end.

Definition put_objs (k : kind) : gmap key (obj k) → Cluster → Cluster :=
  match k with
  | StatefulSets => λ m c,
      {| cl_sts := m; cl_svc := cl_svc c; cl_ing := cl_ing c; cl_job := cl_job c |}
  | Services => λ m c,
      {| cl_sts := cl_sts c; cl_svc := m; cl_ing := cl_ing c; cl_job := cl_job c |}
  | Ingresses => λ m c,
      {| cl_sts := cl_sts c; cl_svc := cl_svc c; cl_ing := m; cl_job := cl_job c |}
  | Jobs => λ m c,
      {| cl_sts := cl_sts c; cl_svc := cl_svc c; cl_ing := cl_ing c; cl_job := m |}
  end.

Lemma objs_put_eq k m c : objs (put_objs k m c) k = m.
Proof. by destruct k. Qed.
Lemma objs_put_ne k k' m c : k ≠ k' → objs (put_objs k m c) k' = objs c k'.
Proof. by destruct k, k'. Qed.
Lemma put_objs_id k c : put_objs k (objs c k) c = c.
Proof. by destruct k, c. Qed.
Lemma put_put k m m' c : put_objs k m (put_objs k m' c) = put_objs k m c.
Proof. by destruct k. Qed.

(** Every object is stored under its own namespace and name. *)
Definition cluster_wf (c : Cluster) : Prop :=
  ∀ k ns name o, objs c k !! (ns, name) = Some o → namespace_of k o = ns ∧ name_of k o = name.

Definition objs_in (c : Cluster) (k : kind) (ns : string) : list (obj k) :=
  snd <$> filter (λ p, p.1.1 = ns) (map_to_list (objs c k)).

Lemma elem_of_objs_in c k ns o :
  o ∈ objs_in c k ns ↔ ∃ name, objs c k !! (ns, name) = Some o.
Proof.
  unfold objs_in. rewrite list_elem_of_fmap. split.
  - intros ([[ns' name] o'] & -> & H). apply list_elem_of_filter in H as [Hns H].
    simpl in Hns. subst ns'. apply elem_of_map_to_list in H. eauto.
  - intros [name H]. exists ((ns, name), o). split; [done|].
    apply list_elem_of_filter. split; [done|]. by apply elem_of_map_to_list.
Qed.

(** ** Label selectors: everything, or one equality *)

Definition label_char (c : ascii) : bool :=
  byte_in 48 57 c || byte_in 65 90 c || byte_in 97 122 c
  || (c =? "-")%char || (c =? "_")%char || (c =? ".")%char.

Definition alnum (c : ascii) : bool := byte_in 48 57 c || byte_in 65 90 c || byte_in 97 122 c.

(** At most 63 characters, letters, digits, [-], [_] and [.], the first and
    the last alphanumeric; or empty. *)
Definition label_value (s : string) : bool :=
  let l := String.list_ascii_of_string s in
  forallb label_char l && (length l <=? 63)%nat &&
  match l, last l with
  | c :: _, Some d => alnum c && alnum d
  | _, _ => true
  end.

Inductive selector := SelAll | SelName (v : string).

Definition parse_selector (sel : string) : option selector :=
  match sel with
  | EmptyString => Some SelAll
  | _ => match Reader.strip "name=" sel with
         | Some v => if label_value v then Some (SelName v) else None
         | None => None
         end
  end.

Definition selects (sel : selector) (labels : gomap string) : bool :=
  match sel with
  | SelAll => true
  | SelName v => bool_decide (labels ≫= lookup "name" = Some v)
  end.

(** ** What is observed of the outside world

    The objects, the resource versions that were ever given, the batches of
    routes handed to the emitter, and whether the API server is [healthy]: from
    then on it refuses no acceptable request. *)
Record Obs := {
  cluster : Cluster;
  versions : gset string;
  sent : list (list Routes);
  healthy : bool
}.

Definition set_cluster (c : Cluster) (v : Obs) : Obs :=
  {| cluster := c; versions := versions v; sent := sent v; healthy := healthy v |}.

Definition send_batch (b : list Routes) (v : Obs) : Obs :=
  {| cluster := cluster v; versions := versions v; sent := sent v ++ [b];
     healthy := healthy v |}.

(** Every stored object has a version that was given. *)
Definition versions_wf (v : Obs) : Prop :=
  ∀ k i o, objs (cluster v) k !! i = Some o → version_of k o ∈ versions v ∧ version_of k o ≠ "".

(** ** The calls *)

Class KubeClient (S : Type) := {
  kube_create : ∀ k, string → obj k → M S (result (obj k));
  kube_update : ∀ k, string → obj k → M S (result (obj k));
  kube_get : ∀ k, string → string → M S (result (obj k));
  kube_list : ∀ k, string → string → M S (result (list (obj k)));
  kube_delete : ∀ k : kind, string → string → M S (result unit)
}.

(** Sending on the channel to the route emitter; the emitter receives in a
    loop, so the send returns. *)
Class RoutesChan (S : Type) := { chan_send : list Routes → M S unit }.

(** Maps that JSON cannot tell apart. *)
Definition same_map (m m' : gomap string) : Prop := default ∅ m = default ∅ m'.

#[global] Instance same_map_equiv : Equivalence same_map.
Proof. split; red; unfold same_map; congruence. Qed.

#[global] Instance gomap_get_proper : Proper (same_map ==> (=) ==> (=)) gomap_get.
Proof.
  intros [m|] [m'|] H k ? <-; unfold same_map in H; simpl in H; unfold gomap_get; simpl;
    subst; by rewrite ?lookup_empty.
Qed.

(** What the server stores of an object it is sent: the fields it owns itself
    (the status, an unset [ClusterIP]) are its own, in a pod template it fills
    in what is not set, and it adds labels to the pods of a job. *)
Definition action_stored (a a' : HTTPGetAction) : Prop :=
  hga_Port a' = hga_Port a ∧ (hga_Path a ≠ "" → hga_Path a' = hga_Path a).

Record probe_stored (p p' : Probe) : Prop := {
  stored_http : option_Forall2 action_stored (pr_HTTPGet p) (pr_HTTPGet p');
  stored_tcp : pr_TCPSocket p' = pr_TCPSocket p;
  stored_delay : pr_InitialDelaySeconds p' = pr_InitialDelaySeconds p;
  stored_failures : pr_FailureThreshold p ≠ 0%Z → pr_FailureThreshold p' = pr_FailureThreshold p
}.

Record container_stored (c c' : Container) : Prop := {
  stored_container_name : ct_Name c' = ct_Name c;
  stored_image : ct_Image c' = ct_Image c;
  stored_command : ct_Command c' = ct_Command c;
  stored_env : ct_Env c' = ct_Env c;
  stored_ports : ct_Ports c' = ct_Ports c;
  stored_liveness : option_Forall2 probe_stored (ct_LivenessProbe c) (ct_LivenessProbe c');
  stored_readiness : option_Forall2 probe_stored (ct_ReadinessProbe c) (ct_ReadinessProbe c');
  stored_mounts : ct_VolumeMounts c' = ct_VolumeMounts c
}.

(** All but the labels. *)
Record template_stored (t t' : PodTemplateSpec) : Prop := {
  stored_containers : Forall2 container_stored (pt_Containers t) (pt_Containers t');
  stored_restart : pt_RestartPolicy t ≠ "" → pt_RestartPolicy t' = pt_RestartPolicy t;
  stored_aliases : pt_HostAliases t' = pt_HostAliases t;
  stored_volumes : pt_Volumes t' = pt_Volumes t
}.

Record set_stored (s s' : StatefulSetSpec) : Prop := {
  stored_replicas : is_Some (ss_Replicas s) → ss_Replicas s' = ss_Replicas s;
  stored_selector : ss_Selector s' = ss_Selector s;
  stored_set_labels : pt_Labels (ss_Template s') = pt_Labels (ss_Template s);
  stored_template : template_stored (ss_Template s) (ss_Template s')
}.

Record job_stored (s s' : JobSpec) : Prop := {
  stored_deadline : js_ActiveDeadlineSeconds s' = js_ActiveDeadlineSeconds s;
  stored_job_labels : default ∅ (pt_Labels (js_Template s)) ⊆ default ∅ (pt_Labels (js_Template s'));
  stored_job_template : template_stored (js_Template s) (js_Template s')
}.

Definition spec_stored (k : kind) : obj k → obj k → Prop :=
  match k with
  | StatefulSets => λ o o', set_stored (sts_Spec o) (sts_Spec o')
  | Services => λ o o', svs_Ports (svc_Spec o') = svs_Ports (svc_Spec o) ∧
                        svs_Selector (svc_Spec o') = svs_Selector (svc_Spec o)
  | Ingresses => λ o o', ing_Rules o' = ing_Rules o
  | Jobs => λ o o', job_stored (job_Spec o) (job_Spec o')
  end.

(** A template in which everything is set, as in what the server has stored. *)
Definition probe_filled (p : Probe) : Prop :=
  pr_FailureThreshold p ≠ 0%Z ∧ ∀ a, pr_HTTPGet p = Some a → hga_Path a ≠ "".

Definition container_filled (c : Container) : Prop :=
  (∀ p, ct_LivenessProbe c = Some p → probe_filled p) ∧
  (∀ p, ct_ReadinessProbe c = Some p → probe_filled p).

Definition template_filled (t : PodTemplateSpec) : Prop :=
  pt_RestartPolicy t ≠ "" ∧ Forall container_filled (pt_Containers t).

Definition sets_filled (c : Cluster) : Prop :=
  ∀ i t, objs c StatefulSets !! i = Some t → template_filled (ss_Template (sts_Spec t)).

(** Stored once more, such a template stays as it is. *)
Lemma probe_refilled p p' : probe_stored p p' → probe_filled p → p' = p.
Proof.
  intros [Hh Ht Hd Hf] [Hn Hp]. specialize (Hf Hn). destruct p as [g t d n], p' as [g' t' d' n'].
  simpl in *. subst. f_equal. destruct Hh as [a a' [Hport Hpath]|]; [|done].
  specialize (Hpath (Hp a eq_refl)). destruct a, a'. simpl in *. by subst.
Qed.

Lemma probes_refilled p p' :
  option_Forall2 probe_stored p p' → (∀ q, p = Some q → probe_filled q) → p' = p.
Proof. intros [q q' Hq|] Hf; [|done]. f_equal. by apply probe_refilled; [|apply Hf]. Qed.

Lemma container_refilled c c' : container_stored c c' → container_filled c → c' = c.
Proof.
  intros [H1 H2 H3 H4 H5 H6 H7 H8] [Hl Hr].
  apply probes_refilled in H6; [|done]. apply probes_refilled in H7; [|done].
  destruct c, c'. simpl in *. by subst.
Qed.

Lemma template_refilled t t' :
  template_stored t t' → template_filled t → pt_Labels t' = pt_Labels t → t' = t.
Proof.
  intros [Hc Hr Ha Hv] [Hp Hf] Hl. specialize (Hr Hp).
  assert (pt_Containers t' = pt_Containers t) as E.
  { clear -Hc Hf. induction Hc as [|c c' l l' Hc _ IH]; [done|].
    apply Forall_cons in Hf as [Hf1 Hf2]. by rewrite (container_refilled c c'), IH. }
  destruct t, t'. simpl in *. by subst.
Qed.

Record stored_as (k : kind) (ns : string) (o o' : obj k) : Prop := {
  stored_name : name_of k o' = name_of k o;
  stored_namespace : namespace_of k o' = ns;
  stored_labels : same_map (om_Labels (meta_of k o')) (om_Labels (meta_of k o));
  stored_annotations : same_map (om_Annotations (meta_of k o')) (om_Annotations (meta_of k o));
  stored_spec : spec_stored k o o'
}.

(** A request the server can carry out, were nothing in its way. *)
Definition acceptable (k : kind) (ns : string) (o : obj k) : Prop :=
  ns ≠ "" ∧ name_of k o ≠ "" ∧ (namespace_of k o = "" ∨ namespace_of k o = ns).

(** A stored object gets a version that was not given before, unless nothing
    changes. *)
Definition inserted (k : kind) (ns : string) (o : obj k) (v v' : Obs) (o' : obj k) : Prop :=
  (stored_as k ns o o' ∧
   (version_of k o' ∉ versions v ∨ objs (cluster v) k !! (ns, name_of k o) = Some o')) ∧
  cluster v' = put_objs k (<[(ns, name_of k o) := o']> (objs (cluster v) k)) (cluster v).

Definition deleted (k : kind) (ns name : string) (v v' : Obs) : Prop :=
  cluster v' = put_objs k (delete (ns, name) (objs (cluster v) k)) (cluster v).

(** An update is taken if the object was not written since it was read: it
    carries the stored version, or none. *)
Definition current (k : kind) (o o0 : obj k) : Prop :=
  version_of k o = "" ∨ version_of k o = version_of k o0.

(** An API call changes nothing but the objects and the versions. *)
Definition api_frame (v v' : Obs) : Prop :=
  (sent v' = sent v ∧ versions v ⊆ versions v') ∧ (healthy v = true → healthy v' = true).

Definition create_spec (k : kind) (ns : string) (o : obj k) (v : Obs)
    (out : outcome (result (obj k))) (v' : Obs) : Prop :=
  api_frame v v' ∧ ∃ r, out = Ret r ∧
  match r with
  | Ok o' => objs (cluster v) k !! (ns, name_of k o) = None ∧ inserted k ns o v v' o'
  | Err _ =>
      (cluster v' = cluster v ∨
       objs (cluster v) k !! (ns, name_of k o) = None ∧ ∃ o', inserted k ns o v v' o') ∧
      (healthy v = true → cluster v' = cluster v ∧
       (acceptable k ns o → version_of k o = "" →
        is_Some (objs (cluster v) k !! (ns, name_of k o))))
  end.

Definition update_spec (k : kind) (ns : string) (o : obj k) (v : Obs)
    (out : outcome (result (obj k))) (v' : Obs) : Prop :=
  api_frame v v' ∧ ∃ r, out = Ret r ∧
  match r with
  | Ok o' => (∃ o0, objs (cluster v) k !! (ns, name_of k o) = Some o0 ∧ current k o o0) ∧
             inserted k ns o v v' o'
  | Err _ =>
      (cluster v' = cluster v ∨
       (∃ o0, objs (cluster v) k !! (ns, name_of k o) = Some o0 ∧ current k o o0) ∧
       ∃ o', inserted k ns o v v' o') ∧
      (healthy v = true → cluster v' = cluster v ∧
       (acceptable k ns o → ∀ o0, objs (cluster v) k !! (ns, name_of k o) = Some o0 →
        ¬ current k o o0))
  end.

Definition get_spec (k : kind) (ns name : string) (v : Obs)
    (out : outcome (result (obj k))) (v' : Obs) : Prop :=
  api_frame v v' ∧ cluster v' = cluster v ∧ ∃ r, out = Ret r ∧
  match r with
  | Ok o => objs (cluster v) k !! (ns, name) = Some o
  | Err _ => healthy v = true → ns ≠ "" → name ≠ "" → objs (cluster v) k !! (ns, name) = None
  end.

Definition list_spec (k : kind) (ns sel : string) (v : Obs)
    (out : outcome (result (list (obj k)))) (v' : Obs) : Prop :=
  api_frame v v' ∧ cluster v' = cluster v ∧ ∃ r, out = Ret r ∧
  match r with
  | Ok l =>
      ns ≠ "" → ∀ s, parse_selector sel = Some s →
      l ≡ₚ filter (λ o, selects s (om_Labels (meta_of k o)) = true) (objs_in (cluster v) k ns)
  | Err _ => healthy v = true → ns = "" ∨ parse_selector sel = None
  end.

Definition delete_spec (k : kind) (ns name : string) (v : Obs)
    (out : outcome (result unit)) (v' : Obs) : Prop :=
  api_frame v v' ∧ ∃ r, out = Ret r ∧
  match r with
  | Ok _ => is_Some (objs (cluster v) k !! (ns, name)) ∧ deleted k ns name v v'
  | Err _ =>
      (cluster v' = cluster v ∨ deleted k ns name v v') ∧
      (healthy v = true → cluster v' = cluster v ∧
       (ns ≠ "" → name ≠ "" → objs (cluster v) k !! (ns, name) = None))
  end.

Class KubeLaws (S : Type) `{!KubeClient S, !RoutesChan S, !Observed S Obs} := {
  kube_wf : ∀ s : S, good s → cluster_wf (cluster (view s)) ∧ versions_wf (view s);
  kube_filled : ∀ s : S, good s → sets_filled (cluster (view s));
  create_law : ∀ k ns o v, wp (kube_create k ns o) (create_spec k ns o v) v;
  update_law : ∀ k ns o v, wp (kube_update k ns o) (update_spec k ns o v) v;
  get_law : ∀ k ns name v, wp (kube_get k ns name) (get_spec k ns name v) v;
  list_law : ∀ k ns sel v, wp (kube_list k ns sel) (list_spec k ns sel v) v;
  delete_law : ∀ k ns name v, wp (kube_delete k ns name) (delete_spec k ns name v) v;
  send_law : ∀ b v, wp (chan_send b) (λ o v', o = Ret tt ∧ v' = send_batch b v) v
}.

(** The views of a good state are well-formed. *)
Lemma wp_wf {S} `{KubeLaws S} {A} (c : M S A) (Q : outcome A → Obs → Prop) v :
  (cluster_wf (cluster v) → wp c Q v) → wp c Q v.
Proof.
  intros Hc s Hs Hv. apply Hc; [|done..]. rewrite <- Hv. by apply (kube_wf (S := S)).
Qed.

Lemma wp_filled {S} `{KubeLaws S} {A} (c : M S A) (Q : outcome A → Obs → Prop) v :
  (sets_filled (cluster v) → wp c Q v) → wp c Q v.
Proof.
  intros Hc s Hs Hv. apply Hc; [|done..]. rewrite <- Hv. by apply (kube_filled (S := S)).
Qed.

(** One API call at the head of the program: its cases. *)
Ltac wp_call law :=
  first [apply wp_try | apply wp_bind | idtac];
  eapply wp_mono; [apply law|].

(** ** A reference server

    Objects in finite maps, a revision that counts the writes;
    [srv_refusals] says which of the coming calls are refused (the network, an
    admission controller), the rest are carried out. *)
Record Server := {
  srv_cluster : Cluster;
  srv_revision : nat;
  srv_refusals : list bool;
  srv_sent : list (list Routes)
}.

Definition revision (n : nat) : string := "v" +:+ pretty n.

Definition given (n : nat) : gset string := list_to_set (revision <$> seq 1 n).

(** Whether the call is refused; the verdict is used up. *)
Definition srv_refused : M Server bool := λ s,
  match srv_refusals s with
  | [] => (Ret false, s)
  | b :: l => (Ret b, {| srv_cluster := srv_cluster s; srv_revision := srv_revision s;
                         srv_refusals := l; srv_sent := srv_sent s |})
  end.

(** A call that is carried out is given the version it may use, and changes the
    objects or leaves them alone. *)
Definition srv_call {A} (c : string → Cluster → result A * option Cluster) :
    M Server (result A) :=
  refused ← srv_refused;
  if (refused : bool) then mret (Err (ExternalError "request refused"))
  else λ s,
    let n := S (srv_revision s) in
    let (r, written) := c (revision n) (srv_cluster s) in
    (Ret r, match written with
            | Some c' => {| srv_cluster := c'; srv_revision := n;
                            srv_refusals := srv_refusals s; srv_sent := srv_sent s |}
            | None => s
            end).

Definition bad_request : error := ErrorString "the request is invalid".

Definition acceptable_b (k : kind) (ns : string) (o : obj k) : bool :=
  negb (String.eqb ns "") && negb (String.eqb (name_of k o) "")
  && (String.eqb (namespace_of k o) "" || String.eqb (namespace_of k o) ns).

Definition srv_create (k : kind) (ns : string) (o : obj k) (rv : string) (c : Cluster) :
    result (obj k) * option Cluster :=
  if acceptable_b k ns o && String.eqb (version_of k o) "" then
    let o' := on_server ns rv k o in
    match objs c k !! (ns, name_of k o) with
    | Some _ => (Err (AlreadyExistsError (name_of k o)), None)
    | None => (Ok o', Some (put_objs k (<[(ns, name_of k o) := o']> (objs c k)) c))
    end
  else (Err bad_request, None).

Definition conflict : error := ExternalError "the object has been modified".

Definition srv_update (k : kind) (ns : string) (o : obj k) (rv : string) (c : Cluster) :
    result (obj k) * option Cluster :=
  if acceptable_b k ns o then
    let o' := on_server ns rv k o in
    match objs c k !! (ns, name_of k o) with
    | Some o0 =>
        if String.eqb (version_of k o) "" || String.eqb (version_of k o) (version_of k o0)
        then (Ok o', Some (put_objs k (<[(ns, name_of k o) := o']> (objs c k)) c))
        else (Err conflict, None)
    | None => (Err (NotFoundError (name_of k o)), None)
    end
  else (Err bad_request, None).

Definition srv_get (k : kind) (ns name : string) (_ : string) (c : Cluster) :
    result (obj k) * option Cluster :=
  (match objs c k !! (ns, name) with Some o => Ok o | None => Err (NotFoundError name) end, None).

Definition srv_list (k : kind) (ns sel : string) (_ : string) (c : Cluster) :
    result (list (obj k)) * option Cluster :=
  (match parse_selector sel with
   | Some s =>
       if String.eqb ns "" then Err bad_request
       else Ok (filter (λ o, selects s (om_Labels (meta_of k o)) = true) (objs_in c k ns))
   | None => Err bad_request
   end, None).

Definition srv_delete (k : kind) (ns name : string) (_ : string) (c : Cluster) :
    result unit * option Cluster :=
  match objs c k !! (ns, name) with
  | Some _ => (Ok tt, Some (put_objs k (delete (ns, name) (objs c k)) c))
  | None => (Err (NotFoundError name), None)
  end.

#[global] Instance server_client : KubeClient Server := {|
  kube_create k ns o := srv_call (srv_create k ns o);
  kube_update k ns o := srv_call (srv_update k ns o);
  kube_get k ns name := srv_call (srv_get k ns name);
  kube_list k ns sel := srv_call (srv_list k ns sel);
  kube_delete k ns name := srv_call (srv_delete k ns name)
|}.

#[global] Instance server_chan : RoutesChan Server := {|
  chan_send b := λ s, (Ret tt,
    {| srv_cluster := srv_cluster s; srv_revision := srv_revision s;
       srv_refusals := srv_refusals s; srv_sent := srv_sent s ++ [b] |})
|}.

(** What is stored is in order: the namespace, the name, the version, and what
    is filled in. *)
Definition stored_wf (c : Cluster) (n : nat) : Prop :=
  cluster_wf c ∧
  (∀ k i o, objs c k !! i = Some o → version_of k o ∈ given n ∧ version_of k o ≠ "") ∧
  sets_filled c.

#[global] Instance server_observed : Observed Server Obs := {|
  view s := {| cluster := srv_cluster s; versions := given (srv_revision s);
               sent := srv_sent s; healthy := forallb negb (srv_refusals s) |};
  good s := stored_wf (srv_cluster s) (srv_revision s)
|}.

Section ServerLaws.
Lemma revision_fresh n : revision (S n) ∉ given n.
Proof.
  unfold given. rewrite elem_of_list_to_set, list_elem_of_fmap.
  intros (m & E & Hm%elem_of_seq). unfold revision in E.
  apply (inj (String.append "v")), (inj (pretty (A := nat))) in E. lia.
Qed.

Lemma revision_given n : revision (S n) ∈ given (S n).
Proof.
  unfold given. rewrite elem_of_list_to_set, list_elem_of_fmap. exists (S n).
  split; [done|]. apply elem_of_seq. lia.
Qed.

Lemma given_mono n : given n ⊆ given (S n).
Proof.
  unfold given. intros x. rewrite !elem_of_list_to_set, !list_elem_of_fmap.
  intros (m & -> & Hm%elem_of_seq). exists m. split; [done|]. apply elem_of_seq. lia.
Qed.

Lemma namespace_on_server ns rv k o : namespace_of k (on_server ns rv k o) = ns.
Proof. by destruct k. Qed.
Lemma name_on_server ns rv k o : name_of k (on_server ns rv k o) = name_of k o.
Proof. by destruct k. Qed.
Lemma version_on_server ns rv k o : version_of k (on_server ns rv k o) = rv.
Proof. by destruct k. Qed.

Lemma fill_not_empty s d : d ≠ "" → fill s d ≠ "".
Proof. unfold fill. by destruct (String.eqb_spec s ""). Qed.

Lemma fill_set_stays s d : s ≠ "" → fill s d = s.
Proof. unfold fill. by destruct (String.eqb_spec s ""). Qed.

Lemma fill_probe_stored p : probe_stored p (fill_probe p).
Proof.
  destruct p as [g t d n]. split; [|done|done|].
  - destruct g; constructor. split; [done|]. intros. by apply fill_set_stays.
  - cbn. by intros ->%Z.eqb_neq.
Qed.

Lemma fill_probe_filled p : probe_filled (fill_probe p).
Proof.
  split; [cbn; by destruct (Z.eqb_spec (pr_FailureThreshold p) 0)|].
  intros a (a' & _ & ->)%fmap_Some. by apply fill_not_empty.
Qed.

Lemma fill_template_stored labels t : template_stored t (fill_template labels t).
Proof.
  split; cbn; [|intros; by apply fill_set_stays|done|done].
  induction (pt_Containers t) as [|c l IH]; constructor; [|done].
  split; cbn; try done; [destruct (ct_LivenessProbe c)|destruct (ct_ReadinessProbe c)];
    constructor; apply fill_probe_stored.
Qed.

Lemma on_server_stored k ns rv o : stored_as k ns o (on_server ns rv k o).
Proof.
  split; try by destruct k. destruct k; [| |done|]; cbn [spec_stored on_server].
  - split; [|done|done|apply fill_template_stored]. intros [n E]. cbn. by rewrite E.
  - done.
  - split; [done| |apply fill_template_stored]. cbn.
    destruct (default _ _ !! "job-name") eqn:E; [done|]. by apply insert_subseteq.
Qed.

Lemma on_server_filled ns rv (t : StatefulSet) :
  template_filled (ss_Template (sts_Spec (on_server ns rv StatefulSets t))).
Proof.
  split; [apply fill_not_empty; done|]. cbn. rewrite Forall_fmap. apply Forall_true. intros c.
  split; intros p; cbn; rewrite fmap_Some; intros (q & _ & ->); apply fill_probe_filled.
Qed.

Lemma acceptable_b_spec k ns o : acceptable_b k ns o = true ↔ acceptable k ns o.
Proof.
  unfold acceptable_b, acceptable.
  rewrite !andb_true_iff, orb_true_iff, !negb_true_iff, !String.eqb_neq, !String.eqb_eq.
  tauto.
Qed.

Lemma wf_later c n : stored_wf c n → stored_wf c (S n).
Proof.
  intros (Hc & Hv & Hf). split_and!; [done| |done]. intros k i o E. destruct (Hv k i o E).
  split; [|done]. by apply given_mono.
Qed.

Lemma wf_insert k ns o c n :
  stored_wf c n →
  stored_wf (put_objs k (<[(ns, name_of k o) := on_server ns (revision (S n)) k o]> (objs c k)) c)
    (S n).
Proof.
  intros (Hc & Hv & Hf)%wf_later. split_and!.
  - intros k' ns' name' o'. destruct (decide (k = k')) as [<-|Hk].
    + rewrite objs_put_eq, lookup_insert_Some. intros [[Heq <-]|[_ E]]; [|by apply Hc in E].
      simplify_eq. by rewrite namespace_on_server, name_on_server.
    + rewrite objs_put_ne by done. apply Hc.
  - intros k' i o'. destruct (decide (k = k')) as [<-|Hk].
    + rewrite objs_put_eq, lookup_insert_Some. intros [[_ <-]|[_ E]]; [|by apply Hv in E].
      rewrite version_on_server. split; [apply revision_given|done].
    + rewrite objs_put_ne by done. apply Hv.
  - intros i t. destruct k; try exact (Hf i t).
    cbn. rewrite lookup_insert_Some. intros [[_ <-]|[_ E]]; [apply on_server_filled|by eapply Hf].
Qed.

Lemma wf_delete k ns name c n :
  stored_wf c n → stored_wf (put_objs k (delete (ns, name) (objs c k)) c) (S n).
Proof.
  intros (Hc & Hv & Hf)%wf_later. split_and!.
  - intros k' ns' name' o'. destruct (decide (k = k')) as [<-|Hk].
    + rewrite objs_put_eq, lookup_delete_Some. intros [_ E]. by apply Hc in E.
    + rewrite objs_put_ne by done. apply Hc.
  - intros k' i o'. destruct (decide (k = k')) as [<-|Hk].
    + rewrite objs_put_eq, lookup_delete_Some. intros [_ E]. by apply Hv in E.
    + rewrite objs_put_ne by done. apply Hv.
  - intros i t. destruct k; try exact (Hf i t). cbn. rewrite lookup_delete_Some. intros [_ E].
    by eapply Hf.
Qed.

(** A refused call, and one that is carried out. *)
Lemma srv_call_wp {A} (c : string → Cluster → result A * option Cluster)
    (Q : outcome (result A) → Obs → Prop) v :
  (healthy v = false → ∀ b, Q (Ret (Err (ExternalError "request refused")))
     {| cluster := cluster v; versions := versions v; sent := sent v; healthy := b |}) →
  (∀ n b, versions v = given n → stored_wf (cluster v) n → (healthy v = true → b = true) →
     let out := c (revision (S n)) (cluster v) in
     match out.2 with
     | Some c' => stored_wf c' (S n) ∧ Q (Ret out.1)
         {| cluster := c'; versions := given (S n); sent := sent v; healthy := b |}
     | None => Q (Ret out.1)
         {| cluster := cluster v; versions := versions v; sent := sent v; healthy := b |}
     end) →
  wp (srv_call c) Q v.
Proof.
  intros Hno Hyes [cl n ref st] Hs <-. unfold srv_call, srv_refused, mbind, M_bind.
  simpl in *. destruct ref as [|[] ref]; simpl.
  - specialize (Hyes n true eq_refl Hs ltac:(done)).
    by destruct (c (revision (S n)) cl) as [r [c'|]].
  - split; [done|]. by apply Hno.
  - specialize (Hyes n (forallb negb ref) eq_refl Hs ltac:(done)).
    by destruct (c (revision (S n)) cl) as [r [c'|]].
Qed.

Lemma server_frame v n c b :
  versions v = given n → (healthy v = true → b = true) →
  api_frame v {| cluster := c; versions := given (S n); sent := sent v; healthy := b |}.
Proof. intros Hn Hb. split; [|done]. split; [done|]. cbn. rewrite Hn. apply given_mono. Qed.

Lemma same_frame v b :
  (healthy v = true → b = true) →
  api_frame v {| cluster := cluster v; versions := versions v; sent := sent v; healthy := b |}.
Proof. intros Hh. split; [by split|done]. Qed.

Lemma refused_frame v b :
  healthy v = false →
  api_frame v {| cluster := cluster v; versions := versions v; sent := sent v; healthy := b |}.
Proof. intros Hh. apply same_frame. by rewrite Hh. Qed.

Lemma server_create k ns o v : wp (kube_create k ns o) (create_spec k ns o v) v.
Proof.
  apply srv_call_wp.
  { intros Hh b. split; [by apply refused_frame|]. eexists; split; [done|]. rewrite Hh.
    split; [by left|done]. }
  intros n b Hn Hwf Hb out. subst out. unfold srv_create.
  destruct (acceptable_b k ns o && String.eqb (version_of k o) "") eqn:Ha.
  2:{ split; [by apply same_frame|].
      eexists; split; [done|]. split; [by left|]. intros _. split; [done|].
      rewrite <- acceptable_b_spec. intros Hacc Hrv. by rewrite Hacc, Hrv in Ha. }
  destruct (objs (cluster v) k !! _) eqn:El; simpl.
  - split; [by apply same_frame|]. eexists; split; [done|]. split; [by left|]. eauto.
  - split; [by apply wf_insert|]. split; [by apply server_frame|].
    eexists; split; [done|]. split; [done|]. split; [|done]. split; [apply on_server_stored|].
    left. rewrite version_on_server, Hn. apply revision_fresh.
Qed.

Lemma server_update k ns o v : wp (kube_update k ns o) (update_spec k ns o v) v.
Proof.
  apply srv_call_wp.
  { intros Hh b. split; [by apply refused_frame|]. eexists; split; [done|]. rewrite Hh.
    split; [by left|done]. }
  intros n b Hn Hwf Hb out. subst out. unfold srv_update.
  destruct (acceptable_b k ns o) eqn:Ha.
  2:{ split; [by apply same_frame|].
      eexists; split; [done|]. split; [by left|]. intros _. split; [done|].
      rewrite <- acceptable_b_spec. intros Hacc. by rewrite Hacc in Ha. }
  destruct (objs (cluster v) k !! _) as [o0|] eqn:El; [destruct (_ || _) eqn:Hc|]; cbn [fst snd].
  - split; [by apply wf_insert|]. split; [by apply server_frame|].
    eexists; split; [done|]. split.
    + exists o0. split; [done|]. unfold current.
      by rewrite orb_true_iff, !String.eqb_eq in Hc.
    + split; [|done]. split; [apply on_server_stored|].
      left. rewrite version_on_server, Hn. apply revision_fresh.
  - split; [by apply same_frame|].
    eexists; split; [done|]. split; [by left|]. intros _. split; [done|]. intros _ o1 E.
    assert (o0 = o1) as <- by (rewrite El in E; congruence).
    unfold current. rewrite <- !String.eqb_eq, <- orb_true_iff, Hc. done.
  - split; [by apply same_frame|].
    eexists; split; [done|]. split; [by left|]. intros _. split; [done|]. intros _ o1 E. congruence.
Qed.

Lemma server_get k ns name v : wp (kube_get k ns name) (get_spec k ns name v) v.
Proof.
  apply srv_call_wp.
  { intros Hh b. split; [by apply refused_frame|]. split; [done|]. eexists; split; [done|].
    by rewrite Hh. }
  intros n b Hn Hwf Hb out. split; [by apply same_frame|].
  split; [done|]. eexists; split; [done|]. cbn. by destruct (objs (cluster v) k !! _) eqn:El.
Qed.

Lemma server_list k ns sel v : wp (kube_list k ns sel) (list_spec k ns sel v) v.
Proof.
  apply srv_call_wp.
  { intros Hh b. split; [by apply refused_frame|]. split; [done|]. eexists; split; [done|].
    by rewrite Hh. }
  intros n b Hn Hwf Hb out. split; [by apply same_frame|].
  split; [done|]. eexists; split; [done|]. cbn.
  destruct (parse_selector sel) as [s|]; [|by right].
  destruct (String.eqb_spec ns ""); [by left|]. intros _ s' [= <-]. done.
Qed.

Lemma server_delete k ns name v : wp (kube_delete k ns name) (delete_spec k ns name v) v.
Proof.
  apply srv_call_wp.
  { intros Hh b. split; [by apply refused_frame|]. eexists; split; [done|]. rewrite Hh.
    split; [by left|done]. }
  intros n b Hn Hwf Hb out. subst out. unfold srv_delete.
  destruct (objs (cluster v) k !! _) eqn:El; cbn [fst snd].
  - split; [by apply wf_delete|]. split; [by apply server_frame|].
    eexists; split; [done|]. by split.
  - split; [by apply same_frame|].
    eexists; split; [done|]. split; [by left|]. done.
Qed.

#[global] Instance server_laws : KubeLaws Server.
Proof.
  split; [| |apply server_create|apply server_update|apply server_get|apply server_list
    |apply server_delete|].
  - intros s (Hc & Hv & _). by split.
  - by intros s (_ & _ & Hf).
  - intros b v s Hs <-. done.
Qed.
End ServerLaws.

(** ** Footprints *)

(** Nothing but the objects [P] speaks of differs. *)
Definition touches (P : kind → key → Prop) (c c' : Cluster) : Prop :=
  ∀ k i, ¬ P k i → objs c' k !! i = objs c k !! i.

(** One object. *)
Definition only (k : kind) (ns name : string) : kind → key → Prop :=
  λ k' i, k' = k ∧ i = (ns, name).

Lemma touches_refl P c : touches P c c.
Proof. by intros k i. Qed.
Lemma touches_trans P c1 c2 c3 : touches P c1 c2 → touches P c2 c3 → touches P c1 c3.
Proof. intros H1 H2 k i Hn. by rewrite H2, H1. Qed.
Lemma touches_mono (P Q : kind → key → Prop) c c' :
  touches P c c' → (∀ k i, P k i → Q k i) → touches Q c c'.
Proof. intros H HPQ k i Hn. apply H. naive_solver. Qed.

Create HintDb touch.
#[export] Hint Resolve touches_refl : touch.

Lemma touches_insert k ns name o c :
  touches (only k ns name) c (put_objs k (<[(ns, name) := o]> (objs c k)) c).
Proof.
  intros k' i Hn. destruct (decide (k = k')) as [<-|Hk].
  - rewrite objs_put_eq, lookup_insert_ne; [done|]. intros <-. by apply Hn.
  - by rewrite objs_put_ne.
Qed.

Lemma touches_delete k ns name c :
  touches (only k ns name) c (put_objs k (delete (ns, name) (objs c k)) c).
Proof.
  intros k' i Hn. destruct (decide (k = k')) as [<-|Hk].
  - rewrite objs_put_eq, lookup_delete_ne; [done|]. intros <-. by apply Hn.
  - by rewrite objs_put_ne.
Qed.

Lemma touches_inserted k ns o v v' o' :
  inserted k ns o v v' o' → touches (only k ns (name_of k o)) (cluster v) (cluster v').
Proof. intros [_ ->]. apply touches_insert. Qed.

Lemma touches_deleted k ns name v v' :
  deleted k ns name v v' → touches (only k ns name) (cluster v) (cluster v').
Proof. intros ->. apply touches_delete. Qed.
#[export] Hint Resolve touches_inserted touches_deleted : touch.

(** What an API call that is done leaves behind, on either branch. *)
Lemma create_touches k ns o v out v' :
  create_spec k ns o v out v' → touches (only k ns (name_of k o)) (cluster v) (cluster v').
Proof.
  intros [_ ([?|?] & _ & H)]; [destruct H as [_ H]|destruct H as [[->|(_ & ? & H)] _]];
    eauto with touch.
Qed.

Lemma update_touches k ns o v out v' :
  update_spec k ns o v out v' → touches (only k ns (name_of k o)) (cluster v) (cluster v').
Proof.
  intros [_ ([?|?] & _ & H)]; [destruct H as [_ H]|destruct H as [[->|(_ & ? & H)] _]];
    eauto with touch.
Qed.

Lemma delete_touches k ns name v out v' :
  delete_spec k ns name v out v' → touches (only k ns name) (cluster v) (cluster v').
Proof.
  intros [_ ([?|?] & _ & H)]; [destruct H as [_ H]|destruct H as [[->|H] _]];
    eauto with touch.
Qed.

Lemma inserted_lookup k ns o v v' o' :
  inserted k ns o v v' o' → objs (cluster v') k !! (ns, name_of k o) = Some o'.
Proof. intros [_ ->]. by rewrite objs_put_eq, lookup_insert_eq. Qed.

Lemma deleted_lookup k ns name v v' :
  deleted k ns name v v' → objs (cluster v') k !! (ns, name) = None.
Proof. intros ->. by rewrite objs_put_eq, lookup_delete_eq. Qed.

(** ** Lookups of single objects *)

Abbreviation the_sts v ns name := (cl_sts (cluster v) !! (ns, name)).
Abbreviation the_svc v ns name := (cl_svc (cluster v) !! (ns, name)).
Abbreviation the_ing v ns name := (cl_ing (cluster v) !! (ns, name)).
Abbreviation the_job v ns name := (cl_job (cluster v) !! (ns, name)).

(** A footprint spares an object it does not own. *)
Lemma touches_spare P c c' k i : touches P c c' → ¬ P k i → objs c' k !! i = objs c k !! i.
Proof. eauto. Qed.

(** [step P v v']: only the objects of [P] differ, and a healthy server stays
    healthy.  Every call and every operation made of calls is such a step. *)
Definition step (P : kind → key → Prop) (v v' : Obs) : Prop :=
  touches P (cluster v) (cluster v') ∧ (healthy v = true → healthy v' = true).

Lemma step_refl P v : step P v v.
Proof. split; auto with touch. Qed.
Lemma step_trans P v1 v2 v3 : step P v1 v2 → step P v2 v3 → step P v1 v3.
Proof. intros [] []. split; [by eapply touches_trans|auto]. Qed.
Lemma step_mono (P Q : kind → key → Prop) v v' :
  step P v v' → (∀ k i, P k i → Q k i) → step Q v v'.
Proof. intros []. split; [by eapply touches_mono|done]. Qed.
Lemma step_same P v v' :
  cluster v' = cluster v → (healthy v = true → healthy v' = true) → step P v v'.
Proof. intros E Hh. split; [rewrite E; auto with touch|done]. Qed.

Lemma create_step k ns o v out v' :
  create_spec k ns o v out v' → step (only k ns (name_of k o)) v v'.
Proof. intros H. split; [by eapply create_touches|apply H]. Qed.
Lemma update_step k ns o v out v' :
  update_spec k ns o v out v' → step (only k ns (name_of k o)) v v'.
Proof. intros H. split; [by eapply update_touches|apply H]. Qed.
Lemma delete_step k ns name v out v' :
  delete_spec k ns name v out v' → step (only k ns name) v v'.
Proof. intros H. split; [by eapply delete_touches|apply H]. Qed.
Lemma get_step k ns name v out v' P : get_spec k ns name v out v' → step P v v'.
Proof. intros ([_ ?] & ? & _). by apply step_same. Qed.
Lemma list_step k ns sel v out v' P : list_spec k ns sel v out v' → step P v v'.
Proof. intros ([_ ?] & ? & _). by apply step_same. Qed.
#[export] Hint Resolve step_refl create_step update_step delete_step get_step list_step : touch.

Lemma wp_create `{KubeLaws S'} k ns o (Q : outcome (result (obj k)) → Obs → Prop) v :
  (∀ r v', create_spec k ns o v (Ret r) v' → Q (Ret r) v') → wp (kube_create k ns o) Q v.
Proof.
  intros HQ. eapply wp_mono; [apply create_law|]. intros out v' Hc.
  destruct (Hc) as [_ (r & -> & _)]. by apply HQ.
Qed.
Lemma wp_update `{KubeLaws S'} k ns o (Q : outcome (result (obj k)) → Obs → Prop) v :
  (∀ r v', update_spec k ns o v (Ret r) v' → Q (Ret r) v') → wp (kube_update k ns o) Q v.
Proof.
  intros HQ. eapply wp_mono; [apply update_law|]. intros out v' Hc.
  destruct (Hc) as [_ (r & -> & _)]. by apply HQ.
Qed.
Lemma wp_get `{KubeLaws S'} k ns name (Q : outcome (result (obj k)) → Obs → Prop) v :
  (∀ r v', get_spec k ns name v (Ret r) v' → Q (Ret r) v') → wp (kube_get k ns name) Q v.
Proof.
  intros HQ. eapply wp_mono; [apply get_law|]. intros out v' Hc.
  destruct (Hc) as (_ & _ & r & -> & _). by apply HQ.
Qed.
Lemma wp_list `{KubeLaws S'} k ns sel (Q : outcome (result (list (obj k))) → Obs → Prop) v :
  (∀ r v', list_spec k ns sel v (Ret r) v' → Q (Ret r) v') → wp (kube_list k ns sel) Q v.
Proof.
  intros HQ. eapply wp_mono; [apply list_law|]. intros out v' Hc.
  destruct (Hc) as (_ & _ & r & -> & _). by apply HQ.
Qed.
Lemma wp_delete `{KubeLaws S'} k ns name (Q : outcome (result unit) → Obs → Prop) v :
  (∀ r v', delete_spec k ns name v (Ret r) v' → Q (Ret r) v') → wp (kube_delete k ns name) Q v.
Proof.
  intros HQ. eapply wp_mono; [apply delete_law|]. intros out v' Hc.
  destruct (Hc) as (_ & r & -> & _). by apply HQ.
Qed.
Lemma wp_send `{KubeLaws S'} b (Q : outcome unit → Obs → Prop) v :
  Q (Ret tt) (send_batch b v) → wp (chan_send b) Q v.
Proof. intros HQ. eapply wp_mono; [apply send_law|]. by intros ? ? [-> ->]. Qed.

(** The effect of a call, from its specification and its result. *)
Lemma create_ok k ns o v o' v' : create_spec k ns o v (Ret (Ok o')) v' →
  sent v' = sent v ∧ objs (cluster v) k !! (ns, name_of k o) = None ∧ stored_as k ns o o' ∧
  objs (cluster v') k !! (ns, name_of k o) = Some o'.
Proof.
  intros ([[? _] _] & ? & [= <-] & ? & Hi). split_and!; [done|done|apply Hi|].
  by apply inserted_lookup in Hi.
Qed.
Lemma create_err k ns o v e v' : create_spec k ns o v (Ret (Err e)) v' →
  sent v' = sent v ∧ (healthy v = true → cluster v' = cluster v ∧
    (acceptable k ns o → version_of k o = "" →
     is_Some (objs (cluster v) k !! (ns, name_of k o)))).
Proof. by intros ([[? _] _] & ? & [= <-] & _ & ?). Qed.
Lemma update_ok k ns o v o' v' : update_spec k ns o v (Ret (Ok o')) v' →
  sent v' = sent v ∧ is_Some (objs (cluster v) k !! (ns, name_of k o)) ∧ stored_as k ns o o' ∧
  objs (cluster v') k !! (ns, name_of k o) = Some o'.
Proof.
  intros ([[? _] _] & ? & [= <-] & (? & ? & _) & Hi). split_and!; [done|by eexists|apply Hi|].
  by apply inserted_lookup in Hi.
Qed.
Lemma update_err k ns o v e v' : update_spec k ns o v (Ret (Err e)) v' →
  sent v' = sent v ∧ (healthy v = true → cluster v' = cluster v ∧
    (acceptable k ns o → ∀ o0, objs (cluster v) k !! (ns, name_of k o) = Some o0 →
     version_of k o ≠ version_of k o0)).
Proof.
  intros ([[? _] _] & ? & [= <-] & _ & He). split; [done|]. intros [? Hc]%He. split; [done|].
  intros Ha o0 E Hv. eapply Hc; [done..|]. by right.
Qed.
Lemma get_ok k ns name v o v' : get_spec k ns name v (Ret (Ok o)) v' →
  sent v' = sent v ∧ cluster v' = cluster v ∧ objs (cluster v) k !! (ns, name) = Some o.
Proof. by intros ([[? _] _] & ? & ? & [= <-] & ?). Qed.
Lemma get_err k ns name v e v' : get_spec k ns name v (Ret (Err e)) v' →
  sent v' = sent v ∧ cluster v' = cluster v ∧
  (healthy v = true → ns ≠ "" → name ≠ "" → objs (cluster v) k !! (ns, name) = None).
Proof. by intros ([[? _] _] & ? & ? & [= <-] & ?). Qed.
Lemma delete_ok k ns name v u v' : delete_spec k ns name v (Ret (Ok u)) v' →
  sent v' = sent v ∧ is_Some (objs (cluster v) k !! (ns, name)) ∧
  objs (cluster v') k !! (ns, name) = None.
Proof.
  intros ([[? _] _] & ? & [= <-] & ? & Hi). split_and!; [done|done|].
  by apply deleted_lookup in Hi.
Qed.
Lemma delete_err k ns name v e v' : delete_spec k ns name v (Ret (Err e)) v' →
  sent v' = sent v ∧ (healthy v = true → cluster v' = cluster v ∧
    (ns ≠ "" → name ≠ "" → objs (cluster v) k !! (ns, name) = None)).
Proof. by intros ([[? _] _] & ? & [= <-] & _ & ?). Qed.

(** Whatever a call answers, the object it is about is the old one, or the one
    that was sent, or gone. *)
Lemma create_any k ns o v r v' : create_spec k ns o v (Ret r) v' →
  objs (cluster v') k !! (ns, name_of k o) = objs (cluster v) k !! (ns, name_of k o) ∨
  ∃ o', objs (cluster v') k !! (ns, name_of k o) = Some o' ∧ stored_as k ns o o'.
Proof.
  intros (_ & ? & [= <-] & H). destruct r as [o'|e].
  - destruct H as [_ Hi]. right. exists o'. split; [by apply inserted_lookup in Hi|apply Hi].
  - destruct H as [[->|(_ & o' & Hi)] _]; [by left|right].
    exists o'. split; [by apply inserted_lookup in Hi|apply Hi].
Qed.
Lemma update_any k ns o v r v' : update_spec k ns o v (Ret r) v' →
  objs (cluster v') k !! (ns, name_of k o) = objs (cluster v) k !! (ns, name_of k o) ∨
  ∃ o', objs (cluster v') k !! (ns, name_of k o) = Some o' ∧ stored_as k ns o o'.
Proof.
  intros (_ & ? & [= <-] & H). destruct r as [o'|e].
  - destruct H as [_ Hi]. right. exists o'. split; [by apply inserted_lookup in Hi|apply Hi].
  - destruct H as [[->|(_ & o' & Hi)] _]; [by left|right].
    exists o'. split; [by apply inserted_lookup in Hi|apply Hi].
Qed.
Lemma delete_any k ns name v r v' : delete_spec k ns name v (Ret r) v' →
  objs (cluster v') k !! (ns, name) = objs (cluster v) k !! (ns, name) ∨
  objs (cluster v') k !! (ns, name) = None.
Proof.
  intros (_ & ? & [= <-] & H). destruct r as [[]|e].
  - destruct H as [_ Hi]. right. by apply deleted_lookup in Hi.
  - destruct H as [[->|Hi] _]; [by left|right; by apply deleted_lookup in Hi].
Qed.
