(* ===== verification/Service.v ===== *)
(** * Services and their routes

    [src/k8s/service.go]: the service manager, which keeps a service and a
    headless service per application and tells the route emitter which routes
    to register and unregister; [src/k8s/routes.go]: the lister the route
    collector polls. *)

From S2P Require Import Prelude Json Opi Kube.
From stdpp Require Import base gmap strings list fin_maps.
From Stdlib Require Import ZArith Ascii.

(** ** Routes as annotations *)

(** [json.Unmarshal([]byte(s), &uris)]. *)
Definition decodeRoutes (s : string) : result (slice string) := unmarshal_strings s.

Definition sliceToMap (sl : list string) : gmap string bool :=
  foldl (λ m e, <[e := true]> m) ∅ sl.

Definition getUnregisteredRoutes (existing updated : list string) : list string :=
  let updatedMap := sliceToMap updated in
  foldl (λ unregistered e,
    match updatedMap !! e with
    | None => unregistered ++ [e]
    | Some _ => unregistered
    end) [] existing.

(** ** Names of services: the regular expressions of the lister *)

Fixpoint has_suffix (w s : string) : bool :=
  String.eqb w s || match s with String _ t => has_suffix w t | EmptyString => false end.

(** [(headless)$] *)
Definition isHeadless (s : string) : bool := has_suffix "headless" s.

(** [^cf-.*$]: the dot does not match a line feed. *)
Definition isCFService (s : string) : bool :=
  match Reader.strip "cf-" s with
  | Some rest => forallb (λ c, negb (byte_in 10 10 c)) (String.list_ascii_of_string rest)
  | None => false
  end.

(** ** The objects *)

Definition toService (lrp : LRP) : Service :=
  {| svc_meta :=
       {| om_Name := GetInternalServiceName (lrp_Name lrp);
          om_Namespace := "";
          om_ResourceVersion := "";
          om_Labels := Some {[ "name" := lrp_Name lrp ]};
          om_Annotations :=
            Some {[ RegisteredRoutes := gomap_get (lrp_Metadata lrp) VcapAppUris ]} |};
     svc_Spec :=
       {| svs_ClusterIP := "";
          svs_Ports := [{| sp_Name := "service"; sp_Port := 8080 |}];
          svs_Selector := Some {[ "name" := lrp_Name lrp ]} |} |}.

Definition toHeadlessService (lrp : LRP) : Service :=
  {| svc_meta :=
       {| om_Name := GetInternalHeadlessServiceName (lrp_Name lrp);
          om_Namespace := "";
          om_ResourceVersion := "";
          om_Labels := Some {[ "name" := lrp_Name lrp ]};
          om_Annotations := None |};
     svc_Spec :=
       {| svs_ClusterIP := "None";
          svs_Ports := [{| sp_Name := "service"; sp_Port := 8080 |}];
          svs_Selector := Some {[ "name" := lrp_Name lrp ]} |} |}.

Definition svc_annotation (s : Service) (k : string) : string :=
  gomap_get (om_Annotations (svc_meta s)) k.

(** [service.Annotations[k] = v]. *)
Definition svc_annotate (s : Service) (k v : string) : outcome Service :=
  match gomap_set (om_Annotations (svc_meta s)) k v with
  | Ret m =>
      Ret {| svc_meta := {| om_Name := om_Name (svc_meta s);
                            om_Namespace := om_Namespace (svc_meta s);
                            om_ResourceVersion := om_ResourceVersion (svc_meta s);
                            om_Labels := om_Labels (svc_meta s);
                            om_Annotations := m |};
             svc_Spec := svc_Spec s |}
  | Panic why => Panic why
  | Hang => Hang
  end.

(** ** The manager *)

(** The [ServiceManager] interface. *)
Record ServiceManager (S : Type) := {
  sm_Create : LRP → M S (result unit);
  sm_CreateHeadless : LRP → M S (result unit);
  sm_Update : LRP → M S (result unit);
  sm_Delete : string → M S (result unit);
  sm_DeleteHeadless : string → M S (result unit)
}.
Arguments sm_Create {_} _ _.
Arguments sm_CreateHeadless {_} _ _.
Arguments sm_Update {_} _ _.
Arguments sm_Delete {_} _ _.
Arguments sm_DeleteHeadless {_} _ _.

(** The channel a manager was made with: [nil], or the emitter's. *)
Inductive chan := NilChan | WorkChan.

Section Manager.
Context {S : Type} `{!KubeClient S, !RoutesChan S}.

(** A send on a [nil] channel blocks for ever. *)
Definition send_on (c : chan) (b : list Routes) : M S unit :=
  match c with NilChan => hang | WorkChan => chan_send b end.

Definition svc_Create (namespace : string) (routesChan : chan) (lrp : LRP) :
    M S (result unit) :=
  s <-! kube_create Services namespace (toService lrp);
  registeredRoutes <-? decodeRoutes (svc_annotation s RegisteredRoutes);
  _ ← send_on routesChan
    [{| rt_Routes := registeredRoutes; rt_UnregisteredRoutes := None;
        rt_Name := om_Name (svc_meta s) |}];
  mret (Ok tt).

Definition svc_CreateHeadless (namespace : string) (lrp : LRP) : M S (result unit) :=
  _ <-! kube_create Services namespace (toHeadlessService lrp);
  mret (Ok tt).

Definition svc_Update (namespace : string) (routesChan : chan) (lrp : LRP) :
    M S (result unit) :=
  let serviceName := GetInternalServiceName (lrp_Name lrp) in
  service <-! kube_get Services namespace serviceName;
  registeredRoutes <-? decodeRoutes (svc_annotation service RegisteredRoutes);
  updatedRoutes <-? decodeRoutes (gomap_get (lrp_Metadata lrp) VcapAppUris);
  service ← lift_outcome
    (svc_annotate service RegisteredRoutes (gomap_get (lrp_Metadata lrp) VcapAppUris));
  _ <-! kube_update Services namespace service;
  let unregistered := getUnregisteredRoutes (elems registeredRoutes) (elems updatedRoutes) in
  _ ← send_on routesChan
    [{| rt_Routes := updatedRoutes; rt_UnregisteredRoutes := Some unregistered;
        rt_Name := serviceName |}];
  mret (Ok tt).

Definition svc_Delete (namespace : string) (routesChan : chan) (appName : string) :
    M S (result unit) :=
  let serviceName := GetInternalServiceName appName in
  service <-! kube_get Services namespace serviceName;
  existingRoutes <-? decodeRoutes (svc_annotation service RegisteredRoutes);
  _ ← send_on routesChan
    [{| rt_Routes := None; rt_UnregisteredRoutes := existingRoutes;
        rt_Name := serviceName |}];
  kube_delete Services namespace serviceName.

Definition svc_DeleteHeadless (namespace appName : string) : M S (result unit) :=
  let serviceName := GetInternalHeadlessServiceName appName in
  kube_delete Services namespace serviceName.

Definition NewServiceManager (namespace : string) (routesChan : chan) : ServiceManager S :=
  {| sm_Create := svc_Create namespace routesChan;
     sm_CreateHeadless := svc_CreateHeadless namespace;
     sm_Update := svc_Update namespace routesChan;
     sm_Delete := svc_Delete namespace routesChan;
     sm_DeleteHeadless := svc_DeleteHeadless namespace |}.

(** ** The lister of [routes.go] *)

(** The loop over the services: the first undecodable annotation ends it. *)
Fixpoint list_routes_loop (services : list Service) (routes : list Routes) :
    result (list Routes) :=
  match services with
  | [] => Ok routes
  | s :: services =>
      let name := om_Name (svc_meta s) in
      if negb (isCFService name) || isHeadless name then list_routes_loop services routes
      else
        match decodeRoutes (svc_annotation s RegisteredRoutes) with
        | Ok registered =>
            list_routes_loop services
              (routes ++ [{| rt_Routes := registered; rt_UnregisteredRoutes := None;
                             rt_Name := name |}])
        | Err e => Err e
        end
  end.

Definition ListRoutes (namespace : string) : M S (result (list Routes)) :=
  services <-! kube_list Services namespace "";
  mret (list_routes_loop services []).
End Manager.

(** ** Lemmas *)

Lemma sliceToMap_lookup sl e : sliceToMap sl !! e = if decide (e ∈ sl) then Some true else None.
Proof.
  unfold sliceToMap.
  assert (∀ m : gmap string bool, foldl (λ m e, <[e := true]> m) m sl !! e
    = if decide (e ∈ sl) then Some true else m !! e) as ->.
  { induction sl as [|a sl IH]; intros m; simpl.
    - done.
    - rewrite IH, lookup_insert. destruct (decide (a = e)) as [->|Hne].
      + rewrite (decide_True (P := e ∈ e :: sl)) by (by left). by case_decide.
      + destruct (decide (e ∈ sl)) as [Hin|Hin].
        * rewrite decide_True; [done|by right].
        * rewrite decide_False; [done|]. rewrite elem_of_cons. intros [|]; congruence. }
  by rewrite lookup_empty.
Qed.

Lemma getUnregisteredRoutes_filter existing updated :
  getUnregisteredRoutes existing updated = filter (.∉ updated) existing.
Proof.
  unfold getUnregisteredRoutes.
  enough (∀ acc, foldl (λ unregistered e, match sliceToMap updated !! e with
      | None => unregistered ++ [e] | Some _ => unregistered end) acc existing
    = acc ++ filter (.∉ updated) existing) as H by apply H.
  induction existing as [|e existing IH]; intros acc; simpl; [by rewrite app_nil_r|].
  rewrite IH, sliceToMap_lookup, filter_cons.
  destruct (decide (e ∈ updated)), (decide (e ∉ updated)); try done.
  by rewrite <- app_assoc.
Qed.

Lemma svc_annotation_stored ns s s' k :
  stored_as Services ns s s' → svc_annotation s' k = svc_annotation s k.
Proof. intros [_ _ _ Ha _]. unfold svc_annotation. by rewrite Ha. Qed.

Lemma toService_annotation lrp :
  svc_annotation (toService lrp) RegisteredRoutes = gomap_get (lrp_Metadata lrp) VcapAppUris.
Proof. unfold svc_annotation, gomap_get. simpl. by rewrite lookup_singleton_eq. Qed.

(** A service whose annotations are [nil] has no decodable routes. *)
Lemma svc_annotate_ok s k v l :
  decodeRoutes (svc_annotation s k) = Ok l →
  ∃ s', svc_annotate s k v = Ret s' ∧ svc_annotation s' k = v ∧
    name_of Services s' = name_of Services s ∧
    namespace_of Services s' = namespace_of Services s ∧ svc_Spec s' = svc_Spec s.
Proof.
  unfold svc_annotate, svc_annotation. destruct (om_Annotations (svc_meta s)) as [m|]; simpl.
  - intros _. eexists; split; [done|]. simpl. unfold gomap_get. simpl.
    by rewrite lookup_insert_eq.
  - intros H. vm_compute in H. done.
Qed.

Lemma svc_annotate_version s k v s' :
  svc_annotate s k v = Ret s' → version_of Services s' = version_of Services s.
Proof. unfold svc_annotate. destruct (gomap_set _ _ _); [|done..]. by intros [= <-]. Qed.

(** ** What the manager's operations do *)
Section ManagerSpec.
Context {S : Type} `{!KubeClient S, !RoutesChan S, !Observed S Obs, !KubeLaws S}.
Implicit Types (ns : string) (v : Obs) (lrp : LRP).

Definition uris_of lrp : string := gomap_get (lrp_Metadata lrp) VcapAppUris.

Definition registration (name : string) (l : slice string) : list Routes :=
  [{| rt_Routes := l; rt_UnregisteredRoutes := None;
      rt_Name := GetInternalServiceName name |}].

Definition svc_created ns lrp v (r : result unit) v' : Prop :=
  let name := GetInternalServiceName (lrp_Name lrp) in
  step (only Services ns name) v v' ∧
  match r with
  | Ok _ =>
      the_svc v ns name = None ∧
      (∃ s, the_svc v' ns name = Some s ∧ stored_as Services ns (toService lrp) s) ∧
      ∃ l, decodeRoutes (uris_of lrp) = Ok l ∧
           sent v' = sent v ++ [registration (lrp_Name lrp) l]
  | Err _ =>
      sent v' = sent v ∧
      (healthy v = true → ns ≠ "" →
       is_Some (the_svc v ns name) ∨ is_ok (decodeRoutes (uris_of lrp)) = false)
  end.

Lemma svc_Create_wp ns lrp v (Q : outcome (result unit) → Obs → Prop) :
  (∀ r v', svc_created ns lrp v r v' → Q (Ret r) v') →
  wp (svc_Create ns WorkChan lrp) Q v.
Proof.
  intros HQ. apply wp_try, wp_create. intros [s|e] v1 Hc; pose proof (create_step _ _ _ _ _ _ Hc).
  2:{ apply create_err in Hc as [Hs Hc]. apply HQ. split; [done|]. split; [done|].
      intros Hv Hns. left. apply Hc; [done| |done]. unfold acceptable. simpl. auto. }
  apply create_ok in Hc as (Hs & Hnone & Hst & Hl).
  rewrite (svc_annotation_stored _ _ _ _ Hst), toService_annotation.
  apply wp_try_pure. destruct (decodeRoutes _) as [l|e] eqn:Ed.
  - apply wp_bind, wp_send, wp_ret, HQ. split; [done|]. split; [done|]. split; [eauto|].
    exists l. split; [done|]. simpl. rewrite Hs.
    change (om_Name (svc_meta s)) with (name_of Services s).
    by rewrite (stored_name _ _ _ _ Hst).
  - apply HQ. split; [done|]. split; [done|]. right. unfold uris_of. by rewrite Ed.
Qed.

Definition headless_created ns lrp v (r : result unit) v' : Prop :=
  let name := GetInternalHeadlessServiceName (lrp_Name lrp) in
  step (only Services ns name) v v' ∧ sent v' = sent v ∧
  match r with
  | Ok _ =>
      the_svc v ns name = None ∧
      ∃ s, the_svc v' ns name = Some s ∧ stored_as Services ns (toHeadlessService lrp) s
  | Err _ => healthy v = true → ns ≠ "" → cluster v' = cluster v ∧ is_Some (the_svc v ns name)
  end.

Lemma svc_CreateHeadless_wp ns lrp v (Q : outcome (result unit) → Obs → Prop) :
  (∀ r v', headless_created ns lrp v r v' → Q (Ret r) v') →
  wp (svc_CreateHeadless ns lrp) Q v.
Proof.
  intros HQ. apply wp_try, wp_create. intros [s|e] v1 Hc; pose proof (create_step _ _ _ _ _ _ Hc).
  - apply create_ok in Hc as (Hs & Hnone & Hst & Hl). apply wp_ret, HQ.
    do 3 (split; [done|]). eauto.
  - apply create_err in Hc as [Hs Hc]. apply HQ. do 2 (split; [done|]).
    intros Hv Hns. split; [by apply Hc|]. apply Hc; [done| |done]. unfold acceptable. simpl. auto.
Qed.

Definition replacement (name : string) (old new : slice string) : list Routes :=
  [{| rt_Routes := new;
      rt_UnregisteredRoutes := Some (filter (.∉ elems new) (elems old));
      rt_Name := GetInternalServiceName name |}].

Definition svc_updated ns lrp v (r : result unit) v' : Prop :=
  let name := GetInternalServiceName (lrp_Name lrp) in
  step (only Services ns name) v v' ∧
  match r with
  | Ok _ =>
      ∃ s s' old new,
      the_svc v ns name = Some s ∧ the_svc v' ns name = Some s' ∧
      svs_Selector (svc_Spec s') = svs_Selector (svc_Spec s) ∧
      svc_annotation s' RegisteredRoutes = uris_of lrp ∧
      decodeRoutes (svc_annotation s RegisteredRoutes) = Ok old ∧
      decodeRoutes (uris_of lrp) = Ok new ∧
      sent v' = sent v ++ [replacement (lrp_Name lrp) old new]
  | Err _ =>
      sent v' = sent v ∧
      (healthy v = true → ns ≠ "" → cluster v' = cluster v ∧
       ∀ s, the_svc v ns name = Some s →
       is_ok (decodeRoutes (svc_annotation s RegisteredRoutes)) = false ∨
       is_ok (decodeRoutes (uris_of lrp)) = false)
  end.

Lemma svc_Update_wp ns lrp v (Q : outcome (result unit) → Obs → Prop) :
  (∀ r v', svc_updated ns lrp v r v' → Q (Ret r) v') →
  wp (svc_Update ns WorkChan lrp) Q v.
Proof.
  intros HQ. apply wp_wf. intros Hwf.
  apply wp_try, wp_get. intros [s|e] v1 Hg; pose proof (get_step _ _ _ _ _ _
    (only Services ns (GetInternalServiceName (lrp_Name lrp))) Hg) as Hstep.
  2:{ apply get_err in Hg as (Hs & Hc & Hg). apply HQ. do 2 (split; [done|]).
      intros Hv Hns. split; [done|]. intros s Hsome.
      by specialize (Hg Hv Hns ltac:(done)); simplify_eq/=. }
  apply get_ok in Hg as (Hs & Hc & Hg). destruct (Hwf _ _ _ _ Hg) as [Hns Hnm].
  apply wp_try_pure. destruct (decodeRoutes (svc_annotation s _)) as [old|e] eqn:Eold.
  2:{ apply HQ. do 2 (split; [done|]). intros _ _. split; [done|]. intros s' Hs'.
      simpl in Hg. simplify_eq. left. by rewrite Eold. }
  apply wp_try_pure. destruct (decodeRoutes (gomap_get _ _)) as [new|e] eqn:Enew.
  2:{ apply HQ. do 2 (split; [done|]). intros _ _. split; [done|]. intros s' Hs'.
      right. unfold uris_of. by rewrite Enew. }
  destruct (svc_annotate_ok s RegisteredRoutes (gomap_get (lrp_Metadata lrp) VcapAppUris) old)
    as (s1 & E1 & Ha & Hn1 & Hns1 & Hsp); [done|].
  apply wp_bind, wp_lift. rewrite E1. rewrite Hnm in Hn1.
  apply wp_try, wp_update. intros [s2|e] v2 Hu; pose proof (update_step _ _ _ _ _ _ Hu) as Hstep2;
    rewrite Hn1 in Hstep2; pose proof (step_trans _ _ _ _ Hstep Hstep2).
  - apply update_ok in Hu as (Hs2 & _ & Hst & Hl). rewrite Hn1 in Hl.
    apply wp_bind, wp_send, wp_ret, HQ. split; [done|].
    exists s, s2, old, new. split_and!; try done.
    + destruct (stored_spec _ _ _ _ Hst) as [_ ->]. by rewrite Hsp.
    + by rewrite (svc_annotation_stored _ _ _ _ Hst).
    + simpl. by rewrite Hs2, Hs, getUnregisteredRoutes_filter.
  - apply update_err in Hu as [Hs2 Hu]. apply HQ. split; [done|]. split; [congruence|].
    intros Hv Hns'. apply Hstep in Hv. destruct (Hu Hv) as [Hc2 Hno]. exfalso.
    rewrite Hn1, Hc in Hno. apply (Hno ltac:(unfold acceptable; rewrite Hn1, Hns1; auto) s Hg).
    by rewrite (svc_annotate_version _ _ _ _ E1).
Qed.

Definition unregistration (name : string) (l : slice string) : list Routes :=
  [{| rt_Routes := None; rt_UnregisteredRoutes := l;
      rt_Name := GetInternalServiceName name |}].

(** A deletion announces the routes before the service is gone. *)
Definition svc_deleted ns (app : string) v (r : result unit) v' : Prop :=
  let name := GetInternalServiceName app in
  step (only Services ns name) v v' ∧
  match r with
  | Ok _ =>
      ∃ s l, the_svc v ns name = Some s ∧ the_svc v' ns name = None ∧
      decodeRoutes (svc_annotation s RegisteredRoutes) = Ok l ∧
      sent v' = sent v ++ [unregistration app l]
  | Err _ =>
      (sent v' = sent v ∧ cluster v' = cluster v ∨
       ∃ s l, the_svc v ns name = Some s ∧
         decodeRoutes (svc_annotation s RegisteredRoutes) = Ok l ∧
         sent v' = sent v ++ [unregistration app l]) ∧
      (healthy v = true → ns ≠ "" → sent v' = sent v ∧ cluster v' = cluster v ∧
       ∀ s, the_svc v ns name = Some s →
       is_ok (decodeRoutes (svc_annotation s RegisteredRoutes)) = false)
  end.

Lemma svc_Delete_wp ns app v (Q : outcome (result unit) → Obs → Prop) :
  (∀ r v', svc_deleted ns app v r v' → Q (Ret r) v') →
  wp (svc_Delete ns WorkChan app) Q v.
Proof.
  intros HQ. apply wp_try, wp_get. intros [s|e] v1 Hg; pose proof (get_step _ _ _ _ _ _
    (only Services ns (GetInternalServiceName app)) Hg) as Hstep.
  2:{ apply get_err in Hg as (Hs & Hc & Hg). apply HQ. split; [done|].
      split; [by left|]. intros Hv Hns. split_and!; [done..|]. intros s Hsome.
      by specialize (Hg Hv Hns ltac:(done)); simplify_eq/=. }
  apply get_ok in Hg as (Hs & Hc & Hg).
  apply wp_try_pure. destruct (decodeRoutes (svc_annotation s _)) as [l|e] eqn:El.
  2:{ apply HQ. split; [done|]. split; [by left|]. intros _ _. split_and!; [done..|].
      intros s' Hs'. simpl in Hg. simplify_eq. by rewrite El. }
  apply wp_bind, wp_send, wp_delete. intros r v2 Hd.
  pose proof (delete_step _ _ _ _ _ _ Hd) as Hstep2.
  apply HQ. split; [eapply step_trans; [exact Hstep|exact Hstep2]|].
  destruct r as [[]|e].
  - apply delete_ok in Hd as (Hs2 & _ & Hl). exists s, l. split_and!; [done..|].
    rewrite Hs2. simpl. by rewrite Hs.
  - apply delete_err in Hd as (Hs2 & Hd). split.
    + right. exists s, l. split_and!; [done..|]. rewrite Hs2. simpl. by rewrite Hs.
    + intros Hv Hns. apply Hstep in Hv. destruct (Hd Hv) as [_ Hno]. simpl in Hno.
      exfalso. rewrite Hc in Hno. simpl in Hg. rewrite Hg in Hno.
      assert (Some s = None); [|done]. by apply Hno.
Qed.

Definition headless_deleted ns (app : string) v (r : result unit) v' : Prop :=
  let name := GetInternalHeadlessServiceName app in
  step (only Services ns name) v v' ∧ sent v' = sent v ∧
  match r with
  | Ok _ => is_Some (the_svc v ns name) ∧ the_svc v' ns name = None
  | Err _ => healthy v = true → ns ≠ "" → cluster v' = cluster v ∧ the_svc v ns name = None
  end.

Lemma svc_DeleteHeadless_wp ns app v (Q : outcome (result unit) → Obs → Prop) :
  (∀ r v', headless_deleted ns app v r v' → Q (Ret r) v') →
  wp (svc_DeleteHeadless ns app) Q v.
Proof.
  intros HQ. apply wp_delete. intros r v' Hd. apply HQ.
  split; [by eapply delete_step|]. destruct r as [[]|e].
  - by apply delete_ok in Hd.
  - apply delete_err in Hd as [Hs Hd]. split; [done|].
    intros Hv Hns. destruct (Hd Hv) as [? Hno]. split; [done|]. by apply Hno.
Qed.
End ManagerSpec.
