(* ===== verification/StatefulSet.v ===== *)
(** * Applications as StatefulSets

    [src/k8s/helpers.go] and [src/k8s/probe.go] (pure translations), and
    [src/k8s/statefulset.go]: the instance manager, which keeps one StatefulSet
    and one headless service per application. *)

From S2P Require Import Prelude Json Opi Kube Service.
From stdpp Require Import base gmap strings list fin_maps.
From Stdlib Require Import ZArith Lia.

(** ** [helpers.go] *)

Section Helpers.
Context `{!MapRange}.

Definition MapToEnvVar (env : gomap string) : list EnvVar :=
  (λ kv, {| ev_Name := kv.1; ev_Value := kv.2; ev_FieldPath := None |})
    <$> range_order (map_to_list (default ∅ env)).

Definition int32ptr (i : Z) : option Z := Some (to_int32 i).

(** [int64(i)] of an [int] of 64 bits. *)
Definition int64ptr (i : Z) : option Z := Some i.
End Helpers.

(** ** [probe.go] *)

(** [int32(millis / 1000)] on an unsigned number of milliseconds. *)
Definition toSeconds (millis : Z) : Z := to_int32 (millis / 1000).

Definition httpGetAction (lrp : LRP) : HTTPGetAction :=
  {| hga_Path := hc_Endpoint (lrp_Health lrp); hga_Port := hc_Port (lrp_Health lrp) |}.

Definition tcpSocketAction (lrp : LRP) : TCPSocketAction :=
  {| tsa_Port := hc_Port (lrp_Health lrp) |}.

Definition createHTTPProbe (lrp : LRP) (initialDelay failureThreshold : Z) : Probe :=
  {| pr_HTTPGet := Some (httpGetAction lrp); pr_TCPSocket := None;
     pr_InitialDelaySeconds := initialDelay; pr_FailureThreshold := failureThreshold |}.

Definition createPortProbe (lrp : LRP) (initialDelay failureThreshold : Z) : Probe :=
  {| pr_HTTPGet := None; pr_TCPSocket := Some (tcpSocketAction lrp);
     pr_InitialDelaySeconds := initialDelay; pr_FailureThreshold := failureThreshold |}.

Definition CreateLivenessProbe (lrp : LRP) : option Probe :=
  let checkType := hc_Type (lrp_Health lrp) in
  let initialDelay := toSeconds (hc_TimeoutMs (lrp_Health lrp)) in
  if String.eqb checkType "http" then Some (createHTTPProbe lrp initialDelay 4)
  else if String.eqb checkType "port" then Some (createPortProbe lrp initialDelay 4)
  else None.

Definition CreateReadinessProbe (lrp : LRP) : option Probe :=
  let checkType := hc_Type (lrp_Health lrp) in
  if String.eqb checkType "http" then Some (createHTTPProbe lrp 0 1)
  else if String.eqb checkType "port" then Some (createPortProbe lrp 0 1)
  else None.

(** ** [statefulset.go] *)

(** The [InstanceManager] interface of [desire.go]. *)
Record InstanceManager (S : Type) := {
  im_List : M S (result (list LRP));
  im_Exists : string → M S (result bool);
  im_Get : string → M S (result LRP);
  im_Create : LRP → M S (result unit);
  im_Delete : string → M S (result unit);
  im_Update : LRP → M S (result unit)
}.
Arguments im_List {_} _.
Arguments im_Exists {_} _ _.
Arguments im_Get {_} _ _.
Arguments im_Create {_} _ _.
Arguments im_Delete {_} _ _.
Arguments im_Update {_} _ _.

(** [s.Spec.Template.Spec.Containers[0]]. *)
Definition first_container (s : StatefulSet) : outcome Container :=
  match pt_Containers (ss_Template (sts_Spec s)) with
  | c :: _ => Ret c
  | [] => Panic "index out of range"
  end.

Definition sts_annotation (s : StatefulSet) (k : string) : string :=
  gomap_get (om_Annotations (sts_meta s)) k.

Definition statefulSetToLRP (s : StatefulSet) : outcome LRP :=
  match first_container s with
  | Ret c =>
      Ret {| lrp_Name := om_Name (sts_meta s);
             lrp_Image := ct_Image c;
             lrp_Command := ct_Command c;
             lrp_Env := None;
             lrp_Health := zero_Healtcheck;
             lrp_TargetInstances := 0;
             lrp_RunningInstances := sts_ReadyReplicas s;
             lrp_Metadata := Some (list_to_map [
               (ProcessGUID, sts_annotation s ProcessGUID);
               (LastUpdated, sts_annotation s LastUpdated);
               (VcapAppUris, sts_annotation s VcapAppUris)]) |}
  | Panic why => Panic why
  | Hang => Hang
  end.

Fixpoint statefulSetsToLRPs (l : list StatefulSet) : outcome (list LRP) :=
  match l with
  | [] => Ret []
  | s :: l =>
      match statefulSetToLRP s with
      | Ret lrp =>
          match statefulSetsToLRPs l with
          | Ret lrps => Ret (lrp :: lrps)
          | o => o
          end
      | Panic why => Panic why
      | Hang => Hang
      end
  end.

Section ToStatefulSet.
Context `{!MapRange} (LivenessProbeCreator ReadinessProbeCreator : LRP → option Probe).

Definition toStatefulSet (lrp : LRP) : StatefulSet :=
  let envs := MapToEnvVar (lrp_Env lrp) ++
    [{| ev_Name := "POD_NAME"; ev_Value := ""; ev_FieldPath := Some "metadata.name" |}] in
  {| sts_meta :=
       {| om_Name := lrp_Name lrp;
          om_Namespace := "";
          om_ResourceVersion := "";
          om_Labels := Some (list_to_map [("eirini", "eirini"); ("name", lrp_Name lrp)]);
          om_Annotations := lrp_Metadata lrp |};
     sts_Spec :=
       {| ss_Replicas := int32ptr (lrp_TargetInstances lrp);
          ss_Selector := Some {[ "name" := lrp_Name lrp ]};
          ss_Template :=
            {| pt_Labels := Some {[ "name" := lrp_Name lrp ]};
               pt_Containers := [
                 {| ct_Name := "opi";
                    ct_Image := lrp_Image lrp;
                    ct_Command := lrp_Command lrp;
                    ct_Env := envs;
                    ct_Ports := [{| cp_Name := "expose"; cp_ContainerPort := 8080 |}];
                    ct_LivenessProbe := LivenessProbeCreator lrp;
                    ct_ReadinessProbe := ReadinessProbeCreator lrp;
                    ct_VolumeMounts := [] |}];
               pt_RestartPolicy := "";
               pt_HostAliases := [];
               pt_Volumes := [] |} |};
     sts_ReadyReplicas := 0 |}.
End ToStatefulSet.

(** [statefulSet.Spec.Replicas = &count] and the update of an annotation. *)
Definition sts_scale (s : StatefulSet) (count : Z) (updated : string) : outcome StatefulSet :=
  match gomap_set (om_Annotations (sts_meta s)) LastUpdated updated with
  | Ret m =>
      Ret {| sts_meta := {| om_Name := om_Name (sts_meta s);
                            om_Namespace := om_Namespace (sts_meta s);
                            om_ResourceVersion := om_ResourceVersion (sts_meta s);
                            om_Labels := om_Labels (sts_meta s);
                            om_Annotations := m |};
             sts_Spec := {| ss_Replicas := Some count;
                            ss_Selector := ss_Selector (sts_Spec s);
                            ss_Template := ss_Template (sts_Spec s) |};
             sts_ReadyReplicas := sts_ReadyReplicas s |}
  | Panic why => Panic why
  | Hang => Hang
  end.

Section Manager.
Context {S : Type} `{!KubeClient S, !RoutesChan S, !MapRange}.
Context (namespace : string) (services : ServiceManager S)
  (LivenessProbeCreator ReadinessProbeCreator : LRP → option Probe).

Definition sts_List : M S (result (list LRP)) :=
  statefulsets <-! kube_list StatefulSets namespace "";
  lrps ← lift_outcome (statefulSetsToLRPs statefulsets);
  mret (Ok lrps).

Definition sts_Delete (appName : string) : M S (result unit) :=
  _ <-! kube_delete StatefulSets namespace appName;
  sm_DeleteHeadless services appName.

Definition sts_Create (lrp : LRP) : M S (result unit) :=
  _ <-! kube_create StatefulSets namespace
          (toStatefulSet LivenessProbeCreator ReadinessProbeCreator lrp);
  sm_CreateHeadless services lrp.

Definition sts_Update (lrp : LRP) : M S (result unit) :=
  statefulSet <-! kube_get StatefulSets namespace (lrp_Name lrp);
  let count := to_int32 (lrp_TargetInstances lrp) in
  statefulSet ← lift_outcome
    (sts_scale statefulSet count (gomap_get (lrp_Metadata lrp) LastUpdated));
  _ <-! kube_update StatefulSets namespace statefulSet;
  mret (Ok tt).

Definition sts_Exists (appName : string) : M S (result bool) :=
  let selector := "name=" +:+ appName in
  l <-! kube_list StatefulSets namespace selector;
  mret (Ok (0 <? length l)%nat).

Definition sts_Get (appName : string) : M S (result LRP) :=
  statefulSet <-! kube_get StatefulSets namespace appName;
  lrp ← lift_outcome (statefulSetToLRP statefulSet);
  mret (Ok lrp).
End Manager.

Definition NewStatefulSetManager {S} `{!KubeClient S, !RoutesChan S, !MapRange}
    (namespace : string) : InstanceManager S :=
  let services := NewServiceManager namespace NilChan in
  {| im_List := sts_List namespace;
     im_Exists := sts_Exists namespace;
     im_Get := sts_Get namespace;
     im_Create := sts_Create namespace services CreateLivenessProbe CreateReadinessProbe;
     im_Delete := sts_Delete namespace services;
     im_Update := sts_Update namespace |}.

(** ** Pure facts *)

Lemma toSeconds_floor millis :
  (0 ≤ millis < 1000 * 2 ^ 31)%Z →
  (1000 * toSeconds millis ≤ millis < 1000 * toSeconds millis + 1000)%Z.
Proof.
  intros H. unfold toSeconds. rewrite to_int32_id.
  - pose proof (Z.div_mod millis 1000). pose proof (Z.mod_pos_bound millis 1000). lia.
  - unfold is_int32. split.
    + pose proof (Z.div_pos millis 1000). lia.
    + apply Z.div_lt_upper_bound; lia.
Qed.

Lemma MapToEnvVar_names `{!MapRange} env :
  ev_Name <$> MapToEnvVar env ≡ₚ (map_to_list (default ∅ env)).*1.
Proof.
  unfold MapToEnvVar. rewrite <- list_fmap_compose. apply fmap_Permutation, range_order_perm.
Qed.

Lemma elem_of_MapToEnvVar `{!MapRange} env x :
  x ∈ MapToEnvVar env ↔
  default ∅ env !! ev_Name x = Some (ev_Value x) ∧ ev_FieldPath x = None.
Proof.
  unfold MapToEnvVar. rewrite list_elem_of_fmap. split.
  - intros ([k w] & -> & Hin). rewrite range_order_perm in Hin.
    by apply elem_of_map_to_list in Hin.
  - intros [Hl Hf]. exists (ev_Name x, ev_Value x). split.
    + destruct x. simpl in *. by subst.
    + rewrite range_order_perm. by apply elem_of_map_to_list.
Qed.

(** What reading back a stored StatefulSet gives. *)
Definition read_back (lrp : LRP) (ready : Z) : LRP :=
  {| lrp_Name := lrp_Name lrp;
     lrp_Image := lrp_Image lrp;
     lrp_Command := lrp_Command lrp;
     lrp_Env := None;
     lrp_Health := zero_Healtcheck;
     lrp_TargetInstances := 0;
     lrp_RunningInstances := ready;
     lrp_Metadata := Some (list_to_map [
       (ProcessGUID, gomap_get (lrp_Metadata lrp) ProcessGUID);
       (LastUpdated, gomap_get (lrp_Metadata lrp) LastUpdated);
       (VcapAppUris, gomap_get (lrp_Metadata lrp) VcapAppUris)]) |}.

Lemma first_container_stored ns t s c :
  stored_as StatefulSets ns t s → first_container t = Ret c →
  ∃ c', first_container s = Ret c' ∧ container_stored c c'.
Proof.
  intros Hs. destruct (stored_spec _ _ _ _ Hs) as [_ _ _ [Hc _ _ _]]. unfold first_container.
  destruct Hc as [|x x' l l' Hx _]; [done|]. intros [= <-]. by exists x'.
Qed.

Lemma statefulSetToLRP_stored `{!MapRange} ns live ready lrp s :
  stored_as StatefulSets ns (toStatefulSet live ready lrp) s →
  statefulSetToLRP s = Ret (read_back lrp (sts_ReadyReplicas s)).
Proof.
  intros Hs. destruct (first_container_stored _ _ _ _ Hs eq_refl) as (c & Ec & Hc).
  destruct Hs as [Hn _ _ Ha _]. unfold statefulSetToLRP. rewrite Ec.
  unfold sts_annotation, read_back. unfold name_of in Hn. simpl in *.
  by rewrite (stored_image _ _ Hc), (stored_command _ _ Hc), Hn, !Ha.
Qed.

Lemma sts_scale_version s count updated s' :
  sts_scale s count updated = Ret s' → version_of StatefulSets s' = version_of StatefulSets s.
Proof. unfold sts_scale. destruct (gomap_set _ _ _); [|done..]. by intros [= <-]. Qed.

Lemma sts_scale_ok s count updated :
  om_Annotations (sts_meta s) ≠ None →
  ∃ s', sts_scale s count updated = Ret s' ∧
    om_Name (sts_meta s') = om_Name (sts_meta s) ∧
    om_Namespace (sts_meta s') = om_Namespace (sts_meta s) ∧
    om_Labels (sts_meta s') = om_Labels (sts_meta s) ∧
    ss_Replicas (sts_Spec s') = Some count ∧
    ss_Template (sts_Spec s') = ss_Template (sts_Spec s) ∧
    is_Some (om_Annotations (sts_meta s') ≫= lookup LastUpdated) ∧
    ∀ k, sts_annotation s' k = if decide (k = LastUpdated) then updated else sts_annotation s k.
Proof.
  unfold sts_scale, sts_annotation. destruct (om_Annotations (sts_meta s)) as [m|]; [|done].
  intros _. simpl. eexists; split; [done|]. simpl. split_and!; [done..| |].
  - by rewrite lookup_insert_eq.
  - intros k. unfold gomap_get. simpl. rewrite lookup_insert.
    destruct (decide (LastUpdated = k)) as [<-|Hk].
    + by rewrite decide_True.
    + by rewrite decide_False by congruence.
Qed.

(** ** What the manager's operations do *)

(** The objects the instance manager owns for an application. *)
Definition instance_objects (ns app : string) : kind → key → Prop := λ k i,
  only StatefulSets ns app k i ∨ only Services ns (GetInternalHeadlessServiceName app) k i.

Section ManagerSpec.
Context {S : Type} `{!KubeClient S, !RoutesChan S, !Observed S Obs, !KubeLaws S, !MapRange}.
Implicit Types (ns app : string) (v : Obs) (lrp : LRP).

Abbreviation hsvc v ns app := (the_svc v ns (GetInternalHeadlessServiceName app)).
Abbreviation manager ns := (@NewStatefulSetManager S _ _ _ ns).
Definition the_set := toStatefulSet CreateLivenessProbe CreateReadinessProbe.

Lemma only_sts_spares ns name k i : k = Services → ¬ only StatefulSets ns name k i.
Proof. intros -> [? _]. done. Qed.
Lemma only_svc_spares ns name k i : k ≠ Services → ¬ only Services ns name k i.
Proof. intros Hk [? _]. done. Qed.

(** A step that owns no StatefulSet or no service leaves those alone. *)
Lemma step_sts_spare P v v' i :
  step P v v' → ¬ P StatefulSets i → cl_sts (cluster v') !! i = cl_sts (cluster v) !! i.
Proof. intros [Ht _]. apply (Ht StatefulSets). Qed.
Lemma step_svc_spare P v v' i :
  step P v v' → ¬ P Services i → cl_svc (cluster v') !! i = cl_svc (cluster v) !! i.
Proof. intros [Ht _]. apply (Ht Services). Qed.
Lemma step_ing_spare P v v' i :
  step P v v' → ¬ P Ingresses i → cl_ing (cluster v') !! i = cl_ing (cluster v) !! i.
Proof. intros [Ht _]. apply (Ht Ingresses). Qed.

(** The StatefulSets of the namespace are such as this manager makes: their
    name is a label, they have annotations and a container. *)
Definition sts_sane (name : string) (s : StatefulSet) : Prop :=
  om_Labels (sts_meta s) ≫= lookup "name" = Some name ∧
  om_Annotations (sts_meta s) ≠ None ∧
  ∃ lrp, statefulSetToLRP s = Ret lrp.

Definition sane ns v : Prop := ∀ name s, the_sts v ns name = Some s → sts_sane name s.

(** The metadata of an LRP is not empty. *)
Definition has_metadata lrp : Prop := ∃ k, is_Some (lrp_Metadata lrp ≫= lookup k).

(** A map with an entry is not [nil], also after the server stored it. *)
Lemma same_map_not_nil m m' k :
  same_map m m' → is_Some (m' ≫= lookup k) → m ≠ None.
Proof.
  unfold same_map. destruct m as [m|]; [done|]. destruct m' as [m'|]; simpl.
  - intros <- [? Hk]. by rewrite lookup_empty in Hk.
  - intros _ [? Hk]. done.
Qed.

Lemma same_map_lookup m m' k x :
  same_map m m' → m' ≫= lookup k = Some x → m ≫= lookup k = Some x.
Proof.
  unfold same_map. destruct m as [m|], m' as [m'|]; simpl; try done.
  - by intros ->.
  - intros <-. by rewrite lookup_empty.
Qed.

Lemma the_set_sane ns lrp s :
  has_metadata lrp → stored_as StatefulSets ns (the_set lrp) s → sts_sane (lrp_Name lrp) s.
Proof.
  intros [k Hk] Hs. split_and!.
  - apply (same_map_lookup _ _ _ _ (stored_labels _ _ _ _ Hs)). simpl.
    by rewrite lookup_insert_ne, lookup_insert_eq.
  - by eapply same_map_not_nil; [apply (stored_annotations _ _ _ _ Hs)|].
  - eexists. by eapply statefulSetToLRP_stored.
Qed.

(** A step that owns one StatefulSet keeps the namespace sane if that is. *)
Lemma sane_step ns app P v v' :
  step P v v' → (∀ i, P StatefulSets i → i = (ns, app)) → sane ns v →
  (∀ s, the_sts v' ns app = Some s → sts_sane app s) → sane ns v'.
Proof.
  intros Hst HP Hv Happ name s Hs. destruct (decide (name = app)) as [->|Hne]; [by apply Happ|].
  apply Hv. erewrite <- (step_sts_spare _ _ _ _ Hst); [exact Hs|].
  intros Hi. apply HP in Hi. congruence.
Qed.

Lemma instance_objects_sts ns app i :
  instance_objects ns app StatefulSets i → i = (ns, app).
Proof. by intros [[_ ->]|[? _]]. Qed.

Definition instance_created ns lrp v (r : result unit) v' : Prop :=
  step (instance_objects ns (lrp_Name lrp)) v v' ∧ sent v' = sent v ∧ sane ns v' ∧
  match r with
  | Ok _ =>
      the_sts v ns (lrp_Name lrp) = None ∧ hsvc v ns (lrp_Name lrp) = None ∧
      (∃ s, the_sts v' ns (lrp_Name lrp) = Some s ∧
            stored_as StatefulSets ns (the_set lrp) s) ∧
      ∃ h, hsvc v' ns (lrp_Name lrp) = Some h ∧
           stored_as Services ns (toHeadlessService lrp) h
  | Err _ =>
      healthy v = true → ns ≠ "" → lrp_Name lrp ≠ "" →
      is_Some (the_sts v ns (lrp_Name lrp)) ∨ is_Some (hsvc v ns (lrp_Name lrp))
  end.

Lemma sts_Create_wp ns lrp v (Q : outcome (result unit) → Obs → Prop) :
  sane ns v → has_metadata lrp →
  (∀ r v', instance_created ns lrp v r v' → Q (Ret r) v') →
  wp (im_Create (manager ns) lrp) Q v.
Proof.
  intros Hsane Hmeta HQ. apply wp_try, wp_create. intros r v1 Hc.
  pose proof (create_step _ _ _ _ _ _ Hc) as Hstep.
  assert (sane ns v1) as Hsane1.
  { eapply sane_step; [exact Hstep| |done|]; [by intros i [_ ->]|].
    intros s Hs. destruct (create_any _ _ _ _ _ _ Hc) as [E|(o' & E & Hst)];
      pose proof (eq_trans (eq_sym Hs) E) as E'.
    - by apply Hsane.
    - injection E' as ->. by eapply the_set_sane. }
  destruct r as [s|e].
  2:{ apply create_err in Hc as [Hs Hc]. apply HQ. split; [|split; [done|split; [done|]]].
      - eapply step_mono; [done|]. by left.
      - intros Hv Hns Hn. left. apply Hc; [done| |done]. unfold acceptable. simpl. auto. }
  apply create_ok in Hc as (Hs & Hnone & Hst & Hl).
  apply svc_CreateHeadless_wp. intros r v2 (Hstep2 & Hs2 & Hr).
  assert (hsvc v1 ns (lrp_Name lrp) = hsvc v ns (lrp_Name lrp)) as Hsame
    by (eapply step_svc_spare; [exact Hstep|by apply only_sts_spares]).
  apply HQ. split; [|split; [congruence|split]].
  { eapply step_trans; (eapply step_mono; [eassumption|]); [by left|by right]. }
  { intros name s' Hs'. apply Hsane1. erewrite <- (step_sts_spare _ _ _ _ Hstep2); [exact Hs'|].
    by apply only_svc_spares. }
  destruct r as [[]|e].
  - destruct Hr as (Hh & h & Hh2 & Hhs). split; [done|]. split; [congruence|]. split.
    + exists s. split; [|done]. erewrite (step_sts_spare _ _ _ _ Hstep2); [done|].
      by apply only_svc_spares.
    + eauto.
  - intros Hv Hns _. right. rewrite <- Hsame. apply Hr; [by apply Hstep|done].
Qed.

Definition instance_deleted ns app v (r : result unit) v' : Prop :=
  step (instance_objects ns app) v v' ∧ sent v' = sent v ∧ sane ns v' ∧
  match r with
  | Ok _ =>
      is_Some (the_sts v ns app) ∧ is_Some (hsvc v ns app) ∧
      the_sts v' ns app = None ∧ hsvc v' ns app = None
  | Err _ =>
      healthy v = true → ns ≠ "" → app ≠ "" →
      the_sts v ns app = None ∧ cluster v' = cluster v ∨
      is_Some (the_sts v ns app) ∧ hsvc v ns app = None
  end.

Lemma sts_Delete_wp ns app v (Q : outcome (result unit) → Obs → Prop) :
  sane ns v →
  (∀ r v', instance_deleted ns app v r v' → Q (Ret r) v') →
  wp (im_Delete (manager ns) app) Q v.
Proof.
  intros Hsane HQ. apply wp_try, wp_delete. intros r v1 Hd.
  pose proof (delete_step _ _ _ _ _ _ Hd) as Hstep.
  assert (sane ns v1) as Hsane1.
  { eapply sane_step; [exact Hstep| |done|]; [by intros i [_ ->]|].
    intros s Hs. destruct (delete_any _ _ _ _ _ _ Hd) as [E|E];
      pose proof (eq_trans (eq_sym Hs) E) as E'; [by apply Hsane|done]. }
  destruct r as [[]|e].
  2:{ apply delete_err in Hd as [Hs Hd]. apply HQ. split; [|split; [done|split; [done|]]].
      - eapply step_mono; [done|]. by left.
      - intros Hv Hns Hn. left. destruct (Hd Hv) as [? Hno]. split; [by apply Hno|done]. }
  apply delete_ok in Hd as (Hs & Hsome & Hl).
  apply svc_DeleteHeadless_wp. intros r v2 (Hstep2 & Hs2 & Hr).
  assert (hsvc v1 ns app = hsvc v ns app) as Hsame
    by (eapply step_svc_spare; [exact Hstep|by apply only_sts_spares]).
  apply HQ. split; [|split; [congruence|split]].
  { eapply step_trans; (eapply step_mono; [eassumption|]); [by left|by right]. }
  { intros name s' Hs'. apply Hsane1. erewrite <- (step_sts_spare _ _ _ _ Hstep2); [exact Hs'|].
    by apply only_svc_spares. }
  destruct r as [[]|e].
  - destruct Hr as [Hh Hh2]. rewrite <- Hsame. split_and!; [done..| |done].
    erewrite (step_sts_spare _ _ _ _ Hstep2); [done|]. by apply only_svc_spares.
  - intros Hv Hns _. right. split; [done|]. rewrite <- Hsame. apply Hr; [by apply Hstep|done].
Qed.

Definition instance_updated ns lrp v (r : result unit) v' : Prop :=
  step (only StatefulSets ns (lrp_Name lrp)) v v' ∧ sent v' = sent v ∧ sane ns v' ∧
  match r with
  | Ok _ =>
      ∃ s s', the_sts v ns (lrp_Name lrp) = Some s ∧ the_sts v' ns (lrp_Name lrp) = Some s' ∧
      ss_Replicas (sts_Spec s') = Some (to_int32 (lrp_TargetInstances lrp)) ∧
      ss_Template (sts_Spec s') = ss_Template (sts_Spec s) ∧
      same_map (om_Labels (sts_meta s')) (om_Labels (sts_meta s)) ∧
      ∀ k, sts_annotation s' k = if decide (k = LastUpdated)
           then gomap_get (lrp_Metadata lrp) LastUpdated else sts_annotation s k
  | Err _ => healthy v = true → ns ≠ "" → lrp_Name lrp ≠ "" →
      the_sts v ns (lrp_Name lrp) = None ∧ cluster v' = cluster v
  end.

(** A scaled StatefulSet, once stored. *)
Lemma scaled_stored ns app s s1 s2 count updated :
  sts_sane app s → template_filled (ss_Template (sts_Spec s)) →
  sts_scale s count updated = Ret s1 → stored_as StatefulSets ns s1 s2 →
  sts_sane app s2 ∧ ss_Replicas (sts_Spec s2) = Some count ∧
  ss_Template (sts_Spec s2) = ss_Template (sts_Spec s) ∧
  same_map (om_Labels (sts_meta s2)) (om_Labels (sts_meta s)) ∧
  ∀ k, sts_annotation s2 k = if decide (k = LastUpdated) then updated else sts_annotation s k.
Proof.
  intros (Hlab & Hann & lrp0 & Hlrp0) Hfill E.
  destruct (sts_scale_ok s count updated Hann) as (s' & E' & _ & _ & Hl1 & Hr1 & Ht1 & Hsome1 & Ha1).
  rewrite E in E'. injection E' as <-.
  intros [_ _ Hlab2 Hanno2 [Hr2 _ Hl2 Ht2]]. simpl in Hlab2, Hanno2. rewrite Hl1 in Hlab2.
  assert (ss_Template (sts_Spec s2) = ss_Template (sts_Spec s)) as Etpl.
  { rewrite Ht1 in Hl2, Ht2. by apply template_refilled. }
  split_and!; [|by rewrite Hr2, Hr1; [|eexists]|done|done|].
  - split_and!; [by eapply same_map_lookup|by eapply same_map_not_nil|].
    clear -Hlrp0 Etpl. unfold statefulSetToLRP, first_container in *.
    rewrite Etpl. destruct (pt_Containers _); eauto.
  - intros k. unfold sts_annotation at 1. rewrite Hanno2. apply Ha1.
Qed.

Lemma sts_Update_wp ns lrp v (Q : outcome (result unit) → Obs → Prop) :
  sane ns v →
  (∀ r v', instance_updated ns lrp v r v' → Q (Ret r) v') →
  wp (im_Update (manager ns) lrp) Q v.
Proof.
  intros Hsane HQ. apply wp_wf. intros Hwf. apply wp_filled. intros Hfill.
  apply wp_try, wp_get. intros [s|e] v1 Hg;
    pose proof (get_step _ _ _ _ _ _ (only StatefulSets ns (lrp_Name lrp)) Hg) as Hstep.
  2:{ apply get_err in Hg as (Hs & Hc & Hg). apply HQ. split_and!; [done|done| |].
      - unfold sane. by rewrite Hc.
      - intros Hv Hns Hn. split; [by apply Hg|done]. }
  apply get_ok in Hg as (Hs & Hc & Hg). destruct (Hwf _ _ _ _ Hg) as [Hns Hnm].
  destruct (Hsane _ _ Hg) as (Hlab & Hann & lrp0 & Hlrp0).
  destruct (sts_scale_ok s (to_int32 (lrp_TargetInstances lrp))
    (gomap_get (lrp_Metadata lrp) LastUpdated) Hann) as (s1 & E & Hn1 & Hns1 & _).
  apply wp_bind, wp_lift. rewrite E. apply wp_try, wp_update.
  change (om_Name (sts_meta s)) with (name_of StatefulSets s) in Hn1. rewrite Hnm in Hn1.
  change (name_of StatefulSets s1 = lrp_Name lrp) in Hn1.
  intros r v2 Hu. pose proof (update_step _ _ _ _ _ _ Hu) as Hstep2. rewrite Hn1 in Hstep2.
  pose proof (step_trans _ _ _ _ Hstep Hstep2) as Hst.
  pose proof (λ s2, scaled_stored ns _ s s1 s2 _ _ (Hsane _ _ Hg) (Hfill _ _ Hg) E) as Hstored.
  assert (sane ns v2) as Hsane2.
  { eapply sane_step; [exact Hst| |done|]; [by intros i [_ ->]|].
    intros s2 Hs2. destruct (update_any _ _ _ _ _ _ Hu) as [E2|(o' & E2 & Hst2)];
      rewrite Hn1 in E2; pose proof (eq_trans (eq_sym Hs2) E2) as E'.
    - rewrite Hc in E'. by apply Hsane.
    - injection E' as ->. by apply Hstored. }
  destruct r as [s2|e].
  - apply update_ok in Hu as (Hs2 & _ & Hst2 & Hl). rewrite Hn1 in Hl.
    apply wp_ret, HQ. split_and!; [done|congruence|done|].
    destruct (Hstored s2 Hst2) as (? & ? & ? & ? & ?). exists s, s2. split_and!; done.
  - apply update_err in Hu as (Hs2 & Hu). apply HQ. split_and!; [done|congruence|done|].
    intros Hv Hns' Hn'. apply Hstep in Hv. destruct (Hu Hv) as [Hc2 Hno]. exfalso.
    rewrite Hn1, Hc in Hno. apply (Hno ltac:(unfold acceptable, namespace_of in *; simpl in *;
      rewrite Hn1, Hns1; auto) s Hg).
    by rewrite (sts_scale_version _ _ _ _ E).
Qed.

(** [Exists] finds the StatefulSet by its label. *)
Lemma exists_answer ns app v l :
  sane ns v →
  l ≡ₚ filter (λ o, selects (SelName app) (om_Labels (sts_meta o)) = true)
         (objs_in (cluster v) StatefulSets ns) →
  (0 <? length l)%nat = bool_decide (is_Some (the_sts v ns app)).
Proof.
  intros Hlab Hl. destruct (the_sts v ns app) as [s|] eqn:E; simpl.
  - apply Nat.ltb_lt. rewrite Hl. destruct (filter _ _) as [|? ?] eqn:Ef; [|simpl; lia].
    exfalso. apply (filter_nil_not_elem_of _ _ s Ef).
    + simpl. apply bool_decide_eq_true. by apply (Hlab app).
    + apply (elem_of_objs_in (cluster v) StatefulSets ns s). eauto.
  - apply Nat.ltb_ge. rewrite Hl. destruct (filter _ _) as [|s ?] eqn:Ef; [done|]. exfalso.
    assert (s ∈ filter (λ o, selects (SelName app) (om_Labels (sts_meta o)) = true)
      (objs_in (cluster v) StatefulSets ns)) as Hin by (rewrite Ef; left).
    apply list_elem_of_filter in Hin as [Hsel Hin]. apply (elem_of_objs_in (cluster v) StatefulSets ns s) in Hin as [name Hs].
    simpl in Hsel. apply bool_decide_eq_true in Hsel. simpl in Hs.
    destruct (Hlab _ _ Hs) as [Hn _]. rewrite Hn in Hsel. simplify_eq.
Qed.

Lemma parse_name_selector app :
  label_value app = true → parse_selector ("name=" +:+ app) = Some (SelName app).
Proof.
  intros Hv. rewrite !app_cons, app_empty_l. simpl. by rewrite Hv.
Qed.

Lemma sts_Exists_wp ns app v (Q : outcome (result bool) → Obs → Prop) :
  sane ns v → ns ≠ "" → label_value app = true →
  (∀ r v', step (λ _ _, False) v v' ∧ cluster v' = cluster v ∧ sent v' = sent v ∧
     match r with
     | Ok b => b = bool_decide (is_Some (the_sts v ns app))
     | Err _ => healthy v = false
     end → Q (Ret r) v') →
  wp (im_Exists (manager ns) app) Q v.
Proof.
  intros Hlab Hns Happ HQ. apply wp_try, wp_list. intros r v1 Hl.
  pose proof (list_step _ _ _ _ _ _ (λ _ _, False) Hl) as Hstep.
  destruct Hl as ([[Hs _] _] & Hc & ? & [= <-] & Hl). destruct r as [l|e].
  - apply wp_ret, HQ. split_and!; [done..|]. apply exists_answer; [done|].
    apply (Hl Hns (SelName app)). by apply parse_name_selector.
  - apply HQ. split_and!; [done..|]. destruct (healthy v); [|done].
    destruct (Hl eq_refl) as [?|Hp]; [done|].
    rewrite (parse_name_selector _ Happ) in Hp. done.
Qed.

(** [Get] reads the first container. *)
Lemma sts_Get_wp ns app v (Q : outcome (result LRP) → Obs → Prop) :
  sane ns v →
  (∀ r v', step (λ _ _, False) v v' ∧ cluster v' = cluster v ∧ sent v' = sent v ∧
     match r with
     | Ok lrp => ∃ s, the_sts v ns app = Some s ∧ statefulSetToLRP s = Ret lrp
     | Err _ => healthy v = true → ns ≠ "" → app ≠ "" → the_sts v ns app = None
     end → Q (Ret r) v') →
  wp (im_Get (manager ns) app) Q v.
Proof.
  intros Hcont HQ. apply wp_try, wp_get. intros [s|e] v1 Hg;
    pose proof (get_step _ _ _ _ _ _ (λ _ _, False) Hg) as Hstep.
  - apply get_ok in Hg as (Hs & Hc & Hg). destruct (Hcont _ _ Hg) as (_ & _ & lrp & E).
    apply wp_bind, wp_lift. rewrite E. apply wp_ret, HQ. split_and!; eauto.
  - apply get_err in Hg as (Hs & Hc & Hg). apply HQ. split_and!; eauto.
Qed.

(** [List] reads every StatefulSet of the namespace. *)
Lemma statefulSetsToLRPs_all l :
  Forall (λ s, ∃ lrp, statefulSetToLRP s = Ret lrp) l →
  ∃ lrps, statefulSetsToLRPs l = Ret lrps ∧ Forall2 (λ s lrp, statefulSetToLRP s = Ret lrp) l lrps.
Proof.
  induction 1 as [|s l [lrp E] _ (lrps & El & IH)]; simpl; [by exists []|].
  rewrite E, El. eauto.
Qed.

Lemma sts_List_wp ns v (Q : outcome (result (list LRP)) → Obs → Prop) :
  sane ns v → ns ≠ "" →
  (∀ r v', step (λ _ _, False) v v' ∧ cluster v' = cluster v ∧ sent v' = sent v ∧
     match r with
     | Ok lrps => ∃ l, l ≡ₚ objs_in (cluster v) StatefulSets ns ∧
         Forall2 (λ s lrp, statefulSetToLRP s = Ret lrp) l lrps
     | Err _ => healthy v = false
     end → Q (Ret r) v') →
  wp (im_List (manager ns)) Q v.
Proof.
  intros Hsane Hns HQ. apply wp_try, wp_list. intros r v1 Hl.
  pose proof (list_step _ _ _ _ _ _ (λ _ _, False) Hl) as Hstep.
  destruct Hl as ([[Hs _] _] & Hc & ? & [= <-] & Hl). destruct r as [l|e].
  - specialize (Hl Hns SelAll eq_refl).
    assert (l ≡ₚ objs_in (cluster v) StatefulSets ns) as Hp.
    { rewrite Hl. clear. induction (objs_in _ _ _) as [|o k IH]; [done|].
      rewrite filter_cons_True by done. by constructor. }
    destruct (statefulSetsToLRPs_all l) as (lrps & E & Hall).
    { rewrite Hp. apply Forall_forall. intros s [name Hname]%(elem_of_objs_in _ StatefulSets).
      by apply (Hsane name). }
    apply wp_bind, wp_lift. rewrite E. apply wp_ret, HQ. split_and!; eauto.
  - apply HQ. split_and!; [done..|]. destruct (healthy v); [|done].
    by destruct (Hl eq_refl).
Qed.
End ManagerSpec.
