(* ===== verification/Ingress.v ===== *)
(** * The ingress shared by all applications

    [src/k8s/ingress.go]: one Ingress object named [eirini] holds the rules of
    every application.  The code keeps rules in maps whose keys are compared
    as Go compares them: the host by value, the paths by pointer.  So the
    pointers are modelled, with a heap they lead into. *)

From S2P Require Import Prelude Json Opi Kube Service StatefulSet.
From stdpp Require Import base gmap strings list fin_maps.
From Stdlib Require Import ZArith Ascii.

Definition ingressName : string := "eirini".
Definition ingressAPIVersion : string := "extensions/v1beta1".
Definition ingressKind : string := "Ingress".

(** ** URLs

    [net/url] and [govalidator] decide which URIs are accepted and what their
    hosts and paths are; [lower_unicode] lowers text that is not ASCII. *)
Class UrlLib := {
  URL : Type;
  url_Parse : string → result URL;
  url_Host : URL → string;
  url_Path : URL → string;
  url_String : URL → string;
  IsURL : string → bool;
  lower_unicode : string → string
}.

Section Urls.
Context `{!UrlLib}.

Fixpoint lower_ascii (s : string) : string :=
  match s with
  | String c t =>
      String (if byte_in 65 90 c then ascii_of_N (N_of_ascii c + 32) else c) (lower_ascii t)
  | EmptyString => EmptyString
  end.

(** [strings.ToLower]. *)
Definition ToLower (s : string) : string :=
  if forallb (byte_in 0 0x7F) (String.list_ascii_of_string s) then lower_ascii s
  else lower_unicode s.

Definition validateURL (uri : string) : result URL :=
  url ← url_Parse ("http://" +:+ uri);
  if IsURL (url_String url) then Ok url else Err (ErrorString "invalid url").

Definition path (p : string) : string := if String.eqb p "" then "/" else p.
End Urls.

(** ** Rules in memory *)

(** The heap of the paths that rules point to; a new cell goes at the end. *)
Abbreviation heap := (list (list HTTPIngressPath)).

(** A rule as the maps of the code see it: the host and the pointer. *)
Abbreviation rule_ref := (string * option nat)%type.

Definition alloc (host : string) (paths : list HTTPIngressPath) (h : heap) : rule_ref * heap :=
  ((host, Some (length h)), h ++ [paths]).

(** Decoding an object allocates the paths of each of its rules. *)
Definition load_rule (r : IngressRule) (h : heap) : rule_ref * heap :=
  match ir_HTTP r with
  | Some paths => alloc (ir_Host r) paths h
  | None => ((ir_Host r, None), h)
  end.

Fixpoint load_rules (l : list IngressRule) (h : heap) : list rule_ref * heap :=
  match l with
  | [] => ([], h)
  | r :: l =>
      let '(x, h) := load_rule r h in
      let '(xs, h) := load_rules l h in
      (x :: xs, h)
  end.

(** The rule a reference stands for. *)
Definition deref (h : heap) (x : rule_ref) : IngressRule :=
  {| ir_Host := x.1; ir_HTTP := x.2 ≫= λ i, h !! i |}.

(** [r.HTTP.Paths[0].Backend.ServiceName] *)
Definition rule_service (r : IngressRule) : outcome string :=
  match ir_HTTP r with
  | None => Panic "nil pointer dereference"
  | Some [] => Panic "index out of range"
  | Some (p :: _) => Ret (ib_ServiceName (hip_Backend p))
  end.

Section Rules.
Context `{!UrlLib, !MapRange}.

Fixpoint createIngressRules_loop (lrpName : string) (uriList : list string)
    (rules : list rule_ref) (h : heap) : result (list rule_ref * heap) :=
  match uriList with
  | [] => Ok (rules, h)
  | uri :: uriList =>
      url ← validateURL uri;
      let '(rule, h) := alloc (ToLower (url_Host url))
        [{| hip_Path := path (url_Path url);
            hip_Backend := {| ib_ServiceName := GetInternalServiceName lrpName;
                              ib_ServicePort := 8080 |} |}] h in
      createIngressRules_loop lrpName uriList (rules ++ [rule]) h
  end.

Definition createIngressRules (lrpName : string) (uriList : list string) (h : heap) :
    result (list rule_ref * heap) :=
  createIngressRules_loop lrpName uriList [] h.

Definition toRuleMap (sl : list rule_ref) : gmap rule_ref bool :=
  foldl (λ hash v, <[v := true]> hash) ∅ sl.

Definition range_keys (m : gmap rule_ref bool) : list rule_ref :=
  range_order (map_to_list m).*1.

Definition appendNewRules (existing updated : gmap rule_ref bool) : gmap rule_ref bool :=
  foldl (λ existing u,
    match existing !! u with None => <[u := true]> existing | Some _ => existing end)
    existing (range_keys updated).

Fixpoint removeObsolete_loop (h : heap) (updated : gmap rule_ref bool) (serviceName : string)
    (range : list rule_ref) (existing : gmap rule_ref bool) : outcome (gmap rule_ref bool) :=
  match range with
  | [] => Ret existing
  | e :: range =>
      match updated !! e with
      | Some _ => removeObsolete_loop h updated serviceName range existing
      | None =>
          match rule_service (deref h e) with
          | Ret s =>
              removeObsolete_loop h updated serviceName range
                (if String.eqb s serviceName then delete e existing else existing)
          | Panic why => Panic why
          | Hang => Hang
          end
      end
  end.

Definition removeObsoleteRules (h : heap) (existing updated : gmap rule_ref bool)
    (serviceName : string) : outcome (gmap rule_ref bool) :=
  removeObsolete_loop h updated serviceName (range_keys existing) existing.

Definition toRuleSlice (hash : gmap rule_ref bool) : list rule_ref := range_keys hash.

Definition removeDifference (h : heap) (existing updated : list rule_ref)
    (serviceName : string) : outcome (list rule_ref) :=
  let hashExisting := toRuleMap existing in
  let hashUpdated := toRuleMap updated in
  let hashExisting := appendNewRules hashExisting hashUpdated in
  match removeObsoleteRules h hashExisting hashUpdated serviceName with
  | Ret hashExisting => Ret (toRuleSlice hashExisting)
  | Panic why => Panic why
  | Hang => Hang
  end.

Definition set_rules (ing : Ingress) (rules : list IngressRule) : Ingress :=
  {| ing_meta := ing_meta ing; ing_Kind := ing_Kind ing;
     ing_APIVersion := ing_APIVersion ing; ing_Rules := rules |}.

Definition updateSpec (ing : Ingress) (lrpName : string) (uriList : list string) :
    result (outcome Ingress) :=
  let '(existing, h) := load_rules (ing_Rules ing) [] in
  '(rules, h) ← createIngressRules lrpName uriList h;
  Ok (match removeDifference h existing rules (GetInternalServiceName lrpName) with
      | Ret refs => Ret (set_rules ing (deref h <$> refs))
      | Panic why => Panic why
      | Hang => Hang
      end).

(** The loop of [Delete]: [i] stays where it is when a rule is cut out. *)
Fixpoint delete_rules_loop (fuel : nat) (serviceName : string) (i : nat)
    (rules : list IngressRule) : outcome (list IngressRule) :=
  match fuel, rules !! i with
  | S fuel, Some r =>
      match rule_service r with
      | Ret s =>
          if String.eqb s serviceName
          then delete_rules_loop fuel serviceName i (take i rules ++ drop (S i) rules)
          else delete_rules_loop fuel serviceName (S i) rules
      | Panic why => Panic why
      | Hang => Hang
      end
  | _, _ => Ret rules
  end.

Definition delete_rules (serviceName : string) (rules : list IngressRule) :
    outcome (list IngressRule) :=
  delete_rules_loop (S (length rules)) serviceName 0 rules.
End Rules.

(** ** The manager *)

Record IngressManager (S : Type) := {
  ig_Update : LRP → M S (result unit);
  ig_Delete : string → M S (result unit)
}.
Arguments ig_Update {_} _ _.
Arguments ig_Delete {_} _ _.

Section Manager.
Context {S : Type} `{!KubeClient S, !UrlLib, !MapRange}.
Context (namespace : string).

Definition updateIngressObject (ingress : Ingress) : M S (result unit) :=
  _ <-! kube_update Ingresses namespace ingress;
  mret (Ok tt).

Definition ing_Delete (lrpName : string) : M S (result unit) :=
  ing <-! kube_get Ingresses namespace ingressName;
  let serviceName := GetInternalServiceName lrpName in
  rules ← lift_outcome (delete_rules serviceName (ing_Rules ing));
  if (length rules =? 0)%nat
  then kube_delete Ingresses namespace ingressName
  else updateIngressObject (set_rules ing rules).

Definition createIngress (lrpName : string) (uriList : list string) : M S (result unit) :=
  if (length uriList =? 0)%nat then mret (Ok tt)
  else
    let ingress := {|
      ing_meta := {| om_Name := ingressName; om_Namespace := namespace;
                     om_ResourceVersion := "";
                     om_Labels := None; om_Annotations := None |};
      ing_Kind := ingressKind; ing_APIVersion := ingressAPIVersion; ing_Rules := [] |} in
    o <-? updateSpec ingress lrpName uriList;
    ingress ← lift_outcome o;
    _ <-! kube_create Ingresses namespace ingress;
    mret (Ok tt).

Fixpoint getIngress (ingresses : list Ingress) : option Ingress :=
  match ingresses with
  | [] => None
  | ing :: ingresses =>
      if String.eqb (om_Name (ing_meta ing)) ingressName then Some ing
      else getIngress ingresses
  end.

Definition ing_Update (lrp : LRP) : M S (result unit) :=
  match unmarshal_strings (gomap_get (lrp_Metadata lrp) VcapAppUris) with
  | Err _ => throw_panic "the URIs of the LRP cannot be decoded"
  | Ok uris =>
      let uriList := elems uris in
      ingresses <-! kube_list Ingresses namespace "";
      match getIngress ingresses with
      | Some ingress =>
          if (length uriList =? 0)%nat then ing_Delete (lrp_Name lrp)
          else
            o <-? updateSpec ingress (lrp_Name lrp) uriList;
            ingress ← lift_outcome o;
            updateIngressObject ingress
      | None => createIngress (lrp_Name lrp) uriList
      end
  end.

Definition NewIngressManager : IngressManager S :=
  {| ig_Update := ing_Update; ig_Delete := ing_Delete |}.
End Manager.

(** ** Pure facts: what the rule lists become *)

Definition service_of (r : IngressRule) : option string :=
  match rule_service r with Ret s => Some s | _ => None end.

(** A rule with a backend, as the API server requires and the code relies on. *)
Definition rule_wf (r : IngressRule) : Prop := is_Some (service_of r).

Lemma rule_wf_service r : rule_wf r → ∃ s, rule_service r = Ret s ∧ service_of r = Some s.
Proof. unfold rule_wf, service_of. intros [s Hs]. destruct (rule_service r); naive_solver. Qed.

(** The rules of all other applications. *)
Definition other_rules (serviceName : string) (l : list IngressRule) : list IngressRule :=
  filter (λ r, service_of r ≠ Some serviceName) l.

Lemma delete_rules_loop_filter svc pre post fuel :
  Forall rule_wf post → (length post < fuel)%nat →
  delete_rules_loop fuel svc (length pre) (pre ++ post) = Ret (pre ++ other_rules svc post).
Proof.
  intros Hwf. revert pre fuel. induction Hwf as [|r post Hr Hwf IH]; intros pre fuel Hf;
    (destruct fuel as [|fuel]; [simpl in Hf; lia|]); simpl in Hf |- *.
  - rewrite lookup_ge_None_2; [by rewrite !app_nil_r|]. rewrite app_nil_r. lia.
  - rewrite list_lookup_middle by done.
    apply rule_wf_service in Hr as (s & -> & Hs). unfold other_rules. rewrite filter_cons.
    rewrite Hs. destruct (String.eqb_spec s svc) as [->|Hne].
    + rewrite decide_False by (intros Hn; by apply Hn).
      rewrite take_app_length, drop_app_ge by lia.
      replace (S (length pre) - length pre) with 1 by lia. simpl. apply IH. lia.
    + rewrite decide_True by congruence.
      specialize (IH (pre ++ [r]) fuel ltac:(lia)). rewrite length_app in IH. simpl in IH.
      by rewrite Nat.add_1_r, <- !app_assoc in IH.
Qed.

Lemma delete_rules_filter svc l :
  Forall rule_wf l → delete_rules svc l = Ret (other_rules svc l).
Proof. intros H. apply (delete_rules_loop_filter svc []); [done|lia]. Qed.

(** *** Fresh references *)

(** References to the [length l] cells from [n] on. *)
Definition fresh_refs (n : nat) (l : list rule_ref) : Prop :=
  snd <$> l = Some <$> seq n (length l).

Lemma fresh_refs_cons n host l :
  fresh_refs (S n) l → fresh_refs n ((host, Some n) :: l).
Proof. unfold fresh_refs. intros H. rewrite fmap_cons. simpl. by rewrite H. Qed.

Lemma fresh_refs_app n l k :
  fresh_refs n l → fresh_refs (n + length l) k → fresh_refs n (l ++ k).
Proof.
  unfold fresh_refs. intros Hl Hk. by rewrite fmap_app, length_app, seq_app, fmap_app, Hl, Hk.
Qed.

Lemma fresh_refs_NoDup n l : fresh_refs n l → NoDup l.
Proof.
  unfold fresh_refs. intros H. apply (NoDup_fmap_1 snd). rewrite H.
  apply NoDup_fmap_2; [by intros ?? [=]|]. apply NoDup_seq.
Qed.

Lemma deref_prefix h k (l : list rule_ref) n :
  fresh_refs n l → (n + length l ≤ length h)%nat → deref (h ++ k) <$> l = deref h <$> l.
Proof.
  intros Hf Hn. apply list_fmap_ext. intros i [host p] Hi. unfold deref. f_equal.
  assert ((snd <$> l) !! i = Some p) as Hp by (by rewrite list_lookup_fmap, Hi).
  rewrite Hf, list_lookup_fmap in Hp. apply lookup_lt_Some in Hi.
  rewrite lookup_seq_lt in Hp by done. simpl in Hp. simplify_eq. simpl.
  by rewrite lookup_app_l by lia.
Qed.

Lemma load_rules_spec l h :
  Forall rule_wf l →
  ∃ refs h', load_rules l h = (refs, h ++ h') ∧ length h' = length refs ∧
    fresh_refs (length h) refs ∧ deref (h ++ h') <$> refs = l.
Proof.
  intros Hwf. revert h. induction Hwf as [|r l Hr Hwf IH]; intros h; simpl.
  - exists [], []. by rewrite app_nil_r.
  - unfold load_rule. destruct r as [host [paths|]]; simpl.
    2:{ by destruct Hr as [? ?]. }
    destruct (IH (h ++ [paths])) as (refs & h' & -> & Hlen & Hf & Hd).
    exists ((host, Some (length h)) :: refs), (paths :: h').
    rewrite <- app_assoc in *. simpl in *. rewrite length_app in Hf. simpl in Hf.
    rewrite Nat.add_1_r in Hf. split_and!; [done|lia|by apply fresh_refs_cons|].
    simpl. f_equal; [|done]. unfold deref. simpl. by rewrite list_lookup_middle.
Qed.

Section Pure.
Context `{!UrlLib, !MapRange}.

(** The rule for one URI. *)
Definition rule_for (lrpName uri : string) : result IngressRule :=
  url ← validateURL uri;
  Ok {| ir_Host := ToLower (url_Host url);
        ir_HTTP := Some [{| hip_Path := path (url_Path url);
          hip_Backend := {| ib_ServiceName := GetInternalServiceName lrpName;
                            ib_ServicePort := 8080 |} |}] |}.

(** The rules for a list of URIs; the first invalid one is the error. *)
Fixpoint rules_for (lrpName : string) (uris : list string) : result (list IngressRule) :=
  match uris with
  | [] => Ok []
  | uri :: uris => r ← rule_for lrpName uri; l ← rules_for lrpName uris; Ok (r :: l)
  end.

Lemma createIngressRules_loop_spec name uris rules h :
  match rules_for name uris with
  | Err e => createIngressRules_loop name uris rules h = Err e
  | Ok l =>
      ∃ refs h', createIngressRules_loop name uris rules h = Ok (rules ++ refs, h ++ h') ∧
      length h' = length refs ∧ fresh_refs (length h) refs ∧ deref (h ++ h') <$> refs = l
  end.
Proof.
  revert rules h. induction uris as [|uri uris IH]; intros rules h; simpl.
  - exists [], []. by rewrite !app_nil_r.
  - unfold rule_for. destruct (validateURL uri) as [url|e]; simpl; [|done].
    set (paths := [_]). specialize (IH (rules ++ [(ToLower (url_Host url), Some (length h))])
      (h ++ [paths])). destruct (rules_for name uris) as [l|e]; simpl; [|done].
    destruct IH as (refs & h' & -> & Hlen & Hf & Hd).
    exists ((ToLower (url_Host url), Some (length h)) :: refs), (paths :: h').
    rewrite <- !app_assoc in *. simpl in *. rewrite length_app in Hf. simpl in Hf.
    rewrite Nat.add_1_r in Hf. split_and!; [done|lia|by apply fresh_refs_cons|].
    simpl. f_equal; [|done]. unfold deref. simpl. by rewrite list_lookup_middle.
Qed.

Lemma rules_for_service name uris l :
  rules_for name uris = Ok l → Forall (λ r, service_of r = Some (GetInternalServiceName name)) l.
Proof.
  revert l. induction uris as [|uri uris IH]; intros l; simpl; [by intros [= <-]|].
  unfold rule_for. destruct (validateURL uri); simpl; [|done].
  destruct (rules_for name uris); simpl; [|done]. intros [= <-]. constructor; [done|]. by apply IH.
Qed.

Lemma rules_for_length name uris l : rules_for name uris = Ok l → length l = length uris.
Proof.
  revert l. induction uris as [|uri uris IH]; intros l; simpl; [by intros [= <-]|].
  destruct (rule_for name uri); simpl; [|done].
  destruct (rules_for name uris); simpl; [|done]. intros [= <-]. simpl. f_equal. by apply IH.
Qed.

(** *** The maps of rules *)
Lemma elem_of_range_keys (m : gmap rule_ref bool) x : x ∈ range_keys m ↔ is_Some (m !! x).
Proof.
  unfold range_keys. rewrite range_order_perm, list_elem_of_fmap. split.
  - intros ([y b] & -> & Hy). apply elem_of_map_to_list in Hy. by exists b.
  - intros [b Hb]. exists (x, b). split; [done|]. by apply elem_of_map_to_list.
Qed.

Lemma NoDup_range_keys (m : gmap rule_ref bool) : NoDup (range_keys m).
Proof. unfold range_keys. rewrite range_order_perm. apply NoDup_fst_map_to_list. Qed.

Lemma toRuleMap_elem sl x : is_Some (toRuleMap sl !! x) ↔ x ∈ sl.
Proof.
  unfold toRuleMap.
  assert (∀ m : gmap rule_ref bool, is_Some (foldl (λ hash v, <[v := true]> hash) m sl !! x)
    ↔ is_Some (m !! x) ∨ x ∈ sl) as ->.
  { induction sl as [|y sl IH]; intros m; simpl.
    - rewrite elem_of_nil. tauto.
    - rewrite IH, lookup_insert_is_Some, elem_of_cons. destruct (decide (y = x)); naive_solver. }
  rewrite lookup_empty, is_Some_alt. naive_solver.
Qed.

Lemma appendNewRules_elem existing updated x :
  is_Some (appendNewRules existing updated !! x) ↔ is_Some (existing !! x) ∨ is_Some (updated !! x).
Proof.
  unfold appendNewRules. rewrite <- (elem_of_range_keys updated).
  generalize (range_keys updated) as l. intros l. revert existing.
  induction l as [|y l IH]; intros m; simpl.
  - rewrite elem_of_nil. tauto.
  - rewrite IH, elem_of_cons. destruct (m !! y) eqn:E.
    + split; [tauto|]. intros [?|[->|?]]; [tauto| |tauto]. left. by rewrite E.
    + rewrite lookup_insert_is_Some. destruct (decide (y = x)); naive_solver.
Qed.

Lemma removeObsolete_loop_spec h updated svc range m :
  NoDup range → Forall (λ e, updated !! e = None → rule_wf (deref h e)) range →
  ∃ m', removeObsolete_loop h updated svc range m = Ret m' ∧
    ∀ x, is_Some (m' !! x) ↔ is_Some (m !! x) ∧
      ¬ (x ∈ range ∧ updated !! x = None ∧ service_of (deref h x) = Some svc).
Proof.
  revert m. induction range as [|e range IH]; intros m Hnd Hwf; simpl.
  { exists m. split; [done|]. intros x. rewrite elem_of_nil. tauto. }
  apply NoDup_cons in Hnd as [He Hnd]. apply Forall_cons in Hwf as [Hwe Hwf].
  destruct (updated !! e) as [b|] eqn:Eu.
  - destruct (IH m Hnd Hwf) as (m' & -> & Hm'). exists m'. split; [done|].
    intros x. rewrite Hm', elem_of_cons. naive_solver.
  - destruct (rule_wf_service _ (Hwe eq_refl)) as (s & -> & Hs).
    destruct (String.eqb_spec s svc) as [->|Hne].
    + destruct (IH (delete e m) Hnd Hwf) as (m' & -> & Hm'). exists m'. split; [done|].
      intros x. rewrite Hm', elem_of_cons, lookup_delete_is_Some. naive_solver.
    + destruct (IH m Hnd Hwf) as (m' & -> & Hm'). exists m'. split; [done|].
      intros x. rewrite Hm', elem_of_cons. naive_solver.
Qed.

(** The difference of two lists of rules with distinct pointers. *)
Lemma removeDifference_refs h existing updated svc :
  NoDup (existing ++ updated) → Forall (λ e, rule_wf (deref h e)) existing →
  ∃ l, removeDifference h existing updated svc = Ret l ∧
    l ≡ₚ filter (λ e, service_of (deref h e) ≠ Some svc) existing ++ updated.
Proof.
  intros Hnd Hwf. apply NoDup_app in Hnd as (Hne & Hdisj & Hnu).
  unfold removeDifference, removeObsoleteRules.
  set (m := appendNewRules _ _).
  assert (∀ x, is_Some (m !! x) ↔ x ∈ existing ∨ x ∈ updated) as Hm.
  { intros x. unfold m. by rewrite appendNewRules_elem, !toRuleMap_elem. }
  assert (∀ x, toRuleMap updated !! x = None ↔ x ∉ updated) as Hu.
  { intros x. by rewrite <- toRuleMap_elem, eq_None_not_Some. }
  destruct (removeObsolete_loop_spec h (toRuleMap updated) svc (range_keys m) m)
    as (m' & -> & Hm').
  { apply NoDup_range_keys. }
  { apply Forall_forall. intros x Hx. rewrite elem_of_range_keys, Hm, Hu in *.
    rewrite Forall_forall in Hwf. naive_solver. }
  eexists; split; [done|]. apply NoDup_Permutation.
  - apply NoDup_range_keys.
  - apply NoDup_app. split_and!; [by apply NoDup_filter| |done].
    intros x [_ Hx]%list_elem_of_filter. by apply Hdisj.
  - intros x. unfold toRuleSlice.
    rewrite elem_of_range_keys, Hm', elem_of_range_keys, Hm, Hu, elem_of_app, list_elem_of_filter.
    destruct (decide (x ∈ updated)); naive_solver.
Qed.

Lemma filter_deref h svc (l : list rule_ref) :
  deref h <$> filter (λ e, service_of (deref h e) ≠ Some svc) l
  = other_rules svc (deref h <$> l).
Proof.
  unfold other_rules. induction l as [|x l IH]; [done|].
  rewrite fmap_cons, !filter_cons. case_decide; [|done]. by rewrite fmap_cons, IH.
Qed.

(** [updateSpec] replaces the rules of one application. *)
Lemma updateSpec_spec ing name uris :
  Forall rule_wf (ing_Rules ing) →
  match rules_for name uris with
  | Err e => updateSpec ing name uris = Err e
  | Ok l =>
      ∃ rules, updateSpec ing name uris = Ok (Ret (set_rules ing rules)) ∧
      rules ≡ₚ other_rules (GetInternalServiceName name) (ing_Rules ing) ++ l
  end.
Proof.
  intros Hwf. unfold updateSpec, createIngressRules.
  destruct (load_rules_spec (ing_Rules ing) [] Hwf) as (existing & h & -> & Hlen & Hf & Hd).
  simpl in *. pose proof (createIngressRules_loop_spec name uris [] h) as Hc.
  destruct (rules_for name uris) as [l|e]; simpl in *; [|by rewrite Hc].
  destruct Hc as (new & h' & -> & Hlen' & Hf' & Hd'). simpl.
  assert (deref (h ++ h') <$> existing = ing_Rules ing) as Hold.
  { rewrite (deref_prefix _ _ _ 0); [done|done|]. rewrite Hlen. lia. }
  destruct (removeDifference_refs (h ++ h') existing new (GetInternalServiceName name))
    as (refs & -> & Hrefs).
  { eapply fresh_refs_NoDup, fresh_refs_app; [done|]. simpl. by rewrite <- Hlen. }
  { rewrite <- Hold in Hwf. by rewrite Forall_fmap in Hwf. }
  eexists; split; [done|]. rewrite Hrefs, fmap_app, filter_deref, Hold, Hd'. done.
Qed.
End Pure.

(** ** What the manager's operations do *)
Section ManagerSpec.
Context {S : Type} `{!KubeClient S, !RoutesChan S, !Observed S Obs, !KubeLaws S,
  !UrlLib, !MapRange}.
Context (ns : string) (ns_ok : ns ≠ "").
Implicit Types (app : string) (v : Obs) (lrp : LRP).

Definition rules_in v : list IngressRule :=
  match the_ing v ns ingressName with Some i => ing_Rules i | None => [] end.

Definition the_ingress : kind → key → Prop := only Ingresses ns ingressName.

(** An API call on the ingress leaves the rules or makes them [l]. *)
Lemma rules_in_same v v' : cluster v' = cluster v → rules_in v' = rules_in v.
Proof. unfold rules_in. by intros ->. Qed.

Lemma rules_in_inserted i v v' i' :
  name_of Ingresses i = ingressName → inserted Ingresses ns i v v' i' →
  rules_in v' = ing_Rules i.
Proof.
  intros Hn Hi. pose proof (inserted_lookup _ _ _ _ _ _ Hi) as Hl. rewrite Hn in Hl.
  destruct Hi as [Hs _]. unfold rules_in. simpl in Hl. rewrite Hl. apply Hs.
Qed.

Lemma rules_in_deleted v v' : deleted Ingresses ns ingressName v v' → rules_in v' = [].
Proof.
  intros Hd%deleted_lookup. unfold rules_in. simpl in Hd. by rewrite Hd.
Qed.

(** The rules of application [app] become [new], those of others stay. *)
Definition replaced app (new : list IngressRule) v v' : Prop :=
  rules_in v' ≡ₚ other_rules (GetInternalServiceName app) (rules_in v) ++ new.

Definition listed v' : Prop := is_Some (the_ing v' ns ingressName) ↔ rules_in v' ≠ [].

Lemma listed_same v v' : cluster v' = cluster v → listed v → listed v'.
Proof. unfold listed, rules_in. by intros ->. Qed.

Lemma listed_none v' : the_ing v' ns ingressName = None → listed v'.
Proof. unfold listed, rules_in. intros ->. by split; [intros [? ?]|]. Qed.

Lemma listed_some v' : is_Some (the_ing v' ns ingressName) → rules_in v' ≠ [] → listed v'.
Proof. by split. Qed.

(** [updateIngressObject] on the ingress there is. *)
Lemma updateIngressObject_wp i v (Q : outcome (result unit) → Obs → Prop) :
  name_of Ingresses i = ingressName → namespace_of Ingresses i = ns →
  (∃ j, the_ing v ns ingressName = Some j ∧
        version_of Ingresses i = version_of Ingresses j) →
  (∀ r v', step the_ingress v v' ∧ sent v' = sent v ∧ is_Some (the_ing v' ns ingressName) ∧
     match r with
     | Ok _ => rules_in v' = ing_Rules i
     | Err _ => (rules_in v' = rules_in v ∨ rules_in v' = ing_Rules i) ∧ healthy v = false
     end → Q (Ret r) v') →
  wp (updateIngressObject ns i) Q v.
Proof.
  intros Hn Hns Hsome HQ. apply wp_try, wp_update. intros [i'|e] v1 Hu;
    pose proof (update_step _ _ _ _ _ _ Hu) as Hstep; rewrite Hn in Hstep.
  - apply wp_ret, HQ. split_and!; [done|by apply update_ok in Hu as (? & _)|..].
    + apply update_ok in Hu as (_ & _ & _ & Hl). rewrite Hn in Hl. by eexists.
    + destruct Hu as (_ & ? & [= <-] & _ & Hi). by eapply rules_in_inserted.
  - apply HQ. split_and!; [done|by apply update_err in Hu as (? & _)|..].
    + destruct (update_any _ _ _ _ _ _ Hu) as [E|(i' & E & _)]; rewrite Hn in E;
        [|by eexists]. destruct Hsome as (j & Hj & _). exists j. exact (eq_trans E Hj).
    + destruct Hu as (_ & ? & [= <-] & [Hc|(_ & i' & Hi)] & _); [left|right].
      * by apply rules_in_same.
      * by eapply rules_in_inserted.
    + apply update_err in Hu as (_ & Hu). destruct (healthy v); [|done]. exfalso.
      destruct (Hu eq_refl) as [_ Hno]. rewrite Hn in Hno. destruct Hsome as (j & Hj & Hver).
      by apply (Hno ltac:(unfold acceptable; rewrite Hn; auto) j Hj).
Qed.

(** Writing back the ingress there is, with other rules for one application. *)
Lemma replace_rules_wp app i rules k v (Q : outcome (result unit) → Obs → Prop) :
  cluster_wf (cluster v) → the_ing v ns ingressName = Some i →
  rules ≡ₚ other_rules (GetInternalServiceName app) (ing_Rules i) ++ k → rules ≠ [] →
  (∀ r v', step the_ingress v v' ∧ sent v' = sent v ∧ (listed v → listed v') ∧
     (rules_in v' = rules_in v ∨ replaced app k v v') ∧
     match r with
     | Ok _ => is_Some (the_ing v ns ingressName) ∧ replaced app k v v'
     | Err _ => healthy v = false
     end → Q (Ret r) v') →
  wp (updateIngressObject ns (set_rules i rules)) Q v.
Proof.
  intros Hwf Ei Hrules Hne HQ. destruct (Hwf Ingresses _ _ _ Ei) as [Hns Hnm].
  assert (rules_in v = ing_Rules i) as Er by (unfold rules_in; by rewrite Ei).
  assert (∀ v', rules_in v' = rules → replaced app k v v') as Hk
    by (intros v' E; unfold replaced; by rewrite E, Er).
  apply updateIngressObject_wp; [done|done|by exists i|]. simpl. intros r v' (Hst & Hs & Hsome & Hr).
  assert (listed v → listed v') as Hlist.
  { intros [Hv _]. apply listed_some; [done|].
    destruct r; [by rewrite Hr|destruct Hr as [[->| ->] _]; [apply Hv; by exists i|done]]. }
  apply HQ. split_and!; [done..| |].
  - destruct r; [right; by apply Hk|destruct Hr as [[?|?] _]; [by left|right; by apply Hk]].
  - destruct r; [split; [by exists i|by apply Hk]|apply Hr].
Qed.

Definition ingress_deleted app v (r : result unit) v' : Prop :=
  step the_ingress v v' ∧ sent v' = sent v ∧ (listed v → listed v') ∧
  (rules_in v' = rules_in v ∨ replaced app [] v v') ∧
  match r with
  | Ok _ => is_Some (the_ing v ns ingressName) ∧ replaced app [] v v'
  | Err _ => healthy v = true → the_ing v ns ingressName = None ∧ cluster v' = cluster v
  end.

Lemma ing_Delete_wp app v (Q : outcome (result unit) → Obs → Prop) :
  Forall rule_wf (rules_in v) →
  (∀ r v', ingress_deleted app v r v' → Q (Ret r) v') →
  wp (ing_Delete ns app) Q v.
Proof.
  intros Hrules HQ. apply wp_wf. intros Hwf.
  apply wp_try, wp_get. intros [i|e] v1 Hg;
    pose proof (get_step _ _ _ _ _ _ the_ingress Hg) as Hstep.
  2:{ apply get_err in Hg as (Hs & Hc & Hg). apply HQ. split_and!; [done..| | |].
      - by apply listed_same.
      - left. by apply rules_in_same.
      - intros Hv. split; [by apply Hg|done]. }
  apply get_ok in Hg as (Hs & Hc & Hg). destruct (Hwf _ _ _ _ Hg) as [Hns Hnm].
  assert (rules_in v = ing_Rules i) as Er by (unfold rules_in; simpl in Hg; by rewrite Hg).
  assert (rules_in v1 = ing_Rules i) as Er1 by (by rewrite <- Er; apply rules_in_same).
  rewrite Er in Hrules. cbv zeta. rewrite delete_rules_filter by done.
  apply wp_bind, wp_lift. set (rules := other_rules _ _).
  assert (∀ v', rules_in v' = rules → replaced app [] v v') as Hrep.
  { intros v' E. unfold replaced. by rewrite app_nil_r, E, Er. }
  destruct (Nat.eqb_spec (length rules) 0) as [Hz|Hz].
  - apply nil_length_inv in Hz. apply wp_delete. intros [[]|e] v2 Hd;
      pose proof (step_trans _ _ _ _ Hstep (delete_step _ _ _ _ _ _ Hd)) as Hst2; apply HQ.
    + assert (rules_in v2 = []) as E2
        by (destruct Hd as (_ & ? & [= <-] & _ & Hd); by eapply rules_in_deleted).
      apply delete_ok in Hd as (Hs2 & _ & Hl). simpl in Hl.
      rewrite <- Hz in E2. split_and!; [done|congruence|by intros _; apply listed_none|
        right; by apply Hrep|by eexists|by apply Hrep].
    + split_and!; [done|by apply delete_err in Hd as (-> & _)|..].
      * destruct (Hd) as (_ & ? & [= <-] & [Hc2|Hd2%deleted_lookup] & _);
          [apply listed_same; congruence|by intros _; apply listed_none].
      * destruct Hd as (_ & ? & [= <-] & [Hc2|Hd] & _).
        -- left. rewrite (rules_in_same _ _ Hc2). congruence.
        -- right. apply Hrep. rewrite Hz. by eapply rules_in_deleted.
      * intros Hv. apply delete_err in Hd as (_ & Hd). apply Hstep in Hv.
        destruct (Hd Hv) as [_ Hno]. simpl in Hno, Hg. rewrite Hc, Hg in Hno.
        assert (Some i = None); [by apply Hno|done].
  - apply (replace_rules_wp app i rules []); [by rewrite Hc|by rewrite Hc|by rewrite app_nil_r
      |by intros ->|].
    intros r v2 (Hst2 & Hs2 & Hli & Hany & Hr). apply HQ. unfold replaced in *.
    rewrite Er1, <- Er in *. split_and!; [by eapply step_trans|congruence| |done|].
    + intros Hv. apply Hli. by eapply listed_same.
    + destruct r; [by rewrite <- Hc|]. intros Hv. apply Hstep in Hv. congruence.
Qed.

(** The listing finds the ingress of the namespace. *)
Lemma getIngress_elem l i : getIngress l = Some i → i ∈ l ∧ name_of Ingresses i = ingressName.
Proof.
  induction l as [|j l IH]; simpl; [done|].
  destruct (String.eqb_spec (om_Name (ing_meta j)) ingressName) as [E|]; rewrite elem_of_cons.
  - intros [= ->]. by split; [left|].
  - intros [? ?]%IH. by split; [right|].
Qed.

Lemma getIngress_none l : getIngress l = None → ∀ i, i ∈ l → name_of Ingresses i ≠ ingressName.
Proof.
  induction l as [|j l IH]; simpl; intros Hn i; [by intros ?%elem_of_nil|].
  destruct (String.eqb_spec (om_Name (ing_meta j)) ingressName); [done|].
  rewrite elem_of_cons. intros [->|Hi]; [done|by apply IH].
Qed.

Lemma getIngress_listed v l :
  cluster_wf (cluster v) →
  (∀ s, parse_selector "" = Some s →
    l ≡ₚ filter (λ o, selects s (om_Labels (meta_of Ingresses o)) = true)
      (objs_in (cluster v) Ingresses ns)) →
  getIngress l = the_ing v ns ingressName.
Proof.
  intros Hwf Hl. specialize (Hl SelAll eq_refl).
  assert (∀ i, i ∈ l ↔ ∃ name, the_ing v ns name = Some i) as Hin.
  { intros i. rewrite Hl, list_elem_of_filter. rewrite (elem_of_objs_in _ Ingresses).
    simpl. naive_solver. }
  destruct (getIngress l) as [i|] eqn:E.
  - apply getIngress_elem in E as [Hi Hn]. apply Hin in Hi as [name Hi].
    destruct (Hwf Ingresses _ _ _ Hi) as [_ Hn']. rewrite Hn in Hn'. by subst name.
  - destruct (the_ing v ns ingressName) as [i|] eqn:Ei; [|done]. exfalso.
    destruct (Hwf Ingresses _ _ _ Ei) as [_ Hn]. eapply getIngress_none; [done| |exact Hn].
    apply Hin. eauto.
Qed.

Definition ingress_updated lrp v (r : result unit) v' : Prop :=
  let app := lrp_Name lrp in
  step the_ingress v v' ∧ sent v' = sent v ∧ (listed v → listed v') ∧
  ∃ uris, unmarshal_strings (uris_of lrp) = Ok uris ∧
  (rules_in v' = rules_in v ∨
   ∃ l, rules_for app (elems uris) = Ok l ∧ replaced app l v v') ∧
  match r with
  | Ok _ =>
      ∃ l, rules_for app (elems uris) = Ok l ∧ replaced app l v v'
  | Err _ => healthy v = true →
      cluster v' = cluster v ∧ is_ok (rules_for app (elems uris)) = false
  end.

(** What the calls after the listing do for the URIs. *)
Definition uris_updated app (uris : list string) v (r : result unit) v' : Prop :=
  step the_ingress v v' ∧ sent v' = sent v ∧ (listed v → listed v') ∧
  (rules_in v' = rules_in v ∨ ∃ l, rules_for app uris = Ok l ∧ replaced app l v v') ∧
  match r with
  | Ok _ => ∃ l, rules_for app uris = Ok l ∧ replaced app l v v'
  | Err _ => healthy v = true → cluster v' = cluster v ∧ is_ok (rules_for app uris) = false
  end.

Lemma uris_updated_after lrp uris v v1 r v2 :
  unmarshal_strings (uris_of lrp) = Ok uris →
  step the_ingress v v1 → cluster v1 = cluster v → sent v1 = sent v →
  uris_updated (lrp_Name lrp) (elems uris) v1 r v2 → ingress_updated lrp v r v2.
Proof.
  intros Eu Hst Hc Hs (Hst2 & Hs2 & Hli & Hany & Hr).
  assert (rules_in v1 = rules_in v) as E1 by by apply rules_in_same.
  unfold replaced, listed in *. rewrite E1, Hc in *.
  split; [by eapply step_trans|]. split; [congruence|]. split; [done|].
  exists uris. split_and!; [done..|]. destruct r; [done|]. intros Hv. by apply Hr, Hst.
Qed.

(** The branch without an ingress: one is made unless there are no URIs. *)
Lemma createIngress_wp app uris v (Q : outcome (result unit) → Obs → Prop) :
  the_ing v ns ingressName = None →
  (∀ r v', uris_updated app uris v r v' → Q (Ret r) v') →
  wp (createIngress ns app uris) Q v.
Proof.
  intros Hnone HQ. unfold uris_updated in HQ. unfold createIngress.
  assert (rules_in v = []) as E by (unfold rules_in; by rewrite Hnone).
  destruct uris as [|uri uris]; simpl.
  { apply wp_ret, HQ. split; [apply step_refl|]. do 2 (split; [done|]). split; [by left|].
    exists []. split; [done|]. unfold replaced; by rewrite E. }
  set (i0 := {| ing_Rules := [] |}) at 1.
  pose proof (updateSpec_spec i0 app (uri :: uris) (Forall_nil_2 _)) as Hu.
  destruct (rules_for app (uri :: uris)) as [l|e] eqn:El.
  2:{ rewrite Hu. apply wp_try_pure, HQ. split; [apply step_refl|]. do 2 (split; [done|]).
      split; [by left|]. done. }
  destruct Hu as (rules & -> & Hrules). simpl in Hrules.
  apply rules_for_length in El as Hlen.
  assert (rules ≠ []) as Hne by (intros ->; apply Permutation_nil_l in Hrules; by subst l).
  apply wp_try_pure, wp_bind, wp_lift. cbn beta iota.
  apply wp_try. apply (wp_create Ingresses ns (set_rules i0 rules)). intros [i|e] v1 Hc;
    pose proof (create_step _ _ _ _ _ _ Hc) as Hstep.
  - assert (rules_in v1 = rules) as E1.
    { destruct Hc as (_ & ? & [= <-] & _ & Hi). by eapply (rules_in_inserted (set_rules i0 rules)). }
    assert (replaced app l v v1) as Hr by (unfold replaced; by rewrite E, E1, Hrules).
    apply create_ok in Hc as (Hs & _ & _ & Hl).
    apply wp_ret, HQ. split_and!; [done|done| |right; eauto|by exists l].
    intros _. apply listed_some; [by exists i|by rewrite E1].
  - apply HQ. split_and!; [done|by apply create_err in Hc as (-> & _)|..].
    + destruct (Hc) as (_ & ? & [= <-] & [Hc2|(_ & i' & Hi)] & _); [by apply listed_same|].
      intros _. apply listed_some; [by exists i'; apply inserted_lookup in Hi|].
      by rewrite (rules_in_inserted (set_rules i0 rules) _ _ _ eq_refl Hi).
    + destruct Hc as (_ & ? & [= <-] & [Hc|(_ & i' & Hi)] & _).
      * left. by apply rules_in_same.
      * right. exists l. split; [done|]. unfold replaced.
        rewrite (rules_in_inserted (set_rules i0 rules) _ _ _ eq_refl Hi), E. simpl.
        by rewrite Hrules.
    + intros Hv. apply create_err in Hc as (_ & Hc). destruct (Hc Hv) as [_ Hsome].
      simpl in Hsome. unfold name_of in Hsome. simpl in Hsome. rewrite Hnone in Hsome.
      exfalso. destruct Hsome as [? ?]; [|done..]. unfold acceptable. simpl. auto.
Qed.

(** The branch with an ingress and without URIs. *)
Lemma ing_Delete_updated app i v (Q : outcome (result unit) → Obs → Prop) :
  Forall rule_wf (rules_in v) → the_ing v ns ingressName = Some i →
  (∀ r v', uris_updated app [] v r v' → Q (Ret r) v') → wp (ing_Delete ns app) Q v.
Proof.
  intros Hrules Ei HQ. apply ing_Delete_wp; [done|]. intros r v' (Hst & Hs & Hli & Hany & Hr).
  apply HQ. split_and!; [done..| |].
  - destruct Hany as [->|?]; [by left|right; exists []; eauto].
  - destruct r as [[]|e]; [destruct Hr as (_ & ?); exists []; eauto|].
    intros Hv. destruct (Hr Hv) as [Hno _]. congruence.
Qed.

(** The branch with an ingress and URIs. *)
Lemma update_rules_wp app uris i v (Q : outcome (result unit) → Obs → Prop) :
  Forall rule_wf (rules_in v) → the_ing v ns ingressName = Some i → uris ≠ [] →
  (∀ r v', uris_updated app uris v r v' → Q (Ret r) v') →
  wp (o <-? updateSpec i app uris; ingress ← lift_outcome o; updateIngressObject ns ingress) Q v.
Proof.
  intros Hrules Ei Hne HQ. apply wp_wf. intros Hwf.
  destruct (Hwf Ingresses _ _ _ Ei) as [Hns Hnm].
  assert (rules_in v = ing_Rules i) as Er by (unfold rules_in; by rewrite Ei).
  unfold uris_updated in HQ. pose proof (updateSpec_spec i app uris) as Hu. rewrite <- Er in Hu. specialize (Hu Hrules).
  destruct (rules_for app uris) as [k|e] eqn:Ek.
  2:{ rewrite Hu. apply wp_try_pure, HQ. split_and!; [apply step_refl|done..|by left|done]. }
  destruct Hu as (rules & -> & Hperm). apply wp_try_pure, wp_bind, wp_lift. cbn beta iota.
  apply (replace_rules_wp app i rules k); [done..|by rewrite <- Er| |].
  { intros ->. apply Permutation_nil_l, eq_sym, app_eq_nil in Hperm as [_ ->].
    apply rules_for_length in Ek. by destruct uris. }
  intros r v' (Hst & Hs & Hli & Hany & Hr). apply HQ. split_and!; [done..| |].
  - destruct Hany as [->|?]; [by left|right; eauto].
  - destruct r as [[]|e]; [exists k; split; [done|by apply Hr]|]. intros Hv. congruence.
Qed.

Lemma ing_Update_wp lrp v (Q : outcome (result unit) → Obs → Prop) :
  Forall rule_wf (rules_in v) → is_ok (unmarshal_strings (uris_of lrp)) = true →
  (∀ r v', ingress_updated lrp v r v' → Q (Ret r) v') →
  wp (ing_Update ns lrp) Q v.
Proof.
  intros Hrules Huris HQ. apply wp_wf. intros Hwf. unfold ing_Update.
  change (gomap_get (lrp_Metadata lrp) VcapAppUris) with (uris_of lrp).
  destruct (unmarshal_strings (uris_of lrp)) as [uris|e] eqn:Eu; [|done].
  apply wp_try, wp_list. intros [l|e] v1 Hl;
    pose proof (list_step _ _ _ _ _ _ the_ingress Hl) as Hstep;
    destruct Hl as ([[Hs _] _] & Hc & ? & [= <-] & Hl).
  2:{ apply HQ. split_and!; [done|done|by apply listed_same|]. exists uris. split; [done|].
      split; [left; by apply rules_in_same|]. intros Hv. by destruct (Hl Hv). }
  rewrite (getIngress_listed v) by eauto.
  assert (∀ r v', uris_updated (lrp_Name lrp) (elems uris) v1 r v' → Q (Ret r) v') as HQ1.
  { intros r v' Hr. apply HQ. by eapply uris_updated_after. }
  assert (Forall rule_wf (rules_in v1)) as Hrules1 by (by rewrite (rules_in_same v v1)).
  rewrite <- Hc. destruct (the_ing v1 ns ingressName) as [i|] eqn:Ei.
  - destruct (Nat.eqb_spec (length (elems uris)) 0) as [Hz|Hz].
    + apply nil_length_inv in Hz. rewrite Hz in HQ1. by eapply ing_Delete_updated.
    + apply update_rules_wp; [done..| |done]. by intros E; rewrite E in Hz.
  - by apply createIngress_wp.
Qed.
End ManagerSpec.
