(* ===== verification/Fixtures.v ===== *)
(** * Concrete instances

    A URL library, an empty cluster and a sample application, at which the
    theorems about the Kubernetes backend are applied. *)

From stdpp Require Import base gmap strings list.
From Stdlib Require Import ZArith Ascii.
From S2P Require Import Prelude Json Opi Kube Service StatefulSet Ingress.

(** A host up to the first [/], then the path; anything but spaces is valid. *)
Fixpoint split_slash (s : string) : string * string :=
  match s with
  | EmptyString => ("", "")
  | String c t =>
      if (c =? "/")%char then ("", s)
      else let (h, p) := split_slash t in (String c h, p)
  end.

#[local] Instance sample_urls : UrlLib := {|
  URL := string * string;
  url_Parse s := match Reader.strip "http://" s with
                 | Some t => Ok (split_slash t)
                 | None => Err (ErrorString "parse: missing scheme")
                 end;
  url_Host := fst;
  url_Path := snd;
  url_String u := "http://" +:+ u.1 +:+ u.2;
  IsURL s := forallb (λ c, negb (c =? " ")%char) (String.list_ascii_of_string s);
  lower_unicode s := s
|}.

#[local] Existing Instance range_in_order.

Definition empty_cluster : Cluster :=
  {| cl_sts := ∅; cl_svc := ∅; cl_ing := ∅; cl_job := ∅ |}.

(** A server that answers every request, before anything was created. *)
Definition fresh_server : Server :=
  {| srv_cluster := empty_cluster; srv_revision := 0; srv_refusals := []; srv_sent := [] |}.

Definition sample_lrp (name : string) (uris : list string) : LRP := {|
  lrp_Name := name;
  lrp_Image := "eirini/launcher";
  lrp_Command := ["dumb-init"; "--"; "/lifecycle/launch"];
  lrp_Env := Some {[ "PORT" := "8080" ]};
  lrp_Health := {| hc_Type := "port"; hc_Port := 8080; hc_Endpoint := ""; hc_TimeoutMs := 60000 |};
  lrp_TargetInstances := 2;
  lrp_RunningInstances := 0;
  lrp_Metadata := Some (list_to_map [
    (VcapAppUris, marshal_strings (Some uris));
    (ProcessGUID, name);
    (LastUpdated, "1529073295.9")])
|}.

Definition dora : LRP := sample_lrp "dora-guid" ["dora.example.com"; "dora.example.com/v2"].

(** An application that has no routes. *)
Definition worker : LRP := sample_lrp "worker-guid" [].

Lemma sample_has_metadata name uris : has_metadata (sample_lrp name uris).
Proof. exists VcapAppUris. simpl. rewrite lookup_insert_eq. by eexists. Qed.

Lemma empty_cluster_wf n : stored_wf empty_cluster n.
Proof.
  split_and!; [intros [] ns name o|intros [] i o|intros i o]; cbn; by rewrite lookup_empty.
Qed.

Lemma fresh_good : good fresh_server.
Proof. apply empty_cluster_wf. Qed.

#[export] Hint Resolve sample_has_metadata empty_cluster_wf : core.
