(* ===== verification/Objects.v ===== *)
(** * What the managers write

    Properties of single objects: the StatefulSet of an LRP, with its probes
    and its bounds, and the rules of the shared ingress, which the code keeps
    in maps of pointers and which are plain list operations. *)

From stdpp Require Import base gmap strings list.
From Stdlib Require Import ZArith Lia.
From S2P Require Import Prelude Json Opi Kube Service StatefulSet Ingress Fixtures.

(** ** An LRP as a StatefulSet *)

(** A request to the port and the endpoint of the health check; the server
    chooses a path if there is none. *)
Definition asks_health (lrp : LRP) (a : option HTTPGetAction) : Prop :=
  ∃ g, a = Some g ∧ hga_Port g = hc_Port (lrp_Health lrp) ∧
    (hc_Endpoint (lrp_Health lrp) ≠ "" → hga_Path g = hc_Endpoint (lrp_Health lrp)).

(** The two probes of a container: of one kind, against the port and the
    endpoint of the health check, the liveness probe patient at first, for the
    timeout in whole seconds. *)
Record probes_of (lrp : LRP) (live ready : Probe) : Prop := {
  probes_http : hc_Type (lrp_Health lrp) = "http" →
    asks_health lrp (pr_HTTPGet live) ∧ asks_health lrp (pr_HTTPGet ready) ∧
    pr_TCPSocket live = None ∧ pr_TCPSocket ready = None;
  probes_port : hc_Type (lrp_Health lrp) = "port" →
    ∃ t, t = {| tsa_Port := hc_Port (lrp_Health lrp) |} ∧
      pr_TCPSocket live = Some t ∧ pr_TCPSocket ready = Some t ∧
      pr_HTTPGet live = None ∧ pr_HTTPGet ready = None;
  probes_delay : (0 ≤ hc_TimeoutMs (lrp_Health lrp) < 1000 * 2 ^ 31)%Z →
    (1000 * pr_InitialDelaySeconds live ≤ hc_TimeoutMs (lrp_Health lrp)
      < 1000 * pr_InitialDelaySeconds live + 1000)%Z;
  probes_delay_32 : is_int32 (pr_InitialDelaySeconds live);
  probes_now : pr_InitialDelaySeconds ready = 0%Z;
  probes_live_failures : pr_FailureThreshold live = 4%Z;
  probes_ready_failures : pr_FailureThreshold ready = 1%Z
}.

(** The probes the health check asks for. *)
Definition probed (lrp : LRP) (live ready : option Probe) : Prop :=
  let type := hc_Type (lrp_Health lrp) in
  if String.eqb type "http" || String.eqb type "port"
  then ∃ l r, live = Some l ∧ ready = Some r ∧ probes_of lrp l r
  else live = None ∧ ready = None.

Lemma created_probes lrp : probed lrp (CreateLivenessProbe lrp) (CreateReadinessProbe lrp).
Proof.
  unfold probed, CreateLivenessProbe, CreateReadinessProbe.
  destruct (String.eqb_spec (hc_Type (lrp_Health lrp)) "http") as [E|_];
    [|destruct (String.eqb_spec (hc_Type (lrp_Health lrp)) "port") as [E|_]; [|done]];
    (do 2 eexists; do 2 (split; [done|]); split; cbn; rewrite ?E; try done;
     first [by eexists | intros _; split_and!; try done; by eexists | intros; by apply toSeconds_floor
           |apply to_int32_range]).
Qed.

Lemma asks_health_stored lrp a a' :
  option_Forall2 action_stored a a' → asks_health lrp a → asks_health lrp a'.
Proof.
  intros Ha (g & -> & Hport & Hpath). inversion Ha as [? g' [Hport' Hpath']|]; subst.
  exists g'. split_and!; [done|congruence|]. intros Hne.
  specialize (Hpath Hne). rewrite Hpath in Hpath'. by apply Hpath'.
Qed.

Lemma stored_none a a' : option_Forall2 action_stored a a' → a = None → a' = None.
Proof. by intros [] E. Qed.

Lemma probes_of_stored lrp l r l' r' :
  probe_stored l l' → probe_stored r r' → probes_of lrp l r → probes_of lrp l' r'.
Proof.
  intros [Hl1 Hl2 Hl3 Hl4] [Hr1 Hr2 Hr3 Hr4] [H1 H2 H3 H4 H5 H6 H7].
  split; rewrite ?Hl2, ?Hl3, ?Hr2, ?Hr3; try done.
  - intros (?&?&?&?)%H1. split_and!; [by eapply asks_health_stored..|done|done].
  - intros (t&?&?&?&?&?)%H2. exists t. split_and!; [done..| |]; by eapply stored_none.
  - by rewrite Hl4; rewrite H6.
  - by rewrite Hr4; rewrite H7.
Qed.

Lemma probed_stored lrp l r l' r' :
  option_Forall2 probe_stored l l' → option_Forall2 probe_stored r r' → probed lrp l r →
  probed lrp l' r'.
Proof.
  unfold probed. intros Hl Hr. case_match.
  - intros (x & y & -> & -> & Hp). inversion Hl as [? x' Hx|]; subst.
    inversion Hr as [? y' Hy|]; subst. exists x', y'. split_and!; [done..|].
    by eapply probes_of_stored.
  - intros [-> ->]. by inversion Hl; inversion Hr.
Qed.

Section Stored.
Context `{!MapRange}.

(** C24: of an LRP that is stored as a StatefulSet only a part is read back: its
    name, image and command and three entries of its metadata, with the ready
    replicas as running instances, but zero instances, no environment and no
    health check.  What is stored has the instances modulo [2^32] as replicas,
    exactly if they fit, and a container that is probed as the health check
    says: at its port and endpoint, the liveness probe after the timeout in
    whole seconds. *)
Theorem lrp_stored ns lrp s :
  stored_as StatefulSets ns (the_set lrp) s →
  statefulSetToLRP s = Ret (read_back lrp (sts_ReadyReplicas s)) ∧
  (∃ n, ss_Replicas (sts_Spec s) = Some n ∧ is_int32 n ∧
     (∃ k, lrp_TargetInstances lrp = n + k * 2 ^ 32)%Z ∧
     (is_int32 (lrp_TargetInstances lrp) → n = lrp_TargetInstances lrp)) ∧
  ∃ c, first_container s = Ret c ∧ probed lrp (ct_LivenessProbe c) (ct_ReadinessProbe c).
Proof.
  intros Hs. split; [by eapply statefulSetToLRP_stored|]. split.
  - destruct (stored_spec _ _ _ _ Hs) as [Hr _ _ _].
    eexists. split; [by apply Hr; eexists|]. split; [apply to_int32_range|].
    split; [apply to_int32_congr|apply to_int32_id].
  - destruct (first_container_stored _ _ _ _ Hs eq_refl) as (c & Ec & Hc). exists c.
    split; [done|]. eapply probed_stored; [apply Hc..|]. apply created_probes.
Qed.
End Stored.

(** ** The rules of the ingress *)
Section Rules.
Context `{!UrlLib, !MapRange}.

(** C23: on rules that have a backend, the loop that cuts out rules while it
    counts through them keeps exactly the other applications' rules, in order;
    and the update by maps of pointers is, up to order, the other
    applications' rules and one new rule for each URI, duplicates included,
    whatever the order of the maps; it fails only on a URI that is no URL. *)
Theorem rules_equivalent ing name uris :
  Forall rule_wf (ing_Rules ing) →
  let svc := GetInternalServiceName name in
  delete_rules svc (ing_Rules ing) = Ret (other_rules svc (ing_Rules ing)) ∧
  match rules_for name uris with
  | Err e => updateSpec ing name uris = Err e
  | Ok l => ∃ rules, updateSpec ing name uris = Ok (Ret (set_rules ing rules)) ∧
      rules ≡ₚ other_rules svc (ing_Rules ing) ++ l
  end.
Proof. intros Hwf. split; [by apply delete_rules_filter|by apply updateSpec_spec]. Qed.
End Rules.

(** ** Instances of the properties *)
Section Witnesses.
#[local] Existing Instance sample_urls.
#[local] Existing Instance range_in_order.

(** More instances than 32 bits hold. *)
Definition many : LRP := {|
  lrp_Name := "many"; lrp_Image := "image"; lrp_Command := []; lrp_Env := None;
  lrp_Health := {| hc_Type := "http"; hc_Port := 8080; hc_Endpoint := "/ok"; hc_TimeoutMs := 59999 |};
  lrp_TargetInstances := 2 ^ 32 + 3; lrp_RunningInstances := 0; lrp_Metadata := Some ∅ |}.

Definition many_stored : StatefulSet := on_server "opi" "v1" StatefulSets (the_set many).

Lemma lrp_stored_witness :
  ss_Replicas (sts_Spec many_stored) = Some 3%Z ∧
  statefulSetToLRP many_stored = Ret (read_back many 0).
Proof.
  split; [by vm_compute|].
  destruct (lrp_stored "opi" many many_stored (on_server_stored _ _ _ _)) as [E _]. exact E.
Defined.

Definition rule (svc : string) : IngressRule := {| ir_Host := "example.com";
  ir_HTTP := Some [{| hip_Path := "/"; hip_Backend :=
    {| ib_ServiceName := GetInternalServiceName svc; ib_ServicePort := 8080 |} |}] |}.

Definition shared : Ingress := {|
  ing_meta := {| om_Name := "eirini"; om_Namespace := "opi"; om_ResourceVersion := ""; om_Labels := None; om_Annotations := None |};
  ing_Kind := ""; ing_APIVersion := ""; ing_Rules := [rule "a"; rule "b"; rule "a"; rule "a"] |}.

Lemma rules_equivalent_witness :
  delete_rules (GetInternalServiceName "a") (ing_Rules shared) = Ret [rule "b"] ∧
  ∃ rules, updateSpec shared "a" ["a.example.com"; "a.example.com"] = Ok (Ret (set_rules shared rules)) ∧
    length rules = 3%nat.
Proof.
  assert (Forall rule_wf (ing_Rules shared)) as Hwf by (repeat constructor; by eexists).
  destruct (rules_equivalent shared "a" ["a.example.com"; "a.example.com"] Hwf) as [E1 E2].
  split; [rewrite E1; by vm_compute|].
  destruct (rules_for "a" ["a.example.com"; "a.example.com"]) as [l|e] eqn:El;
    [|vm_compute in El; discriminate El].
  destruct E2 as (rules & E & Hp). exists rules. split; [exact E|].
  rewrite Hp, length_app, (rules_for_length _ _ _ El). by vm_compute.
Defined.
End Witnesses.
