(* ===== verification/Desirer.v ===== *)
(** * [k8s/desire.go]: the scheduler backend

    [K8sDesirer] composes the managers of StatefulSets, services and the
    ingress.  Its operations are verified against the laws of the API server
    and shown to implement [Opi.Desirer]. *)

From stdpp Require Import base gmap strings list.
From Stdlib Require Import ZArith Lia.
From S2P Require Import Prelude Json Opi Kube Service StatefulSet Ingress Fixtures.

Record K8sDesirer (S : Type) := {
  IngressManager_ : IngressManager S;
  InstanceManager_ : InstanceManager S;
  ServiceManager_ : ServiceManager S
}.
Arguments IngressManager_ {_} _.
Arguments InstanceManager_ {_} _.
Arguments ServiceManager_ {_} _.

Section Construction.
Context {S : Type} `{!KubeClient S, !RoutesChan S, !UrlLib, !MapRange}.

(** [InstanceOptionFunc]; the client is the instance in scope. *)
Definition InstanceOptionFunc : Type := string → InstanceManager S.

Definition NewInstanceManager (namespace : string) (option : InstanceOptionFunc) :
    InstanceManager S :=
  option namespace.

Definition UseStatefulSets (namespace : string) : InstanceManager S :=
  NewStatefulSetManager namespace.

Definition NewDesirer (kubeNamespace : string) (option : InstanceOptionFunc)
    (routesChan : chan) : K8sDesirer S :=
  {| InstanceManager_ := NewInstanceManager kubeNamespace option;
     IngressManager_ := NewIngressManager kubeNamespace;
     ServiceManager_ := NewServiceManager kubeNamespace routesChan |}.
End Construction.

Section Operations.
Context {S : Type} (d : K8sDesirer S).

Definition Desire (lrp : LRP) : M S (result unit) :=
  exists_ <-! im_Exists (InstanceManager_ d) (lrp_Name lrp);
  if (exists_ : bool) then mret (Ok tt) else
  _ <-! im_Create (InstanceManager_ d) lrp;
  _ <-! sm_Create (ServiceManager_ d) lrp;
  ig_Update (IngressManager_ d) lrp.

Definition List_ : M S (result (list LRP)) := im_List (InstanceManager_ d).

Definition Get (name : string) : M S (result LRP) := im_Get (InstanceManager_ d) name.

Definition Update (lrp : LRP) : M S (result unit) :=
  _ <-! im_Update (InstanceManager_ d) lrp;
  _ <-! sm_Update (ServiceManager_ d) lrp;
  ig_Update (IngressManager_ d) lrp.

Definition Stop (name : string) : M S (result unit) :=
  _ <-! im_Delete (InstanceManager_ d) name;
  _ <-! ig_Delete (IngressManager_ d) name;
  sm_Delete (ServiceManager_ d) name.
End Operations.

(** The backend as a scheduler. *)
Definition k8s_scheduler {S} (d : K8sDesirer S) : Opi.Desirer S :=
  {| desirer_Desire := Desire d; desirer_List := List_ d; desirer_Get := Get d;
     desirer_Update := Update d; desirer_Stop := Stop d |}.

(** ** The rules of the ingress, application by application *)

Definition rules_of (app : string) (l : list IngressRule) : list IngressRule :=
  filter (λ r, service_of r = Some (GetInternalServiceName app)) l.

Lemma other_rules_own app l :
  Forall (λ r, service_of r = Some (GetInternalServiceName app)) l →
  other_rules (GetInternalServiceName app) l = [].
Proof.
  induction 1 as [|r l Hr _ IH]; [done|]. unfold other_rules in *. rewrite filter_cons.
  by rewrite decide_False by (intros Hn; by apply Hn).
Qed.

Lemma other_rules_other svc l : other_rules svc (other_rules svc l) = other_rules svc l.
Proof. unfold other_rules. rewrite list_filter_filter. by apply list_filter_iff; intros; tauto. Qed.

Lemma other_rules_app svc l k : other_rules svc (l ++ k) = other_rules svc l ++ other_rules svc k.
Proof. apply filter_app. Qed.

#[global] Instance other_rules_perm svc : Proper ((≡ₚ) ==> (≡ₚ)) (other_rules svc).
Proof. intros l k E. unfold other_rules. by rewrite E. Qed.

#[global] Instance rules_of_perm app : Proper ((≡ₚ) ==> (≡ₚ)) (rules_of app).
Proof. intros l k E. unfold rules_of. by rewrite E. Qed.

Lemma rules_of_app app l k : rules_of app (l ++ k) = rules_of app l ++ rules_of app k.
Proof. apply filter_app. Qed.

Lemma rules_of_all app l :
  Forall (λ r, service_of r = Some (GetInternalServiceName app)) l → rules_of app l = l.
Proof.
  induction 1 as [|r l Hr _ IH]; [done|]. unfold rules_of in *. rewrite filter_cons.
  by rewrite decide_True, IH.
Qed.

Lemma rules_of_other app l : rules_of app (other_rules (GetInternalServiceName app) l) = [].
Proof.
  unfold rules_of, other_rules. rewrite list_filter_filter. induction l as [|r l IH]; [done|].
  rewrite filter_cons, decide_False; [done|]. intros [? Hn]. by apply Hn.
Qed.

Section Spec.
Context {S : Type} `{!KubeClient S, !RoutesChan S, !Observed S Obs, !KubeLaws S,
  !UrlLib, !MapRange}.
Context (ns : string) (ns_ok : ns ≠ "").
Implicit Types (app : string) (v : Obs) (lrp : LRP).

(** The backend as [cmd] wires it. *)
Abbreviation backend := (@NewDesirer S _ _ _ _ ns UseStatefulSets WorkChan).
Abbreviation svc v app := (the_svc v ns (GetInternalServiceName app)).
Abbreviation hsvc v app := (the_svc v ns (GetInternalHeadlessServiceName app)).

(** The namespace is such as the backend leaves it. *)
Record managed v : Prop := {
  managed_sane : sane ns v;
  managed_rules : Forall rule_wf (rules_in ns v);
  managed_listed : listed ns v
}.

(** The objects an operation on [app] may touch. *)
Definition app_objects app : kind → key → Prop := λ k i,
  instance_objects ns app k i ∨ only Services ns (GetInternalServiceName app) k i
  ∨ the_ingress ns k i.

(** What an operation on [app] does to all the rest: nothing. *)
Record isolated app v v' : Prop := {
  isolated_step : step (app_objects app) v v';
  isolated_rules : other_rules (GetInternalServiceName app) (rules_in ns v')
    ≡ₚ other_rules (GetInternalServiceName app) (rules_in ns v);
  isolated_sent : ∃ l, sent v' = sent v ++ l ∧
    Forall (Forall (λ r, rt_Name r = GetInternalServiceName app)) l
}.

(** *** Frames *)

Lemma sane_spare P v v' :
  step P v v' → (∀ i, ¬ P StatefulSets i) → sane ns v → sane ns v'.
Proof.
  intros Hs HP Hv name s E. apply Hv. erewrite <- (step_sts_spare _ _ _ _ Hs); [exact E|apply HP].
Qed.

Lemma rules_spare P v v' :
  step P v v' → (∀ i, ¬ P Ingresses i) → rules_in ns v' = rules_in ns v.
Proof. intros Hs HP. unfold rules_in. by erewrite (step_ing_spare _ _ _ _ Hs) by apply HP. Qed.

Lemma listed_spare P v v' :
  step P v v' → (∀ i, ¬ P Ingresses i) → listed ns v → listed ns v'.
Proof.
  intros Hs HP. unfold listed. erewrite (rules_spare _ _ _ Hs HP).
  by erewrite (step_ing_spare _ _ _ _ Hs) by apply HP.
Qed.

Lemma instance_spares_ing app i : ¬ instance_objects ns app Ingresses i.
Proof. by intros [[? _]|[? _]]. Qed.
Lemma services_spare_ing name i : ¬ only Services ns name Ingresses i.
Proof. by intros [? _]. Qed.
Lemma services_spare_sts name i : ¬ only Services ns name StatefulSets i.
Proof. by intros [? _]. Qed.
Lemma ingress_spares_sts i : ¬ the_ingress ns StatefulSets i.
Proof. by intros [? _]. Qed.
Lemma ingress_spares_svc i : ¬ the_ingress ns Services i.
Proof. by intros [? _]. Qed.

(** The service of an application and its headless service are two objects. *)
Lemma instance_spares_svc app :
  ¬ instance_objects ns app Services (ns, GetInternalServiceName app).
Proof.
  intros [[? _]|[_ E]]; [done|]. by apply (f_equal snd), service_name_neq_headless in E.
Qed.
Lemma svc_spares_hsvc app :
  ¬ only Services ns (GetInternalServiceName app) Services
      (ns, GetInternalHeadlessServiceName app).
Proof. intros [_ E]. by apply (f_equal snd), eq_sym, service_name_neq_headless in E. Qed.

Lemma isolated_refl app v : isolated app v v.
Proof. split; [apply step_refl|done|exists []; by rewrite app_nil_r]. Qed.

Lemma isolated_trans app v1 v2 v3 :
  isolated app v1 v2 → isolated app v2 v3 → isolated app v1 v3.
Proof.
  intros [Hs1 Hr1 (l1 & E1 & Hl1)] [Hs2 Hr2 (l2 & E2 & Hl2)]. split.
  - by eapply step_trans.
  - by rewrite Hr2.
  - exists (l1 ++ l2). by rewrite E2, E1, app_assoc, Forall_app.
Qed.

Lemma isolated_instance app v v' :
  step (instance_objects ns app) v v' → sent v' = sent v → isolated app v v'.
Proof.
  intros Hs E. split.
  - eapply step_mono; [done|]. by left.
  - by erewrite rules_spare by (done || apply instance_spares_ing).
  - exists []. by rewrite app_nil_r.
Qed.

Lemma isolated_service app v v' l :
  step (only Services ns (GetInternalServiceName app)) v v' → sent v' = sent v ++ l →
  Forall (Forall (λ r, rt_Name r = GetInternalServiceName app)) l → isolated app v v'.
Proof.
  intros Hs E Hl. split.
  - eapply step_mono; [done|]. by right; left.
  - by erewrite rules_spare by (done || apply services_spare_ing).
  - eauto.
Qed.

Lemma isolated_quiet_service app v v' :
  step (only Services ns (GetInternalServiceName app)) v v' → sent v' = sent v →
  isolated app v v'.
Proof. intros Hs E. apply (isolated_service _ _ _ []); [done|by rewrite app_nil_r|done]. Qed.

(** *** What replacing an application's rules means *)

Definition own_rules app (l : list IngressRule) : Prop :=
  Forall (λ r, service_of r = Some (GetInternalServiceName app)) l.

Lemma replaced_others app l v v' :
  own_rules app l → replaced ns app l v v' →
  other_rules (GetInternalServiceName app) (rules_in ns v')
  ≡ₚ other_rules (GetInternalServiceName app) (rules_in ns v).
Proof.
  unfold replaced. intros Hl ->. by rewrite other_rules_app, other_rules_other, (other_rules_own app l), app_nil_r.
Qed.

Lemma replaced_own app l v v' :
  own_rules app l → replaced ns app l v v' → rules_of app (rules_in ns v') ≡ₚ l.
Proof. unfold replaced. intros Hl ->. by rewrite rules_of_app, rules_of_other, (rules_of_all app l). Qed.

Lemma replaced_wf app l v v' :
  own_rules app l → replaced ns app l v v' → Forall rule_wf (rules_in ns v) →
  Forall rule_wf (rules_in ns v').
Proof.
  unfold replaced. intros Hl -> Hv. apply Forall_app. split.
  - apply Forall_forall. intros r [_ Hr]%list_elem_of_filter. rewrite Forall_forall in Hv. auto.
  - eapply Forall_impl; [exact Hl|]. intros r Hr. by exists (GetInternalServiceName app).
Qed.

Definition may_replace app v v' : Prop :=
  rules_in ns v' = rules_in ns v ∨ ∃ l, own_rules app l ∧ replaced ns app l v v'.

Lemma ingress_step app v v' :
  step (the_ingress ns) v v' → sent v' = sent v → (listed ns v → listed ns v') →
  may_replace app v v' → managed v → isolated app v v' ∧ managed v'.
Proof.
  intros Hs E Hli Hr [Hsane Hwf Hlist]. split; split.
  - eapply step_mono; [done|]. by right; right.
  - destruct Hr as [->|(l & Hl & Hr)]; [done|by eapply replaced_others].
  - exists []. by rewrite app_nil_r.
  - eapply sane_spare; [done|apply ingress_spares_sts|done].
  - destruct Hr as [->|(l & Hl & Hr)]; [done|by eapply replaced_wf].
  - auto.
Qed.

Lemma instance_step app v v' :
  step (instance_objects ns app) v v' → sent v' = sent v → sane ns v' → managed v →
  isolated app v v' ∧ managed v'.
Proof.
  intros Hs E Hsane [_ Hwf Hlist]. split; [by apply isolated_instance|]. split; [done|..].
  - by erewrite rules_spare by (done || apply instance_spares_ing).
  - eapply listed_spare; [done|apply instance_spares_ing|done].
Qed.

Lemma service_managed name v v' :
  step (only Services ns name) v v' → managed v → managed v'.
Proof.
  intros Hs [Hsane Hwf Hlist]. split.
  - eapply sane_spare; [done|apply services_spare_sts|done].
  - by erewrite rules_spare by (done || apply services_spare_ing).
  - eapply listed_spare; [done|apply services_spare_ing|done].
Qed.

Lemma quiet_managed v v' :
  cluster v' = cluster v → managed v → managed v'.
Proof. intros E [H1 H2 H3]. split; unfold sane, listed, rules_in in *; by rewrite E. Qed.

(** *** Desire *)

(** The routes of an LRP decode and each is a URL. *)
Definition routes_valid lrp : bool :=
  is_ok (uris ← decodeRoutes (uris_of lrp); rules_for (lrp_Name lrp) (elems uris)).

Definition all_created lrp v v' : Prop :=
  let app := lrp_Name lrp in
  (∃ s, the_sts v' ns app = Some s ∧ stored_as StatefulSets ns (the_set lrp) s) ∧
  (∃ h, hsvc v' app = Some h ∧ stored_as Services ns (toHeadlessService lrp) h) ∧
  (∃ s, svc v' app = Some s ∧ stored_as Services ns (toService lrp) s) ∧
  ∃ uris rules, decodeRoutes (uris_of lrp) = Ok uris ∧
    rules_for app (elems uris) = Ok rules ∧ replaced ns app rules v v' ∧
    sent v' = sent v ++ [registration app uris].

Definition desired lrp v (r : result unit) v' : Prop :=
  let app := lrp_Name lrp in
  isolated app v v' ∧ managed v' ∧
  match r with
  | Ok _ =>
      is_Some (the_sts v ns app) ∧ cluster v' = cluster v ∧ sent v' = sent v ∨
      the_sts v ns app = None ∧ all_created lrp v v'
  | Err _ =>
      healthy v = true → app ≠ "" →
      the_sts v ns app = None ∧
      (is_Some (hsvc v app) ∨ is_Some (svc v app) ∨ routes_valid lrp = false)
  end.

Lemma registration_name app l :
  Forall (Forall (λ r, rt_Name r = GetInternalServiceName app)) [registration app l].
Proof. by repeat constructor. Qed.

Lemma ing_Update_managed lrp v (Q : outcome (result unit) → Obs → Prop) :
  managed v → is_ok (decodeRoutes (uris_of lrp)) = true →
  (∀ r v', isolated (lrp_Name lrp) v v' → managed v' → ingress_updated ns lrp v r v' →
           Q (Ret r) v') →
  wp (ing_Update ns lrp) Q v.
Proof.
  intros Hm Hd HQ. apply ing_Update_wp; [done|apply Hm|done|]. intros r v' Hu.
  destruct Hu as (Hs & E & Hli & uris & Euris & Hr & Hres).
  destruct (ingress_step (lrp_Name lrp) v v') as [Hi Hm']; [done..| |done|].
  { destruct Hr as [?|(l & El & Hl)]; [by left|right]. exists l. split; [|done].
    by eapply rules_for_service. }
  apply HQ; [done..|]. unfold ingress_updated. eauto 7.
Qed.

(** The three parts of an application, one after the other. *)
Lemma all_created_chain lrp v v1 v2 v3 :
  instance_created ns lrp v (Ok tt) v1 → svc_created ns lrp v1 (Ok tt) v2 →
  ingress_updated ns lrp v2 (Ok tt) v3 → all_created lrp v v3.
Proof.
  intros (Hst1 & E1 & _ & _ & _ & (s & Es & Hss) & (h & Eh & Hsh))
    (Hst2 & _ & (sv & Esv & Hsv) & uris & Euris & E2) (Hst3 & E3 & _ & uris' & Euris' & _ & Hr3).
  change (unmarshal_strings (uris_of lrp)) with (decodeRoutes (uris_of lrp)) in Euris'.
  rewrite Euris in Euris'. injection Euris' as <-. destruct Hr3 as (rules & Erules & Hrep).
  assert (rules_in ns v2 = rules_in ns v) as Er.
  { erewrite rules_spare by (done || apply services_spare_ing).
    by erewrite rules_spare by (done || apply instance_spares_ing). }
  split_and!.
  - exists s. split; [|done].
    erewrite (step_sts_spare _ _ _ _ Hst3) by apply ingress_spares_sts.
    by erewrite (step_sts_spare _ _ _ _ Hst2) by apply services_spare_sts.
  - exists h. split; [|done].
    erewrite (step_svc_spare _ _ _ _ Hst3) by apply ingress_spares_svc.
    by erewrite (step_svc_spare _ _ _ _ Hst2) by apply svc_spares_hsvc.
  - exists sv. split; [|done].
    by erewrite (step_svc_spare _ _ _ _ Hst3) by apply ingress_spares_svc.
  - exists uris, rules. split_and!; [done..| |congruence].
    unfold replaced in *. by rewrite <- Er.
Qed.

Lemma all_created_same lrp v v0 v' :
  cluster v0 = cluster v → sent v0 = sent v → all_created lrp v0 v' → all_created lrp v v'.
Proof.
  intros Ec Es. unfold all_created, replaced, rules_in. by rewrite Ec, Es.
Qed.

(** On a healthy server the ingress is refused for its routes only. *)
Lemma ingress_refuses lrp v e v' :
  ingress_updated ns lrp v (Err e) v' → healthy v = true → lrp_Name lrp ≠ "" →
  routes_valid lrp = false.
Proof.
  intros (_ & _ & _ & uris & Euris & _ & Hr) Hv Hn. unfold routes_valid.
  change (unmarshal_strings (uris_of lrp)) with (decodeRoutes (uris_of lrp)) in Euris.
  rewrite Euris. simpl. by apply Hr.
Qed.

Lemma Desire_wp lrp v (Q : outcome (result unit) → Obs → Prop) :
  managed v → has_metadata lrp → label_value (lrp_Name lrp) = true →
  (∀ r v', desired lrp v r v' → Q (Ret r) v') →
  wp (Desire backend lrp) Q v.
Proof.
  intros Hm Hmeta Hname HQ.
  apply wp_try, sts_Exists_wp; [apply Hm|done|done|]. intros r v0 (Hst0 & Hc0 & Hs0 & Hr0).
  assert (managed v0) as Hm0 by by eapply quiet_managed.
  assert (isolated (lrp_Name lrp) v v0) as Hi0.
  { apply isolated_quiet_service; [|done]. by eapply step_mono; [done|]. }
  destruct r as [b|e].
  2:{ apply HQ. split_and!; [done..|]. intros Hv. congruence. }
  destruct b; subst.
  { apply wp_ret, HQ. split_and!; [done..|]. left. split_and!; [|done..].
    by apply eq_sym, bool_decide_eq_true in Hr0. }
  assert (the_sts v ns (lrp_Name lrp) = None) as Hno
    by (by apply eq_sym, bool_decide_eq_false, eq_None_not_Some in Hr0).
  apply wp_try, sts_Create_wp; [apply Hm0|done|]. intros r v1 Hinst.
  destruct (Hinst) as (Hst1 & Hs1 & Hsane1 & Hr1).
  destruct (instance_step (lrp_Name lrp) v0 v1) as [Hi1 Hm1]; [done..|].
  pose proof (isolated_trans _ _ _ _ Hi0 Hi1) as Hi01.
  destruct r as [[]|e].
  2:{ apply HQ. split_and!; [done..|]. intros Hv Hn. split; [done|].
      apply Hst0 in Hv. destruct (Hr1 Hv ns_ok Hn) as [[? Hx]|[? Hx]]; rewrite Hc0 in Hx.
      - by pose proof (eq_trans (eq_sym Hno) Hx).
      - left. by eexists. }
  assert (svc v1 (lrp_Name lrp) = svc v (lrp_Name lrp)) as Esvc.
  { rewrite <- Hc0. eapply step_svc_spare; [exact Hst1|apply instance_spares_svc]. }
  apply wp_try, svc_Create_wp. intros r v2 Hsvc. destruct (Hsvc) as (Hst2 & Hr2).
  assert (managed v2) as Hm2 by by eapply service_managed.
  destruct r as [[]|e].
  2:{ destruct Hr2 as [E2 Hr2]. apply HQ. split_and!; [|done|].
      - eapply isolated_trans; [done|]. by apply isolated_quiet_service.
      - intros Hv Hn. split; [done|]. right. apply Hst0, Hst1 in Hv.
        destruct (Hr2 Hv ns_ok) as [Hx|Hx]; [left; by rewrite <- Esvc|right].
        unfold routes_valid. by destruct (decodeRoutes _). }
  destruct Hr2 as (_ & _ & uris & Euris & E2).
  assert (isolated (lrp_Name lrp) v v2) as Hi2.
  { eapply isolated_trans; [done|]. by eapply isolated_service; [| |apply registration_name]. }
  apply ing_Update_managed; [done|by rewrite Euris|]. intros r v3 Hi3 Hm3 Hu.
  apply HQ. split_and!; [by eapply isolated_trans|done|]. destruct r as [[]|e].
  - right. split; [done|]. apply (all_created_same _ _ v0); [done..|]. by eapply all_created_chain.
  - intros Hv Hn. split; [done|]. right; right.
    eapply ingress_refuses; [exact Hu|by apply Hst2, Hst1, Hst0|done].
Qed.

(** *** Update *)

Definition all_updated lrp v v' : Prop :=
  let app := lrp_Name lrp in
  (∃ s s', the_sts v ns app = Some s ∧ the_sts v' ns app = Some s' ∧
     ss_Replicas (sts_Spec s') = Some (to_int32 (lrp_TargetInstances lrp)) ∧
     ss_Template (sts_Spec s') = ss_Template (sts_Spec s) ∧
     ∀ k, sts_annotation s' k = if decide (k = LastUpdated)
          then gomap_get (lrp_Metadata lrp) LastUpdated else sts_annotation s k) ∧
  (∃ s s' old new, svc v app = Some s ∧ svc v' app = Some s' ∧
     svc_annotation s' RegisteredRoutes = uris_of lrp ∧
     decodeRoutes (svc_annotation s RegisteredRoutes) = Ok old ∧
     decodeRoutes (uris_of lrp) = Ok new ∧
     sent v' = sent v ++ [replacement app old new] ∧
     ∃ rules, rules_for app (elems new) = Ok rules ∧ replaced ns app rules v v').

Definition updated lrp v (r : result unit) v' : Prop :=
  let app := lrp_Name lrp in
  isolated app v v' ∧ managed v' ∧ hsvc v' app = hsvc v app ∧
  match r with
  | Ok _ => all_updated lrp v v'
  | Err _ =>
      healthy v = true → app ≠ "" →
      the_sts v ns app = None ∧ cluster v' = cluster v ∨
      is_Some (the_sts v ns app) ∧
      ((∀ s, svc v app = Some s →
          is_ok (decodeRoutes (svc_annotation s RegisteredRoutes)) = false) ∨
       routes_valid lrp = false)
  end.

Lemma all_updated_chain lrp v v1 v2 v3 :
  instance_updated ns lrp v (Ok tt) v1 → svc_updated ns lrp v1 (Ok tt) v2 →
  ingress_updated ns lrp v2 (Ok tt) v3 → all_updated lrp v v3.
Proof.
  intros (Hst1 & E1 & _ & t & t' & Et & Et' & Hrepl & Htpl & _ & Hann)
    (Hst2 & s & s' & old & new & Es & Es' & _ & Ha & Eold & Enew & E2)
    (Hst3 & E3 & _ & uris' & Euris' & _ & rules & Erules & Hrep).
  change (unmarshal_strings (uris_of lrp)) with (decodeRoutes (uris_of lrp)) in Euris'.
  rewrite Enew in Euris'. injection Euris' as <-.
  assert (rules_in ns v2 = rules_in ns v) as Er.
  { erewrite rules_spare by (done || apply services_spare_ing).
    eapply rules_spare; [exact Hst1|]. by intros i [? _]. }
  split.
  - exists t, t'. split_and!; [done| |done..].
    erewrite (step_sts_spare _ _ _ _ Hst3) by apply ingress_spares_sts.
    by erewrite (step_sts_spare _ _ _ _ Hst2) by apply services_spare_sts.
  - exists s, s', old, new. split_and!; [| |done..|congruence|].
    + rewrite <- Es. symmetry. eapply step_svc_spare; [exact Hst1|by apply only_sts_spares].
    + by erewrite (step_svc_spare _ _ _ _ Hst3) by apply ingress_spares_svc.
    + exists rules. split; [done|]. unfold replaced in *. by rewrite <- Er.
Qed.

Lemma Update_wp lrp v (Q : outcome (result unit) → Obs → Prop) :
  managed v → (∀ r v', updated lrp v r v' → Q (Ret r) v') →
  wp (Update backend lrp) Q v.
Proof.
  intros Hm HQ. apply wp_try, sts_Update_wp; [apply Hm|]. intros r v1 Hinst.
  destruct (Hinst) as (Hst1 & Hs1 & Hsane1 & Hr1).
  destruct (instance_step (lrp_Name lrp) v v1) as [Hi1 Hm1]; [|done..|].
  { eapply step_mono; [exact Hst1|]. by left. }
  assert (∀ name, the_svc v1 ns name = the_svc v ns name) as Esvc.
  { intros name. eapply step_svc_spare; [exact Hst1|by apply only_sts_spares]. }
  destruct r as [[]|e].
  2:{ apply HQ. split_and!; [done..|apply Esvc|]. intros Hv Hn. left. by apply Hr1. }
  assert (is_Some (the_sts v ns (lrp_Name lrp))) as Hsome
    by (destruct Hr1 as (? & ? & ? & _); by eexists).
  apply wp_try, svc_Update_wp. intros r v2 Hsvc. destruct (Hsvc) as (Hst2 & Hr2).
  assert (managed v2) as Hm2 by by eapply service_managed.
  assert (hsvc v2 (lrp_Name lrp) = hsvc v (lrp_Name lrp)) as Eh.
  { rewrite <- Esvc. eapply step_svc_spare; [exact Hst2|apply svc_spares_hsvc]. }
  destruct r as [[]|e].
  2:{ destruct Hr2 as [E2 Hr2]. apply HQ. split_and!; [|done|done|].
      - eapply isolated_trans; [done|]. by apply isolated_quiet_service.
      - intros Hv Hn. right. split; [done|].
        apply Hst1 in Hv. destruct (Hr2 Hv ns_ok) as [_ Hx].
        rewrite <- (Esvc (GetInternalServiceName (lrp_Name lrp))).
        destruct (the_svc v1 _ _) as [s|]; [|by left]. destruct (Hx s eq_refl) as [Hy|Hy].
        + left. by intros ? [= <-].
        + right. unfold routes_valid. by destruct (decodeRoutes (uris_of lrp)). }
  destruct Hr2 as (s & s' & old & new & _ & _ & _ & _ & _ & Enew & E2).
  assert (isolated (lrp_Name lrp) v v2) as Hi2.
  { eapply isolated_trans; [done|]. eapply isolated_service; [done|done|].
    by repeat constructor. }
  apply ing_Update_managed; [done|by rewrite Enew|]. intros r v3 Hi3 Hm3 Hu.
  apply HQ. split_and!; [by eapply isolated_trans|done| |].
  { destruct Hu as (Hst3 & _).
    erewrite (step_svc_spare _ _ _ _ Hst3); [done|apply ingress_spares_svc]. }
  destruct r as [[]|e]; [by eapply all_updated_chain|].
  intros Hv Hn. right. split; [done|]. right.
  eapply ingress_refuses; [exact Hu|by apply Hst2, Hst1|done].
Qed.

(** *** Stop *)

Definition all_stopped app v v' : Prop :=
  is_Some (the_sts v ns app) ∧ the_sts v' ns app = None ∧
  is_Some (hsvc v app) ∧ hsvc v' app = None ∧
  is_Some (the_ing v ns ingressName) ∧ replaced ns app [] v v' ∧
  ∃ s l, svc v app = Some s ∧ svc v' app = None ∧
    decodeRoutes (svc_annotation s RegisteredRoutes) = Ok l ∧
    sent v' = sent v ++ [unregistration app l].

(** A [Stop] that ends early leaves the service and its routes. *)
Definition half_stopped app v v' : Prop :=
  is_Some (the_sts v ns app) ∧ the_sts v' ns app = None ∧
  is_Some (hsvc v app) ∧ hsvc v' app = None ∧
  svc v' app = svc v app ∧ sent v' = sent v.

Definition stopped app v (r : result unit) v' : Prop :=
  isolated app v v' ∧ managed v' ∧
  match r with
  | Ok _ => all_stopped app v v'
  | Err _ =>
      healthy v = true → app ≠ "" →
      the_sts v ns app = None ∧ cluster v' = cluster v ∧ sent v' = sent v ∨
      is_Some (the_sts v ns app) ∧ hsvc v app = None ∨
      half_stopped app v v' ∧
      (the_ing v ns ingressName = None ∨
       ∀ s, svc v app = Some s →
         is_ok (decodeRoutes (svc_annotation s RegisteredRoutes)) = false)
  end.

(** The last step, which deletes the service. *)
Lemma svc_deleted_isolated app v r v' : svc_deleted ns app v r v' → isolated app v v'.
Proof.
  intros (Hst & Hr). destruct r as [[]|e].
  - destruct Hr as (s & l & _ & _ & _ & E). eapply isolated_service; [done..|].
    by repeat constructor.
  - destruct Hr as [[[E _]|(s & l & _ & _ & E)] _]; [by apply isolated_quiet_service|].
    eapply isolated_service; [done..|]. by repeat constructor.
Qed.

Lemma Stop_wp app v (Q : outcome (result unit) → Obs → Prop) :
  managed v → (∀ r v', stopped app v r v' → Q (Ret r) v') →
  wp (Stop backend app) Q v.
Proof.
  intros Hm HQ. apply wp_try, sts_Delete_wp; [apply Hm|]. intros r v1 (Hst1 & Hs1 & Hsane1 & Hr1).
  destruct (instance_step app v v1) as [Hi1 Hm1]; [done..|].
  assert (svc v1 app = svc v app) as Esvc.
  { eapply step_svc_spare; [exact Hst1|apply instance_spares_svc]. }
  assert (the_ing v1 ns ingressName = the_ing v ns ingressName) as Eing.
  { eapply step_ing_spare; [exact Hst1|apply instance_spares_ing]. }
  assert (rules_in ns v1 = rules_in ns v) as Er by (unfold rules_in; by rewrite Eing).
  destruct r as [[]|e].
  2:{ apply HQ. split_and!; [done..|]. intros Hv Hn. destruct (Hr1 Hv ns_ok Hn) as [[]|]; auto. }
  destruct Hr1 as (Hsts & Hh & Hsts1 & Hh1).
  apply wp_try, ing_Delete_wp; [done|apply Hm1|]. intros r v2 (Hst2 & Hs2 & Hli & Hrep & Hr2).
  destruct (ingress_step app v1 v2) as [Hi2 Hm2]; [done..| |done|].
  { destruct Hrep as [?|?]; [by left|right; exists []]. by split; [constructor|]. }
  pose proof (isolated_trans _ _ _ _ Hi1 Hi2) as Hi12.
  assert (half_stopped app v v2) as Hhalf.
  { split_and!; [done| |done|..|congruence];
      erewrite ?(step_sts_spare _ _ _ _ Hst2) by apply ingress_spares_sts;
      erewrite ?(step_svc_spare _ _ _ _ Hst2) by apply ingress_spares_svc; done. }
  destruct r as [[]|e].
  2:{ apply HQ. split_and!; [done..|]. intros Hv Hn. right; right. split; [done|]. left.
      rewrite <- Eing. by apply Hr2, Hst1. }
  destruct Hr2 as [Hing Hrep2].
  apply svc_Delete_wp. intros r v3 Hdel. destruct (Hdel) as (Hst3 & Hr3).
  assert (managed v3) as Hm3 by by eapply service_managed.
  destruct Hhalf as (_ & Hsts2 & _ & Hh2 & Esvc2 & Hs02). apply HQ. split_and!; [|done|].
  - eapply isolated_trans; [done|]. by eapply svc_deleted_isolated.
  - assert (the_sts v3 ns app = None ∧ hsvc v3 app = None) as [Hsts3 Hh3].
    { split; [erewrite (step_sts_spare _ _ _ _ Hst3) by apply services_spare_sts|
        erewrite (step_svc_spare _ _ _ _ Hst3) by apply svc_spares_hsvc]; done. }
    destruct r as [[]|e].
    + destruct Hr3 as (s & l & Es & Es3 & Eann & E3). split_and!; try done; [by rewrite <- Eing|..].
      * unfold replaced in *. erewrite rules_spare by (done || apply services_spare_ing).
        by rewrite <- Er.
      * exists s, l. split_and!; [congruence|done|done|congruence].
    + intros Hv Hn. apply Hst1, Hst2 in Hv. destruct Hr3 as [_ Hr3].
      destruct (Hr3 Hv ns_ok) as (E3 & Ec3 & Hbad). right; right. split.
      * unfold half_stopped. split_and!; try done; [by rewrite Ec3|congruence].
      * right. intros s Es. apply Hbad. congruence.
Qed.
End Spec.

(** ** The abstract scheduler

    What a client may believe: a map from applications to what runs of them. *)

Record AppState := {
  as_guid : string;        (* the process id of the cloud controller *)
  as_updated : string;     (* when the cloud controller last changed it *)
  as_instances : Z;
  as_image : string;
  as_uris : list string
}.

(** The state in which an LRP is first run. *)
Definition first_state (lrp : LRP) (uris : list string) : AppState := {|
  as_guid := gomap_get (lrp_Metadata lrp) ProcessGUID;
  as_updated := gomap_get (lrp_Metadata lrp) LastUpdated;
  as_instances := to_int32 (lrp_TargetInstances lrp);
  as_image := lrp_Image lrp; as_uris := uris |}.

(** What an update leaves of it. *)
Definition next_state (lrp : LRP) (uris : list string) (a : AppState) : AppState := {|
  as_guid := as_guid a; as_updated := gomap_get (lrp_Metadata lrp) LastUpdated;
  as_instances := to_int32 (lrp_TargetInstances lrp);
  as_image := as_image a; as_uris := uris |}.

(** An operation's answer and the map after it. *)
Definition abs_Desire (lrp : LRP) (uris : list string) (m : gmap string AppState) :
    bool * gmap string AppState :=
  match m !! lrp_Name lrp with
  | Some _ => (true, m)
  | None => (true, <[lrp_Name lrp := first_state lrp uris]> m)
  end.

Definition abs_Update (lrp : LRP) (uris : list string) (m : gmap string AppState) :
    bool * gmap string AppState :=
  match m !! lrp_Name lrp with
  | Some a => (true, <[lrp_Name lrp := next_state lrp uris a]> m)
  | None => (false, m)
  end.

Definition abs_Stop (app : string) (m : gmap string AppState) : bool * gmap string AppState :=
  match m !! app with
  | Some _ => (true, delete app m)
  | None => (false, m)
  end.

(** A name whose service is not the headless service of another application. *)
Definition plain (app : string) : Prop := ∀ b, app ≠ b +:+ "-headless".

Section Abstraction.
Context {S : Type} `{!KubeClient S, !RoutesChan S, !Observed S Obs, !KubeLaws S,
  !UrlLib, !MapRange}.
Context (ns : string) (ns_ok : ns ≠ "").
Implicit Types (app : string) (v : Obs) (lrp : LRP) (m : gmap string AppState).

Abbreviation svc v app := (the_svc v ns (GetInternalServiceName app)).
Abbreviation hsvc v app := (the_svc v ns (GetInternalHeadlessServiceName app)).

Definition shows app (a : AppState) v : Prop :=
  (∃ s c, the_sts v ns app = Some s ∧ first_container s = Ret c ∧ ct_Image c = as_image a ∧
     ss_Replicas (sts_Spec s) = Some (as_instances a) ∧
     sts_annotation s ProcessGUID = as_guid a ∧ sts_annotation s LastUpdated = as_updated a) ∧
  is_Some (hsvc v app) ∧
  (∃ s uris, svc v app = Some s ∧
     decodeRoutes (svc_annotation s RegisteredRoutes) = Ok uris ∧ elems uris = as_uris a) ∧
  ∃ rules, rules_for app (as_uris a) = Ok rules ∧ rules_of app (rules_in ns v) ≡ₚ rules.

Definition absent app v : Prop :=
  the_sts v ns app = None ∧ hsvc v app = None ∧ svc v app = None ∧
  rules_of app (rules_in ns v) = [].

Definition represents v m : Prop :=
  ∀ app, plain app → match m !! app with Some a => shows app a v | None => absent app v end.

Lemma rules_of_others app app' l :
  app ≠ app' →
  rules_of app' l = rules_of app' (other_rules (GetInternalServiceName app) l).
Proof.
  intros Hne. unfold rules_of, other_rules. rewrite list_filter_filter.
  apply list_filter_iff. intros r. split; [|tauto]. intros Hr. split; [done|].
  rewrite Hr. intros E. injection E as E. by apply Hne.
Qed.

(** Operations on one application do not change how another shows. *)
Lemma isolated_frame app app' v v' :
  isolated ns app v v' → plain app → plain app' → app ≠ app' →
  the_sts v' ns app' = the_sts v ns app' ∧ hsvc v' app' = hsvc v app' ∧
  svc v' app' = svc v app' ∧ rules_of app' (rules_in ns v') ≡ₚ rules_of app' (rules_in ns v).
Proof.
  intros [Hs Hr _] Hp Hp' Hne. split_and!.
  - eapply step_sts_spare; [exact Hs|]. intros [[[_ E]|[? _]]|[[? _]|[? _]]]; try done.
    by injection E as E.
  - eapply step_svc_spare; [exact Hs|]. intros [[[? _]|[_ E]]|[[_ E]|[? _]]]; try done;
      apply (f_equal snd) in E; cbn [snd] in E.
    + by apply (inj _) in E.
    + by apply eq_sym, service_headless_clash, Hp in E.
  - eapply step_svc_spare; [exact Hs|]. intros [[[? _]|[_ E]]|[[_ E]|[? _]]]; try done;
      apply (f_equal snd) in E; cbn [snd] in E.
    + by apply service_headless_clash, Hp' in E.
    + by apply (inj _) in E.
  - rewrite (rules_of_others app app' (rules_in ns v')), Hr by done.
    by rewrite <- (rules_of_others app app' (rules_in ns v)) by done.
Qed.

(** So it is enough to look at the application itself. *)
Lemma represents_step app v v' m m' :
  represents v m → isolated ns app v v' → plain app →
  (∀ app', app ≠ app' → m' !! app' = m !! app') →
  match m' !! app with Some a => shows app a v' | None => absent app v' end →
  represents v' m'.
Proof.
  intros Hrep Hi Hp Hm Happ app' Hp'. destruct (decide (app = app')) as [<-|Hne]; [done|].
  rewrite Hm by done. specialize (Hrep app' Hp').
  destruct (isolated_frame app app' v v') as (E1 & E2 & E3 & E4); [done..|].
  destruct (m !! app') as [a|].
  - destruct Hrep as (Hs & Hh & Hv & rules & Hrules & Hp2). unfold shows.
    rewrite E1, E2, E3. split_and!; [done..|]. exists rules. split; [done|]. by rewrite E4.
  - destruct Hrep as (Hs & Hh & Hv & Hr). unfold absent. rewrite E1, E2, E3.
    split_and!; [done..|]. rewrite Hr in E4. by apply Permutation_nil_r in E4.
Qed.

Lemma represents_same v v' m : cluster v' = cluster v → represents v m → represents v' m.
Proof.
  intros E Hrep app Hp. specialize (Hrep app Hp). unfold shows, absent, rules_in in *.
  by rewrite E.
Qed.

Lemma all_created_shows lrp v v' uris :
  decodeRoutes (uris_of lrp) = Ok uris →
  all_created ns lrp v v' →
  shows (lrp_Name lrp) (first_state lrp (elems uris)) v'.
Proof.
  intros Eu ((s & Es & Hs) & (h & Eh & _) & (sv & Esv & Hsv) & uris' & rules & Eu' & Er & Hrep & _).
  rewrite Eu in Eu'. injection Eu' as <-. split_and!.
  - destruct (first_container_stored _ _ _ _ Hs eq_refl) as (c & Ec & Hc).
    destruct (stored_spec _ _ _ _ Hs) as [Hr _ _ _].
    pose proof (λ k, gomap_get_proper _ _ (stored_annotations _ _ _ _ Hs) k k eq_refl) as Hann.
    exists s, c. split_and!; [done|done|apply (stored_image _ _ Hc)|by rewrite Hr; [|eexists]| |];
      exact (Hann _).
  - by eexists.
  - exists sv, uris. split_and!; [done| |done].
    by rewrite (svc_annotation_stored _ _ _ _ Hsv), toService_annotation.
  - exists rules. split; [done|]. eapply replaced_own; [by eapply rules_for_service|done].
Qed.

Lemma all_updated_shows lrp v v' uris a :
  decodeRoutes (uris_of lrp) = Ok uris →
  hsvc v' (lrp_Name lrp) = hsvc v (lrp_Name lrp) →
  shows (lrp_Name lrp) a v → all_updated ns lrp v v' →
  shows (lrp_Name lrp) (next_state lrp (elems uris) a) v'.
Proof.
  intros Eu Eh ((s & c & Es & Ec & Eimg & _ & Eguid & _) & Hh & _) [Hsts Hsvc].
  destruct Hsts as (s1 & s' & Es1 & Es' & Hrepl & Htpl & Hann).
  destruct Hsvc as (t & t' & old & new & _ & Et' & Ha & _ & Enew & _ & rules & Er & Hrep).
  rewrite Es in Es1. injection Es1 as <-. rewrite Eu in Enew. injection Enew as <-. split_and!.
  - exists s', c. rewrite !Hann. split_and!; [done| |done|done|done|done].
    unfold first_container in *. by rewrite Htpl.
  - by rewrite Eh.
  - exists t', uris. by rewrite Ha.
  - exists rules. split; [done|]. eapply replaced_own; [by eapply rules_for_service|done].
Qed.
End Abstraction.

(** ** Commands: the operations as a client issues them *)

Inductive command := CDesire (lrp : LRP) | CUpdate (lrp : LRP) | CStop (app : string).

Definition command_app (c : command) : string :=
  match c with CDesire lrp | CUpdate lrp => lrp_Name lrp | CStop app => app end.

Definition decoded_uris (lrp : LRP) : list string :=
  match decodeRoutes (uris_of lrp) with Ok uris => elems uris | Err _ => [] end.

Definition abs_command (c : command) (m : gmap string AppState) : bool * gmap string AppState :=
  match c with
  | CDesire lrp => abs_Desire lrp (decoded_uris lrp) m
  | CUpdate lrp => abs_Update lrp (decoded_uris lrp) m
  | CStop app => abs_Stop app m
  end.

Section Commands.
Context {S : Type} `{!KubeClient S, !RoutesChan S, !Observed S Obs, !KubeLaws S,
  !UrlLib, !MapRange}.
Context (ns : string) (ns_ok : ns ≠ "").
Implicit Types (c : command) (v : Obs) (m : gmap string AppState).

Abbreviation backend := (@NewDesirer S _ _ _ _ ns UseStatefulSets WorkChan).

Definition run_command c : M S (result unit) :=
  match c with
  | CDesire lrp => Desire backend lrp
  | CUpdate lrp => Update backend lrp
  | CStop app => Stop backend app
  end.

(** A sequence of commands and their answers. *)
Fixpoint run_commands (cs : list command) : M S (list (result unit)) :=
  match cs with
  | [] => mret []
  | c :: cs => r ← run_command c; rs ← run_commands cs; mret (r :: rs)
  end.

Fixpoint abs_commands (cs : list command) m : list bool * gmap string AppState :=
  match cs with
  | [] => ([], m)
  | c :: cs =>
      let '(b, m1) := abs_command c m in
      let '(bs, m2) := abs_commands cs m1 in (b :: bs, m2)
  end.

(** An LRP the API server takes. *)
Definition usable (lrp : LRP) : Prop :=
  has_metadata lrp ∧ label_value (lrp_Name lrp) = true.

(** When a command works as the abstract scheduler says: the routes are
    valid, and an application is stopped while some application is routed,
    for [Stop] fails without an ingress. *)
Definition allowed c m : Prop :=
  plain (command_app c) ∧ command_app c ≠ "" ∧
  match c with
  | CDesire lrp => usable lrp ∧ routes_valid lrp = true
  | CUpdate lrp => routes_valid lrp = true
  | CStop app => is_Some (m !! app) →
      ∃ app' a, plain app' ∧ m !! app' = Some a ∧ as_uris a ≠ []
  end.

Fixpoint all_allowed (cs : list command) m : Prop :=
  match cs with
  | [] => True
  | c :: cs => allowed c m ∧ all_allowed cs (abs_command c m).2
  end.

(** A routed application has an ingress. *)
Lemma routed_ingress v m app a :
  listed ns v → represents ns v m → plain app → m !! app = Some a → as_uris a ≠ [] →
  is_Some (the_ing v ns ingressName).
Proof.
  intros Hli Hrep Hp Ha Hne. specialize (Hrep app Hp). rewrite Ha in Hrep.
  destruct Hrep as (_ & _ & _ & rules & Er & Hperm). apply Hli. intros E.
  rewrite E in Hperm. unfold rules_of in Hperm. rewrite filter_nil in Hperm.
  apply Permutation_nil_l in Hperm. subst rules.
  apply rules_for_length in Er. by destruct (as_uris a).
Qed.

Lemma valid_uris lrp :
  routes_valid lrp = true → ∃ uris, decodeRoutes (uris_of lrp) = Ok uris ∧
    decoded_uris lrp = elems uris.
Proof.
  unfold routes_valid, decoded_uris. destruct (decodeRoutes (uris_of lrp)) as [uris|]; [|done].
  eauto.
Qed.

Definition answers (b : bool) (r : result unit) : Prop := is_ok r = b.

Lemma desire_refines lrp v m r v' :
  healthy v = true → represents ns v m → allowed (CDesire lrp) m →
  desired ns lrp v r v' →
  is_ok r = (abs_command (CDesire lrp) m).1 ∧ represents ns v' (abs_command (CDesire lrp) m).2.
Proof.
  intros Hv Hrep (Hp & Hn & _ & Hval) (Hi & _ & Hr). simpl in *.
  destruct (valid_uris lrp Hval) as (uris & Eu & Ed). rewrite Ed.
  pose proof (Hrep _ Hp) as Happ. unfold abs_Desire. destruct (m !! lrp_Name lrp) as [a|] eqn:Em.
  - destruct Happ as ((s & _ & Es & _) & _). destruct r as [[]|e].
    + split; [done|]. destruct Hr as [(_ & Hc & _)|[Hno _]]; [by eapply represents_same|congruence].
    + destruct (Hr Hv Hn) as [Hno _]. congruence.
  - destruct Happ as (Hsts & Hh & Hs & _). destruct r as [[]|e].
    + split; [done|]. destruct Hr as [([? ?] & _)|[_ Hall]]; [congruence|].
      eapply represents_step; [done|done|done|..].
      * intros app' Hne. simpl. by rewrite lookup_insert_ne.
      * simpl. rewrite lookup_insert_eq. by apply (all_created_shows ns lrp v v' uris).
    + destruct (Hr Hv Hn) as (_ & [[? ?]|[[? ?]|?]]); congruence.
Qed.

Lemma update_refines lrp v m r v' :
  healthy v = true → represents ns v m → allowed (CUpdate lrp) m →
  updated ns lrp v r v' →
  is_ok r = (abs_command (CUpdate lrp) m).1 ∧ represents ns v' (abs_command (CUpdate lrp) m).2.
Proof.
  intros Hv Hrep (Hp & Hn & Hval) (Hi & _ & Eh & Hr). simpl in *.
  destruct (valid_uris lrp Hval) as (uris & Eu & Ed). rewrite Ed.
  pose proof (Hrep _ Hp) as Happ. unfold abs_Update. destruct (m !! lrp_Name lrp) as [a|] eqn:Em.
  - destruct r as [[]|e].
    + split; [done|]. eapply represents_step; [done|done|done|..].
      * intros app' Hne. simpl. by rewrite lookup_insert_ne.
      * simpl. rewrite lookup_insert_eq. by apply (all_updated_shows ns lrp v v' uris a).
    + destruct Happ as ((s & _ & Es & _) & _ & (sv & old & Esv & Eold & _) & _).
      destruct (Hr Hv Hn) as [[? _]|[_ [Hbad|?]]]; [congruence| |congruence].
      specialize (Hbad _ Esv). by rewrite Eold in Hbad.
  - destruct Happ as (Hsts & _). destruct r as [[]|e].
    + destruct Hr as [(s & s' & Es & _) _]. congruence.
    + split; [done|]. destruct (Hr Hv Hn) as [[_ Hc]|[[? ?] _]]; [by eapply represents_same|].
      congruence.
Qed.

Lemma stop_refines app v m r v' :
  healthy v = true → listed ns v → represents ns v m → allowed (CStop app) m →
  stopped ns app v r v' →
  is_ok r = (abs_command (CStop app) m).1 ∧ represents ns v' (abs_command (CStop app) m).2.
Proof.
  intros Hv Hli Hrep (Hp & Hn & Hing) (Hi & _ & Hr). simpl in *.
  pose proof (Hrep _ Hp) as Happ. unfold abs_Stop. destruct (m !! app) as [a|] eqn:Em.
  - destruct Hing as (app' & a' & Hp' & Ea' & Hne); [by eexists|].
    destruct (routed_ingress v m app' a') as [i Ei]; [done..|].
    destruct Happ as ((s & _ & Es & _) & [h Eh] & (sv & old & Esv & Eold & _) & _).
    destruct r as [[]|e].
    + split; [done|]. destruct Hr as (_ & Hsts & _ & Hh & _ & Hrepl & (? & ? & _ & Hsvc & _)).
      eapply represents_step; [done|done|done|..].
      * intros app'' Hne'. simpl. by rewrite lookup_delete_ne.
      * simpl. rewrite lookup_delete_eq. split_and!; [done..|]. unfold replaced in Hrepl.
        rewrite app_nil_r in Hrepl.
        apply Permutation_nil_r. rewrite Hrepl. by rewrite rules_of_other.
    + destruct (Hr Hv Hn) as [[? _]|[[_ ?]|[_ [?|Hbad]]]]; [congruence..|].
      specialize (Hbad _ Esv). by rewrite Eold in Hbad.
  - destruct Happ as (Hsts & Hh & Hsvc & _). destruct r as [[]|e].
    + destruct Hr as ([? ?] & _). congruence.
    + split; [done|]. destruct (Hr Hv Hn) as [(_ & Hc & _)|[Hno|[([? ?] & _) _]]];
        [by eapply represents_same| |congruence].
      destruct Hno as [[? ?] _]. congruence.
Qed.

Definition commanded c v r v' : Prop :=
  match c with
  | CDesire lrp => desired ns lrp v r v'
  | CUpdate lrp => updated ns lrp v r v'
  | CStop app => stopped ns app v r v'
  end.

Definition well_formed c : Prop :=
  match c with CDesire lrp => usable lrp | _ => True end.

Lemma run_command_wp c v (Q : outcome (result unit) → Obs → Prop) :
  managed ns v → well_formed c →
  (∀ r v', commanded c v r v' → Q (Ret r) v') → wp (run_command c) Q v.
Proof.
  intros Hm Hc HQ. destruct c as [lrp|lrp|app]; simpl in *.
  - destruct Hc. by apply Desire_wp.
  - by apply Update_wp.
  - by apply Stop_wp.
Qed.

Lemma commanded_isolated c v r v' :
  commanded c v r v' → isolated ns (command_app c) v v' ∧ managed ns v'.
Proof.
  destruct c; simpl; [intros (? & ? & _)|intros (? & ? & _)|intros (? & ? & _)]; done.
Qed.

Lemma command_refines c v m r v' :
  healthy v = true → managed ns v → represents ns v m → allowed c m → commanded c v r v' →
  is_ok r = (abs_command c m).1 ∧ represents ns v' (abs_command c m).2.
Proof.
  intros Hv [_ _ Hli] Hrep Hc. destruct c as [lrp|lrp|app].
  - by apply desire_refines.
  - by apply update_refines.
  - by apply stop_refines.
Qed.

Lemma allowed_well_formed c m : allowed c m → well_formed c.
Proof. by destruct c; intros (_ & _ & H1); [destruct H1|..]. Qed.

Lemma run_commands_wp cs v m (Q : outcome (list (result unit)) → Obs → Prop) :
  healthy v = true → managed ns v → represents ns v m → all_allowed cs m →
  (∀ rs v', is_ok <$> rs = (abs_commands cs m).1 → represents ns v' (abs_commands cs m).2 →
     managed ns v' → healthy v' = true → Q (Ret rs) v') →
  wp (run_commands cs) Q v.
Proof.
  revert v m Q. induction cs as [|c cs IH]; intros v m Q Hv Hm Hrep Hall HQ; simpl in *.
  { by apply wp_ret, HQ. }
  destruct Hall as [Hc Hall]. apply wp_bind.
  apply run_command_wp; [done|by eapply allowed_well_formed|]. intros r v1 Hr.
  destruct (command_refines c v m r v1) as [Hans Hrep1]; [done..|].
  destruct (commanded_isolated c v r v1) as [Hi Hm1]; [done|].
  destruct (abs_command c m) as [b m1] eqn:Ec. simpl in *.
  assert (healthy v1 = true) as Hv1 by by apply (isolated_step _ _ _ _ Hi).
  apply wp_bind. apply (IH v1 m1); [done..|].
  intros rs v2 Hrs Hrep2 Hm2 Hv2. apply wp_ret.
  destruct (abs_commands cs m1) as [bs m2]. simpl in *.
  apply HQ; [|done..]. by rewrite fmap_cons, Hrs, Hans.
Qed.
End Commands.

(** ** The properties *)
Section Properties.
Context {S : Type} `{!KubeClient S, !RoutesChan S, !Observed S Obs, !KubeLaws S,
  !UrlLib, !MapRange}.
Context (ns : string) (ns_ok : ns ≠ "").

Abbreviation backend := (@NewDesirer S _ _ _ _ ns UseStatefulSets WorkChan).

(** C1: on a healthy API server the backend implements the abstract
    scheduler: any sequence of allowed commands answers what the map of
    applications answers, and ends in a cluster that shows that map. *)
Theorem scheduler_refinement cs v m :
  healthy v = true → managed ns v → represents ns v m → all_allowed cs m →
  wp (run_commands ns cs) (λ o v', ∃ rs, o = Ret rs ∧
    is_ok <$> rs = (abs_commands cs m).1 ∧ represents ns v' (abs_commands cs m).2) v.
Proof. intros. eapply run_commands_wp; eauto. Qed.

(** C2: whatever calls of the API server fail, and wherever, a command
    returns (it neither panics nor blocks), the objects, the ingress rules
    and the route messages of all other applications are untouched, and the
    namespace stays such as the backend can handle. *)
Theorem commands_isolated c v :
  managed ns v → well_formed c →
  wp (run_command ns c) (λ o v', (∃ r, o = Ret r) ∧
    isolated ns (command_app c) v v' ∧ managed ns v') v.
Proof.
  intros Hm Hc. apply run_command_wp; [done..|].
  intros r v' Hr. split; [by exists r|]. by eapply commanded_isolated.
Qed.

(** C3: [Desire] answers [nil] exactly when the application was there and
    nothing changed, or all of its objects, rules and its registration were
    made; on a healthy server it fails only on a left-over object or on
    routes that do not decode or are not URLs. *)
Theorem desire_spec lrp v :
  managed ns v → usable lrp →
  wp (Desire backend lrp) (λ o v', ∃ r, o = Ret r ∧
    match r with
    | Ok _ => is_Some (the_sts v ns (lrp_Name lrp)) ∧ cluster v' = cluster v ∧ sent v' = sent v
              ∨ the_sts v ns (lrp_Name lrp) = None ∧ all_created ns lrp v v'
    | Err _ => healthy v = true → lrp_Name lrp ≠ "" →
        the_sts v ns (lrp_Name lrp) = None ∧
        (is_Some (the_svc v ns (GetInternalHeadlessServiceName (lrp_Name lrp)))
         ∨ is_Some (the_svc v ns (GetInternalServiceName (lrp_Name lrp)))
         ∨ routes_valid lrp = false)
    end) v.
Proof.
  intros Hm [Hmeta Hname]. apply Desire_wp; [done..|].
  intros r v' (_ & _ & Hr). by exists r.
Qed.

(** C4: [Update] answers [nil] only when the replicas, the routes of the
    service and the ingress rules are the new ones and the change of the
    routes was announced; on a healthy server it fails only for an
    application that is not there, which changes nothing, or on routes that
    do not decode or are not URLs. *)
Theorem update_spec_ lrp v :
  managed ns v →
  wp (Update backend lrp) (λ o v', ∃ r, o = Ret r ∧
    match r with
    | Ok _ => all_updated ns lrp v v'
    | Err _ => healthy v = true → lrp_Name lrp ≠ "" →
        the_sts v ns (lrp_Name lrp) = None ∧ cluster v' = cluster v ∨
        is_Some (the_sts v ns (lrp_Name lrp)) ∧
        ((∀ s, the_svc v ns (GetInternalServiceName (lrp_Name lrp)) = Some s →
            is_ok (decodeRoutes (svc_annotation s RegisteredRoutes)) = false) ∨
         routes_valid lrp = false)
    end) v.
Proof.
  intros Hm. apply Update_wp; [done..|]. intros r v' (_ & _ & _ & Hr). by exists r.
Qed.

(** C5: when [Stop] answers [nil] the StatefulSet, both services and the
    rules of the application are gone and its routes were unregistered; on a
    healthy server it fails only for an application that is not there, which
    changes nothing, for one without headless service, or half-way, with the
    instances gone and the service left, when there is no ingress or the routes
    of the service do not decode. *)
Theorem stop_removes_all app v :
  managed ns v →
  wp (Stop backend app) (λ o v', ∃ r, o = Ret r ∧
    match r with
    | Ok _ => all_stopped ns app v v'
    | Err _ => healthy v = true → app ≠ "" →
        the_sts v ns app = None ∧ cluster v' = cluster v ∧ sent v' = sent v ∨
        is_Some (the_sts v ns app) ∧
          the_svc v ns (GetInternalHeadlessServiceName app) = None ∨
        half_stopped ns app v v' ∧
          (the_ing v ns ingressName = None ∨
           ∀ s, the_svc v ns (GetInternalServiceName app) = Some s →
             is_ok (decodeRoutes (svc_annotation s RegisteredRoutes)) = false)
    end) v.
Proof.
  intros Hm. apply Stop_wp; [done..|]. intros r v' (_ & _ & Hr). by exists r.
Qed.

(** C6: stopping an application while the namespace has no ingress, which is
    so when no application has a route, always fails half-way: the instances
    are gone, and the service stays with its routes registered. *)
Theorem stop_without_ingress app v :
  managed ns v → healthy v = true → app ≠ "" → the_ing v ns ingressName = None →
  is_Some (the_sts v ns app) →
  is_Some (the_svc v ns (GetInternalHeadlessServiceName app)) →
  wp (Stop backend app) (λ o v', (∃ e, o = Ret (Err e)) ∧ half_stopped ns app v v') v.
Proof.
  intros Hm Hv Hn Hing [s Hs] [h Hh]. apply Stop_wp; [done..|]. intros r v' (_ & _ & Hr).
  destruct r as [[]|e].
  - destruct Hr as (_ & _ & _ & _ & [? ?] & _). congruence.
  - split; [by exists e|]. destruct (Hr Hv Hn) as [[? _]|[[_ ?]|[? _]]]; [congruence..|done].
Qed.

(** C7: [Desire] of an application whose StatefulSet is there answers [nil]
    and does nothing, whatever else of the application is missing: after a
    failure half-way, to desire the application again completes nothing. *)
Theorem desire_again_does_nothing lrp v :
  managed ns v → usable lrp → healthy v = true → lrp_Name lrp ≠ "" →
  is_Some (the_sts v ns (lrp_Name lrp)) →
  wp (Desire backend lrp) (λ o v', o = Ret (Ok tt) ∧ cluster v' = cluster v ∧
    sent v' = sent v) v.
Proof.
  intros Hm [Hmeta Hname] Hv Hn [s Hs].
  apply Desire_wp; [done..|]. intros r v' (_ & _ & Hr). destruct r as [[]|e].
  - destruct Hr as [(_ & ? & ?)|[? _]]; [done|congruence].
  - destruct (Hr Hv Hn) as [? _]. congruence.
Qed.
End Properties.

Lemma has_suffix_app s suf : has_suffix suf (s +:+ suf) = true.
Proof.
  unfold has_suffix. induction s as [|c s IH].
  - rewrite app_empty_l. by destruct suf; simpl; rewrite ?String.eqb_refl, ?Ascii.eqb_refl.
  - rewrite app_cons. simpl. rewrite IH. by rewrite orb_true_r.
Qed.

(** ** Instances of the properties *)
Section Witnesses.
#[local] Existing Instance sample_urls.
#[local] Existing Instance range_in_order.
Abbreviation backend := (@NewDesirer Server _ _ _ _ "opi" UseStatefulSets WorkChan).

Lemma plain_check app : has_suffix "-headless" app = false → plain app.
Proof. intros E b ->. by rewrite has_suffix_app in E. Qed.

Lemma fresh_managed : managed "opi" (view fresh_server).
Proof.
  split; unfold sane, rules_in, listed, rules_in; simpl.
  - intros name s. by rewrite lookup_empty.
  - by rewrite lookup_empty.
  - rewrite lookup_empty. by split; [intros [? ?]|].
Qed.

Lemma fresh_represents : represents "opi" (view fresh_server) ∅.
Proof. intros app _. rewrite lookup_empty. unfold absent, rules_in. simpl. by rewrite !lookup_empty. Qed.

Lemma usable_dora : usable dora.
Proof. split; [apply sample_has_metadata|by vm_compute]. Qed.
Lemma usable_worker : usable worker.
Proof. split; [apply sample_has_metadata|by vm_compute]. Qed.

Definition session : list command :=
  [CDesire dora; CDesire worker; CUpdate (sample_lrp "dora-guid" ["dora.example.com"]);
   CStop "worker-guid"; CStop "worker-guid"].

Lemma session_allowed : all_allowed session ∅.
Proof.
  assert (plain "dora-guid" ∧ plain "worker-guid") as [Hd Hw] by (split; by apply plain_check).
  unfold session, all_allowed, allowed. split_and!;
    first [exact Hd|exact Hw|exact usable_dora|exact usable_worker|done|by vm_compute|idtac].
  - intros _. exists "dora-guid". eexists. split; [exact Hd|]. split; by vm_compute.
  - intros Hx. exfalso. vm_compute in Hx. by destruct Hx.
Qed.

Lemma scheduler_refinement_witness :
  all_allowed session ∅ ∧
  wp (run_commands "opi" session) (λ o v', ∃ rs, o = Ret rs ∧
    is_ok <$> rs = [true; true; true; true; false] ∧
    represents "opi" v' (abs_commands session ∅).2) (view fresh_server).
Proof.
  split; [exact session_allowed|].
  exact (scheduler_refinement "opi" ltac:(done) session (view fresh_server) ∅ eq_refl
    fresh_managed fresh_represents session_allowed).
Defined.

(** The first call is refused. *)
Definition flaky_server : Server :=
  {| srv_cluster := empty_cluster; srv_revision := 0; srv_refusals := [false; false; true]; srv_sent := [] |}.

Lemma commands_isolated_witness :
  managed "opi" (view flaky_server) ∧
  wp (run_command "opi" (CDesire dora)) (λ o v', (∃ r, o = Ret r) ∧
    isolated "opi" "dora-guid" (view flaky_server) v' ∧ managed "opi" v') (view flaky_server).
Proof.
  assert (managed "opi" (view flaky_server)) as Hm.
  { by apply (quiet_managed "opi" (view fresh_server)); [|apply fresh_managed]. }
  split; [exact Hm|].
  exact (commands_isolated "opi" ltac:(done) (CDesire dora) _ Hm usable_dora).
Defined.

Lemma desire_spec_witness :
  managed "opi" (view fresh_server) ∧ usable dora ∧
  (Desire backend dora fresh_server).1 = Ret (Ok tt) ∧
  ∃ r, (Desire backend dora fresh_server).1 = Ret r.
Proof.
  split; [exact fresh_managed|]. split; [exact usable_dora|]. split; [by vm_compute|].
  destruct (desire_spec "opi" ltac:(done) dora _ fresh_managed usable_dora fresh_server
    fresh_good eq_refl) as (_ & r & Hr & _).
  exact (ex_intro _ r Hr).
Defined.

(** The cluster after [dora] was desired. *)
Definition with_app (lrp : LRP) : Server := (Desire backend lrp fresh_server).2.

Lemma with_app_good lrp :
  usable lrp → good (with_app lrp) ∧ managed "opi" (view (with_app lrp)).
Proof.
  intros [Hmeta Hname]. apply (Desire_wp "opi" ltac:(done) lrp (view fresh_server)
    (λ _ v', managed "opi" v')); [apply fresh_managed|done|done| |apply fresh_good|done].
  by intros r v' (_ & ? & _).
Qed.

Lemma update_spec_witness :
  managed "opi" (view (with_app dora)) ∧
  (Update backend (sample_lrp "dora-guid" []) (with_app dora)).1 = Ret (Ok tt) ∧
  ∃ r, (Update backend (sample_lrp "dora-guid" []) (with_app dora)).1 = Ret r.
Proof.
  destruct (with_app_good dora usable_dora) as [Hg Hm].
  split; [exact Hm|]. split; [by vm_compute|].
  destruct (update_spec_ "opi" ltac:(done) (sample_lrp "dora-guid" []) _ Hm (with_app dora)
    Hg eq_refl) as (_ & r & Hr & _).
  exact (ex_intro _ r Hr).
Defined.

Lemma stop_removes_all_witness :
  (Stop backend "dora-guid" (with_app dora)).1 = Ret (Ok tt) ∧
  all_stopped "opi" "dora-guid" (view (with_app dora))
    (view (Stop backend "dora-guid" (with_app dora)).2).
Proof.
  destruct (with_app_good dora usable_dora) as [Hg Hm].
  assert ((Stop backend "dora-guid" (with_app dora)).1 = Ret (Ok tt)) as E by by vm_compute.
  split; [exact E|].
  destruct (stop_removes_all "opi" ltac:(done) "dora-guid" _ Hm (with_app dora) Hg eq_refl)
    as (_ & r & Hr & Hall).
  rewrite E in Hr. injection Hr as <-. exact Hall.
Defined.

(** A route that is not a URL: the ingress is not made, and never will be. *)
Definition misrouted : LRP := sample_lrp "misrouted-guid" ["not a url"].

Lemma desire_again_does_nothing_witness :
  (Desire backend misrouted fresh_server).1 = Ret (Err (ErrorString "invalid url")) ∧
  (Desire backend misrouted (with_app misrouted)).1 = Ret (Ok tt) ∧
  cluster (view (Desire backend misrouted (with_app misrouted)).2)
  = cluster (view (with_app misrouted)).
Proof.
  assert (usable misrouted) as Hu by (split; [apply sample_has_metadata|by vm_compute]).
  destruct (with_app_good misrouted Hu) as [Hg Hm].
  split; [by vm_compute|].
  destruct (desire_again_does_nothing "opi" ltac:(done) misrouted _ Hm Hu eq_refl
    ltac:(done) ltac:(vm_compute; by eexists) (with_app misrouted) Hg eq_refl) as (_ & E & Ec & _).
  by split.
Defined.

Lemma stop_without_ingress_witness :
  the_ing (view (with_app worker)) "opi" ingressName = None ∧
  half_stopped "opi" "worker-guid" (view (with_app worker))
    (view (Stop backend "worker-guid" (with_app worker)).2) ∧
  is_Some (the_svc (view (Stop backend "worker-guid" (with_app worker)).2) "opi" "cf-worker-guid").
Proof.
  destruct (with_app_good worker usable_worker) as [Hg Hm].
  assert (the_ing (view (with_app worker)) "opi" ingressName = None) as E by by vm_compute.
  split; [exact E|]. split; [|by vm_compute; eexists].
  apply (stop_without_ingress "opi" ltac:(done) "worker-guid" _ Hm eq_refl ltac:(done) E
    ltac:(vm_compute; by eexists) ltac:(vm_compute; by eexists) (with_app worker) Hg eq_refl).
Defined.
End Witnesses.
