(* ===== verification/Listing.v ===== *)
(** * Listing all applications

    The cloud controller compares what it wants to run with the list of what
    runs, by process id and time of the last update.  The list of the backend
    is that of the abstract scheduler, in some order. *)

From stdpp Require Import base gmap strings list fin_maps.
From Stdlib Require Import Lia.
From S2P Require Import Prelude Json Opi Kube Service StatefulSet Ingress Fixtures Desirer.

(** The objects of a namespace are a map from names; if it agrees with another
    map, so do the lists of what is in them. *)
Lemma objs_in_as_map {A B} c k ns (m : gmap string A) (f : obj k → B) (g : A → B) :
  (∀ name, f <$> objs c k !! (ns, name) = g <$> m !! name) →
  f <$> objs_in c k ns ≡ₚ g <$> (map_to_list m).*2.
Proof.
  intros Hall. unfold objs_in. set (l := filter _ _).
  assert (∀ p, p ∈ l ↔ p.1.1 = ns ∧ objs c k !! p.1 = Some p.2) as Hl.
  { intros [i o]. unfold l. rewrite list_elem_of_filter. by rewrite elem_of_map_to_list. }
  transitivity (((λ p, (p.1.2, f p.2)) <$> l).*2); [by rewrite <- !list_fmap_compose|].
  transitivity (((λ p, (p.1, g p.2)) <$> map_to_list m).*2); [|by rewrite <- !list_fmap_compose].
  apply fmap_Permutation, NoDup_Permutation.
  - apply NoDup_fmap_2_strong; [|apply NoDup_filter, NoDup_map_to_list].
    intros [[n1 x] o1] [[n2 y] o2] [E1 L1]%Hl [E2 L2]%Hl [= -> _]. simpl in *. subst. congruence.
  - apply NoDup_fmap_2_strong; [|apply NoDup_map_to_list].
    intros [x a] [y b] L1%elem_of_map_to_list L2%elem_of_map_to_list [= -> _]. congruence.
  - intros [name b]. rewrite !list_elem_of_fmap. split.
    + intros ([[n x] o] & [= -> ->] & [E L]%Hl). simpl in *. subst n.
      pose proof (Hall x) as Hx. rewrite L in Hx. destruct (m !! x) as [a|] eqn:Em; [|done].
      injection Hx as Hx. exists (x, a). split; [by f_equal|]. by apply elem_of_map_to_list.
    + intros ([x a] & [= -> ->] & L%elem_of_map_to_list). pose proof (Hall x) as Hx.
      rewrite L in Hx. destruct (objs c k !! (ns, x)) as [o|] eqn:Eo; [|done].
      injection Hx as Hx. exists ((ns, x), o). split; [by f_equal|]. by apply Hl.
Qed.

(** What the list says of an application. *)
Definition listed_as (a : AppState) : string * string := (as_guid a, as_updated a).

Definition abs_List (m : gmap string AppState) : list (string * string) :=
  listed_as <$> (map_to_list m).*2.

(** The same of an LRP. *)
Definition lrp_listed (lrp : LRP) : string * string :=
  (gomap_get (lrp_Metadata lrp) ProcessGUID, gomap_get (lrp_Metadata lrp) LastUpdated).

Section Listing.
Context {S : Type} `{!KubeClient S, !RoutesChan S, !Observed S Obs, !KubeLaws S,
  !UrlLib, !MapRange}.
Context (ns : string) (ns_ok : ns ≠ "").
Implicit Types (v : Obs) (m : gmap string AppState).

Abbreviation backend := (@NewDesirer S _ _ _ _ ns UseStatefulSets WorkChan).

(** There are applications of plain names only. *)
Definition tidy v m : Prop :=
  ∀ app, is_Some (the_sts v ns app) ∨ is_Some (m !! app) → plain app.

Lemma tidy_same v v' m : cluster v' = cluster v → tidy v m → tidy v' m.
Proof. intros E Ht app. rewrite E. apply Ht. Qed.

Lemma tidy_command c v m r v' :
  plain (command_app c) → commanded ns c v r v' → tidy v m → tidy v' (abs_command c m).2.
Proof.
  intros Hp Hc Ht app. destruct (decide (command_app c = app)) as [<-|Hne]; [done|].
  destruct (commanded_isolated ns c v r v' Hc) as [[Hi _ _] _].
  assert (the_sts v' ns app = the_sts v ns app) as ->.
  { eapply step_sts_spare; [exact Hi|].
    intros [[[_ E]|[? _]]|[[? _]|[? _]]]; try done. by injection E. }
  assert ((abs_command c m).2 !! app = m !! app) as ->; [|apply Ht].
  destruct c as [lrp|lrp|app']; cbn [abs_command command_app] in *;
    unfold abs_Desire, abs_Update, abs_Stop; case_match; cbn [snd];
    by rewrite ?lookup_insert_ne, ?lookup_delete_ne.
Qed.

(** An application shows in the list as it is. *)
Lemma shows_listed app a v s lrp :
  shows ns app a v → the_sts v ns app = Some s → statefulSetToLRP s = Ret lrp →
  lrp_listed lrp = listed_as a.
Proof.
  intros ((s' & c & Es' & _ & _ & _ & Eg & Eu) & _) Es E. rewrite Es in Es'. injection Es' as <-.
  unfold statefulSetToLRP in E. destruct (first_container s); [|done..]. injection E as <-.
  unfold lrp_listed, listed_as, gomap_get. rewrite <- Eg, <- Eu. reflexivity.
Qed.

Lemma List_shows v m (Q : outcome (result (list LRP)) → Obs → Prop) :
  managed ns v → represents ns v m → tidy v m →
  (∀ r v', cluster v' = cluster v → (healthy v = true → healthy v' = true) →
     match r with
     | Ok lrps => lrp_listed <$> lrps ≡ₚ abs_List m
     | Err _ => healthy v = false
     end → Q (Ret r) v') →
  wp (List_ backend) Q v.
Proof.
  intros Hm Hr Ht HQ. apply sts_List_wp; [apply Hm|done|].
  intros r v' (Hst & Hc & _ & Hres). apply HQ; [done|apply Hst|].
  destruct r as [lrps|e]; [|done]. destruct Hres as (l & Hl & Hall).
  set (read s := match statefulSetToLRP s with Ret lrp => Some (lrp_listed lrp) | _ => None end).
  assert (Some <$> (lrp_listed <$> lrps) = read <$> l) as E.
  { clear -Hall. induction Hall as [|s lrp l lrps E _ IH]; [done|]. rewrite !fmap_cons, IH.
    unfold read. by rewrite E. }
  assert (Some <$> (lrp_listed <$> lrps) ≡ₚ Some <$> abs_List m) as Hp.
  2:{ apply (fmap_Permutation (default ("", ""))) in Hp. by rewrite <- !list_fmap_compose, !list_fmap_id in Hp. }
  rewrite E, Hl. unfold abs_List. rewrite <- list_fmap_compose.
  apply (objs_in_as_map (cluster v) StatefulSets). intros app.
  change (read <$> the_sts v ns app = (Some ∘ listed_as) <$> m !! app).
  destruct (the_sts v ns app) as [s|] eqn:Es.
  - assert (plain app) as Hp by (apply Ht; left; by eexists).
    pose proof (Hr app Hp) as Happ. destruct (m !! app) as [a|] eqn:Em; [|by destruct Happ; congruence].
    destruct (managed_sane _ _ Hm app s Es) as (_ & _ & lrp & Elrp). simpl. unfold read.
    rewrite Elrp. do 2 f_equal. by eapply shows_listed.
  - destruct (m !! app) as [a|] eqn:Em; [|done]. exfalso.
    assert (plain app) as Hp by (apply Ht; right; by eexists).
    pose proof (Hr app Hp) as Happ. rewrite Em in Happ. destruct Happ as ((s & _ & Es' & _) & _). congruence.
Qed.
End Listing.
