(* ===== verification/Tasks.v ===== *)
(** * [k8s/desiretask.go]: staging tasks as Kubernetes jobs *)

From stdpp Require Import base gmap strings list.
From Stdlib Require Import ZArith Lia.
From S2P Require Import Prelude Json Opi Kube StatefulSet Fixtures.

Definition ActiveDeadlineSeconds : Z := 900.

(** The client is the instance in scope. *)
Record K8sTaskDesirer := { td_Namespace : string; td_CCUploaderIP : string }.

Section Jobs.
Context `{!MapRange}.

Definition toJob (task : Task) : Job :=
  let container :=
    {| ct_Name := "opi-task";
       ct_Image := task_Image task;
       ct_Command := [];
       ct_Env := MapToEnvVar (task_Env task);
       ct_Ports := [];
       ct_LivenessProbe := None;
       ct_ReadinessProbe := None;
       ct_VolumeMounts := [] |} in
  let labels := Some {[ "name" := gomap_get (task_Env task) EnvAppID ]} in
  {| job_meta :=
       {| om_Name := gomap_get (task_Env task) EnvStagingGUID;
          om_Namespace := "";
          om_ResourceVersion := "";
          om_Labels := labels;
          om_Annotations := None |};
     job_Spec :=
       {| js_ActiveDeadlineSeconds := int64ptr ActiveDeadlineSeconds;
          js_Template :=
            {| pt_Labels := labels;
               pt_Containers := [container];
               pt_RestartPolicy := "Never";
               pt_HostAliases := [];
               pt_Volumes := [] |} |} |}.

(** [Containers[0].VolumeMounts = ms] of a slice of containers. *)
Definition mount_first (ms : list VolumeMount) (l : list Container) : outcome (list Container) :=
  match l with
  | c :: l =>
      Ret ({| ct_Name := ct_Name c; ct_Image := ct_Image c; ct_Command := ct_Command c;
              ct_Env := ct_Env c; ct_Ports := ct_Ports c;
              ct_LivenessProbe := ct_LivenessProbe c;
              ct_ReadinessProbe := ct_ReadinessProbe c;
              ct_VolumeMounts := ms |} :: l)
  | [] => Panic "index out of range"
  end.

Definition toStagingJob (d : K8sTaskDesirer) (task : Task) : outcome Job :=
  let job := toJob task in
  let t := js_Template (job_Spec job) in
  match mount_first [{| vm_Name := CCCertsVolumeName; vm_ReadOnly := true;
                        vm_MountPath := CCCertsMountPath |}] (pt_Containers t) with
  | Ret containers =>
      Ret {| job_meta := job_meta job;
             job_Spec :=
               {| js_ActiveDeadlineSeconds := js_ActiveDeadlineSeconds (job_Spec job);
                  js_Template :=
                    {| pt_Labels := pt_Labels t;
                       pt_Containers := containers;
                       pt_RestartPolicy := pt_RestartPolicy t;
                       pt_HostAliases := [
                         {| ha_IP := td_CCUploaderIP d;
                            ha_Hostnames := [CCUploaderInternalURL] |}];
                       pt_Volumes := [
                         {| vol_Name := CCCertsVolumeName;
                            vol_SecretName := CCCertsSecretName |}] |} |} |}
  | Panic why => Panic why
  | Hang => Hang
  end.
End Jobs.

Section Operations.
Context {S : Type} `{!KubeClient S, !MapRange} (d : K8sTaskDesirer).

Definition Desire (task : Task) : M S (result unit) :=
  _ <-! kube_create Jobs (td_Namespace d) (toJob task);
  mret (Ok tt).

Definition DesireStaging (task : Task) : M S (result unit) :=
  job ← lift_outcome (toStagingJob d task);
  _ <-! kube_create Jobs (td_Namespace d) job;
  mret (Ok tt).

Definition Delete (name : string) : M S (result unit) :=
  kube_delete Jobs (td_Namespace d) name.
End Operations.

(** The backend for tasks. *)
Definition k8s_task_scheduler {S} `{!KubeClient S, !MapRange} (d : K8sTaskDesirer) :
    Opi.TaskDesirer S :=
  {| task_Desire := Desire d; task_DesireStaging := DesireStaging d;
     task_Delete := Delete d |}.

(** ** What the jobs are *)

Definition staging_job `{!MapRange} (d : K8sTaskDesirer) (task : Task) (job : Job) : Prop :=
  name_of Jobs job = gomap_get (task_Env task) EnvStagingGUID ∧
  js_ActiveDeadlineSeconds (job_Spec job) = Some ActiveDeadlineSeconds ∧
  pt_RestartPolicy (js_Template (job_Spec job)) = "Never" ∧
  default ∅ (pt_Labels (js_Template (job_Spec job))) !! "name"
    = Some (gomap_get (task_Env task) EnvAppID) ∧
  ∃ c v m, pt_Containers (js_Template (job_Spec job)) = [c] ∧
    ct_Image c = task_Image task ∧ ct_Env c = MapToEnvVar (task_Env task) ∧ ct_Ports c = [] ∧
    ct_VolumeMounts c = [m] ∧ pt_Volumes (js_Template (job_Spec job)) = [v] ∧
    vm_Name m = vol_Name v ∧ vm_MountPath m = CCCertsMountPath ∧ vm_ReadOnly m = true ∧
    vol_SecretName v = CCCertsSecretName ∧
    pt_HostAliases (js_Template (job_Spec job))
    = [{| ha_IP := td_CCUploaderIP d; ha_Hostnames := [CCUploaderInternalURL] |}].

Lemma toStagingJob_spec `{!MapRange} d task :
  ∃ job, toStagingJob d task = Ret job ∧ staging_job d task job.
Proof.
  eexists. split; [reflexivity|]. split_and!; try done.
  by do 3 eexists; split_and!.
Qed.

(** What the server adds to the job leaves it a staging job. *)
Lemma staging_job_stored `{!MapRange} d task ns job job' :
  stored_as Jobs ns job job' → staging_job d task job → staging_job d task job'.
Proof.
  intros [Hn _ _ _ [Hdl Hlab [Hcs Hrp Hal Hv]]] (En & Ed & Er & El & c & v & m & Ec & Hc).
  destruct Hc as (Ei & Ee & Ep & Em & Ev & ? & ? & ? & ? & Ea).
  rewrite Ec in Hcs. apply Forall2_cons_inv_l in Hcs as (c' & l' & Hcc & Hnil & Ec').
  apply Forall2_nil_inv_l in Hnil as ->. destruct Hcc as [_ Si _ Se Sp _ _ Sm].
  split_and!; [congruence|congruence|rewrite Hrp; congruence|by eapply lookup_weaken|].
  exists c', v, m. rewrite Ec', Si, Se, Sp, Sm, Hv, Hal. by split_and!.
Qed.

Section Spec.
Context {S : Type} `{!KubeClient S, !RoutesChan S, !Observed S Obs, !KubeLaws S, !MapRange}.
Context (d : K8sTaskDesirer) (ns_ok : td_Namespace d ≠ "").
Implicit Types (v : Obs) (task : Task).

Abbreviation job_of v name := (the_job v (td_Namespace d) name).

Definition task_desired task v (r : result unit) v' : Prop :=
  let name := gomap_get (task_Env task) EnvStagingGUID in
  step (only Jobs (td_Namespace d) name) v v' ∧ sent v' = sent v ∧
  match r with
  | Ok _ => job_of v name = None ∧ ∃ job, job_of v' name = Some job ∧ staging_job d task job
  | Err _ => healthy v = true → name ≠ "" → cluster v' = cluster v ∧ is_Some (job_of v name)
  end.

Lemma DesireStaging_wp task v (Q : outcome (result unit) → Obs → Prop) :
  (∀ r v', task_desired task v r v' → Q (Ret r) v') → wp (DesireStaging d task) Q v.
Proof.
  intros HQ. destruct (toStagingJob_spec d task) as (job & E & Hjob).
  apply wp_bind, wp_lift. rewrite E. apply wp_try, wp_create. intros r v1 Hc.
  pose proof (create_step _ _ _ _ _ _ Hc) as Hstep.
  destruct (Hjob) as [Hname _]. rewrite Hname in Hstep. destruct r as [job'|e].
  - apply create_ok in Hc as (Hs & Hno & Hst & Hl). rewrite Hname in Hno, Hl.
    apply wp_ret, HQ. split_and!; [done..|]. exists job'. split; [done|].
    by eapply staging_job_stored.
  - apply create_err in Hc as [Hs Hc]. rewrite Hname in Hc. apply HQ. split_and!; [done..|].
    intros Hv Hn. split; [by apply Hc|].
    unfold toStagingJob in E. simpl in E. injection E as <-.
    apply Hc; [done| |done]. split_and!; [done|by rewrite Hname|by left].
Qed.

Definition task_deleted name v (r : result unit) v' : Prop :=
  step (only Jobs (td_Namespace d) name) v v' ∧ sent v' = sent v ∧
  match r with
  | Ok _ => is_Some (job_of v name) ∧ job_of v' name = None
  | Err _ => healthy v = true → name ≠ "" → cluster v' = cluster v ∧ job_of v name = None
  end.

Lemma Delete_wp name v (Q : outcome (result unit) → Obs → Prop) :
  (∀ r v', task_deleted name v r v' → Q (Ret r) v') → wp (Delete d name) Q v.
Proof.
  intros HQ. apply wp_delete. intros r v' Hd. pose proof (delete_step _ _ _ _ _ _ Hd) as Hstep.
  apply HQ. destruct r as [u|e].
  - apply delete_ok in Hd as (Hs & Hsome & Hl). by split_and!.
  - apply delete_err in Hd as [Hs Hd]. split_and!; [done..|]. intros Hv Hn.
    split; [by apply Hd|]. by apply Hd.
Qed.

(** C32: a staging task becomes a job of its own, named after the staging id,
    with one container that runs the task's image in its environment, listens on
    no port and sees the certificates of the cloud controller's uploader; its
    pods carry the id of the application as their label [name]; nothing else
    changes, and on a healthy server only an equal staging id makes it fail. *)
Theorem staging_job_desired task v :
  wp (DesireStaging d task) (λ o v', ∃ r, o = Ret r ∧ task_desired task v r v') v.
Proof. apply DesireStaging_wp. intros r v' Hr. by exists r. Qed.
End Spec.

(** ** Instances of the properties *)
Section Witnesses.
#[local] Existing Instance range_in_order.

Definition sample_task : Task := {|
  task_Image := "eirini/recipe"; task_Command := [];
  task_Env := Some (list_to_map [(EnvStagingGUID, "staging-1"); (EnvAppID, "dora-guid")]) |}.

Definition sample_desirer : K8sTaskDesirer :=
  {| td_Namespace := "opi"; td_CCUploaderIP := "10.0.0.1" |}.

Lemma staging_job_desired_witness :
  (DesireStaging sample_desirer sample_task fresh_server).1 = Ret (Ok tt) ∧
  ∃ r, (DesireStaging sample_desirer sample_task fresh_server).1 = Ret r.
Proof.
  split; [by vm_compute|].
  destruct (staging_job_desired sample_desirer ltac:(done) sample_task (view fresh_server)
    fresh_server fresh_good eq_refl) as (_ & r & Hr & _).
  exact (ex_intro _ r Hr).
Defined.
End Witnesses.
