(* ===== verification/Routes.v ===== *)
(** * [route/]: collecting routes and announcing them to the router

    The collector lists the routes of the services and hands them to the
    emitter over the unbuffered work channel, as do the operations on
    services; the emitter publishes them on NATS.  The steps of the senders and
    the emitter are a relation, of which order and delivery are proved. *)

From stdpp Require Import base gmap strings list relations.
From Stdlib Require Import ZArith Lia.
From S2P Require Import Prelude Json Opi Messages Kube Service Fixtures.

Definition httpPort : Z := 80.
Definition tlsPort : Z := 443.
Definition registerSubject : string := "router.register".
Definition unregisterSubject : string := "router.unregister".

(** ** [registrymessage.go] *)

Record RegistryMessage := {
  rm_Host : string;
  rm_Port : Z;
  rm_TLSPort : Z;
  rm_URIs : slice string;
  rm_App : string
}.

Definition strings_json (l : slice string) : json :=
  match l with Some l => JArr (JStr <$> l) | None => JNull end.

(** [json.Marshal]: zero values of [omitempty] fields are left out. *)
Definition encode_RegistryMessage (m : RegistryMessage) : json :=
  JObj ([("host", JStr (rm_Host m)); ("port", JInt (rm_Port m))]
    ++ (if (rm_TLSPort m =? 0)%Z then [] else [("tls_port", JInt (rm_TLSPort m))])
    ++ [("uris", strings_json (rm_URIs m))]
    ++ (if String.eqb (rm_App m) "" then [] else [("app", JStr (rm_App m))])).

(** What a reader of the message sees of it, by the same tags. *)
Definition decode_RegistryMessage (j : json) : result RegistryMessage :=
  let names := ["host"; "port"; "tls_port"; "uris"; "app"] in
  ms ← Decode.members j;
  host ← Decode.field names ms "host" "" Decode.decode_string;
  port ← Decode.field names ms "port" 0%Z (Decode.decode_int 0 (2 ^ 32 - 1));
  tls ← Decode.field names ms "tls_port" 0%Z (Decode.decode_int 0 (2 ^ 32 - 1));
  uris ← Decode.field names ms "uris" None Decode.decode_strings;
  app ← Decode.field names ms "app" "" Decode.decode_string;
  Ok {| rm_Host := host; rm_Port := port; rm_TLSPort := tls; rm_URIs := uris; rm_App := app |}.

(** ** [emitter.go] *)

(** The connection to NATS. *)
Class Publisher (S : Type) := { Publish : string → string → M S (result unit) }.

Record Emitter := { em_kubeEndpoint : string }.

Section Emit.
Context {S : Type} `{!Publisher S} (e : Emitter).

Definition message_of (routes : slice string) (name : string) : RegistryMessage :=
  {| rm_Host := em_kubeEndpoint e; rm_Port := httpPort; rm_TLSPort := tlsPort;
     rm_URIs := routes; rm_App := name |}.

(** Marshalling a [RegistryMessage] cannot fail. *)
Definition publish (subject : string) (routes : slice string) (name : string) :
    M S (result unit) :=
  let routeJSON := Printer.print (encode_RegistryMessage (message_of routes name)) in
  Publish subject routeJSON.

(** A failed publication is printed and forgotten. *)
Definition unregisterRoute (route : Routes) : M S unit :=
  _ ← publish unregisterSubject (rt_UnregisteredRoutes route) (rt_Name route);
  mret tt.

Fixpoint emit (batch : list Routes) : M S unit :=
  match batch with
  | [] => mret tt
  | route :: batch =>
      _ ← (if negb (length (elems (rt_Routes route)) =? 0)%nat then
             _ ← publish registerSubject (rt_Routes route) (rt_Name route); mret tt
           else mret tt);
      _ ← (if negb (length (elems (rt_UnregisteredRoutes route)) =? 0)%nat then
             unregisterRoute route
           else mret tt);
      emit batch
  end.
End Emit.

(** ** [scheduler.go], [collector.go]

    [Schedule] runs its task for ever, in each round of the loop or at each
    tick; these are its first [n] rounds.  Errors are printed. *)
Fixpoint Schedule_rounds {S} (n : nat) (task : M S (result unit)) : M S unit :=
  match n with
  | O => mret tt
  | Datatypes.S n => _ ← task; Schedule_rounds n task
  end.

(** What the collector needs of its lister. *)
Class Lister (S : Type) := { lister_ListRoutes : M S (result (list Routes)) }.

Definition collectRoutes {S} `{!Lister S, !RoutesChan S} : M S (result unit) :=
  routes <-! lister_ListRoutes;
  _ ← chan_send routes;
  mret (Ok tt).

(** [NewServiceRouteLister]. *)
Definition NewServiceRouteLister {S} `{!KubeClient S} (namespace : string) : Lister S :=
  {| lister_ListRoutes := ListRoutes namespace |}.

(** ** What is published *)

Section Messages.
Context (e : Emitter).

Definition message (subject : string) (routes : slice string) (name : string) :
    string * string :=
  (subject, Printer.print (encode_RegistryMessage (message_of e routes name))).

Definition messages_of_route (r : Routes) : list (string * string) :=
  (if negb (length (elems (rt_Routes r)) =? 0)%nat
   then [message registerSubject (rt_Routes r) (rt_Name r)] else []) ++
  (if negb (length (elems (rt_UnregisteredRoutes r)) =? 0)%nat
   then [message unregisterSubject (rt_UnregisteredRoutes r) (rt_Name r)] else []).

Definition messages_of (batch : list Routes) : list (string * string) :=
  concat (messages_of_route <$> batch).
End Messages.

(** The connection, as seen: every message is tried once, and may fail. *)
Class PublisherLaws (S : Type) `{!Publisher S, !Observed S (list (string * string))} :=
  publish_law : ∀ subj data v,
    wp (Publish subj data) (λ o v', (∃ r, o = Ret r) ∧ v' = v ++ [(subj, data)]) v.

Section EmitSpec.
Context {S : Type} `{!Publisher S, !Observed S (list (string * string)), !PublisherLaws S}.
Context (e : Emitter).

Lemma publish_wp subj routes name v (Q : outcome (result unit) → list (string * string) → Prop) :
  (∀ r, Q (Ret r) (v ++ [message e subj routes name])) → wp (publish e subj routes name) Q v.
Proof.
  intros HQ. eapply wp_mono; [apply publish_law|]. intros o v' [[r ->] ->]. apply HQ.
Qed.

Lemma emit_wp batch v (Q : outcome unit → list (string * string) → Prop) :
  Q (Ret tt) (v ++ messages_of e batch) → wp (emit e batch) Q v.
Proof.
  revert v. induction batch as [|r batch IH]; intros v HQ; simpl.
  { apply wp_ret. by rewrite app_nil_r in HQ. }
  unfold messages_of in *. rewrite fmap_cons in HQ. simpl in HQ. unfold messages_of_route in HQ.
  rewrite <- !app_assoc in HQ.
  apply wp_bind. destruct (negb _); [apply wp_bind, publish_wp; intros _|]; apply wp_ret;
    apply wp_bind; (destruct (negb _); [apply wp_bind, publish_wp; intros _|]); apply wp_ret, IH;
    by rewrite <- ?app_assoc.
Qed.
End EmitSpec.

(** A reference connection: what was tried, and which tries fail. *)
Record Broker := { br_tried : list (string * string); br_failures : list bool }.

#[global] Instance broker_publisher : Publisher Broker := {|
  Publish subj data := λ b,
    (Ret (match br_failures b with
          | true :: _ => Err (ExternalError "nats: connection closed")
          | _ => Ok tt
          end),
     {| br_tried := br_tried b ++ [(subj, data)]; br_failures := tail (br_failures b) |})
|}.

#[global] Instance broker_observed : Observed Broker (list (string * string)) :=
  {| view := br_tried; good := λ _, True |}.

#[global] Instance broker_laws : PublisherLaws Broker.
Proof. intros subj data v b _ <-. split; [done|]. split; [by eexists|done]. Qed.

(** ** The senders and the emitter together

    Every goroutine that sends on the work channel is a queue of batches it
    still has to send, in order; it blocks on the first.  The channel has no
    buffer, so the emitter takes a batch from some blocked sender, and publishes
    all of it before it takes the next: the round of [SimpleLoopScheduler]. *)

Record pipeline (S : Type) := {
  senders : list (list (list Routes));
  connection : S;
  delivered : list (nat * list Routes)   (* who sent what, in the order taken *)
}.
Arguments senders {_} _.
Arguments connection {_} _.
Arguments delivered {_} _.

Section Pipeline.
Context {S : Type} `{!Publisher S, !Observed S (list (string * string)), !PublisherLaws S}.
Context (e : Emitter).

Inductive round : pipeline S → pipeline S → Prop :=
  | round_take p i batch rest s' :
      senders p !! i = Some (batch :: rest) →
      emit e batch (connection p) = (Ret tt, s') →
      round p {| senders := <[i := rest]> (senders p);
                 connection := s';
                 delivered := delivered p ++ [(i, batch)] |}.

Definition start_pipeline (todo : list (list (list Routes))) (s : S) : pipeline S :=
  {| senders := todo; connection := s; delivered := [] |}.

Definition sent_by (i : nat) (l : list (nat * list Routes)) : list (list Routes) :=
  snd <$> filter (λ d, d.1 = i) l.

(** The invariant: what a sender still has to send is what it had to send less
    what was taken from it, in order, and what was tried on the connection is
    what was taken, batch by batch. *)
Record pipeline_inv (todo : list (list (list Routes))) (v : list (string * string))
    (p : pipeline S) : Prop := {
  inv_fifo : ∀ i, sent_by i (delivered p) ++ default [] (senders p !! i) = default [] (todo !! i);
  inv_tried : view (connection p) = v ++ concat (messages_of e ∘ snd <$> delivered p);
  inv_good : good (connection p);
  inv_count : length (senders p) = length todo
}.

Lemma start_inv todo s : good s → pipeline_inv todo (view s) (start_pipeline todo s).
Proof. intros Hs. split; [done| |done|done]. simpl. by rewrite app_nil_r. Qed.

Lemma emit_total batch s :
  good s → ∃ s', emit e batch s = (Ret tt, s') ∧ good s' ∧ view s' = view s ++ messages_of e batch.
Proof.
  intros Hs. destruct (emit_wp e batch (view s)
    (λ o v', o = Ret tt ∧ v' = view s ++ messages_of e batch) ltac:(done) s Hs eq_refl)
    as (Hg & Ho & Hv).
  destruct (emit e batch s) as [o s']. simpl in *. subst o. eauto.
Qed.

Lemma round_inv todo v p p' : pipeline_inv todo v p → round p p' → pipeline_inv todo v p'.
Proof.
  intros [Hf Ht Hg Hc] Hr. destruct Hr as [p i batch rest s' Hi He]. split; simpl.
  - intros j. specialize (Hf j). unfold sent_by in *. rewrite filter_app, fmap_app, <- app_assoc.
    destruct (decide (j = i)) as [->|Hne].
    + rewrite list_lookup_insert_eq by by eapply lookup_lt_Some. rewrite Hi in Hf.
      rewrite filter_cons_True by done. by simpl in *.
    + rewrite list_lookup_insert_ne by done. rewrite filter_cons_False by (simpl; congruence).
      done.
  - destruct (emit_total batch (connection p) Hg) as (s2 & E2 & _ & Hv). rewrite He in E2.
    injection E2 as <-. rewrite Hv, Ht, fmap_app, concat_app. simpl.
    by rewrite app_nil_r, app_assoc.
  - destruct (emit_total batch (connection p) Hg) as (s2 & E2 & Hg2 & _). rewrite He in E2.
    by injection E2 as <-.
  - by rewrite length_insert.
Qed.

Lemma rounds_inv todo v p p' : pipeline_inv todo v p → rtc round p p' → pipeline_inv todo v p'.
Proof. intros Hp Hr. induction Hr; eauto using round_inv. Qed.

(** How many batches are to be sent. *)
Definition backlog (p : pipeline S) : nat := sum_list_with length (senders p).

Lemma backlog_insert (l : list (list (list Routes))) i batch rest :
  l !! i = Some (batch :: rest) →
  sum_list_with length l = Datatypes.S (sum_list_with length (<[i := rest]> l)).
Proof.
  revert i. induction l as [|q l IH]; intros [|i]; simpl; try done.
  - intros [= ->]. done.
  - intros E. rewrite (IH i E). lia.
Qed.

Lemma round_backlog p p' : round p p' → backlog p = Datatypes.S (backlog p').
Proof. intros [q i batch rest s' Hi _]. unfold backlog. simpl. by eapply backlog_insert. Qed.

Lemma blocked_sender (l : list (list (list Routes))) :
  sum_list_with length l ≠ O → ∃ i batch rest, l !! i = Some (batch :: rest).
Proof.
  induction l as [|q l IH]; simpl; [done|]. destruct q as [|batch rest].
  - intros (i & b & r & E)%IH. by exists (Datatypes.S i), b, r.
  - intros _. by exists 0%nat, batch, rest.
Qed.

Lemma round_progress p :
  good (connection p) → backlog p ≠ O → ∃ p', round p p'.
Proof.
  intros Hg (i & batch & rest & Hi)%blocked_sender.
  destruct (emit_total batch (connection p) Hg) as (s' & E & _). eexists. by econstructor.
Qed.

Lemma round_good p p' : good (connection p) → round p p' → good (connection p').
Proof.
  intros Hg Hr. destruct Hr as [q i batch rest s' Hi E]. destruct (emit_total batch (connection q) Hg)
    as (s2 & E2 & Hg2 & _). rewrite E in E2. by injection E2 as <-.
Qed.

Lemma nothing_left (p : pipeline S) i : backlog p = O → default [] (senders p !! i) = [].
Proof.
  unfold backlog. generalize (senders p). intros l. revert i.
  induction l as [|q l IH]; intros [|i]; simpl; try done; intros E.
  - by destruct q.
  - apply IH. lia.
Qed.

(** Every round takes one batch off the backlog. *)
Lemma rounds_backlog n p p' : nsteps round n p p' → backlog p = (n + backlog p')%nat.
Proof.
  induction 1 as [p|n p p1 p2 Hr _ IH]; [done|]. apply round_backlog in Hr. simpl. congruence.
Qed.
End Pipeline.

(** ** The listing *)

Definition routable (s : Service) : Prop :=
  isCFService (om_Name (svc_meta s)) = true ∧ isHeadless (om_Name (svc_meta s)) = false.

#[global] Instance routable_dec s : Decision (routable s).
Proof. unfold routable. apply _. Defined.

(** An application whose service the lister takes. *)
Definition listed_name (app : string) : Prop :=
  isCFService (GetInternalServiceName app) = true ∧ isHeadless (GetInternalServiceName app) = false.

(** The entry for a service. *)
Definition lists (s : Service) (r : Routes) : Prop :=
  decodeRoutes (svc_annotation s RegisteredRoutes) = Ok (rt_Routes r) ∧
  rt_UnregisteredRoutes r = None ∧ rt_Name r = om_Name (svc_meta s).

Lemma unroutable s : ¬ routable s →
  negb (isCFService (om_Name (svc_meta s))) || isHeadless (om_Name (svc_meta s)) = true.
Proof. unfold routable. destruct (isCFService _), (isHeadless _); naive_solver. Qed.

Lemma list_routes_loop_spec l acc :
  match list_routes_loop l acc with
  | Ok routes => ∃ k, routes = acc ++ k ∧ Forall2 lists (filter routable l) k
  | Err _ => ∃ s, s ∈ l ∧ routable s ∧
      is_ok (decodeRoutes (svc_annotation s RegisteredRoutes)) = false
  end.
Proof.
  revert acc. induction l as [|s l IH]; intros acc; simpl; [exists []; by rewrite app_nil_r|].
  destruct (decide (routable s)) as [Hr|Hr].
  2:{ rewrite filter_cons_False, unroutable by done. specialize (IH acc). case_match; [done|].
      destruct IH as (t & ? & ?). exists t. split; [by right|done]. }
  rewrite filter_cons_True by done. destruct (Hr) as [-> ->]. simpl.
  destruct (decodeRoutes _) as [registered|err] eqn:Ed.
  - specialize (IH (acc ++ [{| rt_Routes := registered; rt_UnregisteredRoutes := None;
      rt_Name := om_Name (svc_meta s) |}])). case_match.
    + destruct IH as (k & -> & Hk). eexists (_ :: k). rewrite <- app_assoc. split; [done|].
      by constructor.
    + destruct IH as (t & ? & ?). exists t. split; [by right|done].
  - exists s. split; [by left|]. by rewrite Ed.
Qed.

Section ListSpec.
Context {S : Type} `{!KubeClient S, !RoutesChan S, !Observed S Obs, !KubeLaws S}.
Context (ns : string) (ns_ok : ns ≠ "").

Definition listing v (r : result (list Routes)) v' : Prop :=
  cluster v' = cluster v ∧ sent v' = sent v ∧ (healthy v = true → healthy v' = true) ∧
  match r with
  | Ok routes => ∃ services, services ≡ₚ objs_in (cluster v) Services ns ∧
      Forall2 lists (filter routable services) routes
  | Err _ => healthy v = true → ∃ name s, the_svc v ns name = Some s ∧ routable s ∧
      is_ok (decodeRoutes (svc_annotation s RegisteredRoutes)) = false
  end.

Lemma ListRoutes_wp v (Q : outcome (result (list Routes)) → Obs → Prop) :
  (∀ r v', listing v r v' → Q (Ret r) v') → wp (ListRoutes ns) Q v.
Proof.
  intros HQ. apply wp_try, wp_list. intros r v1 ([[Hs _] Hh] & Hc & ? & [= <-] & Hl).
  destruct r as [l|e].
  - specialize (Hl ns_ok SelAll eq_refl).
    assert (l ≡ₚ objs_in (cluster v) Services ns) as Hp.
    { rewrite Hl. clear. induction (objs_in _ _ _) as [|o k IH]; [done|].
      rewrite filter_cons_True by done. by constructor. }
    apply wp_ret, HQ. split_and!; [done..|].
    pose proof (list_routes_loop_spec l []) as Hspec. destruct (list_routes_loop l []).
    + destruct Hspec as (k & -> & Hk). by exists l.
    + intros _. destruct Hspec as (s & Hin & Hr & Hd). rewrite Hp in Hin.
      apply (elem_of_objs_in _ Services) in Hin as [name Hname]. by exists name, s.
  - apply HQ. split_and!; [done..|]. intros Hv. by destruct (Hl Hv).
Qed.
End ListSpec.

(** ** Reading a published message *)

Definition is_uint32 (n : Z) : Prop := (0 ≤ n ≤ 2 ^ 32 - 1)%Z.

Lemma strings_json_ok l : numbers_ok (strings_json l) = true.
Proof. destruct l as [l|]; [|done]. apply numbers_ok_strings. Qed.

Lemma strings_json_read l :
  Decode.decode_strings None (clean (strings_json l)) = Ok (fmap (M := list) Utf8.sanitize <$> l).
Proof.
  destruct l as [l|]; [|done]. unfold Decode.decode_strings, strings_json. simpl.
  rewrite <- list_fmap_compose. change (clean ∘ JStr) with (JStr ∘ Utf8.sanitize).
  by rewrite list_fmap_compose, decode_elems_strings.
Qed.

Definition sanitized (m : RegistryMessage) : RegistryMessage :=
  {| rm_Host := Utf8.sanitize (rm_Host m); rm_Port := rm_Port m; rm_TLSPort := rm_TLSPort m;
     rm_URIs := fmap (M := list) Utf8.sanitize <$> rm_URIs m;
     rm_App := Utf8.sanitize (rm_App m) |}.

Lemma decode_encode m : is_uint32 (rm_Port m) → is_uint32 (rm_TLSPort m) →
  decode_RegistryMessage (clean (encode_RegistryMessage m)) = Ok (sanitized m).
Proof.
  destruct m as [host port tls uris app]. unfold is_uint32. cbn [rm_Port rm_TLSPort].
  intros Hp Ht. unfold encode_RegistryMessage, sanitized. cbn [rm_Host rm_Port rm_TLSPort rm_URIs rm_App].
  destruct (Z.eqb_spec tls 0) as [->|Hz], (String.eqb_spec app "") as [->|Ha];
    unfold decode_RegistryMessage; simpl; unfold Decode.field; simpl; read_fields; simpl;
    rewrite ?strings_json_read, ?parse_int_text, ?in_range by done; done.
Qed.

Lemma encode_numbers_ok m : numbers_ok (encode_RegistryMessage m) = true.
Proof.
  unfold encode_RegistryMessage. simpl. rewrite int_text_ok.
  destruct (rm_TLSPort m =? 0)%Z, (String.eqb (rm_App m) ""); simpl;
    by rewrite ?int_text_ok, strings_json_ok.
Qed.

(** ** The properties *)

(** A published text is JSON, and reads back as the message: host, ports,
    the routes in order and the service name. *)
Lemma published_message_reads_back e subject routes name :
  (Reader.parse (message e subject routes name).2) ≫= decode_RegistryMessage
  = Ok (sanitized (message_of e routes name)).
Proof.
  unfold message. cbn [snd]. rewrite parse_print by apply encode_numbers_ok.
  by apply decode_encode.
Qed.

(** C21: of any run of the senders and the emitter: every batch is taken at
    most once, those of one sender in the order it sends them, and published
    as a whole before the next; a run goes on as long as a batch is left, and
    stops after as many rounds as there are batches, with all delivered. *)
Theorem batches_delivered {S} `{PublisherLaws S} e todo (s : S) n p :
  good s → nsteps (round e) n (start_pipeline todo s) p →
  let total := sum_list_with length todo in
  (∀ i, sent_by i (delivered p) ++ default [] (senders p !! i) = default [] (todo !! i)) ∧
  view (connection p) = view s ++ concat (messages_of e ∘ snd <$> delivered p) ∧
  (n ≤ total)%nat ∧ (n < total → ∃ p', round e p p')%nat ∧
  (n = total → ∀ i, sent_by i (delivered p) = default [] (todo !! i)).
Proof.
  intros Hs Hrun total.
  assert (pipeline_inv e todo (view s) p) as Hinv.
  { eapply rounds_inv; [by apply start_inv|]. apply rtc_nsteps. by exists n. }
  apply rounds_backlog in Hrun. change (backlog (start_pipeline todo s)) with total in Hrun.
  pose proof (inv_fifo e _ _ _ Hinv) as Hf.
  split_and!; [done|apply Hinv|lia| |].
  - intros Hn. apply round_progress; [apply Hinv|lia].
  - intros Hn i. by rewrite <- Hf, nothing_left, app_nil_r by lia.
Qed.

(** C35: the listing has an entry for every service of an application, with
    the routes of its annotation, and none for a headless service; on a
    healthy server it fails only because the annotation of such a service does
    not decode, and then for all services at once. *)
Theorem routes_listed {S} `{KubeLaws S} ns v :
  ns ≠ "" → wp (ListRoutes ns) (λ o v', ∃ r, o = Ret r ∧ listing ns v r v') v.
Proof. intros Hns. apply ListRoutes_wp; [done|]. intros r v' Hr. by exists r. Qed.

Definition sample_emitter : Emitter := {| em_kubeEndpoint := "cf.example.com" |}.

Definition sample_broker : Broker := {| br_tried := []; br_failures := [true; false] |}.

Definition sample_batch : list Routes :=
  [{| rt_Routes := Some ["a.example.com"]; rt_UnregisteredRoutes := Some ["b.example.com"];
      rt_Name := "cf-dora-guid" |}].

Lemma broker_good : good (V := list (string * string)) sample_broker.
Proof. exact I. Qed.

(** Two senders with three batches: one batch is taken and more can be. *)
Lemma batches_delivered_witness :
  ∃ p p', nsteps (round sample_emitter) 1
      (start_pipeline [[sample_batch]; [[]; sample_batch]] sample_broker) p ∧
    delivered p = [(1%nat, [])] ∧ round sample_emitter p p'.
Proof.
  pose (todo := [[sample_batch]; [[]; sample_batch]]).
  assert (nsteps (round sample_emitter) 1 (start_pipeline todo sample_broker)
    {| senders := [[sample_batch]; [sample_batch]]; connection := sample_broker;
       delivered := [(1%nat, [])] |}) as Hrun.
  { apply nsteps_once. apply (round_take _ (start_pipeline todo sample_broker) 1 [] [sample_batch]);
      reflexivity. }
  destruct (batches_delivered sample_emitter todo sample_broker 1 _ broker_good Hrun)
    as (_ & _ & _ & Hgo & _).
  destruct Hgo as [p' Hp]; [by vm_compute; lia|]. eexists _, p'. split_and!; [exact Hrun|done|exact Hp].
Defined.

Definition one_service : Server := {|
  srv_cluster := {| cl_sts := ∅; cl_ing := ∅; cl_job := ∅;
    cl_svc := {[ ("opi", "cf-dora-guid") := on_server "opi" (revision 1) Services (toService dora) ]} |};
  srv_revision := 1; srv_refusals := []; srv_sent := [] |}.

Lemma one_service_good : good one_service.
Proof.
  split_and!.
  - intros [] ns name o; cbn; rewrite ?lookup_empty; try done.
    intros [E <-]%lookup_singleton_Some. by injection E as <- <-.
  - intros [] i o; cbn -[given]; rewrite ?lookup_empty; try done.
    intros [_ <-]%lookup_singleton_Some. split; [apply revision_given|done].
  - intros i t. cbn. by rewrite lookup_empty.
Qed.

Lemma routes_listed_witness :
  (ListRoutes "opi" one_service).1 = Ret (Ok [{|
     rt_Routes := Some ["dora.example.com"; "dora.example.com/v2"];
     rt_UnregisteredRoutes := None; rt_Name := "cf-dora-guid" |}]) ∧
  ∃ r, (ListRoutes "opi" one_service).1 = Ret r ∧
    listing "opi" (view one_service) r (view (ListRoutes "opi" one_service).2).
Proof.
  split; [by vm_compute|].
  exact (proj2 (routes_listed "opi" (view one_service) ltac:(done) one_service
    one_service_good eq_refl)).
Defined.
