(* ===== verification/Interleaving.v ===== *)
(** * Requests that interleave

    The HTTP server runs every request in a goroutine of its own, and the
    route collector in another, so the calls of one operation are interleaved
    with those of others.  Here an operation runs on a state that others
    change before each of its calls; the operations are the same definitions
    as before, at this state. *)

From stdpp Require Import base gmap strings list fin_maps.
From Stdlib Require Import Lia.
From S2P Require Import Prelude Json Opi Kube Service StatefulSet Ingress Fixtures Desirer Routes.

(** ** The shared cluster *)

(** What others do before the coming calls, what was answered to them, and
    what this operation saw and left at each of its own calls. *)
Record Shared (S : Type) := {
  sh_now : S;
  sh_others : list (M S (result unit));
  sh_answers : list (outcome (result unit));
  sh_own : list (Obs * Obs)
}.
Arguments sh_now {_} _.
Arguments sh_others {_} _.
Arguments sh_answers {_} _.
Arguments sh_own {_} _.

(** Nobody does anything. *)
Definition idle {S} : M S (result unit) := mret (Ok tt).

Section Sharing.
Context {S : Type} `{!Observed S Obs}.

(** The others' turn. *)
Definition others_act (s : Shared S) : Shared S :=
  match sh_others s with
  | [] => s
  | c :: cs =>
      {| sh_now := (c (sh_now s)).2; sh_others := cs;
         sh_answers := sh_answers s ++ [(c (sh_now s)).1]; sh_own := sh_own s |}
  end.

(** One call, after the others' turn. *)
Definition shared_call {A} (c : M S A) : M (Shared S) A := λ s,
  let s1 := others_act s in
  ((c (sh_now s1)).1,
   {| sh_now := (c (sh_now s1)).2; sh_others := sh_others s1; sh_answers := sh_answers s1;
      sh_own := sh_own s1 ++ [(view (sh_now s1), view (c (sh_now s1)).2)] |}).

#[global] Instance shared_client `{!KubeClient S} : KubeClient (Shared S) := {|
  kube_create k ns o := shared_call (kube_create k ns o);
  kube_update k ns o := shared_call (kube_update k ns o);
  kube_get k ns name := shared_call (kube_get k ns name);
  kube_list k ns sel := shared_call (kube_list k ns sel);
  kube_delete k ns name := shared_call (kube_delete k ns name)
|}.

#[global] Instance shared_chan `{!RoutesChan S} : RoutesChan (Shared S) :=
  {| chan_send b := shared_call (chan_send b) |}.

(** An operation is started among others. *)
Definition among (others : list (M S (result unit))) (s : S) : Shared S :=
  {| sh_now := s; sh_others := others; sh_answers := []; sh_own := [] |}.
End Sharing.

(** ** What others may do

    They use the API server as everybody: what they write gets a version that
    was not given before. *)
Record evolves (v v' : Obs) : Prop := {
  ev_versions : versions v ⊆ versions v';
  ev_objects : ∀ k i o', objs (cluster v') k !! i = Some o' →
    objs (cluster v) k !! i = Some o' ∨ version_of k o' ∉ versions v
}.

Lemma evolves_refl v : evolves v v.
Proof. split; [done|]. by left. Qed.

Lemma evolves_trans v1 v2 v3 : evolves v1 v2 → evolves v2 v3 → evolves v1 v3.
Proof.
  intros [Hv1 Ho1] [Hv2 Ho2]. split; [by etrans|]. intros k i o' E.
  destruct (Ho2 k i o' E) as [E2|Hn]; [by apply Ho1|right]. intros Hin. by apply Hn, Hv1.
Qed.

(** An object that still has the version it was read at is the object that was
    read. *)
Lemma evolves_seen v v' k i o o' :
  versions_wf v → evolves v v' → objs (cluster v) k !! i = Some o →
  objs (cluster v') k !! i = Some o' → version_of k o' = version_of k o → o' = o.
Proof.
  intros Hwf [_ Ho] E E' Hv. destruct (Ho _ _ _ E') as [E2|Hn]; [congruence|].
  destruct Hn. rewrite Hv. by apply (Hwf _ _ _ E).
Qed.

(** Every call of the API server is such a change. *)
Lemma evolves_same v v' :
  versions v ⊆ versions v' → cluster v' = cluster v → evolves v v'.
Proof. intros Hv E. split; [done|]. intros k i o'. rewrite E. by left. Qed.

Lemma evolves_inserted k ns o v v' o' :
  versions v ⊆ versions v' → inserted k ns o v v' o' → evolves v v'.
Proof.
  intros Hv [[_ Hfresh] E]. split; [done|]. intros k' i x. rewrite E.
  destruct (decide (k = k')) as [<-|Hk]; [|rewrite objs_put_ne by done; by left].
  rewrite objs_put_eq, lookup_insert_Some. intros [[<- <-]|[_ Hx]]; [|by left].
  destruct Hfresh; [by right|by left].
Qed.

Lemma evolves_deleted k ns name v v' :
  versions v ⊆ versions v' → deleted k ns name v v' → evolves v v'.
Proof.
  intros Hv E. split; [done|]. intros k' i x. rewrite E.
  destruct (decide (k = k')) as [<-|Hk]; [|rewrite objs_put_ne by done; by left].
  rewrite objs_put_eq, lookup_delete_Some. intros [_ ?]. by left.
Qed.

Lemma create_evolves k ns o v out v' : create_spec k ns o v out v' → evolves v v'.
Proof.
  intros ([[_ Hv] _] & r & _ & H). destruct r as [o'|e].
  - destruct H as [_ Hi]. by eapply evolves_inserted.
  - destruct H as [[E|(_ & o' & Hi)] _]; [by apply evolves_same|by eapply evolves_inserted].
Qed.
Lemma update_evolves k ns o v out v' : update_spec k ns o v out v' → evolves v v'.
Proof.
  intros ([[_ Hv] _] & r & _ & H). destruct r as [o'|e].
  - destruct H as [_ Hi]. by eapply evolves_inserted.
  - destruct H as [[E|(_ & o' & Hi)] _]; [by apply evolves_same|by eapply evolves_inserted].
Qed.
Lemma delete_evolves k ns name v out v' : delete_spec k ns name v out v' → evolves v v'.
Proof.
  intros ([[_ Hv] _] & r & _ & H). destruct r as [[]|e].
  - destruct H as [_ Hi]. by eapply evolves_deleted.
  - destruct H as [[E|Hi] _]; [by apply evolves_same|by eapply evolves_deleted].
Qed.
Lemma get_evolves k ns name v out v' : get_spec k ns name v out v' → evolves v v'.
Proof. intros ([[_ Hv] _] & E & _). by apply evolves_same. Qed.
Lemma list_evolves k ns sel v out v' : list_spec k ns sel v out v' → evolves v v'.
Proof. intros ([[_ Hv] _] & E & _). by apply evolves_same. Qed.

(** ** What an operation does at each of its calls *)
Section Guarantee.
Context {S : Type} `{!KubeClient S, !RoutesChan S, !Observed S Obs, !KubeLaws S,
  !UrlLib, !MapRange}.
Context (ns : string) (ns_ok : ns ≠ "") (app : string).
Implicit Types (v : Obs) (l : list (Obs * Obs)).

(** Others keep the namespace in order. *)
Definition polite (c : M S (result unit)) : Prop :=
  ∀ v, managed ns v → wp c (λ _ v', evolves v v' ∧ managed ns v') v.

(** The ingress is deleted, with whatever it holds. *)
Definition dropped v v' : Prop :=
  step (the_ingress ns) v v' ∧ the_ing v' ns ingressName = None ∧ sent v' = sent v.

(** What a call may do, after the calls [l]: to others nothing, or to delete
    the ingress when at an earlier call no other application had a rule. *)
Definition allowed_step l v v' : Prop :=
  evolves v v' ∧ managed ns v' ∧
  (isolated ns app v v' ∨
   dropped v v' ∧ ∃ p, p ∈ l ∧ other_rules (GetInternalServiceName app) (rules_in ns p.1) = []).

Inductive traced : list (Obs * Obs) → Prop :=
  | traced_nil : traced []
  | traced_snoc l v v' : traced l → allowed_step l v v' → traced (l ++ [(v, v')]).

#[local] Instance shared_observed : Observed (Shared S) (Obs * list (Obs * Obs)) := {|
  view s := (view (sh_now s), sh_own s);
  good s := good (sh_now s) ∧ managed ns (view (sh_now s)) ∧ Forall polite (sh_others s) ∧
            traced (sh_own s)
|}.

(** A call: the others first. *)
Lemma wp_shared {A} (c : M S A) (Q : outcome A → Obs * list (Obs * Obs) → Prop) v l :
  (∀ v1, evolves v v1 → managed ns v1 → cluster_wf (cluster v1) → versions_wf v1 →
     wp c (λ o v2, allowed_step l v1 v2 ∧ Q o (v2, l ++ [(v1, v2)])) v1) →
  wp (shared_call c) Q (v, l).
Proof.
  intros Hc s (Hg & Hm & Hp & Ht) [= <- <-].
  assert (∃ s1, others_act s = s1 ∧ good (sh_now s1) ∧ managed ns (view (sh_now s1)) ∧
    evolves (view (sh_now s)) (view (sh_now s1)) ∧ Forall polite (sh_others s1) ∧
    sh_own s1 = sh_own s) as (s1 & E & Hg1 & Hm1 & Hev & Hp1 & El).
  { eexists. split; [done|]. unfold others_act. destruct (sh_others s) as [|d ds] eqn:Ed.
    - rewrite Ed. auto using evolves_refl.
    - apply Forall_cons in Hp as [Hd Hds]. destruct (Hd _ Hm (sh_now s) Hg eq_refl) as (? & ? & ?).
      simpl. auto. }
  destruct (kube_wf (sh_now s1) Hg1) as [Hwf Hvwf].
  destruct (Hc (view (sh_now s1)) Hev Hm1 Hwf Hvwf (sh_now s1) Hg1 eq_refl) as (Hg2 & Hstep & HQ).
  unfold shared_call. cbn zeta. rewrite E. split.
  - simpl. rewrite El. split_and!; [done|apply Hstep|done|by constructor].
  - simpl. by rewrite El.
Qed.

(** ** Operations that return, whatever others do *)
Definition returned {A} (o : outcome A) (_ : Obs * list (Obs * Obs)) : Prop := ∃ a, o = Ret a.

Definition returns {A} (c : M (Shared S) A) : Prop := ∀ v l, wp c returned (v, l).

Lemma returns_ret {A} (a : A) : returns (mret a).
Proof. intros v l. apply wp_ret. by eexists. Qed.

Lemma returns_bind {A B} (c : M (Shared S) A) (k : A → M (Shared S) B) :
  returns c → (∀ a, returns (k a)) → returns (c ≫= k).
Proof.
  intros Hc Hk v l. apply wp_bind. eapply wp_mono; [apply Hc|].
  intros o [v' l'] [a ->]. apply Hk.
Qed.

Lemma returns_try {A B} (c : M (Shared S) (result A)) (k : A → M (Shared S) (result B)) :
  returns c → (∀ a, returns (k a)) → returns (try_bind c k).
Proof.
  intros Hc Hk. apply returns_bind; [done|]. intros [a|e]; [apply Hk|apply returns_ret].
Qed.

Lemma returns_lift {A B} (a : A) (k : A → M (Shared S) B) :
  returns (k a) → returns (lift_outcome (Ret a) ≫= k).
Proof. done. Qed.

(** *** Calls that leave others alone *)
Definition harmless v v' : Prop := isolated ns app v v' ∧ managed ns v'.

Lemma harmless_step l v v' : evolves v v' → harmless v v' → allowed_step l v v'.
Proof. intros He [Hi Hm]. split_and!; [done..|by left]. Qed.

Lemma returns_create k o :
  (∀ v r v', managed ns v → create_spec k ns o v (Ret r) v' → harmless v v') →
  returns (kube_create k ns o).
Proof.
  intros Hh v l. apply wp_shared. intros v1 _ Hm _ _. apply wp_create. intros r v2 Hc.
  split; [|by eexists]. apply harmless_step; [by eapply create_evolves|by eapply Hh].
Qed.

Lemma returns_update k o :
  (∀ v r v', managed ns v → update_spec k ns o v (Ret r) v' → harmless v v') →
  returns (kube_update k ns o).
Proof.
  intros Hh v l. apply wp_shared. intros v1 _ Hm _ _. apply wp_update. intros r v2 Hc.
  split; [|by eexists]. apply harmless_step; [by eapply update_evolves|by eapply Hh].
Qed.

Lemma returns_delete k name :
  (∀ v r v', managed ns v → delete_spec k ns name v (Ret r) v' → harmless v v') →
  returns (kube_delete k ns name).
Proof.
  intros Hh v l. apply wp_shared. intros v1 _ Hm _ _. apply wp_delete. intros r v2 Hc.
  split; [|by eexists]. apply harmless_step; [by eapply delete_evolves|by eapply Hh].
Qed.

Lemma returns_created {B} k o (f : obj k → M (Shared S) (result B)) :
  (∀ v r v', managed ns v → create_spec k ns o v (Ret r) v' → harmless v v') →
  (∀ o', stored_as k ns o o' → returns (f o')) → returns (try_bind (kube_create k ns o) f).
Proof.
  intros Hh Hf v l. apply wp_try, wp_shared. intros v1 _ Hm _ _. apply wp_create. intros r v2 Hc.
  split; [apply harmless_step; [by eapply create_evolves|by eapply Hh]|].
  destruct r as [o'|e]; [|by eexists]. apply Hf. by apply create_ok in Hc as (_ & _ & ? & _).
Qed.

(** Reading: what is read was stored at some moment. *)
Lemma harmless_read P v v' :
  managed ns v → step P v v' → cluster v' = cluster v → sent v' = sent v → harmless v v'.
Proof.
  intros Hm Hs E Es. split; [|by eapply quiet_managed].
  apply isolated_quiet_service; [|done]. apply step_same; [done|apply Hs].
Qed.

Definition was_stored k name (o : obj k) : Prop :=
  ∃ v, managed ns v ∧ cluster_wf (cluster v) ∧ sets_filled (cluster v) ∧
    objs (cluster v) k !! (ns, name) = Some o.

Lemma returns_get {B} k name (f : obj k → M (Shared S) (result B)) :
  (∀ o, was_stored k name o → returns (f o)) → returns (try_bind (kube_get k ns name) f).
Proof.
  intros Hf v l. apply wp_try, wp_shared. intros v1 _ Hm Hwf _. apply wp_filled. intros Hfill.
  apply wp_get. intros r v2 Hg. split.
  - apply harmless_step; [by eapply get_evolves|].
    destruct Hg as ([[? ?] ?] & ? & _).
    by apply (harmless_read (λ _ _, False)); [|apply step_same|..].
  - destruct r as [o|e]; [|by eexists]. apply Hf. apply get_ok in Hg as (_ & _ & Hg). by exists v1.
Qed.

Lemma returns_list {B} k sel (f : list (obj k) → M (Shared S) (result B)) :
  (∀ os, returns (f os)) → returns (try_bind (kube_list k ns sel) f).
Proof.
  intros Hf v l. apply wp_try, wp_shared. intros v1 _ Hm Hwf _. apply wp_list. intros r v2 Hl.
  split.
  - apply harmless_step; [by eapply list_evolves|].
    destruct Hl as ([[? ?] ?] & ? & _).
    by apply (harmless_read (λ _ _, False)); [|apply step_same|..].
  - destruct r as [os|e]; [|by eexists]. apply Hf.
Qed.

Lemma returns_send rs :
  Forall (λ r, rt_Name r = GetInternalServiceName app) rs → returns (chan_send rs).
Proof.
  intros Hrs v l. apply wp_shared. intros v1 _ Hm _ _. apply wp_send. split; [|by eexists].
  apply harmless_step; [by apply evolves_same|]. split; [|by apply (quiet_managed ns v1)].
  apply (isolated_service _ _ _ _ [rs]); [by apply step_same|done|by constructor].
Qed.

(** A call that owns one service of the application. *)
Lemma service_harmless v v' :
  managed ns v → step (only Services ns (GetInternalServiceName app)) v v' →
  sent v' = sent v → harmless v v'.
Proof. intros. split; [by apply isolated_quiet_service|by eapply service_managed]. Qed.

Lemma instance_harmless v v' :
  managed ns v → step (instance_objects ns app) v v' → sent v' = sent v → sane ns v' →
  harmless v v'.
Proof. intros. by apply instance_step. Qed.

Lemma headless_harmless v v' :
  managed ns v → step (only Services ns (GetInternalHeadlessServiceName app)) v v' →
  sent v' = sent v → harmless v v'.
Proof.
  intros Hm Hs E. apply instance_harmless; [done| |done|].
  - eapply step_mono; [done|]. by right.
  - eapply sane_spare; [done|apply services_spare_sts|apply Hm].
Qed.

(** One StatefulSet, which stays or becomes a sane one or goes. *)
Lemma statefulset_harmless v v' :
  managed ns v → step (only StatefulSets ns app) v v' → sent v' = sent v →
  (the_sts v' ns app = the_sts v ns app ∨ the_sts v' ns app = None ∨
   ∃ s, the_sts v' ns app = Some s ∧ sts_sane app s) → harmless v v'.
Proof.
  intros Hm Hs E Hcase. apply instance_harmless; [done| |done|].
  - eapply step_mono; [done|]. by left.
  - eapply sane_step; [exact Hs|by intros i [_ ->]|apply Hm|].
    intros s Es. destruct Hcase as [E1|[E1|(s' & E1 & Hs')]]; [|congruence..].
    rewrite E1 in Es. by apply (managed_sane _ _ Hm).
Qed.

(** *** Services *)
Lemma create_service_harmless lrp v r v' :
  lrp_Name lrp = app → managed ns v →
  create_spec Services ns (toService lrp) v (Ret r) v' → harmless v v'.
Proof.
  intros En Hm Hc. pose proof (create_step _ _ _ _ _ _ Hc) as Hs.
  apply service_harmless; [done| |by destruct Hc as [[[? _] _] _]].
  change (name_of Services (toService lrp)) with (GetInternalServiceName (lrp_Name lrp)) in Hs.
  by rewrite En in Hs.
Qed.

Lemma svc_Create_returns lrp : lrp_Name lrp = app → returns (svc_Create ns WorkChan lrp).
Proof.
  intros En. apply returns_created; [intros; by eapply create_service_harmless|].
  intros s Hst. destruct (decodeRoutes _) as [l|e]; [|apply returns_ret].
  apply returns_bind; [|intros; apply returns_ret]. apply returns_send. repeat constructor.
  rewrite <- En. exact (stored_name _ _ _ _ Hst).
Qed.

Lemma svc_CreateHeadless_returns lrp : lrp_Name lrp = app → returns (svc_CreateHeadless ns lrp).
Proof.
  intros En. apply returns_try; [|intros; apply returns_ret]. apply returns_create.
  intros v r v' Hm Hc. pose proof (create_step _ _ _ _ _ _ Hc) as Hs.
  apply headless_harmless; [done| |by destruct Hc as [[[? _] _] _]].
  change (name_of Services (toHeadlessService lrp))
    with (GetInternalHeadlessServiceName (lrp_Name lrp)) in Hs. by rewrite En in Hs.
Qed.

Lemma svc_DeleteHeadless_returns : returns (svc_DeleteHeadless ns app).
Proof.
  apply returns_delete. intros v r v' Hm Hd.
  apply headless_harmless; [done|by eapply delete_step|by destruct Hd as [[[? _] _] _]].
Qed.

Lemma svc_Delete_returns : returns (svc_Delete ns WorkChan app).
Proof.
  apply returns_get. intros s _. destruct (decodeRoutes _) as [l|e]; [|apply returns_ret].
  apply returns_bind; [apply returns_send; by repeat constructor|]. intros _.
  apply returns_delete. intros v r v' Hm Hd.
  apply service_harmless; [done|by eapply delete_step|by destruct Hd as [[[? _] _] _]].
Qed.

Lemma svc_Update_returns lrp : lrp_Name lrp = app → returns (svc_Update ns WorkChan lrp).
Proof.
  intros En. unfold svc_Update. rewrite En. apply returns_get. intros s (v0 & _ & Hwf & _ & Hst).
  destruct (decodeRoutes (svc_annotation s _)) as [old|e] eqn:Eold; [|apply returns_ret].
  destruct (decodeRoutes (gomap_get _ _)) as [new|e]; [|apply returns_ret]. cbn [try_pure].
  destruct (svc_annotate_ok s RegisteredRoutes (gomap_get (lrp_Metadata lrp) VcapAppUris) old)
    as (s1 & -> & _ & Hn1 & _); [done|]. destruct (Hwf _ _ _ _ Hst) as [_ Hname].
  apply returns_lift, returns_try; [apply returns_update|intros _; apply returns_bind].
  - intros v r v' Hm Hu. pose proof (update_step _ _ _ _ _ _ Hu) as Hs. rewrite Hn1, Hname in Hs.
    by apply service_harmless; [| |destruct Hu as [[[? _] _] _]].
  - apply returns_send. by repeat constructor.
  - intros _. apply returns_ret.
Qed.

(** Behind a service that was made, or updated, the routes decode. *)
Lemma svc_Create_then lrp (k : M (Shared S) (result unit)) :
  lrp_Name lrp = app → (is_ok (decodeRoutes (uris_of lrp)) = true → returns k) →
  returns (_ <-! svc_Create ns WorkChan lrp; k).
Proof.
  intros En Hk. destruct (is_ok (decodeRoutes (uris_of lrp))) eqn:Hok.
  { apply returns_try; [by apply svc_Create_returns|intros _; by apply Hk]. }
  intros v l. apply wp_try, wp_try, wp_shared. intros v1 _ Hm _ _. apply wp_create.
  intros r v2 Hc. split.
  { apply harmless_step; [by eapply create_evolves|]. by eapply create_service_harmless. }
  destruct r as [s|e]; [|by eexists]. apply create_ok in Hc as (_ & _ & Hst & _).
  rewrite (svc_annotation_stored _ _ _ _ Hst), toService_annotation. unfold uris_of in Hok.
  destruct (decodeRoutes _); [done|]. apply wp_ret. by eexists.
Qed.

Lemma svc_Update_then lrp (k : M (Shared S) (result unit)) :
  lrp_Name lrp = app → (is_ok (decodeRoutes (uris_of lrp)) = true → returns k) →
  returns (_ <-! svc_Update ns WorkChan lrp; k).
Proof.
  intros En Hk. destruct (is_ok (decodeRoutes (uris_of lrp))) eqn:Hok.
  { apply returns_try; [by apply svc_Update_returns|intros _; by apply Hk]. }
  assert (∃ e, decodeRoutes (gomap_get (lrp_Metadata lrp) VcapAppUris) = Err e) as [e E].
  { unfold uris_of in Hok. destruct (decodeRoutes _); [done|eauto]. }
  assert (returns (service <-! kube_get Services ns (GetInternalServiceName (lrp_Name lrp));
    registeredRoutes <-? decodeRoutes (svc_annotation service RegisteredRoutes);
    (mret (Err e) : M (Shared S) (result unit)))) as Hc.
  { apply returns_get. intros s _. destruct (decodeRoutes (svc_annotation s _)); apply returns_ret. }
  intros v l. eapply wp_ext; [|apply Hc]. intros s. unfold svc_Update. rewrite E.
  unfold try_bind, mbind, M_bind. destruct (kube_get _ _ _ s) as [[[svc|e']|why|] s1]; [|done..].
  by destruct (decodeRoutes (svc_annotation svc RegisteredRoutes)).
Qed.

(** *** StatefulSets *)
Abbreviation instances := (@NewStatefulSetManager (Shared S) _ _ _ ns).

Lemma sts_Exists_returns : returns (im_Exists instances app).
Proof. apply returns_list. intros l. apply returns_ret. Qed.

Lemma sts_Create_returns lrp :
  lrp_Name lrp = app → has_metadata lrp → returns (im_Create instances lrp).
Proof.
  intros En Hmeta. apply returns_try; [|intros _; by apply svc_CreateHeadless_returns].
  apply returns_create. intros v r v' Hm Hc. pose proof (create_step _ _ _ _ _ _ Hc) as Hs.
  change (name_of StatefulSets _) with (lrp_Name lrp) in Hs. rewrite En in Hs.
  apply statefulset_harmless; [done..|by destruct Hc as [[[? _] _] _]|].
  destruct (create_any _ _ _ _ _ _ Hc) as [E|(s & E & Hst)];
    change (name_of StatefulSets _) with (lrp_Name lrp) in E; rewrite En in E; [by left|].
  right; right. exists s. split; [done|]. rewrite <- En. by eapply the_set_sane.
Qed.

Lemma sts_Delete_returns : returns (im_Delete instances app).
Proof.
  apply returns_try; [|intros _; apply svc_DeleteHeadless_returns]. apply returns_delete.
  intros v r v' Hm Hd.
  apply statefulset_harmless; [done|by eapply delete_step|by destruct Hd as [[[? _] _] _]|].
  destruct (delete_any _ _ _ _ _ _ Hd); auto.
Qed.

Lemma sts_Update_returns lrp : lrp_Name lrp = app → returns (im_Update instances lrp).
Proof.
  intros En. unfold NewStatefulSetManager. cbn [im_Update]. unfold sts_Update. rewrite En. apply returns_get. intros s (v0 & Hm0 & Hwf & Hfill & Hst).
  destruct (Hwf _ _ _ _ Hst) as [_ Hname]. pose proof (managed_sane _ _ Hm0 _ _ Hst) as Hsane.
  destruct (sts_scale_ok s (to_int32 (lrp_TargetInstances lrp))
    (gomap_get (lrp_Metadata lrp) LastUpdated)) as (s1 & E1 & Hn1 & _); [apply Hsane|].
  rewrite E1. apply returns_lift, returns_try; [|intros _; apply returns_ret].
  assert (name_of StatefulSets s1 = app) as Hn by (by rewrite <- Hname).
  apply returns_update. intros v r v' Hm Hu.
  pose proof (update_step _ _ _ _ _ _ Hu) as Hs. rewrite Hn in Hs.
  apply statefulset_harmless; [done..|by destruct Hu as [[[? _] _] _]|].
  destruct (update_any _ _ _ _ _ _ Hu) as [E|(s2 & E & Hst2)]; rewrite Hn in E; [by left|].
  right; right. exists s2. split; [done|]. eapply scaled_stored; [done|by eapply Hfill|done..].
Qed.

(** *** The ingress *)
Lemma ingress_harmless v v' :
  managed ns v → step (the_ingress ns) v v' → sent v' = sent v →
  (listed ns v → listed ns v') → may_replace ns app v v' → harmless v v'.
Proof. intros. by apply ingress_step. Qed.

Lemma quiet_harmless v v' :
  managed ns v → cluster v' = cluster v → api_frame v v' → harmless v v'.
Proof.
  intros Hm E [[Es _] Hh]. by apply (harmless_read (λ _ _, False)); [|apply step_same|..].
Qed.

(** An update of the ingress that was read at [v0] is taken only if nobody has
    written it since, so it takes nothing from the others. *)
Lemma ingress_taken v0 v v' i rules own r :
  cluster_wf (cluster v0) → versions_wf v0 → evolves v0 v →
  the_ing v0 ns ingressName = Some i → managed ns v →
  rules ≡ₚ other_rules (GetInternalServiceName app) (ing_Rules i) ++ own →
  own_rules app own → rules ≠ [] →
  update_spec Ingresses ns (set_rules i rules) v (Ret r) v' → harmless v v'.
Proof.
  intros Hwf Hvwf Hev Ei Hm Hrules Hown Hne Hu.
  destruct (Hwf Ingresses _ _ _ Ei) as [_ Hn].
  change (name_of Ingresses (set_rules i rules) = ingressName) in Hn.
  pose proof (update_step _ _ _ _ _ _ Hu) as Hs. rewrite Hn in Hs.
  destruct Hu as (Hframe & ? & [= <-] & Hres). rewrite Hn in Hres.
  assert (cluster v' = cluster v ∨ ∃ o0 o' : Ingress, the_ing v ns ingressName = Some o0 ∧
    current Ingresses (set_rules i rules) o0 ∧ inserted Ingresses ns (set_rules i rules) v v' o')
    as [E|(o0 & o' & E0 & Hcur & Hi)].
  { destruct r as [o'|e]; [destruct Hres as [(o0 & ? & ?) ?]; eauto 7|].
    destruct Hres as [[?|[(o0 & ? & ?) [o' ?]]] _]; eauto 7. }
  { by apply quiet_harmless. }
  assert (o0 = i) as ->.
  { destruct Hcur as [Hcur|Hcur].
    - by destruct (Hvwf Ingresses _ _ Ei) as [_ []].
    - by eapply (evolves_seen v0 v Ingresses). }
  pose proof (rules_in_inserted _ _ _ _ _ Hn Hi) as Er.
  apply ingress_harmless; [done|done|by destruct Hframe as [[? _] _]|intros _|].
  - apply listed_some; [|by rewrite Er]. apply inserted_lookup in Hi. rewrite Hn in Hi. by exists o'.
  - right. exists own. split; [done|]. unfold replaced. rewrite Er.
    assert (rules_in ns v = ing_Rules i) as -> by (unfold rules_in; by rewrite E0). done.
Qed.

Lemma ing_Delete_returns : returns (ing_Delete ns app).
Proof.
  intros v l. apply wp_try, wp_shared. intros v1 _ Hm1 Hwf Hvwf. apply wp_get. intros r v2 Hg.
  assert (harmless v1 v2) as Hh1.
  { destruct (Hg) as (? & ? & _). by apply quiet_harmless. }
  split; [apply harmless_step; [by eapply get_evolves|done]|].
  destruct r as [i|e]; [|by eexists]. pose proof (get_evolves _ _ _ _ _ _ Hg) as Hev.
  apply get_ok in Hg as (_ & _ & Ei). simpl in Ei.
  assert (rules_in ns v1 = ing_Rules i) as Er by (unfold rules_in; by rewrite Ei).
  cbv zeta. rewrite delete_rules_filter by (rewrite <- Er; apply Hm1). apply wp_bind, wp_lift.
  destruct (Nat.eqb_spec (length (other_rules (GetInternalServiceName app) (ing_Rules i))) 0)
    as [Hz|Hz].
  - apply nil_length_inv in Hz. apply wp_shared. intros v3 _ Hm3 _ _. apply wp_delete.
    intros r v4 Hd. split; [|by eexists].
    pose proof (delete_evolves _ _ _ _ _ _ Hd) as Hev4. pose proof (delete_step _ _ _ _ _ _ Hd) as Hs.
    assert (cluster v4 = cluster v3 ∨ deleted Ingresses ns ingressName v3 v4) as [E|E].
    { destruct Hd as (_ & ? & [= <-] & Hres). destruct r as [[]|e]; [right; apply Hres|].
      by destruct Hres as [[?|?] _]; [left|right]. }
    { apply harmless_step; [done|]. destruct Hd as [? _]. by apply quiet_harmless. }
    pose proof (rules_in_deleted _ _ _ E) as Er4. apply deleted_lookup in E.
    split_and!; [done| |right].
    + split; [eapply sane_spare; [exact Hs|apply ingress_spares_sts|apply Hm3]|by rewrite Er4|].
      by apply listed_none.
    + split; [by destruct Hd as [[[? _] _] _]|]. exists (v1, v2).
      split; [set_solver|]. cbn [fst]; by rewrite Er.
  - apply wp_try, wp_shared. intros v3 Hev3 Hm3 _ _. apply wp_update. intros r v4 Hu.
    split; [|destruct r; [apply returns_ret|by eexists]]. apply harmless_step; [by eapply update_evolves|].
    eapply (ingress_taken v1 v3 v4 i _ []); [done|done|by eapply evolves_trans|done|done| |constructor| |done].
    + by rewrite app_nil_r.
    + intros E. by rewrite E in Hz.
Qed.

(** A new ingress is made only where there is none. *)
Lemma createIngress_returns uris : returns (createIngress ns app uris).
Proof.
  unfold createIngress. destruct uris as [|uri uris]; [apply returns_ret|]. cbn [length Nat.eqb].
  set (i0 := {| ing_Rules := [] |}).
  pose proof (updateSpec_spec i0 app (uri :: uris) (Forall_nil_2 _)) as Hspec.
  destruct (rules_for app (uri :: uris)) as [own|e] eqn:Eown; [|rewrite Hspec; apply returns_ret].
  destruct Hspec as (rules & -> & Hrules). apply returns_lift.
  apply returns_try; [|intros _; apply returns_ret]. apply returns_create.
  intros v r v' Hm Hc. pose proof (create_step _ _ _ _ _ _ Hc) as Hs.
  destruct (Hc) as (Hframe & ? & [= <-] & Hres).
  assert (cluster v' = cluster v ∨ the_ing v ns ingressName = None ∧ ∃ o' : Ingress,
    inserted Ingresses ns (set_rules i0 rules) v v' o') as [E|(E0 & o' & Hi)].
  { destruct r as [o'|e]; [destruct Hres; eauto|]. by destruct Hres as [? _]. }
  { by apply quiet_harmless. }
  pose proof (rules_in_inserted _ (set_rules i0 rules) _ _ _ eq_refl Hi) as Er.
  apply rules_for_length in Eown as Hlen.
  apply ingress_harmless; [done|done|by destruct Hframe as [[? _] _]|intros _|].
  - apply listed_some; [by exists o'; apply inserted_lookup in Hi|]. rewrite Er.
    intros E. simpl in E. subst rules. by apply Permutation_nil_l in Hrules; simpl in Hrules; subst own.
  - right. exists own. split; [by eapply rules_for_service|]. unfold replaced. rewrite Er.
    assert (rules_in ns v = []) as -> by (unfold rules_in; by rewrite E0). done.
Qed.

Lemma ing_Update_returns lrp :
  lrp_Name lrp = app → is_ok (unmarshal_strings (uris_of lrp)) = true → returns (ing_Update ns lrp).
Proof.
  intros En Huris v l. unfold ing_Update. rewrite En.
  change (gomap_get (lrp_Metadata lrp) VcapAppUris) with (uris_of lrp).
  destruct (unmarshal_strings (uris_of lrp)) as [uris|e]; [|done].
  apply wp_try, wp_shared. intros v1 _ Hm1 Hwf Hvwf. apply wp_list. intros r v2 Hl.
  split; [apply harmless_step; [by eapply list_evolves|]|].
  { destruct (Hl) as (? & ? & _). by apply quiet_harmless. }
  destruct r as [ings|e]; [|by eexists]. pose proof (list_evolves _ _ _ _ _ _ Hl) as Hev.
  destruct Hl as (_ & _ & ? & [= <-] & Hl). rewrite (getIngress_listed ns v1) by eauto.
  destruct (the_ing v1 ns ingressName) as [i|] eqn:Ei; [|apply createIngress_returns].
  destruct (Nat.eqb_spec (length (elems uris)) 0) as [Hz|Hz]; [apply ing_Delete_returns|].
  assert (rules_in ns v1 = ing_Rules i) as Er by (unfold rules_in; by rewrite Ei).
  pose proof (updateSpec_spec i app (elems uris)) as Hspec.
  specialize (Hspec ltac:(rewrite <- Er; apply Hm1)).
  destruct (rules_for app (elems uris)) as [own|e] eqn:Eown; [|rewrite Hspec; apply returns_ret].
  destruct Hspec as (rules & -> & Hrules). apply wp_try_pure, wp_bind, wp_lift. cbn beta iota.
  apply wp_try, wp_shared. intros v3 Hev3 Hm3 _ _. apply wp_update. intros r v4 Hu.
  split; [|destruct r; [apply returns_ret|by eexists]].
  apply harmless_step; [by eapply update_evolves|]. apply rules_for_length in Eown as Hlen.
  eapply (ingress_taken v1 v3 v4 i rules own); [done|done|by eapply evolves_trans|done|done|done
    |by eapply rules_for_service| |done].
  intros ->. apply Permutation_nil_l, eq_sym, app_eq_nil in Hrules as [_ ->]. by apply Hz.
Qed.

(** *** The operations of the backend *)
Lemma run_command_returns c :
  command_app c = app → well_formed c → returns (run_command (S := Shared S) ns c).
Proof.
  intros En Hwf. destruct c as [lrp|lrp|a]; simpl in En; [destruct Hwf as [Hmeta _]|..].
  - apply returns_try; [rewrite En; apply sts_Exists_returns|intros [|]; [apply returns_ret|]].
    apply returns_try; [by apply sts_Create_returns|intros _].
    apply svc_Create_then; [done|]. by apply ing_Update_returns.
  - apply returns_try; [by apply sts_Update_returns|intros _].
    apply svc_Update_then; [done|]. by apply ing_Update_returns.
  - subst a. apply returns_try; [apply sts_Delete_returns|intros _].
    apply returns_try; [apply ing_Delete_returns|intros _]. apply svc_Delete_returns.
Qed.
End Guarantee.

(** ** Whole operations of others are among what others may do *)
Section Others.
Context {S : Type} `{!KubeClient S, !RoutesChan S, !Observed S Obs, !KubeLaws S,
  !UrlLib, !MapRange}.
Context (ns : string) (ns_ok : ns ≠ "").

Definition evolving {A} (c : M S A) : Prop := ∀ v, wp c (λ _ v', evolves v v') v.

Lemma evolving_bind {A B} (c : M S A) (k : A → M S B) :
  evolving c → (∀ a, evolving (k a)) → evolving (c ≫= k).
Proof.
  intros Hc Hk v. apply wp_bind. eapply wp_mono; [apply Hc|]. intros [a|why|] v1 H1; [|done..].
  eapply wp_mono; [apply Hk|]. intros o v2. by apply evolves_trans.
Qed.
Lemma evolving_still {A} (o : outcome A) : evolving (λ s, (o, s)).
Proof. intros v. eapply wp_still; [done|apply evolves_refl]. Qed.
Lemma evolving_try {A B} (c : M S (result A)) (k : A → M S (result B)) :
  evolving c → (∀ a, evolving (k a)) → evolving (try_bind c k).
Proof. intros Hc Hk. apply evolving_bind; [done|]. intros [a|e]; [done|apply evolving_still]. Qed.
Lemma evolving_pure {A B} (r : result A) (k : A → M S (result B)) :
  (∀ a, evolving (k a)) → evolving (try_pure r k).
Proof. intros Hk. destruct r; [apply Hk|apply evolving_still]. Qed.

Lemma evolving_create k o : evolving (kube_create k ns o).
Proof. intros v. apply wp_create. intros. by eapply create_evolves. Qed.
Lemma evolving_update k o : evolving (kube_update k ns o).
Proof. intros v. apply wp_update. intros. by eapply update_evolves. Qed.
Lemma evolving_get k name : evolving (kube_get k ns name).
Proof. intros v. apply wp_get. intros. by eapply get_evolves. Qed.
Lemma evolving_list k sel : evolving (kube_list k ns sel).
Proof. intros v. apply wp_list. intros. by eapply list_evolves. Qed.
Lemma evolving_delete k name : evolving (kube_delete k ns name).
Proof. intros v. apply wp_delete. intros. by eapply delete_evolves. Qed.
Lemma evolving_send b : evolving (chan_send b).
Proof. intros v. apply wp_send. by apply evolves_same. Qed.

Ltac evolve := repeat first
  [ apply evolving_create | apply evolving_update | apply evolving_get | apply evolving_list
  | apply evolving_delete | apply evolving_send
  | apply evolving_try; [|intros ?] | apply evolving_pure; intros ?
  | apply evolving_bind; [|intros ?] | apply evolving_still | case_match ].

Lemma ing_Delete_evolves name : evolving (ing_Delete ns name).
Proof. unfold ing_Delete, updateIngressObject. evolve. Qed.

Lemma ing_Update_evolves lrp : evolving (ing_Update ns lrp).
Proof.
  unfold ing_Update, createIngress, updateIngressObject.
  repeat first [apply ing_Delete_evolves | progress evolve].
Qed.

Lemma command_evolves c : evolving (run_command ns c).
Proof.
  destruct c as [lrp|lrp|name]; cbn [run_command].
  - unfold Desire, NewDesirer, NewInstanceManager, UseStatefulSets, NewStatefulSetManager.
    cbn [InstanceManager_ ServiceManager_ IngressManager_ im_Exists im_Create sm_Create
      NewServiceManager NewIngressManager ig_Update sm_CreateHeadless].
    unfold sts_Exists, sts_Create, svc_Create, svc_CreateHeadless.
    repeat first [apply ing_Update_evolves | progress evolve].
  - unfold Update, NewDesirer, NewInstanceManager, UseStatefulSets, NewStatefulSetManager.
    cbn [InstanceManager_ ServiceManager_ IngressManager_ im_Update sm_Update
      NewServiceManager NewIngressManager ig_Update].
    unfold sts_Update, svc_Update.
    repeat first [apply ing_Update_evolves | progress evolve].
  - unfold Stop, NewDesirer, NewInstanceManager, UseStatefulSets, NewStatefulSetManager.
    cbn [InstanceManager_ ServiceManager_ IngressManager_ im_Delete sm_Delete
      NewServiceManager NewIngressManager ig_Delete sm_DeleteHeadless].
    unfold sts_Delete, svc_Delete, svc_DeleteHeadless.
    repeat first [apply ing_Delete_evolves | progress evolve].
Qed.

Lemma command_polite c : well_formed c → polite ns (run_command ns c).
Proof.
  intros Hwf v Hm. apply (wp_mono _ (λ o v', evolves v v' ∧ ∃ r, o = Ret r ∧ commanded ns c v r v')).
  - apply wp_conj; [apply command_evolves|]. apply run_command_wp; [done..|]. eauto.
  - intros o v' (He & r & _ & Hr). split; [done|]. by eapply commanded_isolated in Hr as [_ ?].
Qed.

Lemma idle_polite : polite ns (idle : M S (result unit)).
Proof. intros v Hm. apply wp_ret. split; [apply evolves_refl|done]. Qed.
End Others.

(** ** The property *)
Section Properties.
Context {S : Type} `{!KubeClient S, !RoutesChan S, !Observed S Obs, !KubeLaws S,
  !UrlLib, !MapRange}.
Context (ns : string) (ns_ok : ns ≠ "").

(** C10: however the calls of others (any that use the API server and keep the
    namespace in order, as every operation does) fall between the calls of an
    operation, it returns, the namespace stays in order, and no call of it
    takes anything from another application: an ingress that others wrote
    since it was read is not overwritten.  Only when it deletes the ingress,
    because the rules it read were all its own, can rules of others go. *)
Theorem interleaved_isolated c others (s : S) :
  good s → managed ns (view s) → Forall (polite ns) others → well_formed c →
  let out := run_command ns c (among others s) in
  (∃ r, out.1 = Ret r) ∧ managed ns (view (sh_now out.2)) ∧
  traced ns (command_app c) (sh_own out.2).
Proof.
  intros Hg Hm Hothers Hwf.
  destruct (run_command_returns ns ns_ok (command_app c) c eq_refl Hwf (view s) [] (among others s))
    as ((_ & Hm' & _ & Ht) & Hr); [|done|done].
  split_and!; [done..|constructor].
Qed.
End Properties.

(** ** An instance of the property *)
Section Witnesses.
#[local] Existing Instance sample_urls.
#[local] Existing Instance range_in_order.

(** Another application is desired before the first call of [Desire], and a
    third one before its last. *)
Lemma interleaved_isolated_witness :
  let third := sample_lrp "third-guid" ["third.example.com"] in
  let out := run_command "opi" (CDesire dora)
    (among [run_command "opi" (CDesire worker); idle; idle; idle; idle; idle;
            run_command "opi" (CDesire third)] fresh_server) in
  length (sh_own out.2) = 7%nat ∧ traced "opi" "dora-guid" (sh_own out.2).
Proof.
  intros third out. split; [by vm_compute|].
  assert (usable third) as Hthird by (split; [apply sample_has_metadata|by vm_compute]).
  assert (Forall (polite "opi") [run_command (S := Server) "opi" (CDesire worker); idle; idle; idle;
    idle; idle; run_command "opi" (CDesire third)]) as Hpolite.
  { do 7 (apply Forall_cons_2; [first [by apply idle_polite|apply command_polite;
      [done|first [exact usable_worker|exact Hthird]]]|]). apply Forall_nil_2. }
  apply (interleaved_isolated "opi" ltac:(done) (CDesire dora) _ fresh_server fresh_good
    fresh_managed Hpolite usable_dora).
Defined.
End Witnesses.
