(* ===== verification/Wiring.v ===== *)
(** * The objects of an application fit together

    A request for a route of an application comes to the ingress, from its rule
    to a service and from the service to pods that it selects by a label.  The
    names, labels and ports that join these are written in four places of the
    code; here they are one invariant of the cluster, which every operation
    keeps, whatever calls of the API server fail.  The pods of a job carry the
    label too, in the fifth place, [toJob] of [k8s/desiretask.go]: the service
    selects them along with those of the StatefulSet, while an application is
    staged, although they listen on no port. *)

From stdpp Require Import base gmap strings list.
From Stdlib Require Import ZArith Lia.
From S2P Require Import Prelude Json Opi Kube Service StatefulSet Ingress Fixtures Desirer Tasks.

(** ** Objects that fit *)

(** What Kubernetes does with a selector: it selects the pods whose labels have
    all of its entries; an empty one selects none. *)
Definition matches (sel labels : gomap string) : Prop :=
  default ∅ sel ≠ ∅ ∧ default ∅ sel ⊆ default ∅ labels.

Definition named (app : string) : gomap string := Some {[ "name" := app ]}.

Definition sts_fits (app : string) (t : StatefulSet) : Prop :=
  ss_Selector (sts_Spec t) = named app ∧ pt_Labels (ss_Template (sts_Spec t)) = named app ∧
  ∃ c, first_container t = Ret c ∧ 8080%Z ∈ cp_ContainerPort <$> ct_Ports c.

Definition svc_fits (app : string) (s : Service) : Prop :=
  svs_Selector (svc_Spec s) = named app ∧ 8080%Z ∈ sp_Port <$> svs_Ports (svc_Spec s).

Definition rule_fits (app : string) (r : IngressRule) : Prop :=
  ∃ paths, ir_HTTP r = Some paths ∧ paths ≠ [] ∧
  Forall (λ p, hip_Backend p = {| ib_ServiceName := GetInternalServiceName app;
                                  ib_ServicePort := 8080 |}) paths.

(** A job's pods: one container, that listens on no port, and the application
    of its environment as a label. *)
Definition job_fits `{!MapRange} (job : Job) : Prop :=
  ∃ env c, pt_Containers (js_Template (job_Spec job)) = [c] ∧ ct_Ports c = [] ∧
    ct_Env c = MapToEnvVar env ∧
    default ∅ (pt_Labels (js_Template (job_Spec job))) !! "name" = Some (gomap_get env EnvAppID).

Lemma matches_named app labels :
  matches (named app) labels ↔ default ∅ labels !! "name" = Some app.
Proof.
  unfold matches, named. simpl. rewrite map_singleton_subseteq_l.
  split; [by intros []|]. split; [apply map_non_empty_singleton|done].
Qed.

Lemma named_matches app app' : matches (named app) (named app') ↔ app = app'.
Proof. rewrite matches_named. cbn. rewrite lookup_singleton_eq. split; congruence. Qed.

Lemma rules_for_fits `{!UrlLib} app uris l :
  rules_for app uris = Ok l → Forall (rule_fits app) l.
Proof.
  revert l. induction uris as [|uri uris IH]; intros l; simpl; [by intros [= <-]|].
  unfold rule_for. destruct (validateURL uri); simpl; [|done].
  destruct (rules_for app uris); simpl; [|done]. intros [= <-]. constructor; [|by apply IH].
  eexists. split; [done|]. split; [done|]. by repeat constructor.
Qed.

Section Wired.
Context (ns : string).
Implicit Types (app : string) (v : Obs).

Abbreviation svc v app := (the_svc v ns (GetInternalServiceName app)).

(** The parts of an application, as far as they are there. *)
Definition wired_sts app v : Prop := ∀ t, the_sts v ns app = Some t → sts_fits app t.
Definition wired_svc app v : Prop := ∀ s, svc v app = Some s → svc_fits app s.
Definition wired_rules app v : Prop := Forall (rule_fits app) (rules_of app (rules_in ns v)).

(** No rule is left without its service. *)
Definition backed app v : Prop := rules_of app (rules_in ns v) ≠ [] → is_Some (svc v app).

Record wired_app app v : Prop := {
  app_sts : wired_sts app v;
  app_svc : wired_svc app v;
  app_rules : wired_rules app v;
  app_backed : backed app v
}.

Definition wired v : Prop := ∀ app, plain app → wired_app app v.

(** *** Steps that leave parts alone *)

Lemma wired_same app v v' : cluster v' = cluster v → wired_app app v → wired_app app v'.
Proof.
  intros E [H1 H2 H3 H4].
  split; unfold wired_sts, wired_svc, wired_rules, backed, rules_in in *; by rewrite E.
Qed.

Lemma backed_none app v : rules_of app (rules_in ns v) = [] → backed app v.
Proof. intros E Hr. by rewrite E in Hr. Qed.

(** The instances are the StatefulSet and the headless service. *)
Lemma wired_instance app v v' :
  step (instance_objects ns app) v v' → wired_sts app v' → wired_app app v → wired_app app v'.
Proof.
  intros Hst Hsts [_ H2 H3 H4].
  assert (svc v' app = svc v app) as E
    by (eapply step_svc_spare; [exact Hst|apply instance_spares_svc]).
  assert (rules_in ns v' = rules_in ns v) as Er
    by (eapply rules_spare; [exact Hst|apply instance_spares_ing]).
  split; unfold wired_svc, wired_rules, backed in *; [done|by rewrite ?E, ?Er..].
Qed.

Lemma wired_service app v v' :
  step (only Services ns (GetInternalServiceName app)) v v' →
  wired_svc app v' → (is_Some (svc v app) → is_Some (svc v' app)) →
  wired_app app v → wired_app app v'.
Proof.
  intros Hst Hsvc Hstay [H1 _ H3 H4].
  assert (the_sts v' ns app = the_sts v ns app) as E
    by (eapply step_sts_spare; [exact Hst|apply services_spare_sts]).
  assert (rules_in ns v' = rules_in ns v) as Er
    by (eapply rules_spare; [exact Hst|apply services_spare_ing]).
  split; unfold wired_sts, wired_rules, backed in *; rewrite ?E, ?Er; auto.
Qed.

Lemma wired_ingress app v v' :
  step (the_ingress ns) v v' →
  (rules_in ns v' = rules_in ns v ∨
   ∃ l, Forall (rule_fits app) l ∧ own_rules app l ∧ replaced ns app l v v' ∧
        (l ≠ [] → is_Some (svc v app))) →
  wired_app app v → wired_app app v'.
Proof.
  intros Hst Hr [H1 H2 H3 H4].
  assert (the_sts v' ns app = the_sts v ns app) as E1
    by (eapply step_sts_spare; [exact Hst|apply ingress_spares_sts]).
  assert (svc v' app = svc v app) as E2
    by (eapply step_svc_spare; [exact Hst|apply ingress_spares_svc]).
  destruct Hr as [Er|(l & Hl & Hown & Hrep & Hsome)];
    split; unfold wired_sts, wired_svc, wired_rules, backed in *; rewrite ?E1, ?E2, ?Er; try done.
  - by rewrite (replaced_own _ _ _ _ _ Hown Hrep).
  - intros Hne. apply Hsome. intros ->. apply Hne, Permutation_nil_r.
    by rewrite (replaced_own _ _ _ _ _ Hown Hrep).
Qed.

(** Operations on one application keep the others wired. *)
Lemma wired_isolated app v v' :
  plain app → isolated ns app v v' → wired v → wired_app app v' → wired v'.
Proof.
  intros Hp Hi Hw Happ app' Hp'. destruct (decide (app = app')) as [<-|Hne]; [done|].
  destruct (isolated_frame ns app app' v v') as (E1 & _ & E3 & E4); [done..|].
  destruct (Hw app' Hp') as [H1 H2 H3 H4].
  split; unfold wired_sts, wired_svc, wired_rules, backed in *; rewrite ?E1, ?E3, ?E4; try done.
  intros Hne'. apply H4. intros E. apply Hne'. rewrite E in E4. by apply Permutation_nil_r in E4.
Qed.
End Wired.

(** ** The operations of the managers *)
Section Managers.
Context {S : Type} `{!KubeClient S, !RoutesChan S, !Observed S Obs, !KubeLaws S,
  !UrlLib, !MapRange}.
Context (ns : string) (ns_ok : ns ≠ "").
Implicit Types (app : string) (v : Obs) (lrp : LRP).

Abbreviation svc v app := (the_svc v ns (GetInternalServiceName app)).
Abbreviation manager := (@NewStatefulSetManager S _ _ _ ns).

Lemma the_set_fits lrp t : stored_as StatefulSets ns (the_set lrp) t → sts_fits (lrp_Name lrp) t.
Proof.
  intros [_ _ _ _ [_ Hsel Hlab [Hcs _ _ _]]]. unfold sts_fits, first_container.
  rewrite Hsel, Hlab. apply Forall2_cons_inv_l in Hcs as (c & l & Hc & _ & ->).
  split_and!; [done..|]. exists c. split; [done|]. rewrite (stored_ports _ _ Hc). left.
Qed.

Lemma toService_fits lrp s : stored_as Services ns (toService lrp) s → svc_fits (lrp_Name lrp) s.
Proof. intros [_ _ _ _ [Hp Hs]]. unfold svc_fits. rewrite Hp, Hs. split; [done|left]. Qed.

(** Whatever becomes of the two calls, the StatefulSet is one that fits. *)
Lemma sts_Create_wired lrp v :
  wired_sts ns (lrp_Name lrp) v →
  wp (im_Create manager lrp) (λ _ v', wired_sts ns (lrp_Name lrp) v') v.
Proof.
  intros Hw. apply wp_try, wp_create. intros r v1 Hc.
  assert (wired_sts ns (lrp_Name lrp) v1) as Hw1.
  { intros t Ht. destruct (create_any _ _ _ _ _ _ Hc) as [E|(o & E & Hst)];
      pose proof (eq_trans (eq_sym Ht) E) as E'; [by apply Hw|].
    injection E' as ->. by apply the_set_fits. }
  destruct r as [o|e]; [|done]. apply svc_CreateHeadless_wp. intros r v2 (Hst & _).
  intros t Ht. apply Hw1. rewrite <- Ht. symmetry.
  eapply step_sts_spare; [exact Hst|apply services_spare_sts].
Qed.

Lemma sts_Delete_wired app v :
  wired_sts ns app v → wp (im_Delete manager app) (λ _ v', wired_sts ns app v') v.
Proof.
  intros Hw. apply wp_try, wp_delete. intros r v1 Hd.
  assert (wired_sts ns app v1) as Hw1.
  { intros t Ht. destruct (delete_any _ _ _ _ _ _ Hd) as [E|E];
      pose proof (eq_trans (eq_sym Ht) E) as E'; [by apply Hw|done]. }
  destruct r as [o|e]; [|done]. apply svc_DeleteHeadless_wp. intros r v2 (Hst & _).
  intros t Ht. apply Hw1. rewrite <- Ht. symmetry.
  eapply step_sts_spare; [exact Hst|apply services_spare_sts].
Qed.

Lemma scaled_fits app s s1 s2 count updated :
  sts_fits app s → sts_scale s count updated = Ret s1 → stored_as StatefulSets ns s1 s2 →
  sts_fits app s2.
Proof.
  unfold sts_scale. destruct (gomap_set _ _ _); [|done..].
  intros (Es & El & c & Ec & Hp) [= <-] [_ _ _ _ [_ Hsel Hlab [Hcs _ _ _]]].
  unfold sts_fits. rewrite Hsel, Hlab. split_and!; [done..|].
  unfold first_container in *. cbn in Hcs. destruct (pt_Containers _) as [|c0 l0]; [done|].
  injection Ec as ->. apply Forall2_cons_inv_l in Hcs as (c' & l & Hc & _ & ->).
  exists c'. split; [done|]. by rewrite (stored_ports _ _ Hc).
Qed.

Lemma sts_Update_wired lrp v :
  wired_sts ns (lrp_Name lrp) v →
  wp (im_Update manager lrp) (λ _ v', wired_sts ns (lrp_Name lrp) v') v.
Proof.
  intros Hw. apply wp_wf. intros Hwf. apply wp_try, wp_get. intros [s|e] v1 Hg.
  2:{ apply get_err in Hg as (_ & Hc & _). unfold wired_sts. by rewrite Hc. }
  apply get_ok in Hg as (_ & Hc & Hg). destruct (Hwf _ _ _ _ Hg) as [_ Hnm].
  assert (wired_sts ns (lrp_Name lrp) v1) as Hw1 by (unfold wired_sts; by rewrite Hc).
  apply wp_bind, wp_lift.
  destruct (sts_scale s _ _) as [s1|why|] eqn:E; [|done..].
  assert (name_of StatefulSets s1 = lrp_Name lrp) as Hn1.
  { rewrite <- Hnm. unfold sts_scale in E. destruct (gomap_set _ _ _); [|done..]. by injection E as <-. }
  apply wp_try, wp_update. intros r v2 Hu.
  assert (wired_sts ns (lrp_Name lrp) v2) as Hw2.
  { intros t Ht. destruct (update_any _ _ _ _ _ _ Hu) as [E2|(o & E2 & Hst)]; rewrite Hn1 in E2;
      pose proof (eq_trans (eq_sym Ht) E2) as E'; [by apply Hw1|].
    injection E' as ->. eapply scaled_fits; [|done..]. by apply Hw. }
  destruct r; [by apply wp_ret|done].
Qed.

(** A service that is there stays. *)
Definition svc_stays app v v' : Prop :=
  wired_svc ns app v' ∧ (is_Some (svc v app) → is_Some (svc v' app)).

Lemma svc_Create_wired lrp v :
  wired_svc ns (lrp_Name lrp) v →
  wp (svc_Create ns WorkChan lrp) (λ _ v', svc_stays (lrp_Name lrp) v v') v.
Proof.
  intros Hw. apply wp_try, wp_create. intros r v1 Hc.
  assert (svc_stays (lrp_Name lrp) v v1) as Hw1.
  { destruct (create_any _ _ _ _ _ _ Hc) as [E|(o & E & Hst)]; cbn in E; split.
    - intros s Hs. apply Hw. by rewrite <- E.
    - by rewrite E.
    - intros s Hs. pose proof (eq_trans (eq_sym Hs) E) as E'. injection E' as ->.
      by apply toService_fits.
    - intros _. rewrite E. by eexists. }
  destruct r as [s|e]; [|done]. apply wp_try_pure. destruct (decodeRoutes _); [|done].
  by apply wp_bind, wp_send, wp_ret.
Qed.

Lemma annotated_fits app s s1 s2 k x :
  svc_fits app s → svc_annotate s k x = Ret s1 → stored_as Services ns s1 s2 → svc_fits app s2.
Proof.
  unfold svc_annotate. destruct (gomap_set _ _ _); [|done..].
  intros [Hs Hp] [= <-] [_ _ _ _ [Hp2 Hs2]]. unfold svc_fits. by rewrite Hs2, Hp2.
Qed.

Lemma svc_Update_wired lrp v :
  wired_svc ns (lrp_Name lrp) v →
  wp (svc_Update ns WorkChan lrp) (λ _ v', svc_stays (lrp_Name lrp) v v') v.
Proof.
  intros Hw. apply wp_wf. intros Hwf. apply wp_try, wp_get. intros r v1 Hg.
  assert (cluster v1 = cluster v) as Hc by apply Hg.
  assert (svc_stays (lrp_Name lrp) v v1) as Hw1 by (unfold svc_stays, wired_svc; by rewrite Hc).
  destruct r as [s|e]; [|done]. apply get_ok in Hg as (_ & _ & Hg).
  destruct (Hwf _ _ _ _ Hg) as [_ Hnm].
  apply wp_try_pure. destruct (decodeRoutes _); [|done].
  apply wp_try_pure. destruct (decodeRoutes _); [|done].
  apply wp_bind, wp_lift. destruct (svc_annotate s _ _) as [s1|why|] eqn:E; [|done..].
  assert (name_of Services s1 = GetInternalServiceName (lrp_Name lrp)) as Hn1.
  { rewrite <- Hnm. unfold svc_annotate in E. destruct (gomap_set _ _ _); [|done..]. by injection E as <-. }
  apply wp_try, wp_update. intros r v2 Hu.
  assert (svc_stays (lrp_Name lrp) v v2) as Hw2.
  { destruct (update_any _ _ _ _ _ _ Hu) as [E2|(o & E2 & Hst)]; rewrite Hn1 in E2; cbn in E2.
    - unfold svc_stays, wired_svc. by rewrite E2.
    - split; [|intros _; rewrite E2; by eexists]. intros t Ht.
      pose proof (eq_trans (eq_sym Ht) E2) as E'. injection E' as ->.
      eapply annotated_fits; [|done..]. by apply Hw. }
  destruct r; [by apply wp_bind, wp_send, wp_ret|done].
Qed.

(** Rules are added once the service is there, and go before it. *)
Lemma ing_Update_wired lrp v :
  managed ns v → is_ok (decodeRoutes (uris_of lrp)) = true → is_Some (svc v (lrp_Name lrp)) →
  wired_app ns (lrp_Name lrp) v →
  wp (ing_Update ns lrp) (λ _ v', wired_app ns (lrp_Name lrp) v') v.
Proof.
  intros Hm Hd Hs Hw. apply ing_Update_managed; [done..|].
  intros r v' _ _ (Hst & _ & _ & uris & _ & Hr & _). eapply wired_ingress; [done| |done].
  destruct Hr as [?|(l & El & Hrep)]; [by left|right]. exists l.
  split_and!; [by eapply rules_for_fits|by eapply rules_for_service|done..].
Qed.

Lemma ing_Delete_wired app v :
  managed ns v → wired_app ns app v →
  wp (ing_Delete ns app) (λ o v', wired_app ns app v' ∧
    (o = Ret (Ok tt) → rules_of app (rules_in ns v') = [])) v.
Proof.
  intros [_ Hrules _] Hw. apply ing_Delete_wp; [done..|].
  intros r v' (Hst & _ & _ & Hr & Hok). split.
  - eapply wired_ingress; [done| |done]. destruct Hr as [?|Hrep]; [by left|right].
    exists []. by split_and!; [constructor|constructor|..].
  - intros [= ->]. destruct Hok as [_ Hrep].
    apply Permutation_nil_r. by rewrite (replaced_own ns app [] v v') by (done || constructor).
Qed.

Lemma svc_Delete_wired app v :
  rules_of app (rules_in ns v) = [] → wired_app ns app v →
  wp (svc_Delete ns WorkChan app) (λ _ v', wired_app ns app v') v.
Proof.
  intros Hno [H1 H2 H3 H4]. apply wp_try, wp_get. intros r v1 Hg.
  assert (cluster v1 = cluster v) as Hc by apply Hg.
  destruct r as [s|e]; [|by apply (wired_same ns app v)].
  apply wp_try_pure. destruct (decodeRoutes _); [|by apply (wired_same ns app v)].
  apply wp_bind, wp_send, wp_delete. intros r v2 Hd. pose proof (delete_step _ _ _ _ _ _ Hd) as Hst.
  assert (rules_in ns v2 = rules_in ns v) as Er.
  { erewrite rules_spare by (exact Hst || apply services_spare_ing). unfold rules_in. cbn. by rewrite Hc. }
  split.
  - unfold wired_sts. erewrite step_sts_spare by (exact Hst || apply services_spare_sts).
    cbn. by rewrite Hc.
  - intros t Ht. apply H2. destruct (delete_any _ _ _ _ _ _ Hd) as [E|E]; cbn in E; rewrite E in Ht;
      [by rewrite <- Hc|done].
  - unfold wired_rules. by rewrite Er.
  - apply backed_none. by rewrite Er.
Qed.
End Managers.

(** ** The operations of the backend *)
Section Backend.
Context {S : Type} `{!KubeClient S, !RoutesChan S, !Observed S Obs, !KubeLaws S,
  !UrlLib, !MapRange}.
Context (ns : string) (ns_ok : ns ≠ "").
Implicit Types (app : string) (v : Obs) (lrp : LRP).

Abbreviation svc v app := (the_svc v ns (GetInternalServiceName app)).
Abbreviation manager := (@NewStatefulSetManager S _ _ _ ns).

(** The namespace is such as the backend leaves it, and the application's
    parts fit. *)
Definition kept app v : Prop := managed ns v ∧ wired_app ns app v.

Lemma kept_same app v v' : cluster v' = cluster v → kept app v → kept app v'.
Proof. intros E [Hm Hw]. split; [by eapply quiet_managed|by eapply wired_same]. Qed.

(** An operation on the instances. *)
Lemma instance_kept {A} (c : M S (result A)) (P : outcome (result A) → Obs → Prop) app v :
  wp c (λ o v', (∃ r, o = Ret r) ∧ step (instance_objects ns app) v v' ∧ sent v' = sent v ∧
    sane ns v') v →
  wp c (λ _ v', wired_sts ns app v') v → kept app v →
  (∀ r v', kept app v' → P (Ret r) v') → wp c P v.
Proof.
  intros H1 H2 [Hm Hw] HP. eapply wp_mono; [exact (wp_conj _ _ _ _ H1 H2)|].
  intros o v' [([r ->] & Hst & Hs & Hsane) Hsts]. apply HP. split.
  - by eapply instance_step.
  - by eapply wired_instance.
Qed.

(** An operation on the service that leaves one there, for which the routes
    of the LRP decoded. *)
Lemma service_kept (c : M S (result unit)) (P : outcome (result unit) → Obs → Prop) lrp v :
  let app := lrp_Name lrp in
  let done v' := is_Some (svc v' app) ∧ is_ok (decodeRoutes (uris_of lrp)) = true in
  wp c (λ o v', ∃ r, o = Ret r ∧ step (only Services ns (GetInternalServiceName app)) v v' ∧
    (is_ok r = true → done v')) v →
  wp c (λ _ v', svc_stays ns app v v') v → kept app v →
  (∀ r v', kept app v' → (is_ok r = true → done v') → P (Ret r) v') → wp c P v.
Proof.
  intros app done H1 H2 [Hm Hw] HP. eapply wp_mono; [exact (wp_conj _ _ _ _ H1 H2)|].
  intros o v' [(r & -> & Hst & Hok) [Hsvc Hstay]]. apply HP; [|done]. split.
  - by eapply service_managed.
  - by eapply wired_service.
Qed.

Lemma im_Create_kept lrp v (P : outcome (result unit) → Obs → Prop) :
  has_metadata lrp → kept (lrp_Name lrp) v → (∀ r v', kept (lrp_Name lrp) v' → P (Ret r) v') →
  wp (im_Create manager lrp) P v.
Proof.
  intros Hmeta Hk. apply instance_kept; [|apply sts_Create_wired, Hk|done].
  apply sts_Create_wp; [apply Hk|done|]. intros r v' (? & ? & ? & _). eauto.
Qed.

Lemma im_Delete_kept app v (P : outcome (result unit) → Obs → Prop) :
  kept app v → (∀ r v', kept app v' → P (Ret r) v') → wp (im_Delete manager app) P v.
Proof.
  intros Hk. apply instance_kept; [|apply sts_Delete_wired, Hk|done].
  apply sts_Delete_wp; [apply Hk|]. intros r v' (? & ? & ? & _). eauto.
Qed.

Lemma im_Update_kept lrp v (P : outcome (result unit) → Obs → Prop) :
  kept (lrp_Name lrp) v → (∀ r v', kept (lrp_Name lrp) v' → P (Ret r) v') →
  wp (im_Update manager lrp) P v.
Proof.
  intros Hk. apply instance_kept; [|apply sts_Update_wired, Hk|done].
  apply sts_Update_wp; [apply Hk|]. intros r v' (Hst & ? & ? & _). split_and!; [by eexists| |done..].
  eapply step_mono; [exact Hst|]. by left.
Qed.

Lemma svc_Create_kept lrp v (P : outcome (result unit) → Obs → Prop) :
  kept (lrp_Name lrp) v →
  (∀ r v', kept (lrp_Name lrp) v' →
     (is_ok r = true → is_Some (svc v' (lrp_Name lrp)) ∧ is_ok (decodeRoutes (uris_of lrp)) = true) →
     P (Ret r) v') → wp (svc_Create ns WorkChan lrp) P v.
Proof.
  intros Hk. apply service_kept; [|apply svc_Create_wired, Hk|done].
  apply svc_Create_wp. intros r v' (Hst & Hr). exists r. split_and!; [done..|]. intros Hok.
  destruct r as [[]|]; [|done]. destruct Hr as (_ & (s & Es & _) & l & El & _).
  split; [by exists s|by rewrite El].
Qed.

Lemma svc_Update_kept lrp v (P : outcome (result unit) → Obs → Prop) :
  kept (lrp_Name lrp) v →
  (∀ r v', kept (lrp_Name lrp) v' →
     (is_ok r = true → is_Some (svc v' (lrp_Name lrp)) ∧ is_ok (decodeRoutes (uris_of lrp)) = true) →
     P (Ret r) v') → wp (svc_Update ns WorkChan lrp) P v.
Proof.
  intros Hk. apply service_kept; [|apply svc_Update_wired, Hk|done].
  apply svc_Update_wp. intros r v' (Hst & Hr). exists r. split_and!; [done..|]. intros Hok.
  destruct r as [[]|]; [|done]. destruct Hr as (s & s' & old & new & _ & Es & _ & _ & _ & El & _).
  split; [by exists s'|by rewrite El].
Qed.

(** Every command keeps its application's parts fitting. *)
Lemma run_command_wired c v :
  managed ns v → well_formed c → wired_app ns (command_app c) v →
  wp (run_command ns c) (λ _ v', wired_app ns (command_app c) v') v.
Proof.
  intros Hm Hc Hw. assert (kept (command_app c) v) as Hk by done. clear Hm Hw.
  destruct c as [lrp|lrp|app]; cbn [run_command command_app] in *.
  - destruct Hc as [Hmeta Hlab]. apply wp_try, sts_Exists_wp; [apply Hk|done|done|].
    intros [b|e] v0 (_ & Hc0 & _); apply (kept_same _ _ v0 Hc0) in Hk; [|apply Hk].
    destruct b; [apply wp_ret, Hk|].
    apply wp_try, im_Create_kept; [done..|]. intros [[]|e] v1 Hk1; [|apply Hk1].
    apply wp_try, svc_Create_kept; [done|]. intros [[]|e] v2 Hk2 Hok; [|apply Hk2].
    destruct (Hok eq_refl). apply ing_Update_wired; try done; apply Hk2.
  - apply wp_try, im_Update_kept; [done|]. intros [[]|e] v1 Hk1; [|apply Hk1].
    apply wp_try, svc_Update_kept; [done|]. intros [[]|e] v2 Hk2 Hok; [|apply Hk2].
    destruct (Hok eq_refl). apply ing_Update_wired; try done; apply Hk2.
  - apply wp_try, im_Delete_kept; [done|]. intros [[]|e] v1 Hk1; [|apply Hk1].
    destruct (Hk1) as [Hm1 Hw1].
    apply wp_try. eapply wp_mono; [by apply ing_Delete_wired|].
    intros o v2 [Hw2 Hno]. destruct o as [[[]|e]|why|]; [|done..].
    apply svc_Delete_wired; [by apply Hno|done].
Qed.

Lemma command_keeps_wired c v :
  managed ns v → wired ns v → well_formed c → plain (command_app c) →
  wp (run_command ns c) (λ o v', (∃ r, o = Ret r) ∧ managed ns v' ∧ wired ns v') v.
Proof.
  intros Hm Hw Hc Hp.
  eapply wp_mono; [apply wp_conj; [apply (run_command_wired c v); by auto|
    apply (run_command_wp ns ns_ok c v (λ o v', ∃ r, o = Ret r ∧ commanded ns c v r v')); eauto]|].
  intros o v' [Happ (r & -> & Hr)]. destruct (commanded_isolated ns c v r v' Hr) as [Hi Hm'].
  split_and!; [by eexists|done|by eapply wired_isolated].
Qed.
End Backend.

(** ** Staging tasks *)

(** What a client of the two desirers may ask for. *)
Inductive request :=
  | RCommand (c : command)
  | RTask (task : Task)
  | RStaging (task : Task)
  | REndTask (name : string).

Section Staging.
Context {S : Type} `{!KubeClient S, !RoutesChan S, !Observed S Obs, !KubeLaws S,
  !UrlLib, !MapRange}.
Context (d : K8sTaskDesirer) (ns_ok : td_Namespace d ≠ "").
Implicit Types (v : Obs) (task : Task).

Abbreviation ns := (td_Namespace d).

Definition request_ok (q : request) : Prop :=
  match q with RCommand c => well_formed c ∧ plain (command_app c) | _ => True end.

Definition run_request (q : request) : M S (result unit) :=
  match q with
  | RCommand c => run_command ns c
  | RTask task => Tasks.Desire d task
  | RStaging task => Tasks.DesireStaging d task
  | REndTask name => Tasks.Delete d name
  end.

Fixpoint run_requests (qs : list request) : M S (list (result unit)) :=
  match qs with
  | [] => mret []
  | q :: qs => r ← run_request q; rs ← run_requests qs; mret (r :: rs)
  end.

(** The jobs of the namespace are those of tasks. *)
Definition jobs_fit v : Prop := ∀ name job, the_job v ns name = Some job → job_fits job.

Record fitting v : Prop := {
  fitting_managed : managed ns v;
  fitting_wired : wired ns v;
  fitting_jobs : jobs_fit v
}.

Lemma toJob_fits task : job_fits (toJob task).
Proof. by exists (task_Env task); eexists; split_and!. Qed.

Lemma toStagingJob_fits task job : toStagingJob d task = Ret job → job_fits job.
Proof. intros [= <-]. by exists (task_Env task); eexists; split_and!. Qed.

Lemma job_fits_stored job job' : stored_as Jobs ns job job' → job_fits job → job_fits job'.
Proof.
  intros [_ _ _ _ [_ Hlab [Hcs _ _ _]]] (env & c & Ec & Ep & Ee & El).
  rewrite Ec in Hcs. apply Forall2_cons_inv_l in Hcs as (c' & l & Hc & Hnil & Ec').
  apply Forall2_nil_inv_l in Hnil as ->. exists env, c'.
  rewrite (stored_ports _ _ Hc), (stored_env _ _ Hc). split_and!; [done..|].
  by eapply lookup_weaken.
Qed.

Lemma step_job_spare P v v' i :
  step P v v' → ¬ P Jobs i → cl_job (cluster v') !! i = cl_job (cluster v) !! i.
Proof. intros [Ht _]. apply (Ht Jobs). Qed.

(** What touches one job only keeps everything else. *)
Lemma job_step name v v' :
  fitting v → step (only Jobs ns name) v v' →
  (∀ job, the_job v' ns name = Some job → the_job v ns name = Some job ∨ job_fits job) →
  fitting v'.
Proof.
  intros [[Hsane Hwf Hlist] Hw Hj] Hst Hjob.
  assert (∀ i, ¬ only Jobs ns name Ingresses i) as Hing by by intros i [? _].
  assert (rules_in ns v' = rules_in ns v) as Er by by eapply rules_spare.
  split.
  - split; [|by rewrite Er|by eapply listed_spare].
    eapply sane_spare; [done| |done]. by intros i [? _].
  - intros app Hp. destruct (Hw app Hp) as [H1 H2 H3 H4].
    assert (the_sts v' ns app = the_sts v ns app) as E1
      by (eapply step_sts_spare; [exact Hst|by intros [? _]]).
    assert (the_svc v' ns (GetInternalServiceName app) = the_svc v ns (GetInternalServiceName app))
      as E2 by (eapply step_svc_spare; [exact Hst|by intros [? _]]).
    split; unfold wired_sts, wired_svc, wired_rules, backed in *; by rewrite ?E1, ?E2, ?Er.
  - intros name' job Ej. destruct (decide (name' = name)) as [->|Hne].
    + destruct (Hjob job Ej) as [E|?]; [by eapply Hj|done].
    + apply (Hj name'). rewrite <- Ej. symmetry. eapply step_job_spare; [exact Hst|].
      intros [_ [= E]]. done.
Qed.

Lemma create_job_fits job v :
  fitting v → job_fits job →
  wp (kube_create Jobs ns job) (λ o v', (∃ r, o = Ret r) ∧ fitting v') v.
Proof.
  intros Hf Hjob. apply wp_create. intros r v' Hc. split; [by eexists|].
  eapply job_step; [done|by eapply create_step|]. intros job' E.
  destruct (create_any _ _ _ _ _ _ Hc) as [E'|(o & E' & Hst)].
  - left. by rewrite <- E.
  - right. pose proof (eq_trans (eq_sym E) E') as E2. injection E2 as ->.
    by eapply job_fits_stored.
Qed.

Lemma delete_job_fits name v :
  fitting v → wp (kube_delete Jobs ns name) (λ o v', (∃ r, o = Ret r) ∧ fitting v') v.
Proof.
  intros Hf. apply wp_delete. intros r v' Hd. split; [by eexists|].
  eapply job_step; [done|by eapply delete_step|]. intros job' E. left.
  destruct (delete_any _ _ _ _ _ _ Hd) as [E'|E']; [by rewrite <- E|].
  by pose proof (eq_trans (eq_sym E) E').
Qed.

Lemma request_fits q v :
  fitting v → request_ok q → wp (run_request q) (λ o v', (∃ r, o = Ret r) ∧ fitting v') v.
Proof.
  intros Hf Hq. destruct q as [c|task|task|name]; cbn [run_request].
  - destruct Hf as [Hm Hw Hj], Hq as [Hwf Hp].
    eapply wp_mono; [apply wp_conj; [by apply (command_keeps_wired ns ns_ok c v)|
      apply (run_command_wp ns ns_ok c v (λ o v', ∃ r, o = Ret r ∧ commanded ns c v r v')); eauto]|].
    intros o v' [(Hr & Hm' & Hw') (r & -> & Hc)]. split; [done|]. split; [done..|].
    destruct (commanded_isolated ns c v r v' Hc) as [[Hst _ _] _].
    intros name job Ej. apply (Hj name). rewrite <- Ej. symmetry.
    eapply step_job_spare; [exact Hst|]. by intros [[[? _]|[? _]]|[[? _]|[? _]]].
  - apply wp_try. eapply wp_mono; [by apply create_job_fits, toJob_fits|].
    intros o v' [[r ->] Hf']. destruct r; [apply wp_ret|]; by split; [eexists|].
  - unfold Tasks.DesireStaging. destruct (toStagingJob_spec d task) as (job & E & _).
    rewrite E. apply wp_bind, wp_lift, wp_try.
    eapply wp_mono; [by eapply create_job_fits, toStagingJob_fits|].
    intros o v' [[r ->] Hf']. destruct r; [apply wp_ret|]; by split; [eexists|].
  - by apply delete_job_fits.
Qed.
End Staging.

(** ** What this means for a request *)
Section Requests.
Context `{!MapRange} (ns : string).
Implicit Types (app : string) (v : Obs).

Abbreviation svc v app := (the_svc v ns (GetInternalServiceName app)).

(** A selector takes, among the pods of the StatefulSets, those of [app], and
    these listen on [port]. *)
Definition reaches_app (sel : gomap string) (port : Z) app v : Prop :=
  ∀ app' t, plain app' → the_sts v ns app' = Some t →
    (matches sel (pt_Labels (ss_Template (sts_Spec t))) ↔ app' = app) ∧
    (app' = app → ∃ c, first_container t = Ret c ∧ port ∈ cp_ContainerPort <$> ct_Ports c).

(** Among the pods of the jobs, it takes those whose task names [app] as its
    application, and these listen on no port. *)
Definition reaches_tasks_of (sel : gomap string) app v : Prop :=
  ∀ name job, the_job v ns name = Some job →
    ∃ env c, pt_Containers (js_Template (job_Spec job)) = [c] ∧ ct_Env c = MapToEnvVar env ∧
      ct_Ports c = [] ∧
      (matches sel (pt_Labels (js_Template (job_Spec job))) ↔ gomap_get env EnvAppID = app).

(** The rule leads to the service of the application, at a port it has, and
    the service to the pods it selects. *)
Definition rule_reaches app v (r : IngressRule) : Prop :=
  ∃ s paths, svc v app = Some s ∧ ir_HTTP r = Some paths ∧ paths ≠ [] ∧
  reaches_tasks_of (svs_Selector (svc_Spec s)) app v ∧
  ∀ p, p ∈ paths →
    ib_ServiceName (hip_Backend p) = GetInternalServiceName app ∧
    ib_ServicePort (hip_Backend p) ∈ sp_Port <$> svs_Ports (svc_Spec s) ∧
    reaches_app (svs_Selector (svc_Spec s)) (ib_ServicePort (hip_Backend p)) app v.

Lemma wired_reaches app v r :
  (∀ name job, the_job v ns name = Some job → job_fits job) →
  wired ns v → plain app → r ∈ rules_of app (rules_in ns v) → rule_reaches app v r.
Proof.
  intros Hj Hw Hp Hr. destruct (Hw app Hp) as [_ Hsvc Hrules Hback].
  destruct Hback as [s Es]; [intros E; by rewrite E in Hr; apply not_elem_of_nil in Hr|].
  destruct (Hsvc s Es) as [Hsel Hport].
  unfold wired_rules in Hrules. rewrite Forall_forall in Hrules.
  destruct (Hrules r Hr) as (paths & Hpaths & Hne & Hall). rewrite Forall_forall in Hall.
  exists s, paths. split_and!; [done..| |].
  { intros name job Ej. destruct (Hj name job Ej) as (env & c & Ec & Ep & Ee & El).
    exists env, c. split_and!; [done..|]. rewrite Hsel, matches_named, El. split; congruence. }
  intros p Hin. rewrite (Hall p Hin).
  cbn [ib_ServiceName ib_ServicePort]. split_and!; [done..|]. intros app' t Hp' Ht.
  destruct (app_sts _ _ _ (Hw app' Hp') t Ht) as (_ & Hlab & c & Hc & Hcp).
  rewrite Hsel, Hlab. split; [rewrite named_matches; split; congruence|].
  intros _. by exists c.
Qed.
End Requests.

(** ** The property *)
Section Properties.
Context {S : Type} `{!KubeClient S, !RoutesChan S, !Observed S Obs, !KubeLaws S,
  !UrlLib, !MapRange}.
Context (d : K8sTaskDesirer) (ns_ok : td_Namespace d ≠ "").

(** C9: whatever sequence of commands and staging tasks is run, and whatever
    calls of the API server fail on the way, every rule of the ingress leads to
    a service that is there; of the pods of StatefulSets the service selects
    those of its application and no others, and they listen on the rule's
    port.  Of the pods of jobs it selects exactly those that stage this
    application, although they listen on no port: a request made meanwhile may
    be sent to one of them.  No command panics or blocks. *)
Theorem rules_reach_pods qs v :
  fitting d v → Forall request_ok qs →
  wp (run_requests d qs) (λ o v', (∃ rs, o = Ret rs) ∧ fitting d v' ∧
    ∀ app r, plain app → r ∈ rules_of app (rules_in (td_Namespace d) v') →
      rule_reaches (td_Namespace d) app v' r) v.
Proof.
  intros Hf Hqs. revert v Hf. induction Hqs as [|q qs Hq _ IH]; intros v Hf.
  - apply wp_ret. split_and!; [by eexists|done|]. destruct Hf. intros app r. by apply wired_reaches.
  - cbn [run_requests]. apply wp_bind. eapply wp_mono; [by apply request_fits|].
    intros o v1 ([r ->] & Hf1). cbv beta iota. apply wp_bind.
    eapply wp_mono; [by apply IH|]. intros o v2 ([rs ->] & Hf2 & Hr2). cbv beta iota.
    apply wp_ret. split_and!; [by eexists|done..].
Qed.
End Properties.

(** ** An instance of the property *)
Section Witnesses.
#[local] Existing Instance sample_urls.
#[local] Existing Instance range_in_order.

(** An empty cluster whose server refuses the calls of the script. *)
Definition refusing (l : list bool) : Server :=
  {| srv_cluster := empty_cluster; srv_revision := 0; srv_refusals := l; srv_sent := [] |}.

Lemma refusing_good l : good (refusing l).
Proof. apply fresh_good. Qed.

Lemma refusing_managed l : managed "opi" (view (refusing l)).
Proof. by apply (quiet_managed "opi" (view fresh_server)); [|apply fresh_managed]. Qed.

Lemma refusing_wired l : wired "opi" (view (refusing l)).
Proof. intros app _. split; [intros t Ht|intros s Hs|constructor|intros E]; done. Qed.

Lemma refusing_fitting l : fitting sample_desirer (view (refusing l)).
Proof. split; [apply refusing_managed|apply refusing_wired|done]. Qed.

(** The creation of the first application's ingress is refused; the second is
    staged and created, and its deletion is refused at the ingress. *)
Definition troubles : list bool :=
  [false; false; false; false; false; true; false; false; false; false; false; false; false;
   false; false; false; true].

Definition web : LRP := sample_lrp "web-guid" ["web.example.com"].

Lemma usable_web : usable web.
Proof. split; [apply sample_has_metadata|by vm_compute]. Qed.

Definition web_staging : Task := {|
  task_Image := "eirini/recipe"; task_Command := [];
  task_Env := Some (list_to_map [(EnvStagingGUID, "staging-2"); (EnvAppID, "web-guid")]) |}.

Definition troubled_requests : list request :=
  [RCommand (CDesire dora); RStaging web_staging; RCommand (CDesire web);
   RCommand (CStop "web-guid")].

Definition troubled : outcome (list (result unit)) * Server :=
  run_requests sample_desirer troubled_requests (refusing troubles).

(** The service of the second application selects the pod that stages it. *)
Lemma rules_reach_pods_witness :
  (∃ e1 e2, troubled.1 = Ret [Err e1; Ok tt; Ok tt; Err e2]) ∧
  (∃ s job, the_svc (view troubled.2) "opi" (GetInternalServiceName "web-guid") = Some s ∧
     the_job (view troubled.2) "opi" "staging-2" = Some job ∧
     svs_Selector (svc_Spec s) = named "web-guid" ∧
     default ∅ (pt_Labels (js_Template (job_Spec job))) !! "name" = Some "web-guid") ∧
  ∃ r, rules_of "web-guid" (rules_in "opi" (view troubled.2)) = [r] ∧
    rule_reaches "opi" "web-guid" (view troubled.2) r.
Proof.
  split; [vm_compute; by do 2 eexists|].
  split; [vm_compute; by do 2 eexists; split_and!|].
  assert (plain "dora-guid" ∧ plain "web-guid") as [Hp1 Hp2] by by split; apply plain_check.
  assert (Forall request_ok troubled_requests) as Hqs.
  { repeat constructor; try done; apply usable_dora || apply usable_web. }
  destruct (rules_reach_pods sample_desirer ltac:(done) _ _ (refusing_fitting troubles)
    Hqs (refusing troubles) (refusing_good troubles) eq_refl) as (_ & _ & _ & Hr).
  assert (∃ r, rules_of "web-guid" (rules_in "opi" (view troubled.2)) = [r]) as [r Er]
    by (vm_compute; by eexists).
  exists r. split; [exact Er|]. apply Hr; [exact Hp2|].
  change (r ∈ rules_of "web-guid" (rules_in "opi" (view troubled.2))). rewrite Er. left.
Defined.
End Witnesses.
