(* ===== verification/Races.v ===== *)
(** * Interleavings that lose routes

    Three interleavings of healthy requests after which the routes are not what
    the requests asked for.  Each is a run of the operations themselves, with
    the calls of another request between two of their own. *)

From stdpp Require Import base gmap strings list fin_maps.
From Stdlib Require Import Lia.
From S2P Require Import Prelude Json Opi Kube Service StatefulSet Ingress Fixtures Desirer Routes Interleaving.

Section Known.
Context {S : Type} `{!KubeClient S, !RoutesChan S, !Observed S Obs, !KubeLaws S}.
Implicit Types (v : Obs) (cs : list (M S (result unit))) (rs : list (outcome (result unit))).

(** *** Calls among others that are known *)
#[local] Instance known_observed :
    Observed (Shared S) (Obs * list (M S (result unit)) * list (outcome (result unit))) := {|
  view s := (view (sh_now s), sh_others s, sh_answers s);
  good s := good (sh_now s)
|}.

Lemma wp_after {A} (c : M S A) d cs rs v
    (Q : outcome A → Obs * list (M S (result unit)) * list (outcome (result unit)) → Prop) :
  wp d (λ r v1, wp c (λ o v2, Q o (v2, cs, rs ++ [r])) v1) v →
  wp (shared_call c) Q (v, d :: cs, rs).
Proof.
  intros Hd s Hg [= Ev Ed Er]. destruct (Hd (sh_now s) Hg Ev) as [Hg1 Hc].
  destruct (Hc _ Hg1 eq_refl) as [Hg2 HQ].
  unfold shared_call, others_act. rewrite Ed. simpl. by rewrite Er.
Qed.

Lemma wp_idle {A} (c : M S A) cs rs v
    (Q : outcome A → Obs * list (M S (result unit)) * list (outcome (result unit)) → Prop) :
  wp c (λ o v2, Q o (v2, cs, rs ++ [Ret (Ok tt)])) v → wp (shared_call c) Q (v, idle :: cs, rs).
Proof. intros Hc. by apply wp_after, wp_ret. Qed.

Lemma wp_alone {A} (c : M S A) rs v
    (Q : outcome A → Obs * list (M S (result unit)) * list (outcome (result unit)) → Prop) :
  wp c (λ o v2, Q o (v2, [], rs)) v → wp (shared_call c) Q (v, [], rs).
Proof.
  intros Hc s Hg [= Ev Ed Er]. destruct (Hc (sh_now s) Hg Ev) as [Hg2 HQ].
  unfold shared_call, others_act. rewrite Ed. simpl. by rewrite Ed, Er.
Qed.

(** *** Calls that a healthy server takes *)
Lemma healthy_delete k ns name v (Q : outcome (result unit) → Obs → Prop) :
  healthy v = true → ns ≠ "" → name ≠ "" → is_Some (objs (cluster v) k !! (ns, name)) →
  (∀ v', step (only k ns name) v v' → sent v' = sent v →
     objs (cluster v') k !! (ns, name) = None → Q (Ret (Ok tt)) v') →
  wp (kube_delete k ns name) Q v.
Proof.
  intros Hv Hns Hn [o Ho] HQ. apply wp_delete. intros [[]|e] v' Hd;
    pose proof (delete_step _ _ _ _ _ _ Hd) as Hs.
  - apply delete_ok in Hd as (? & _ & ?). by apply HQ.
  - apply delete_err in Hd as (_ & Hd). destruct (Hd Hv) as [_ Hno]. rewrite Hno in Ho by done. done.
Qed.

Lemma healthy_get k ns name v o (Q : outcome (result (obj k)) → Obs → Prop) :
  healthy v = true → ns ≠ "" → name ≠ "" → objs (cluster v) k !! (ns, name) = Some o →
  (∀ v', step (λ _ _, False) v v' → sent v' = sent v → cluster v' = cluster v →
     Q (Ret (Ok o)) v') →
  wp (kube_get k ns name) Q v.
Proof.
  intros Hv Hns Hn Ho HQ. apply wp_get. intros [o'|e] v' Hg;
    pose proof (get_step _ _ _ _ _ _ (λ _ _, False) Hg) as Hs.
  - apply get_ok in Hg as (? & ? & Ho'). rewrite Ho in Ho'. injection Ho' as <-. by apply HQ.
  - apply get_err in Hg as (_ & _ & Hno). rewrite Hno in Ho by done. done.
Qed.

Lemma healthy_create k ns o v (Q : outcome (result (obj k)) → Obs → Prop) :
  healthy v = true → acceptable k ns o → version_of k o = "" →
  objs (cluster v) k !! (ns, name_of k o) = None →
  (∀ o' v', step (only k ns (name_of k o)) v v' → sent v' = sent v → stored_as k ns o o' →
     objs (cluster v') k !! (ns, name_of k o) = Some o' → Q (Ret (Ok o')) v') →
  wp (kube_create k ns o) Q v.
Proof.
  intros Hv Ha Hrv Hno HQ. apply wp_create. intros [o'|e] v' Hc;
    pose proof (create_step _ _ _ _ _ _ Hc) as Hs.
  - apply create_ok in Hc as (? & _ & ? & ?). by apply HQ.
  - apply create_err in Hc as (_ & Hc). destruct (Hc Hv) as [_ Hsome].
    destruct (Hsome Ha Hrv) as [? E]. by rewrite Hno in E.
Qed.

(** A name that is taken. *)
Lemma healthy_taken k ns o v (Q : outcome (result (obj k)) → Obs → Prop) :
  healthy v = true → is_Some (objs (cluster v) k !! (ns, name_of k o)) →
  (∀ e v', step (λ _ _, False) v v' → sent v' = sent v → cluster v' = cluster v →
     Q (Ret (Err e)) v') →
  wp (kube_create k ns o) Q v.
Proof.
  intros Hv [x Hx] HQ. apply wp_create. intros [o'|e] v' Hc.
  - apply create_ok in Hc as (_ & Hno & _). by rewrite Hno in Hx.
  - destruct (Hc) as ([_ Hh] & _). apply create_err in Hc as (? & Hc). destruct (Hc Hv) as [E _].
    apply HQ; [by apply step_same|done..].
Qed.
End Known.

Section Races.
Context {S : Type} `{!KubeClient S, !RoutesChan S, !Observed S Obs, !KubeLaws S,
  !UrlLib, !MapRange}.
Context (ns : string) (ns_ok : ns ≠ "").
#[local] Existing Instance known_observed.

Abbreviation svc v app := (the_svc v ns (GetInternalServiceName app)).
Abbreviation hsvc v app := (the_svc v ns (GetInternalHeadlessServiceName app)).

(** The application is not there, and the server would run it. *)
Record fresh_app (lrp : LRP) (v : Obs) : Prop := {
  fresh_absent : absent ns (lrp_Name lrp) v;
  fresh_plain : plain (lrp_Name lrp);
  fresh_name : lrp_Name lrp ≠ "";
  fresh_usable : usable lrp;
  fresh_valid : routes_valid lrp = true;
  fresh_routed : decoded_uris lrp ≠ []
}.

(** Desiring it works, and gives it rules. *)
Lemma desire_fresh lrp v (Q : outcome (result unit) → Obs → Prop) :
  healthy v = true → managed ns v → fresh_app lrp v →
  (∀ v', isolated ns (lrp_Name lrp) v v' → managed ns v' → all_created ns lrp v v' →
     is_Some (the_ing v' ns ingressName) → Q (Ret (Ok tt)) v') →
  wp (run_command ns (CDesire lrp)) Q v.
Proof.
  intros Hv Hm [(Hsts & Hh & Hsvc & _) _ Hn [Hmeta Hlab] Hval Hrouted] HQ.
  apply Desire_wp; [done..|]. intros [[]|e] v' (Hi & Hm' & Hr).
  - destruct Hr as [([? E] & _)|[_ Hall]]; [congruence|]. apply HQ; [done..|].
    destruct Hall as (_ & _ & _ & uris & rules & Eu & Er & Hrep & _).
    apply (managed_listed _ _ Hm'). intros E. apply Hrouted. unfold decoded_uris. rewrite Eu.
    unfold replaced in Hrep. rewrite E in Hrep. apply Permutation_nil_l, eq_sym, app_eq_nil in Hrep as [_ ->].
    apply rules_for_length in Er. by destruct (elems uris).
  - destruct (Hr Hv Hn) as (_ & [[? E]|[[? E]|E]]); congruence.
Qed.

Lemma headless_name_ne app : GetInternalHeadlessServiceName app ≠ "".
Proof. done. Qed.

(** The instances of a deployed application go, nothing else. *)
Lemma delete_instances app v others rs
    (Q : outcome (result unit) → Obs * list (M S (result unit)) * list (outcome (result unit)) → Prop) :
  healthy v = true → managed ns v → app ≠ "" → is_Some (the_sts v ns app) → is_Some (hsvc v app) →
  (∀ v', isolated ns app v v' → managed ns v' → healthy v' = true → svc v' app = svc v app →
     the_ing v' ns ingressName = the_ing v ns ingressName → sent v' = sent v →
     Q (Ret (Ok tt)) (v', others, rs ++ [Ret (Ok tt); Ret (Ok tt)])) →
  wp (im_Delete (@NewStatefulSetManager (Shared S) _ _ _ ns) app) Q (v, idle :: idle :: others, rs).
Proof.
  intros Hv Hm Hn Hsts Hh HQ.
  apply wp_try, wp_idle, healthy_delete; [done..|]. intros v1 Hs1 E1 Hno1.
  assert (hsvc v1 app = hsvc v app) as Eh.
  { eapply step_svc_spare; [exact Hs1|]. by intros [? _]. }
  destruct (statefulset_harmless ns app v v1) as [Hi1 Hm1]; [done..|by right; left|].
  apply wp_idle, healthy_delete; [by apply Hs1|done|done|by rewrite <- Eh in Hh|].
  intros v2 Hs2 E2 _. destruct (headless_harmless ns app v1 v2) as [Hi2 Hm2]; [done..|].
  rewrite <- app_assoc. apply HQ; [by eapply isolated_trans|done|by apply Hs2, Hs1| | |congruence].
  - transitivity (svc v1 app).
    + eapply step_svc_spare; [exact Hs2|]. intros [_ E]. by apply (f_equal snd), service_name_neq_headless in E.
    + eapply step_svc_spare; [exact Hs1|]. by intros [? _].
  - transitivity (the_ing v1 ns ingressName);
      (eapply step_ing_spare; [eassumption|]); by intros [? _].
Qed.

(** The service of a deployed application goes, with a message. *)
Lemma delete_service app v sv l rs
    (Q : outcome (result unit) → Obs * list (M S (result unit)) * list (outcome (result unit)) → Prop) :
  healthy v = true → svc v app = Some sv →
  decodeRoutes (svc_annotation sv RegisteredRoutes) = Ok l →
  (∀ v', step (only Services ns (GetInternalServiceName app)) v v' →
     sent v' = sent v ++ [unregistration app l] → Q (Ret (Ok tt)) (v', [], rs)) →
  wp (svc_Delete ns WorkChan app) Q (v, [], rs).
Proof.
  intros Hv Esv El HQ.
  apply wp_try, wp_alone. eapply healthy_get; [done|done|done|exact Esv|]. intros v1 Hs1 E1 Ec1.
  rewrite El. apply wp_try_pure, wp_bind, wp_alone, wp_send.
  apply wp_alone, healthy_delete; [by apply Hs1|done|done|cbn; rewrite Ec1; by eexists|].
  intros v2 Hs2 E2 _. apply HQ; [|by rewrite E2; simpl; rewrite E1].
  split; [|intros Hh; by apply Hs2, Hs1]. destruct Hs2 as [Ht _]. simpl in Ht. by rewrite Ec1 in Ht.
Qed.

(** A routed application is in the ingress. *)
Lemma routed_rules app a v :
  managed ns v → shows ns app a v → as_uris a ≠ [] → is_Some (the_ing v ns ingressName).
Proof.
  intros Hm (_ & _ & _ & rules & Er & Hp) Hne. apply (managed_listed _ _ Hm). intros E.
  rewrite E in Hp. apply Permutation_nil_l in Hp. subst rules.
  apply rules_for_length in Er. by destruct (as_uris a).
Qed.

Lemma stop_drops_routes_wp app a lrp v :
  healthy v = true → managed ns v → app ≠ "" → plain app → app ≠ lrp_Name lrp →
  shows ns app a v → as_uris a ≠ [] →
  other_rules (GetInternalServiceName app) (rules_in ns v) = [] → fresh_app lrp v →
  wp (run_command (S := Shared S) ns (CStop app))
    (λ o x, o = Ret (Ok tt) ∧ x.2 = replicate 4 (Ret (Ok tt)) ∧
       is_Some (the_sts x.1.1 ns (lrp_Name lrp)) ∧ is_Some (svc x.1.1 (lrp_Name lrp)) ∧
       the_ing x.1.1 ns ingressName = None)
    (v, [idle; idle; idle; run_command ns (CDesire lrp)], []).
Proof.
  intros Hv Hm Hn Hp Hne Hshow Huris Hothers Hfresh.
  destruct (routed_rules _ _ _ Hm Hshow Huris) as [i Ei].
  destruct (Hshow) as ((t & c & Et & _) & Hh & (sv & l & Esv & El & _) & _).
  apply wp_try, delete_instances; [done|done|done|by eexists|done|].
  intros v1 Hi1 Hm1 Hv1 Es1 Eing1 E1.
  apply wp_try, wp_try, wp_idle. eapply (healthy_get Ingresses); [done|done|done|exact (eq_trans Eing1 Ei)|].
  intros v2 Hs2 E2 Ec2.
  assert (rules_in ns v = ing_Rules i) as Er by (unfold rules_in; by rewrite Ei).
  cbv zeta. rewrite delete_rules_filter by (rewrite <- Er; apply Hm). apply wp_bind, wp_lift.
  rewrite <- Er, Hothers. cbn [length Nat.eqb].
  assert (managed ns v2) as Hm2 by by apply (quiet_managed ns v1).
  assert (isolated ns app v v2) as Hi2.
  { eapply isolated_trans; [done|]. apply isolated_quiet_service; [by eapply step_mono|done]. }
  assert (fresh_app lrp v2) as Hfresh2.
  { destruct Hfresh as [(B1 & B2 & B3 & B4) Hpl ????]. split; [|done..].
    destruct (isolated_frame ns app (lrp_Name lrp) v v2) as (F1 & F2 & F3 & F4); [done..|].
    unfold absent. rewrite F1, F2, F3. split_and!; [done..|]. rewrite B4 in F4.
    by apply Permutation_nil_r in F4. }
  apply wp_after, desire_fresh; [by apply Hs2|done|done|]. intros v3 Hi3 Hm3 Hall Hing3.
  assert (healthy v3 = true) as Hv3 by by apply Hi3, Hs2.
  apply (healthy_delete Ingresses); [done|done|done|done|]. intros v4 Hs4 E4 Hno4.
  apply (delete_service app v4 sv l); [by apply Hs4| |done|].
  { erewrite (step_svc_spare _ _ _ _ Hs4) by by intros [? _].
    destruct (isolated_frame ns (lrp_Name lrp) app v2 v3) as (_ & _ & -> & _);
      [done|apply Hfresh|done|done|]. rewrite Ec2, Es1. exact Esv. }
  intros v5 Hs5 E5. cbn [fst snd]. split_and!; [done|done| | |].
  - erewrite (step_sts_spare _ _ _ _ Hs5) by by intros [? _].
    erewrite (step_sts_spare _ _ _ _ Hs4) by by intros [? _].
    destruct Hall as ((x & Ex & _) & _). exists x. exact Ex.
  - erewrite (step_svc_spare _ _ _ _ Hs5).
    2:{ intros [_ E]. apply (f_equal snd) in E. cbn [snd] in E. apply (inj _) in E. congruence. }
    erewrite (step_svc_spare _ _ _ _ Hs4) by by intros [? _].
    destruct Hall as (_ & _ & (x & Ex & _) & _). exists x. exact Ex.
  - erewrite (step_ing_spare _ _ _ _ Hs5) by by intros [? _]. exact Hno4.
Qed.

Abbreviation instances := (@NewStatefulSetManager (Shared S) _ _ _ ns).

(** Whether the application is there, by one more call. *)
Lemma ask_exists app v others' others rs rs'
    (Q : outcome (result bool) → Obs * list (M S (result unit)) * list (outcome (result unit)) → Prop) :
  others' = idle :: others ∧ rs' = rs ++ [Ret (Ok tt)] ∨ others' = [] ∧ others = [] ∧ rs' = rs →
  healthy v = true → managed ns v → label_value app = true →
  (∀ v', step (λ _ _, False) v v' → sent v' = sent v → cluster v' = cluster v →
     Q (Ret (Ok (bool_decide (is_Some (the_sts v ns app))))) (v', others, rs')) →
  wp (im_Exists instances app) Q (v, others', rs).
Proof.
  intros Hothers Hv Hm Hlab HQ.
  assert (wp (kube_list StatefulSets ns ("name=" +:+ app)) (λ o v', ∃ l, o = Ret (Ok l) ∧
    step (λ _ _, False) v v' ∧ sent v' = sent v ∧ cluster v' = cluster v ∧
    (0 <? length l)%nat = bool_decide (is_Some (the_sts v ns app))) v) as Hl.
  { apply wp_list. intros r v' Hl. pose proof (list_step _ _ _ _ _ _ (λ _ _, False) Hl).
    destruct Hl as ([[? _] _] & ? & ? & [= <-] & Hl). destruct r as [l|e].
    - exists l. split_and!; [done..|]. apply exists_answer; [apply Hm|].
      apply (Hl ns_ok (SelName app)). by apply parse_name_selector.
    - destruct (Hl Hv) as [?|Hsel]; [done|]. by rewrite (parse_name_selector _ Hlab) in Hsel. }
  apply wp_try. destruct Hothers as [[-> ->]|(-> & -> & ->)]; [apply wp_idle|apply wp_alone];
    (eapply wp_mono; [exact Hl|]); intros o v' (l & -> & ? & ? & ? & ->); apply wp_ret; by apply HQ.
Qed.

(** The objects of a fresh application are made, up to the ingress. *)
Lemma create_objects lrp v others rs
    (Q : outcome (result unit) → Obs * list (M S (result unit)) * list (outcome (result unit)) → Prop) k :
  healthy v = true → managed ns v → fresh_app lrp v →
  (∀ v', isolated ns (lrp_Name lrp) v v' → managed ns v' → healthy v' = true →
     rules_in ns v' = rules_in ns v → the_ing v' ns ingressName = the_ing v ns ingressName →
     is_Some (the_sts v' ns (lrp_Name lrp)) → is_Some (svc v' (lrp_Name lrp)) →
     wp k Q (v', others, rs ++ replicate 4 (Ret (Ok tt)))) →
  wp (_ <-! im_Create instances lrp; _ <-! svc_Create ns WorkChan lrp; k) Q
    (v, idle :: idle :: idle :: idle :: others, rs).
Proof.
  intros Hv Hm [(Hsts & Hh & Hsvc & _) _ Hn [Hmeta Hlab] Hval _] HQ.
  set (app := lrp_Name lrp) in *.
  apply wp_try, wp_try, wp_idle, healthy_create; [done|by split_and!; [| |left]|done|done|].
  intros t v1 Hs1 E1 Ht1 Et1. change (name_of StatefulSets _) with app in Hs1, Et1.
  destruct (statefulset_harmless ns app v v1) as [Hi1 Hm1]; [done..| |].
  { right; right. exists t. split; [exact Et1|by eapply the_set_sane]. }
  apply wp_try, wp_idle, healthy_create; [by apply Hs1|by split_and!; [| |left]|done| |].
  { etransitivity; [|exact Hh]. eapply step_svc_spare; [exact Hs1|]. by intros [? _]. }
  intros h v2 Hs2 E2 _ _. apply wp_ret.
  change (name_of Services _) with (GetInternalHeadlessServiceName app) in Hs2.
  destruct (headless_harmless ns app v1 v2) as [Hi2 Hm2]; [done..|].
  apply wp_try, wp_try, wp_idle, healthy_create; [by apply Hs2, Hs1|by split_and!; [| |left]|done| |].
  { etransitivity; [|exact Hsvc]. etransitivity.
    - eapply step_svc_spare; [exact Hs2|]. intros [_ E].
      by apply (f_equal snd), service_name_neq_headless in E.
    - eapply step_svc_spare; [exact Hs1|]. by intros [? _]. }
  intros sv v3 Hs3 E3 Hst3 Esv3.
  change (name_of Services (toService lrp)) with (GetInternalServiceName app) in Hs3, Esv3.
  destruct (service_harmless ns app v2 v3) as [Hi3 Hm3]; [done..|].
  rewrite (svc_annotation_stored _ _ _ _ Hst3), toService_annotation.
  unfold routes_valid, uris_of in Hval.
  destruct (decodeRoutes (gomap_get (lrp_Metadata lrp) VcapAppUris)) as [l|e]; [|done].
  apply wp_try_pure, wp_bind, wp_idle, wp_send, wp_ret. rewrite <- !app_assoc.
  assert (isolated ns app v v3) as Hi by (eapply isolated_trans; [done|by eapply isolated_trans]).
  apply HQ.
  - eapply isolated_trans; [exact Hi|]. eapply (isolated_service _ _ _ _ [_]);
      [by apply step_same|done|]. repeat constructor. exact (stored_name _ _ _ _ Hst3).
  - by apply (quiet_managed ns v3).
  - by apply Hs3, Hs2, Hs1.
  - transitivity (rules_in ns v2); [|transitivity (rules_in ns v1)];
      (eapply rules_spare; [eassumption|]); by intros ? [? _].
  - transitivity (the_ing v2 ns ingressName); [|transitivity (the_ing v1 ns ingressName)];
      (eapply step_ing_spare; [eassumption|]); by intros [? _].
  - exists t. etransitivity; [|exact Et1]. transitivity (the_sts v2 ns app);
      (eapply step_sts_spare; [eassumption|]); by intros [? _].
  - exists sv. exact Esv3.
Qed.

(** The two commands after which an application has no route. *)
Definition desire_twice (lrp : LRP) : M (Shared S) (result unit * result unit) :=
  r1 ← run_command ns (CDesire lrp); r2 ← run_command ns (CDesire lrp); mret (r1, r2).

(** The call that lists the ingresses, when there is none. *)
Lemma update_no_ingress lrp v others rs rules
    (Q : outcome (result unit) → Obs * list (M S (result unit)) * list (outcome (result unit)) → Prop) :
  healthy v = true → the_ing v ns ingressName = None → decoded_uris lrp ≠ [] →
  rules_for (lrp_Name lrp) (decoded_uris lrp) = Ok rules →
  (∀ v' ing, cluster v' = cluster v → sent v' = sent v → healthy v' = true →
     name_of Ingresses ing = ingressName →
     wp (_ <-! kube_create Ingresses ns ing; mret (Ok tt)) Q
       (v', others, rs ++ [Ret (Ok tt)])) →
  wp (ing_Update ns lrp) Q (v, idle :: others, rs).
Proof.
  intros Hv Hing Hne Hrules HQ. unfold ing_Update, decoded_uris, decodeRoutes, uris_of in *.
  destruct (unmarshal_strings (gomap_get (lrp_Metadata lrp) VcapAppUris)) as [uris|e]; [|done].
  apply wp_try, wp_idle, wp_wf. intros Hwf. apply wp_list. intros r v1 Hl.
  destruct Hl as ([[Hs _] Hh] & Ec & ? & [= <-] & Hl). destruct r as [l|e].
  2:{ destruct (Hl Hv); done. }
  rewrite (getIngress_listed ns v l) by eauto. rewrite Hing. unfold createIngress.
  destruct (elems uris) as [|u us] eqn:Eu; [done|]. cbn [length Nat.eqb].
  set (i0 := {| ing_Rules := [] |}).
  pose proof (updateSpec_spec i0 (lrp_Name lrp) (u :: us) (Forall_nil_2 _)) as Hspec.
  rewrite Hrules in Hspec. destruct Hspec as (k & -> & _).
  apply wp_try_pure, wp_bind, wp_lift. by apply HQ; [|auto..].
Qed.

Lemma fresh_same lrp v v' : cluster v' = cluster v → fresh_app lrp v → fresh_app lrp v'.
Proof.
  intros E [Ha]. split; [|done..]. unfold absent, rules_in in *. by rewrite E.
Qed.

Lemma fresh_isolated lrp app v v' :
  isolated ns app v v' → plain app → app ≠ lrp_Name lrp → fresh_app lrp v → fresh_app lrp v'.
Proof.
  intros Hi Hp Hne [(B1 & B2 & B3 & B4) Hpl ????]. split; [|done..].
  destruct (isolated_frame ns app (lrp_Name lrp) v v') as (F1 & F2 & F3 & F4); [done..|].
  unfold absent. rewrite F1, F2, F3. split_and!; [done..|]. rewrite B4 in F4.
  by apply Permutation_nil_r in F4.
Qed.

Lemma desire_loses_routes_wp lrp lrp' v :
  healthy v = true → managed ns v → the_ing v ns ingressName = None →
  fresh_app lrp v → fresh_app lrp' v → lrp_Name lrp ≠ lrp_Name lrp' →
  wp (desire_twice lrp)
    (λ o x, (∃ e, o = Ret (Err e, Ok tt)) ∧ x.2 = replicate 7 (Ret (Ok tt)) ∧
       is_Some (the_sts x.1.1 ns (lrp_Name lrp)) ∧ is_Some (svc x.1.1 (lrp_Name lrp)) ∧
       rules_of (lrp_Name lrp) (rules_in ns x.1.1) = [])
    (v, replicate 6 idle ++ [run_command ns (CDesire lrp')], []).
Proof.
  intros Hv Hm Hing Hfresh Hfresh' Hne.
  destruct (Hfresh) as [(Hsts & _ & _ & Hnorules) Hp Hn [Hmeta Hlab] Hval Hrouted].
  destruct (Hfresh') as [_ Hp' _ _ _ _].
  apply wp_bind, wp_try. eapply ask_exists; [by left|done|done|done|].
  rewrite Hsts. intros v0 Hs0 E0 Ec0. cbn [bool_decide decide_rel option_eq_None_dec is_Some_dec].
  assert (fresh_app lrp' v0) as Hf' by by eapply fresh_same.
  apply create_objects; [by apply Hs0|by apply (quiet_managed ns v)|by eapply fresh_same|].
  intros v1 Hi1 Hm1 Hv1 Er1 Eing1 Hsts1 Hsvc1.
  assert (∃ rules, rules_for (lrp_Name lrp) (decoded_uris lrp) = Ok rules) as [rules Hrules].
  { unfold routes_valid, decoded_uris in *. destruct (decodeRoutes (uris_of lrp)) as [l|e]; [|done].
    simpl in Hval. destruct (rules_for (lrp_Name lrp) (elems l)); [eauto|done]. }
  eapply update_no_ingress; [done|by rewrite Eing1, Ec0|done|done|].
  intros v2 ing Ec2 E2 Hv2 Hname.
  apply wp_try, wp_after, desire_fresh; [done|by apply (quiet_managed ns v1)| |].
  { eapply fresh_same; [exact Ec2|]. by apply (fresh_isolated _ (lrp_Name lrp) v0 v1). }
  intros v3 Hi3 Hm3 _ Hing3.
  assert (healthy v3 = true) as Hv3 by by apply Hi3.
  apply healthy_taken; [done|by rewrite Hname|]. intros e v4 Hs4 E4 Ec4.
  destruct (isolated_frame ns (lrp_Name lrp') (lrp_Name lrp) v2 v3) as (F1 & F2 & F3 & F4);
    [done..|by apply not_eq_sym|].
  assert (is_Some (the_sts v4 ns (lrp_Name lrp))) as Hsts4 by by rewrite Ec4, F1, Ec2.
  apply wp_bind, wp_try. eapply ask_exists; [by right|by apply Hs4|by apply (quiet_managed ns v3)|done|].
  intros v5 Hs5 E5 Ec5. rewrite bool_decide_eq_true_2 by done. apply wp_ret, wp_ret.
  cbn [fst snd]. rewrite Ec5, Ec4. split_and!; [by eexists|done|by rewrite F1, Ec2|by rewrite F3, Ec2|].
  assert (rules_of (lrp_Name lrp) (rules_in ns v2) = []) as E.
  { unfold rules_in. rewrite Ec2, Eing1, Ec0, Hing. done. }
  rewrite E in F4. apply Permutation_nil_r in F4. unfold rules_in. rewrite Ec5, Ec4. exact F4.
Qed.

(** A deployed application stops, and says so to the router. *)
Lemma stop_deployed app a v (Q : outcome (result unit) → Obs → Prop) :
  healthy v = true → managed ns v → app ≠ "" → shows ns app a v → as_uris a ≠ [] →
  (∀ v' sv l, all_stopped ns app v v' → svc v app = Some sv →
     decodeRoutes (svc_annotation sv RegisteredRoutes) = Ok l → elems l = as_uris a →
     sent v' = sent v ++ [unregistration app l] → Q (Ret (Ok tt)) v') →
  wp (run_command ns (CStop app)) Q v.
Proof.
  intros Hv Hm Hn Hshow Huris HQ. destruct (routed_rules _ _ _ Hm Hshow Huris) as [i Ei].
  destruct Hshow as ((t & c & Et & _) & [h Eh] & (sv & l & Esv & El & Eu) & _).
  apply Stop_wp; [done..|]. intros [[]|e] v' (_ & _ & Hr).
  - destruct (Hr) as (_ & _ & _ & _ & _ & _ & sv' & l' & Esv' & _ & El' & Es).
    rewrite Esv in Esv'. injection Esv' as <-. rewrite El in El'. injection El' as <-.
    by eapply HQ.
  - exfalso. destruct (Hr Hv Hn) as [[? _]|[[_ ?]|[_ [?|Hbad]]]]; [congruence..|].
    specialize (Hbad sv Esv). by rewrite El in Hbad.
Qed.

Lemma stale_listing_wp app a v :
  healthy v = true → managed ns v → app ≠ "" → shows ns app a v → as_uris a ≠ [] →
  listed_name app →
  (∀ name s, the_svc v ns name = Some s → routable s →
     is_ok (decodeRoutes (svc_annotation s RegisteredRoutes)) = true) →
  wp (@collectRoutes (Shared S) (NewServiceRouteLister ns) _)
    (λ o x, o = Ret (Ok tt) ∧ x.2 = replicate 2 (Ret (Ok tt)) ∧
       the_sts x.1.1 ns app = None ∧ svc x.1.1 app = None ∧
       ∃ gone routes r, sent x.1.1 = sent v ++ [unregistration app gone; routes] ∧
         r ∈ routes ∧ rt_Name r = GetInternalServiceName app ∧
         elems gone = as_uris a ∧ elems (rt_Routes r) = as_uris a)
    (v, [idle; run_command ns (CStop app)], []).
Proof.
  intros Hv Hm Hn Hshow Huris Hname Hdec.
  apply wp_try, wp_try, wp_idle, wp_wf. intros Hwf. apply wp_list. intros r v1 Hl.
  destruct Hl as ([[Es _] Hh] & Ec & ? & [= <-] & Hl). destruct r as [l|e].
  2:{ destruct (Hl Hv); done. }
  specialize (Hl ns_ok SelAll eq_refl). apply wp_ret.
  pose proof (list_routes_loop_spec l []) as Hspec.
  assert (∀ s, s ∈ l ↔ ∃ name, the_svc v ns name = Some s) as Hin.
  { intros s. rewrite Hl, list_elem_of_filter, (elem_of_objs_in _ Services). naive_solver. }
  destruct (list_routes_loop l []) as [routes|e].
  2:{ exfalso. destruct Hspec as (s & [name Hs]%Hin & Hr & Hd). by rewrite (Hdec name s) in Hd. }
  destruct Hspec as (k & E & Hk). rewrite app_nil_l in E. subst k.
  assert (shows ns app a v1) as Hshow1.
  { unfold shows, rules_in in *. by rewrite Ec. }
  apply wp_bind, wp_after, (stop_deployed app a); [by auto|by apply (quiet_managed ns v)|done..|].
  intros v2 sv gone Hall Esv El Eu E2. apply wp_send, wp_ret. cbn [fst snd].
  destruct Hall as (_ & Hsts2 & _ & _ & _ & _ & sv' & l' & _ & Hsvc2 & _).
  split_and!; [done|done|exact Hsts2|exact Hsvc2|].
  rewrite Ec in Esv. destruct (Hwf Services _ _ _ Esv) as [_ Hsvname].
  assert (sv ∈ filter routable l) as Hsv.
  { apply list_elem_of_filter. split; [|apply Hin; eauto]. unfold routable.
    change (om_Name (svc_meta sv)) with (name_of Services sv). by rewrite Hsvname. }
  apply list_elem_of_lookup in Hsv as [j Hj].
  destruct (Forall2_lookup_l _ _ _ _ _ Hk Hj) as (r & Hr & Hd & _ & Hrn).
  exists gone, routes, r. split_and!; [|by eapply list_elem_of_lookup_2| |done|].
  - cbn. by rewrite E2, Es, <- app_assoc.
  - by rewrite Hrn.
  - rewrite El in Hd. injection Hd as <-. done.
Qed.
End Races.

(** ** The properties *)
Section Properties.
Context {S : Type} `{!KubeClient S, !RoutesChan S, !Observed S Obs, !KubeLaws S,
  !UrlLib, !MapRange}.
Context (ns : string) (ns_ok : ns ≠ "").

(** C11: an application with routes is desired while the only other routed
    application is being stopped, between the call that reads the ingress and
    the call that deletes it.  Both requests answer [nil]; the new application
    runs and has its service, but the ingress with its rules is gone. *)
Theorem stop_drops_routes app a lrp (s : S) :
  let v := view s in
  good s → healthy v = true → managed ns v → app ≠ "" → plain app → app ≠ lrp_Name lrp →
  shows ns app a v → as_uris a ≠ [] →
  other_rules (GetInternalServiceName app) (rules_in ns v) = [] → fresh_app ns lrp v →
  let out := run_command ns (CStop app)
               (among [idle; idle; idle; run_command ns (CDesire lrp)] s) in
  let v' := view (sh_now out.2) in
  out.1 = Ret (Ok tt) ∧ sh_answers out.2 = replicate 4 (Ret (Ok tt)) ∧
  is_Some (the_sts v' ns (lrp_Name lrp)) ∧
  is_Some (the_svc v' ns (GetInternalServiceName (lrp_Name lrp))) ∧
  the_ing v' ns ingressName = None.
Proof.
  intros v Hg Hv Hm Hn Hp Hne Hshow Huris Hothers Hfresh.
  by destruct (stop_drops_routes_wp ns ns_ok app a lrp v Hv Hm Hn Hp Hne Hshow Huris Hothers Hfresh
    (among _ s) Hg eq_refl) as [_ ?].
Qed.

(** C12: two applications with routes are desired in a namespace without an
    ingress.  If the one makes the ingress between the call by which the other
    looks for it and the call by which it would make it, the other fails; and
    desired again it answers [nil] and has no rule: it is never routed. *)
Theorem desire_loses_routes lrp lrp' (s : S) :
  let v := view s in
  good s → healthy v = true → managed ns v → the_ing v ns ingressName = None →
  fresh_app ns lrp v → fresh_app ns lrp' v → lrp_Name lrp ≠ lrp_Name lrp' →
  let out := desire_twice ns lrp
               (among (replicate 6 idle ++ [run_command ns (CDesire lrp')]) s) in
  let v' := view (sh_now out.2) in
  (∃ e, out.1 = Ret (Err e, Ok tt)) ∧ sh_answers out.2 = replicate 7 (Ret (Ok tt)) ∧
  is_Some (the_sts v' ns (lrp_Name lrp)) ∧
  is_Some (the_svc v' ns (GetInternalServiceName (lrp_Name lrp))) ∧
  rules_of (lrp_Name lrp) (rules_in ns v') = [].
Proof.
  intros v Hg Hv Hm Hing Hf Hf' Hne.
  by destruct (desire_loses_routes_wp ns ns_ok lrp lrp' v Hv Hm Hing Hf Hf' Hne
    (among _ s) Hg eq_refl) as [_ ?].
Qed.

(** C13: an application is stopped while the collector is between its listing
    and its send.  The emitter is handed the unregistration of the routes
    first and then their registration, for an application that is gone. *)
Theorem stale_listing app a (s : S) :
  let v := view s in
  good s → healthy v = true → managed ns v → app ≠ "" → shows ns app a v → as_uris a ≠ [] →
  listed_name app →
  (∀ name sv, the_svc v ns name = Some sv → routable sv →
     is_ok (decodeRoutes (svc_annotation sv RegisteredRoutes)) = true) →
  let out := @collectRoutes (Shared S) (NewServiceRouteLister ns) _
               (among [idle; run_command ns (CStop app)] s) in
  let v' := view (sh_now out.2) in
  out.1 = Ret (Ok tt) ∧ sh_answers out.2 = replicate 2 (Ret (Ok tt)) ∧
  the_sts v' ns app = None ∧ the_svc v' ns (GetInternalServiceName app) = None ∧
  ∃ gone routes r, sent v' = sent v ++ [unregistration app gone; routes] ∧
    r ∈ routes ∧ rt_Name r = GetInternalServiceName app ∧
    elems gone = as_uris a ∧ elems (rt_Routes r) = as_uris a.
Proof.
  intros v Hg Hv Hm Hn Hshow Huris Hname Hdec.
  by destruct (stale_listing_wp ns ns_ok app a v Hv Hm Hn Hshow Huris Hname Hdec
    (among _ s) Hg eq_refl) as [_ ?].
Qed.
End Properties.

(** ** Instances of the properties *)
Section Witnesses.
#[local] Existing Instance sample_urls.
#[local] Existing Instance range_in_order.

Definition dora_state : AppState :=
  first_state dora (decoded_uris dora).

Lemma desire_dora_allowed : all_allowed [CDesire dora] ∅.
Proof.
  split; [|done]. split; [by apply plain_check|]. split; [done|]. split; [apply usable_dora|by vm_compute].
Qed.

Lemma with_dora_represents :
  represents "opi" (view (with_app dora)) {[ "dora-guid" := dora_state ]}.
Proof.
  assert (healthy (view fresh_server) = true) as Hv by done.
  destruct (run_commands_wp "opi" ltac:(done) [CDesire dora] (view fresh_server) ∅
    (λ _ v', represents "opi" v' {[ "dora-guid" := dora_state ]}) Hv fresh_managed
    fresh_represents desire_dora_allowed) with (s := fresh_server) as [_ Hr]; [|apply fresh_good|done|].
  - intros rs v' _ Hrep _ _. exact Hrep.
  - assert ((run_commands "opi" [CDesire dora] fresh_server).2 = with_app dora) as E
      by by vm_compute.
    by rewrite E in Hr.
Qed.

Lemma fresh_sample name uris v m :
  represents "opi" v m → m !! name = None → plain name → name ≠ "" →
  label_value name = true → routes_valid (sample_lrp name uris) = true →
  decoded_uris (sample_lrp name uris) ≠ [] → fresh_app "opi" (sample_lrp name uris) v.
Proof.
  intros Hrep Hm Hp Hn Hl Hv Hd. specialize (Hrep name Hp). rewrite Hm in Hrep.
  split; [done..|split; [apply sample_has_metadata|done]|done|done].
Qed.

Definition blog : LRP := sample_lrp "blog-guid" ["blog.example.com"].

Lemma blog_fresh v m :
  represents "opi" v m → m !! "blog-guid" = None → fresh_app "opi" blog v.
Proof.
  intros Hrep Hm. eapply fresh_sample; [done|done|by apply plain_check|done|by vm_compute..|].
  by vm_compute.
Qed.

Lemma stop_drops_routes_witness :
  let out := run_command "opi" (CStop "dora-guid")
    (among [idle; idle; idle; run_command "opi" (CDesire blog)] (with_app dora)) in
  out.1 = Ret (Ok tt) ∧ the_ing (view (sh_now out.2)) "opi" ingressName = None.
Proof.
  intros out. destruct (with_app_good dora usable_dora) as [Hg Hm].
  pose proof (with_dora_represents "dora-guid" ltac:(by apply plain_check)) as Hshow.
  rewrite lookup_singleton_eq in Hshow.
  assert (other_rules (GetInternalServiceName "dora-guid") (rules_in "opi" (view (with_app dora))) = [])
    as Hothers by by vm_compute.
  assert (fresh_app "opi" blog (view (with_app dora))) as Hfresh
    by by apply (blog_fresh _ _ with_dora_represents).
  assert (healthy (view (with_app dora)) = true) as Hv by by vm_compute.
  assert (as_uris dora_state ≠ []) as Huris by by vm_compute.
  destruct (stop_drops_routes "opi" ltac:(done) "dora-guid" dora_state blog (with_app dora) Hg Hv Hm
    ltac:(done) ltac:(by apply plain_check) ltac:(done) Hshow Huris Hothers Hfresh)
    as (H1 & _ & _ & _ & H2).
  split; [exact H1|exact H2].
Defined.

Lemma dora_fresh v : represents "opi" v ∅ → fresh_app "opi" dora v.
Proof.
  intros Hrep. specialize (Hrep "dora-guid" ltac:(by apply plain_check)).
  rewrite lookup_empty in Hrep.
  split; [done|by apply plain_check|done|apply usable_dora|by vm_compute|by vm_compute].
Qed.

Lemma desire_loses_routes_witness :
  let out := desire_twice "opi" dora
    (among (replicate 6 idle ++ [run_command "opi" (CDesire blog)]) fresh_server) in
  (∃ e, out.1 = Ret (Err e, Ok tt)) ∧
  rules_of "dora-guid" (rules_in "opi" (view (sh_now out.2))) = [].
Proof.
  intros out. assert (healthy (view fresh_server) = true) as Hv by done.
  assert (the_ing (view fresh_server) "opi" ingressName = None) as Hing by done.
  assert (fresh_app "opi" blog (view fresh_server)) as Hblog
    by by apply (blog_fresh _ _ fresh_represents).
  destruct (desire_loses_routes "opi" ltac:(done) dora blog fresh_server fresh_good Hv
    fresh_managed Hing (dora_fresh _ fresh_represents) Hblog ltac:(done)) as (H1 & _ & _ & _ & H2).
  split; [exact H1|exact H2].
Defined.

(** The only service that is listed is that of the application. *)
Lemma dora_decodes name sv :
  the_svc (view (with_app dora)) "opi" name = Some sv → routable sv →
  is_ok (decodeRoutes (svc_annotation sv RegisteredRoutes)) = true.
Proof.
  intros E Hr.
  assert (map_Forall (λ _ s, routable s →
    is_ok (decodeRoutes (svc_annotation s RegisteredRoutes)) = true)
    (cl_svc (cluster (view (with_app dora))))) as Hall.
  { refine (bool_decide_unpack _ _). vm_compute. exact I. }
  by apply (Hall _ _ E).
Qed.

Lemma stale_listing_witness :
  let out := @collectRoutes (Shared Server) (NewServiceRouteLister "opi") _
    (among [idle; run_command "opi" (CStop "dora-guid")] (with_app dora)) in
  out.1 = Ret (Ok tt) ∧
  the_svc (view (sh_now out.2)) "opi" (GetInternalServiceName "dora-guid") = None ∧
  length (sent (view (sh_now out.2))) = 3%nat.
Proof.
  intros out. destruct (with_app_good dora usable_dora) as [Hg Hm].
  pose proof (with_dora_represents "dora-guid" ltac:(by apply plain_check)) as Hshow.
  rewrite lookup_singleton_eq in Hshow.
  assert (healthy (view (with_app dora)) = true) as Hv by by vm_compute.
  assert (as_uris dora_state ≠ []) as Huris by by vm_compute.
  assert (listed_name "dora-guid") as Hname by (split; reflexivity).
  destruct (stale_listing "opi" ltac:(done) "dora-guid" dora_state (with_app dora) Hg Hv Hm
    ltac:(done) Hshow Huris Hname dora_decodes)
    as (H1 & _ & _ & H2 & gone & routes & r & H3 & _).
  split; [exact H1|]. split; [exact H2|].
  refine (eq_trans (f_equal length H3) _). rewrite length_app. by vm_compute.
Defined.
End Witnesses.
