(* ===== verification/Announce.v ===== *)
(** * Routes are announced again and again

    The router forgets a route that is not registered again in time, so that
    what counts is not one message but that they never stop.  The collector,
    the emitter and whoever else uses the API server and the channel are a step
    relation here; of its fair runs it is proved that the routes of a running
    application are published time after time. *)

From stdpp Require Import base gmap strings list.
From Stdlib Require Import Lia.
From S2P Require Import Prelude Json Opi Messages Kube Service StatefulSet Ingress Fixtures Desirer Routes.

(** ** Runs *)

(** What holds goes on holding until something happens. *)
Lemma until (P Q : nat → Prop) m k :
  (∀ i, P i → Q i ∨ P (S i)) → P m → (m ≤ k)%nat →
  (∃ j, (m ≤ j < k)%nat ∧ P j ∧ Q j) ∨ P k.
Proof.
  intros Hstep Hm Hle. induction Hle as [|k Hle IH]; [by right|].
  destruct IH as [(j & ? & ?)|HP]; [left; exists j; split; [lia|done]|].
  destruct (Hstep k HP); [left; exists k; split; [lia|done]|by right].
Qed.

Section Daemon.
Context {S C : Type} `{!KubeClient S, !RoutesChan S, !Observed S Obs, !KubeLaws S}.
Context `{!Publisher C, !Observed C (list (string * string)), !PublisherLaws C}.
Context (e : Emitter) (ns : string).

(** The goroutine of the collector: between two ticks, after its listing, or
    waiting for the emitter to take the batch that was the [i]-th sent. *)
Inductive collecting := Idle | Sending (routes : list Routes) | Blocked (i : nat).

(** What is sent on the channel waits in the order in which it came. *)
Record daemon := {
  api : S;                (* the API server, and all batches sent so far *)
  taken : nat;            (* how many of them the emitter took *)
  collector : collecting;
  nats : C                (* the connection of the emitter *)
}.

Definition offered (d : daemon) : list (list Routes) := sent (view (api d)).
Definition tried (d : daemon) : list (string * string) := view (nats d).

(** The collector goes on when its batch was taken. *)
Definition released (i : nat) (c : collecting) : collecting :=
  match c with Blocked j => if (j =? i)%nat then Idle else Blocked j | _ => c end.

(** Who makes the step: the handlers of requests, the collector, the emitter. *)
Inductive actor := Others | Collects | Emits.

Inductive dstep : actor → daemon → daemon → Prop :=
  | others_step d s' :
      good s' → offered d `prefix_of` sent (view s') →
      dstep Others d {| api := s'; taken := taken d; collector := collector d; nats := nats d |}
  | list_step d r s' :
      collector d = Idle →
      @lister_ListRoutes S (NewServiceRouteLister ns) (api d) = (Ret r, s') →
      dstep Collects d {| api := s'; taken := taken d;
        collector := match r with Ok routes => Sending routes | Err _ => Idle end;
        nats := nats d |}
  | send_step d routes s' :
      collector d = Sending routes →
      chan_send routes (api d) = (Ret tt, s') →
      dstep Collects d {| api := s'; taken := taken d;
        collector := Blocked (length (offered d)); nats := nats d |}
  | take_step d batch c' :
      offered d !! taken d = Some batch →
      emit e batch (nats d) = (Ret tt, c') →
      dstep Emits d {| api := api d; taken := Datatypes.S (taken d);
        collector := released (taken d) (collector d); nats := c' |}.

(** Left alone, the two steps of the collector are [collectRoutes]. *)
Lemma collector_steps d s' :
  collector d = Idle → @collectRoutes S (NewServiceRouteLister ns) _ (api d) = (Ret (Ok tt), s') →
  ∃ d1 d2, dstep Collects d d1 ∧ dstep Collects d1 d2 ∧ api d2 = s'.
Proof.
  intros Hc E. apply try_bind_ok in E as (routes & s1 & E1 & E2).
  unfold mbind, M_bind in E2. destruct (chan_send routes s1) as [[[]| |] s2] eqn:E3; [|done..].
  injection E2 as <-. eexists _, _. split; [by eapply (list_step d (Ok routes))|].
  split; [by eapply send_step|done].
Qed.

(** *** What every run keeps *)
Record daemon_inv (v0 : list (string * string)) (d : daemon) : Prop := {
  dinv_api : good (api d);
  dinv_nats : good (nats d);
  dinv_taken : (taken d ≤ length (offered d))%nat;
  dinv_tried : tried d = v0 ++ concat (messages_of e <$> take (taken d) (offered d));
  dinv_blocked : ∀ i, collector d = Blocked i → (taken d ≤ i < length (offered d))%nat
}.

(** The emitter has not taken anything yet. *)
Definition starts (d : daemon) : Prop :=
  good (api d) ∧ good (nats d) ∧ taken d = O ∧ collector d = Idle.

Lemma starts_inv d : starts d → daemon_inv (tried d) d.
Proof.
  intros (Ha & Hn & Ht & Hc). split; try done; rewrite ?Ht, ?Hc; [lia| |done].
  by rewrite app_nil_r.
Qed.

Lemma listed_step d r s' :
  ns ≠ "" → good (api d) → @lister_ListRoutes S (NewServiceRouteLister ns) (api d) = (Ret r, s') →
  good s' ∧ listing ns (view (api d)) r (view s').
Proof.
  intros Hns Hg E. destruct (ListRoutes_wp ns Hns (view (api d))
    (λ o v', ∃ r, o = Ret r ∧ listing ns (view (api d)) r v')) with (s := api d) as [Hg' HQ];
    [by eauto|done..|].
  cbn [lister_ListRoutes NewServiceRouteLister] in E. rewrite E in Hg', HQ. cbn [fst snd] in *.
  by destruct HQ as (r' & [= <-] & HQ).
Qed.

Lemma sent_step d routes s' :
  good (api d) → chan_send routes (api d) = (Ret tt, s') →
  good s' ∧ sent (view s') = sent (view (api d)) ++ [routes].
Proof.
  intros Hg E. destruct (wp_send (S' := S) routes
    (λ o v', v' = send_batch routes (view (api d))) (view (api d)) eq_refl (api d) Hg eq_refl)
    as [Hg' HQ].
  rewrite E in Hg', HQ. cbn [fst snd] in *. by rewrite HQ.
Qed.

Lemma take_prefix {A} (n : nat) (l k : list A) : (n ≤ length l)%nat → l `prefix_of` k → take n k = take n l.
Proof. intros Hn [z ->]. rewrite take_app_le; done. Qed.

Lemma dstep_inv a v0 d d' : ns ≠ "" → daemon_inv v0 d → dstep a d d' →
  daemon_inv v0 d' ∧ offered d `prefix_of` offered d'.
Proof.
  intros Hns Hinv Hst.
  destruct Hst as [d0 s' Hg Hp|d0 r s' Hc E|d0 routes s' Hc E|d0 batch c' Hi E];
    destruct Hinv as [Ha Hn Ht Hv Hb].
  - split; [|done]. apply prefix_length in Hp as Hl.
    split; unfold offered in *; cbn [api taken collector nats] in *; [done..|lia| |].
    + by rewrite (take_prefix _ (sent (view (api d0)))).
    + intros i Hi. apply Hb in Hi. lia.
  - apply listed_step in E as (Hg & _ & Es & _); [|done..]. unfold offered in *. cbn [api].
    split; [|by rewrite Es]. split; unfold offered; cbn [api taken collector nats]; rewrite ?Es; try done. by destruct r.
  - apply sent_step in E as (Hg & Es); [|done]. unfold offered in *.
    split; [|cbn [api]; rewrite Es; by apply prefix_app_r].
    split; unfold offered; cbn [api taken collector nats]; rewrite ?Es, ?length_app; try done;
      [lia|by rewrite take_app_le|].
    intros i [= <-]. simpl. lia.
  - split; [|done]. destruct (emit_total e batch (nats d0) Hn) as (c2 & E2 & Hg2 & Hv2).
    rewrite E in E2. injection E2 as <-. apply lookup_lt_Some in Hi as Hlt.
    split; unfold offered, tried in *; cbn [api taken collector nats]; try done.
    + rewrite (take_S_r _ _ _ Hi), fmap_app, concat_app. simpl.
      by rewrite Hv2, Hv, app_nil_r, app_assoc.
    + intros i Hr. destruct (collector d0) as [|l|j] eqn:Ec; [done..|]. simpl in Hr.
      destruct (Nat.eqb_spec j (taken d0)) as [->|Hne]; [done|]. injection Hr as <-.
      specialize (Hb j eq_refl). lia.
Qed.

Lemma taken_step a d d' : dstep a d d' → (taken d ≤ taken d')%nat.
Proof. intros []; simpl; lia. Qed.

Lemma emits_step d d' : dstep Emits d d' → taken d' = Datatypes.S (taken d).
Proof. by inversion 1. Qed.
Lemma listing_step d d' : ns ≠ "" → good (api d) → collector d = Idle → dstep Collects d d' →
  ∃ r, listing ns (view (api d)) r (view (api d')) ∧
    ∀ routes, r = Ok routes → collector d' = Sending routes.
Proof.
  intros Hns Hg Hi Hs. inversion Hs as [|d0 r s' _ E|d0 routes s' Hd|]; subst; [|congruence].
  apply listed_step in E as [_ Hl]; [|done..]. exists r. split; [done|]. by intros routes ->.
Qed.

(** *** A service that is gone *)
Section Gone.
Context (ns_ok : ns ≠ "") (app : string).

Definition silent (batch : list Routes) : Prop :=
  Forall (λ r, rt_Name r ≠ GetInternalServiceName app) batch.

(** The service is not there, and nobody else announces it. *)
Definition gone (a : actor) (d d' : daemon) : Prop :=
  the_svc (view (api d)) ns (GetInternalServiceName app) = None ∧
  (a = Others → ∀ i batch, (length (offered d) ≤ i)%nat → offered d' !! i = Some batch → silent batch).

Lemma gone_listed v routes v' :
  cluster_wf (cluster v) → the_svc v ns (GetInternalServiceName app) = None →
  listing ns v (Ok routes) v' → silent routes.
Proof.
  intros Hwf Hno (_ & _ & _ & services & Hp & Hl).
  apply Forall_forall. intros r [j Hj]%list_elem_of_lookup Hn.
  destruct (Forall2_lookup_r _ _ _ _ _ Hl Hj) as (s & Hs & _ & _ & Hrn).
  apply list_elem_of_lookup_2, list_elem_of_filter in Hs as [_ Hs].
  rewrite Hp in Hs. apply (elem_of_objs_in _ Services) in Hs as [name Hs].
  destruct (Hwf Services _ _ _ Hs) as [_ Hsn].
  change (om_Name (svc_meta s)) with (name_of Services s) in Hrn. rewrite Hsn in Hrn.
  rewrite Hrn in Hn. subst name. by pose proof (eq_trans (eq_sym Hs) Hno).
Qed.

(** What was listed or sent since the channel held [from] batches is silent. *)
Definition hushed (from : nat) (d : daemon) : Prop :=
  (∀ routes, collector d = Sending routes → silent routes) ∧
  ∀ i batch, (from ≤ i)%nat → offered d !! i = Some batch → silent batch.

Lemma hushed_step a v0 from d d' :
  daemon_inv v0 d → gone a d d' → dstep a d d' → hushed from d → hushed from d'.
Proof.
  intros Hinv [Hno Hothers] Hs [Hc Hb].
  destruct Hs as [d s' Hg Hp|d r s' Hi E|d routes s' Hr E|d batch c' Hi E].
  - split; [done|]. intros i batch Hfrom Hl.
    destruct (decide (length (offered d) ≤ i)%nat); [by eapply Hothers|].
    apply (Hb i batch Hfrom). rewrite (prefix_lookup_lt (offered d) (sent (view s'))); [done|lia|done].
  - destruct (listed_step d r s') as (Hg & Hl); [done|apply Hinv|done|].
    split; unfold offered; cbn [api collector].
    + destruct r as [routes|]; [|done]. intros ? [= <-].
      by eapply gone_listed; [eapply kube_wf, Hinv| |].
    + by rewrite (proj1 (proj2 Hl)).
  - apply sent_step in E as [_ E]; [|apply Hinv]. split; [done|]. unfold offered. cbn [api].
    rewrite E. intros i batch Hfrom [Hl|[_ Hl]]%lookup_app_Some; [by eapply Hb|].
    apply list_lookup_singleton_Some in Hl as [_ <-]. by apply Hc.
  - split; [|done]. intros routes Hr. apply Hc. cbn [collector] in Hr.
    destruct (collector d) as [| |j]; [done..|]. simpl in Hr. by destruct (_ =? _)%nat.
Qed.
End Gone.

(** *** Fair runs *)
Section Runs.
Variables (run : nat → daemon) (who : nat → actor).

(** The tick comes again and again unless the collector waits, and the emitter
    receives again and again unless there is nothing to receive. *)
Record fair_run : Prop := {
  run_starts : starts (run 0);
  run_steps : ∀ n, dstep (who n) (run n) (run (Datatypes.S n));
  fair_collector : ∀ n, ∃ k, (n ≤ k)%nat ∧
    (who k = Collects ∨ ∃ i, collector (run k) = Blocked i);
  fair_emitter : ∀ n, ∃ k, (n ≤ k)%nat ∧
    (who k = Emits ∨ taken (run k) = length (offered (run k)))
}.

Context (ns_ok : ns ≠ "") (fair : fair_run).

Lemma run_inv n : daemon_inv (tried (run 0)) (run n).
Proof.
  induction n as [|n IH]; [apply starts_inv, fair|].
  eapply dstep_inv; [done|done|apply (run_steps fair)].
Qed.

Lemma offered_mono n k : (n ≤ k)%nat → offered (run n) `prefix_of` offered (run k).
Proof.
  induction 1 as [|k _ IH]; [done|]. etrans; [done|].
  eapply dstep_inv; [done|apply run_inv|apply (run_steps fair)].
Qed.

Lemma taken_mono n k : (n ≤ k)%nat → (taken (run n) ≤ taken (run k))%nat.
Proof.
  induction 1 as [|k _ IH]; [done|]. etrans; [done|]. eapply taken_step, (run_steps fair).
Qed.

(** Whatever is sent is taken. *)
Lemma taken_at_last i n :
  (i < length (offered (run n)))%nat → ∃ k, (n ≤ k)%nat ∧ (i < taken (run k))%nat.
Proof.
  remember (i - taken (run n))%nat as gap eqn:Eg. revert n Eg.
  induction (lt_wf gap) as [gap _ IH]. intros n -> Hi.
  destruct (decide (i < taken (run n))%nat); [by exists n|].
  destruct (fair_emitter fair n) as (k & Hk & [Hw|Hd]).
  - pose proof (run_steps fair k) as Hs. rewrite Hw in Hs. apply emits_step in Hs.
    pose proof (taken_mono _ _ Hk). 
    pose proof (prefix_length _ _ (offered_mono n (Datatypes.S k) ltac:(lia))).
    destruct (decide (i < taken (run (Datatypes.S k)))%nat);
      [exists (Datatypes.S k); split; [lia|done]|].
    edestruct (IH (i - taken (run (Datatypes.S k)))%nat) with (n := Datatypes.S k) as (k' & ? & ?);
      [lia|done|lia|]. exists k'. split; [lia|done].
  - exists k. split; [done|]. pose proof (prefix_length _ _ (offered_mono n k Hk)). lia.
Qed.

(** What was tried in between. *)
Lemma tried_between n k : (n ≤ k)%nat →
  tried (run k) = tried (run n) ++
    concat (messages_of e <$> drop (taken (run n)) (take (taken (run k)) (offered (run k)))).
Proof.
  intros Hk. destruct (run_inv n) as [_ _ Hl Ht _], (run_inv k) as [_ _ _ Ht' _].
  rewrite Ht, Ht', <- app_assoc, <- concat_app, <- fmap_app. do 3 f_equal.
  rewrite <- (take_drop (taken (run n)) (take (taken (run k)) (offered (run k)))) at 1.
  f_equal. rewrite take_take, min_l by by apply taken_mono.
  apply take_prefix; [done|by apply offered_mono].
Qed.

Lemma tried_later n m k msg : (n ≤ m)%nat → (m ≤ k)%nat →
  msg ∈ drop (length (tried (run m))) (tried (run k)) →
  msg ∈ drop (length (tried (run n))) (tried (run k)).
Proof.
  intros Hm Hk. rewrite (tried_between n m) by done. rewrite length_app, <- drop_drop.
  intros Hin. by apply subseteq_drop in Hin.
Qed.

Lemma blocked_step a d d' i :
  dstep a d d' → collector d = Blocked i → collector d' = Idle ∨ collector d' = Blocked i.
Proof.
  intros Hs Hc. destruct Hs; simpl; rewrite ?Hc; auto; try congruence.
  simpl. destruct (_ =? _)%nat; auto.
Qed.

Lemma collector_moves a d d' :
  dstep a d d' → collector d' = collector d ∨ a = Collects ∨ collector d' = Idle.
Proof.
  intros []; auto. simpl. destruct (collector d0) as [| |j]; auto. simpl.
  destruct (_ =? _)%nat; auto.
Qed.

Lemma collector_kept a d d' :
  dstep a d d' → (∀ i, collector d ≠ Blocked i) → a = Collects ∨ collector d' = collector d.
Proof.
  intros [] Hno; auto. right. simpl. destruct (collector d0) as [| |j]; [done..|].
  by destruct (Hno j).
Qed.

(** The collector never waits for ever. *)
Lemma blocked_ends n i :
  collector (run n) = Blocked i → ∃ k, (n ≤ k)%nat ∧ collector (run k) = Idle.
Proof.
  intros Hn. destruct (taken_at_last i n) as (k & Hk & Ht); [by apply (dinv_blocked _ _ (run_inv n))|].
  destruct (until (λ m, collector (run m) = Blocked i) (λ m, collector (run (Datatypes.S m)) = Idle)
    n k) as [(j & Hj & _ & Hd)|Hb]; [|done|done| |].
  - intros m Hm. eapply blocked_step; [apply (run_steps fair)|done].
  - exists (Datatypes.S j). split; [lia|done].
  - apply (dinv_blocked _ _ (run_inv k)) in Hb. lia.
Qed.

Lemma collects_again n : ∃ k, (n ≤ k)%nat ∧ who k = Collects.
Proof.
  assert (∃ m, (n ≤ m)%nat ∧ ∀ i, collector (run m) ≠ Blocked i) as (m & Hm & Hno).
  { destruct (collector (run n)) as [| |i] eqn:Ec; [exists n; split; [done|congruence]..|].
    destruct (blocked_ends n i Ec) as (k & ? & ?). exists k. split; [done|congruence]. }
  destruct (fair_collector fair m) as (k & Hk & [Hw|[i Hb]]); [exists k; split; [lia|done]|].
  destruct (until (λ j, ∀ i, collector (run j) ≠ Blocked i) (λ j, who j = Collects) m k)
    as [(j & Hj & _ & Hw)|Hn]; [|done|done|exists j; split; [lia|done]|by apply Hn in Hb].
  intros j Hj. destruct (collector_moves _ _ _ (run_steps fair j)) as [E|[E|E]];
    [right; by rewrite E|by left|right; by rewrite E].
Qed.

(** What it is about to do it does. *)
Lemma collects_then n c :
  collector (run n) = c → (∀ i, c ≠ Blocked i) →
  ∃ k, (n ≤ k)%nat ∧ who k = Collects ∧ collector (run k) = c.
Proof.
  intros Hc Hno. destruct (collects_again n) as (k & Hk & Hw).
  destruct (until (λ j, collector (run j) = c) (λ j, who j = Collects) n k)
    as [(j & Hj & Hj' & ?)|?]; [|done|done|exists j; split; [lia|done]|by exists k].
  intros j Hj. destruct (collector_kept _ _ _ (run_steps fair j)) as [E|E];
    [by rewrite Hj|by left|right; by rewrite E].
Qed.

Lemma lists_again n : ∃ k, (n ≤ k)%nat ∧ who k = Collects ∧ collector (run k) = Idle.
Proof.
  assert (∃ m, (n ≤ m)%nat ∧ collector (run m) = Idle) as (m & Hm & Hi).
  { destruct (collector (run n)) as [|routes|i] eqn:Ec; [by exists n| |by eapply blocked_ends].
    destruct (collects_then n _ Ec) as (k & Hk & Hw & Hk'); [done|].
    assert (collector (run (Datatypes.S k)) = Blocked (length (offered (run k)))) as Hb.
    { pose proof (run_steps fair k) as Hs. rewrite Hw in Hs. inversion Hs; subst; simpl; congruence. }
    destruct (blocked_ends _ _ Hb) as (j & ? & ?). exists j. split; [lia|done]. }
  destruct (collects_then m _ Hi) as (k & ? & ? & ?); [done|]. exists k. split; [lia|done].
Qed.

(** When a service has gone, its routes are not announced any more at last. *)
Lemma hushed_at_last app n :
  (∀ k, (n ≤ k)%nat → gone app (who k) (run k) (run (Datatypes.S k))) →
  ∃ from j, (n ≤ j)%nat ∧ (from ≤ taken (run j))%nat ∧ ∀ k, (j ≤ k)%nat → hushed app from (run k).
Proof.
  intros Hgone. destruct (lists_again n) as (m & Hm & _ & Hi).
  set (from := length (offered (run m))).
  assert (∀ k, (m ≤ k)%nat → hushed app from (run k)) as Hall.
  { induction 1 as [|k Hk IH].
    - split; [congruence|]. intros i batch Hfrom Hl%lookup_lt_Some. unfold from in *. lia.
    - eapply hushed_step; [done|apply run_inv|by apply Hgone; lia|apply (run_steps fair)|done]. }
  destruct (decide (from ≤ taken (run m))%nat); [by exists from, m|].
  destruct (taken_at_last (from - 1) m) as (j & Hj & Ht); [unfold from in *; lia|].
  exists from, j. split_and!; [lia|lia|]. intros k Hk. apply Hall. lia.
Qed.

(** A listing that succeeds is published. *)
Lemma listing_published n routes :
  collector (run n) = Sending routes →
  ∃ k, (n ≤ k)%nat ∧ ∀ msg, msg ∈ messages_of e routes → msg ∈ drop (length (tried (run n))) (tried (run k)).
Proof.
  intros Hc. destruct (collects_then n _ Hc) as (m & Hm & Hw & Hc'); [done|].
  pose proof (run_steps fair m) as Hs. rewrite Hw in Hs.
  assert (offered (run (Datatypes.S m)) = offered (run m) ++ [routes]) as Eo.
  { inversion Hs as [|d r s' Hd|d routes' s' Hd E|]; subst; [congruence|].
    rewrite Hc' in Hd. injection Hd as <-. apply sent_step in E as [_ E]; [done|apply run_inv]. }
  destruct (taken_at_last (length (offered (run m))) (Datatypes.S m)) as (k & Hk & Ht).
  { rewrite Eo, length_app. simpl. lia. }
  exists k. split; [lia|]. intros msg Hmsg. rewrite (tried_between n k), drop_app_length by lia.
  apply list_elem_of_In, in_concat. exists (messages_of e routes).
  split; [|by apply list_elem_of_In]. apply list_elem_of_In, list_elem_of_fmap. exists routes. split; [done|].
  apply list_elem_of_lookup. exists (length (offered (run m)) - taken (run n))%nat.
  pose proof (dinv_taken _ _ (run_inv m)). pose proof (taken_mono n m Hm).
  rewrite lookup_drop, lookup_take_lt by lia.
  eapply prefix_lookup_Some; [|by apply (offered_mono (Datatypes.S m))].
  rewrite Eo. apply list_lookup_middle. lia.
Qed.

(** The service of the application registers these routes, and no annotation
    keeps the lister from listing. *)
Definition routed (app : string) (uris : list string) (v : Obs) : Prop :=
  healthy v = true ∧
  (∃ s, the_svc v ns (GetInternalServiceName app) = Some s ∧
     decodeRoutes (svc_annotation s RegisteredRoutes) = Ok (Some uris)) ∧
  ∀ name s, the_svc v ns name = Some s → routable s →
    is_ok (decodeRoutes (svc_annotation s RegisteredRoutes)) = true.

Lemma routed_listed app uris v r v' :
  cluster_wf (cluster v) → listed_name app → routed app uris v → listing ns v r v' →
  ∃ routes, r = Ok routes ∧
    (uris ≠ [] → message e registerSubject (Some uris) (GetInternalServiceName app) ∈ messages_of e routes).
Proof.
  intros Hwf Hname (Hv & (s & Es & El) & Hdec) (_ & _ & _ & Hr). destruct r as [routes|err].
  2:{ destruct (Hr Hv) as (name & s' & Es' & Hs' & Hbad). by rewrite (Hdec name s') in Hbad. }
  exists routes. split; [done|]. intros Hne. destruct Hr as (services & Hp & Hl).
  destruct (Hwf Services _ _ _ Es) as [_ Hsn].
  assert (s ∈ filter routable services) as Hin.
  { apply list_elem_of_filter. split; [|rewrite Hp; apply (elem_of_objs_in _ Services); eauto].
    unfold routable. change (om_Name (svc_meta s)) with (name_of Services s). by rewrite Hsn. }
  apply list_elem_of_lookup in Hin as [j Hj].
  destruct (Forall2_lookup_l _ _ _ _ _ Hl Hj) as (r & Hrj & Hd & _ & Hrn).
  apply list_elem_of_In, in_concat. exists (messages_of_route e r).
  split; apply list_elem_of_In; [apply list_elem_of_fmap; exists r; split; [done|];
    by eapply list_elem_of_lookup_2|].
  unfold messages_of_route. rewrite El in Hd. injection Hd as <-. rewrite Hrn.
  change (om_Name (svc_meta s)) with (name_of Services s). rewrite Hsn.
  apply elem_of_app. left. destruct uris; [done|]. simpl. left.
Qed.

End Runs.
End Daemon.

(** ** The property *)

(** C19: in every fair run of the collector, the emitter and whoever else uses
    the API server and the channel: while the service of an application
    registers routes, and listings succeed, a message that registers just
    these routes is published again after every moment. *)
Theorem routes_announced {S C} `{KubeLaws S, PublisherLaws C} e ns
    (run : nat → daemon (S := S) (C := C)) who app uris n :
  ns ≠ "" → fair_run e ns run who → listed_name app → uris ≠ [] →
  (∀ k, (n ≤ k)%nat → routed ns app uris (view (api (run k)))) →
  ∀ k, (n ≤ k)%nat → ∃ j, (k ≤ j)%nat ∧
    message e registerSubject (Some uris) (GetInternalServiceName app) ∈
      drop (length (tried (run k))) (tried (run j)).
Proof.
  intros Hns Hfair Hname Hne Hrouted k Hk.
  destruct (lists_again e ns run who Hns Hfair k) as (m & Hm & Hw & Hc).
  pose proof (run_inv e ns run who Hns Hfair m) as Hinv.
  destruct (listing_step e ns (run m) (run (Datatypes.S m))) as (r & Hl & Hr);
    [done|apply Hinv|done|rewrite <- Hw; apply (run_steps _ _ _ _ Hfair)|].
  eapply routed_listed in Hl as (routes & -> & Hmsg); [|eapply kube_wf, Hinv|done|apply Hrouted; lia].
  destruct (listing_published e ns run who Hns Hfair (Datatypes.S m) routes) as (j & Hj & Hall);
    [by apply Hr|].
  exists j. split; [lia|].
  eapply (tried_later e ns run who Hns Hfair k (Datatypes.S m)); [lia..|]. by apply Hall, Hmsg.
Qed.

(** C20: in every fair run, once the service of an application has gone for good
    and nobody else announces it, there is a moment after which no batch that
    the emitter takes names it: what was listed or sent before does not come
    again. *)
Theorem routes_withdrawn {S C} `{KubeLaws S, PublisherLaws C} e ns
    (run : nat → daemon (S := S) (C := C)) who app n :
  ns ≠ "" → fair_run e ns run who →
  (∀ k, (n ≤ k)%nat → gone ns app (who k) (run k) (run (Datatypes.S k))) →
  ∃ j, (n ≤ j)%nat ∧ ∀ k batch, (j ≤ k)%nat → offered (run k) !! taken (run k) = Some batch →
    silent app batch.
Proof.
  intros Hns Hfair Hgone.
  destruct (hushed_at_last e ns run who Hns Hfair app n Hgone) as (from & j & Hj & Hfrom & Hall).
  exists j. split; [done|]. intros k batch Hk Hl. destruct (Hall k Hk) as [_ Hb].
  apply (Hb (taken (run k))); [|done]. etrans; [exact Hfrom|]. by eapply taken_mono.
Qed.

(** ** An instance: a run in which the three steps take turns *)

Inductive turn := ToList | ToSend | ToTake.

Fixpoint turns (n : nat) : nat * turn :=
  match n with
  | O => (O, ToList)
  | S n => match turns n with
           | (q, ToList) => (q, ToSend)
           | (q, ToSend) => (q, ToTake)
           | (q, ToTake) => (S q, ToList)
           end
  end.

Definition dora_batch : list Routes :=
  [{| rt_Routes := Some ["dora.example.com"; "dora.example.com/v2"];
      rt_UnregisteredRoutes := None; rt_Name := "cf-dora-guid" |}].

Definition server_after (q : nat) : Server :=
  {| srv_cluster := srv_cluster one_service; srv_revision := 1; srv_refusals := [];
     srv_sent := replicate q dora_batch |}.

Fixpoint broker_after (q : nat) : Broker :=
  match q with
  | O => {| br_tried := []; br_failures := [] |}
  | S q => (emit sample_emitter dora_batch (broker_after q)).2
  end.

Definition turning (n : nat) : daemon (S := Server) (C := Broker) :=
  match turns n with
  | (q, ToList) => {| api := server_after q; taken := q; collector := Idle; nats := broker_after q |}
  | (q, ToSend) => {| api := server_after q; taken := q; collector := Sending dora_batch;
                      nats := broker_after q |}
  | (q, ToTake) => {| api := server_after (S q); taken := q; collector := Blocked q;
                      nats := broker_after q |}
  end.

Definition who_turns (n : nat) : actor :=
  match turns n with (_, ToTake) => Emits | _ => Collects end.

Lemma server_after_good q : good (server_after q).
Proof. apply one_service_good. Qed.

Lemma server_after_S q : (chan_send dora_batch (server_after q)) = (Ret tt, server_after (S q)).
Proof. unfold server_after. cbn. by rewrite replicate_cons_app. Qed.

Lemma turning_steps n : dstep sample_emitter "opi" (who_turns n) (turning n) (turning (S n)).
Proof.
  unfold who_turns, turning. cbn [turns]. destruct (turns n) as [q []].
  - apply (list_step _ _ {| api := server_after q; taken := q; collector := Idle; nats := broker_after q |}
      (Ok dora_batch) (server_after q)); reflexivity.
  - pose proof (send_step sample_emitter "opi" {| api := server_after q; taken := q;
      collector := Sending dora_batch; nats := broker_after q |} dora_batch (server_after (S q))
      eq_refl (server_after_S q)) as Hs.
    unfold offered in Hs. cbn in Hs. by rewrite length_replicate in Hs.
  - pose proof (take_step sample_emitter "opi" {| api := server_after (S q); taken := q;
      collector := Blocked q; nats := broker_after q |} dora_batch (broker_after (S q))) as Hs.
    cbn [collector taken api nats released] in Hs. rewrite Nat.eqb_refl in Hs. apply Hs; [|reflexivity].
    unfold offered. cbn. rewrite replicate_cons_app. apply list_lookup_middle. by rewrite length_replicate.
Qed.

Lemma turning_again n : ∃ k, (n ≤ k)%nat ∧ who_turns k = Emits.
Proof.
  unfold who_turns. destruct (turns n) as [q []] eqn:E.
  - exists (S (S n)). split; [lia|]. simpl. by rewrite E.
  - exists (S n). split; [lia|]. simpl. by rewrite E.
  - exists n. by rewrite E.
Qed.

Lemma turning_fair : fair_run sample_emitter "opi" turning who_turns.
Proof.
  split.
  - split_and!; [apply server_after_good|done..].
  - apply turning_steps.
  - intros n. destruct (turning_again n) as (k & Hk & Hw). exists (S k). split; [lia|]. left.
    unfold who_turns in *. simpl. by destruct (turns k) as [q []].
  - intros n. destruct (turning_again n) as (k & Hk & Hw). exists k. split; [done|by left].
Qed.

Lemma turning_routed k :
  routed "opi" "dora-guid" ["dora.example.com"; "dora.example.com/v2"] (view (api (turning k))).
Proof.
  assert (∀ q, routed "opi" "dora-guid" ["dora.example.com"; "dora.example.com/v2"] (view (server_after q))) as Hr.
  { intros q. split_and!; [done|eexists; split; [reflexivity|by vm_compute]|].
    intros name s Hs _. unfold the_svc in Hs. cbn in Hs.
    apply lookup_singleton_Some in Hs as [_ <-]. by vm_compute. }
  unfold turning. destruct (turns k) as [q []]; apply Hr.
Qed.

Lemma routes_announced_witness :
  ∃ j, (7 ≤ j)%nat ∧
    message sample_emitter registerSubject (Some ["dora.example.com"; "dora.example.com/v2"]) "cf-dora-guid" ∈
      drop (length (tried (turning 7))) (tried (turning j)).
Proof.
  apply (routes_announced sample_emitter "opi" turning who_turns "dora-guid"
    ["dora.example.com"; "dora.example.com/v2"] 0); [done|apply turning_fair|split; reflexivity|done| |lia].
  intros k _. apply turning_routed.
Defined.

(** Nothing is ever announced of an application that is not there. *)
Lemma turning_gone k : gone "opi" "web-guid" (who_turns k) (turning k) (turning (S k)).
Proof.
  split.
  - assert (∀ q, the_svc (view (server_after q)) "opi" "cf-web-guid" = None) as Hno by by intros q; vm_compute.
    unfold turning. destruct (turns k) as [q []]; apply Hno.
  - unfold who_turns. by destruct (turns k) as [q []].
Qed.

Lemma routes_withdrawn_witness :
  ∃ j, ∀ k batch, (j ≤ k)%nat → offered (turning k) !! taken (turning k) = Some batch →
    silent "web-guid" batch.
Proof.
  destruct (routes_withdrawn sample_emitter "opi" turning who_turns "web-guid" 0) as (j & _ & Hj);
    [done|apply turning_fair|intros k _; apply turning_gone|].
  exists j. exact Hj.
Defined.
