(* ===== verification/Bifrost.v ===== *)
(** * [bifrost/]: from the cloud controller's requests to LRPs

    [Converter] turns a desire request into an LRP, by way of the registry when
    the application is a droplet; [Bifrost] passes requests on to a scheduler,
    of which only the interface [Opi.Desirer] is used. *)

From stdpp Require Import base gmap strings list.
From Stdlib Require Import ZArith Lia.
From S2P Require Import Prelude Json Opi Messages Kube Service StatefulSet Ingress Fixtures Desirer Listing.

(** ** [launcher/launcher.go] *)

Definition Launch : string := "/lifecycle/launch".
Definition Launcher : string := "/lifecycle/launcher".

Definition q (s : string) : string := String dquote "" +:+ s +:+ String dquote "".

Definition SetupEnv (startCmd : string) : gmap string string :=
  list_to_map [
    ("HOME", "/home/vcap/app");
    ("LANG", "en_US.UTF-8");
    ("PATH", "/usr/local/bin:/usr/bin:/bin");
    ("USER", "vcap");
    ("CF_INSTANCE_ADDR", "0.0.0.0:8080");
    ("CF_INSTANCE_GUID", "guid");
    ("CF_INSTANCE_INTERNAL_IP", "0.0.0.0");
    ("CF_INSTANCE_IP", "0.0.0.0");
    ("CF_INSTANCE_PORT", "8080");
    ("CF_INSTANCE_PORTS", "[{" +:+ q "external" +:+ ":8080," +:+ q "internal" +:+ ":8080}]");
    ("INSTANCE_GUID", "instance_id");
    ("PORT", "8080");
    ("TMPDIR", "/home/vcap/tmp");
    ("VCAP_APP_HOST", "0.0.0.0");
    ("VCAP_APP_PORT", "8080");
    ("VCAP_SERVICES", "{}");
    ("START_COMMAND", startCmd)].

(** ** [models.go], [convert.go] *)

(** The interface of the converter. *)
Class Converter (S : Type) := { converter_Convert : DesireLRPRequest → M S (result LRP) }.

Definition registryStageURI (baseURL space appname guid : string) : string :=
  baseURL +:+ "/v2/" +:+ space +:+ "/" +:+ appname +:+ "/blobs/?guid=" +:+ guid.

Definition parseVcapApplication (vcap : string) : result VcapApp :=
  j ← Reader.parse vcap; decode_VcapApp j.

Section MergeMaps.
Context `{!MapRange}.

Definition mergeMaps (maps : list (gomap string)) : gmap string string :=
  foldl (λ result m,
    foldl (λ result kv, <[kv.1 := kv.2]> result) result
      (range_order (map_to_list (default ∅ m)))) ∅ maps.
End MergeMaps.

Record DropletToImageConverter := { cv_registryURL : string; cv_registryIP : string }.

(** [request.DockerImageURL = url] on the copy of the request. *)
Definition with_image (url : string) (r : DesireLRPRequest) : DesireLRPRequest :=
  {| dr_ProcessGUID := dr_ProcessGUID r; dr_DockerImageURL := url;
     dr_DropletHash := dr_DropletHash r; dr_StartCommand := dr_StartCommand r;
     dr_Environment := dr_Environment r; dr_NumInstances := dr_NumInstances r;
     dr_LastUpdated := dr_LastUpdated r; dr_HealthCheckType := dr_HealthCheckType r;
     dr_HealthCheckHTTPEndpoint := dr_HealthCheckHTTPEndpoint r;
     dr_HealthCheckTimeoutMs := dr_HealthCheckTimeoutMs r |}.

Section Convert.
Context {S : Type} `{!CfClient S, !HttpClient S, !MapRange}.
Context (c : DropletToImageConverter).

Definition stageRequest (vcap : VcapApp) (dropletHash dropletBytes : string) : M S (result unit) :=
  let registryStageURI :=
    registryStageURI (cv_registryURL c) (va_SpaceName vcap) (va_AppName vcap) dropletHash in
  match http_NewRequest "POST" registryStageURI dropletBytes with
  | Err _ => throw_panic "http.NewRequest"
  | Ok req =>
      resp <-! http_Do (header_Set "Content-Type" "application/gzip" req);
      if negb (rs_StatusCode resp =? StatusCreated)%Z
      then λ s, (Ret (Err (ErrorString ("Invalid staging response: " +:+ http_show resp s))), s)
      else mret (Ok tt)
  end.

Definition dropletToImageURI (request : DesireLRPRequest) (vcap : VcapApp) :
    M S (result string) :=
  if negb (String.eqb (dr_DockerImageURL request) "") then mret (Ok (dr_DockerImageURL request))
  else
    dropletBytes <-! cf_GetDropletByAppGuid (va_AppID vcap);
    _ <-! stageRequest vcap (dr_DropletHash request) dropletBytes;
    mret (Ok (cv_registryIP c +:+ "/cloudfoundry/app-name:" +:+ dr_DropletHash request)).

(** Marshalling a list of strings cannot fail. *)
Definition to_LRP (request : DesireLRPRequest) (vcap : VcapApp) : LRP :=
  let uris := marshal_strings (va_AppUris vcap) in
  let lev := SetupEnv (dr_StartCommand request) in
  {| lrp_Name := va_AppID vcap;
     lrp_Image := dr_DockerImageURL request;
     lrp_TargetInstances := dr_NumInstances request;
     lrp_RunningInstances := 0;
     lrp_Command := [Launch];
     lrp_Env := Some (mergeMaps [dr_Environment request; Some lev]);
     lrp_Health :=
       {| hc_Type := dr_HealthCheckType request;
          hc_Endpoint := dr_HealthCheckHTTPEndpoint request;
          hc_TimeoutMs := dr_HealthCheckTimeoutMs request;
          hc_Port := 8080 |};
     lrp_Metadata := Some (list_to_map [
       (VcapAppName, va_AppName vcap);
       (VcapAppID, va_AppID vcap);
       (VcapVersion, va_Version vcap);
       (VcapAppUris, uris);
       (ProcessGUID, dr_ProcessGUID request);
       (LastUpdated, dr_LastUpdated request)]) |}.

Definition Convert (request : DesireLRPRequest) : M S (result LRP) :=
  let vcapJSON := gomap_get (dr_Environment request) "VCAP_APPLICATION" in
  vcap <-? parseVcapApplication vcapJSON;
  image <-! dropletToImageURI request vcap;
  mret (Ok (to_LRP (with_image image request) vcap)).

Definition NewConverter : Converter S := {| converter_Convert := Convert |}.
End Convert.

(** ** [bifrost.go] *)

(** The routes of the router, among the routes of an update. *)
Definition routesAvailable (routes : option (gomap (option json))) : bool :=
  match routes with
  | None => false
  | Some m => match m ≫= lookup "cf-router" with Some _ => true | None => false end
  end.

Record RouterRoute := { rr_Hostnames : slice string; rr_Port : Z }.

Definition decode_RouterRoute (old : RouterRoute) (j : json) : result RouterRoute :=
  let names := ["hostnames"; "port"] in
  ms ← Decode.members j;
  hostnames ← Decode.field names ms "hostnames" (rr_Hostnames old) Decode.decode_strings;
  port ← Decode.field names ms "port" (rr_Port old) Decode.decode_int64;
  Ok {| rr_Hostnames := hostnames; rr_Port := port |}.

Definition zero_RouterRoute : RouterRoute := {| rr_Hostnames := None; rr_Port := 0 |}.

(** A raw message holds a value that was read, so it can be marshalled; the
    method is called through a pointer. *)
Definition getURIs (update : UpdateDesiredLRPRequest) : outcome (result (slice string)) :=
  match ud_Update update with
  | None => Panic "nil pointer dereference"
  | Some u =>
      if negb (routesAvailable (du_Routes u)) then Ret (Ok (Some []))
      else
        match default None (du_Routes u) ≫= lookup "cf-router" with
        | Some (Some data) =>
            Ret (routes ← Decode.decode_slice zero_RouterRoute decode_RouterRoute (Some []) data;
                 Ok (Some (concat ((λ r, elems (rr_Hostnames r)) <$> elems routes))))
        | _ => Panic "nil pointer dereference"
        end
  end.

Definition deref {A} (p : option A) : outcome A :=
  match p with Some a => Ret a | None => Panic "nil pointer dereference" end.

Definition toDesiredLRPSchedulingInfo (lrps : list LRP) : list DesiredLRPSchedulingInfo :=
  (λ l, {| si_ProcessGuid := gomap_get (lrp_Metadata l) ProcessGUID;
           si_Annotation := gomap_get (lrp_Metadata l) LastUpdated |}) <$> lrps.

(** The fields of the LRP that an update sets. *)
Definition with_instances (n : Z) (l : LRP) : LRP :=
  {| lrp_Name := lrp_Name l; lrp_Image := lrp_Image l; lrp_Command := lrp_Command l;
     lrp_Env := lrp_Env l; lrp_Health := lrp_Health l; lrp_TargetInstances := n;
     lrp_RunningInstances := lrp_RunningInstances l; lrp_Metadata := lrp_Metadata l |}.

Definition set_metadata (k v : string) (l : LRP) : outcome LRP :=
  match gomap_set (lrp_Metadata l) k v with
  | Ret m =>
      Ret {| lrp_Name := lrp_Name l; lrp_Image := lrp_Image l; lrp_Command := lrp_Command l;
             lrp_Env := lrp_Env l; lrp_Health := lrp_Health l;
             lrp_TargetInstances := lrp_TargetInstances l;
             lrp_RunningInstances := lrp_RunningInstances l; lrp_Metadata := m |}
  | Panic why => Panic why
  | Hang => Hang
  end.

Section Operations.
Context {S : Type} `{!Converter S, !Opi.Desirer S}.

Definition Transfer (request : DesireLRPRequest) : M S (result unit) :=
  desiredLRP <-! converter_Convert request;
  desirer_Desire desiredLRP.

Definition ListInfos : M S (result (list DesiredLRPSchedulingInfo)) :=
  lrps ← desirer_List;
  match lrps with
  | Err err => mret (Err (WrapError "failed to list desired LRPs" err))
  | Ok lrps => mret (Ok (toDesiredLRPSchedulingInfo lrps))
  end.

Definition UpdateApp (update : UpdateDesiredLRPRequest) : M S (result unit) :=
  lrp <-! desirer_Get (ud_ProcessGuid update);
  u ← lift_outcome (deref (ud_Update update));
  n ← lift_outcome (deref (du_Instances u));
  annotation ← lift_outcome (deref (du_Annotation u));
  lrp ← lift_outcome (set_metadata LastUpdated annotation (with_instances n lrp));
  hostnames ← lift_outcome (getURIs update);
  hostnames <-? hostnames;
  lrp ← lift_outcome (set_metadata VcapAppUris (marshal_strings hostnames) lrp);
  desirer_Update lrp.

Definition GetApp (guid : string) : M S (option DesiredLRP) :=
  lrp ← desirer_Get guid;
  match lrp with
  | Err _ => mret None
  | Ok lrp => mret (Some {| dl_ProcessGuid := lrp_Name lrp;
                            dl_Instances := to_int32 (lrp_TargetInstances lrp) |})
  end.

Definition StopApp (guid : string) : M S (result unit) := desirer_Stop guid.

(** [for i := 0; i < lrp.RunningInstances; i++]. *)
Definition running_instances (n : Z) : list Instance_ :=
  (λ i, {| inst_Index := Z.of_nat i; inst_State := RunningState |}) <$> seq 0 (Z.to_nat n).

Definition GetInstances (guid : string) : M S (result (list Instance_)) :=
  lrp <-! desirer_Get guid;
  mret (Ok (running_instances (lrp_RunningInstances lrp))).

(** The operations as the handlers see them. *)
Definition new_bifrost : Messages.Bifrost S :=
  {| bifrost_Transfer := Transfer; bifrost_List := ListInfos; bifrost_Update := UpdateApp;
     bifrost_Stop := StopApp; bifrost_GetApp := GetApp; bifrost_GetInstances := GetInstances |}.
End Operations.

(** ** Merging environments *)
Section MergeFacts.
Context `{!MapRange}.

Lemma insert_all_lookup (l : list (string * string)) (m : gmap string string) k :
  NoDup l.*1 →
  foldl (λ result kv, <[kv.1 := kv.2]> result) m l !! k
  = match (list_to_map l : gmap string string) !! k with Some v => Some v | None => m !! k end.
Proof.
  revert m. induction l as [|[k' v] l IH]; intros m Hnd; simpl; [by rewrite lookup_empty|].
  apply NoDup_cons in Hnd as [Hk Hnd]. rewrite IH by done.
  destruct (decide (k' = k)) as [->|Hne].
  - rewrite lookup_insert_eq. rewrite not_elem_of_list_to_map_1 by done. by rewrite lookup_insert_eq.
  - by rewrite !lookup_insert_ne.
Qed.

Lemma insert_map_lookup (m0 m : gmap string string) k :
  foldl (λ result kv, <[kv.1 := kv.2]> result) m0 (range_order (map_to_list m)) !! k
  = match m !! k with Some v => Some v | None => m0 !! k end.
Proof.
  assert (range_order (map_to_list m) ≡ₚ map_to_list m) as Hp by apply range_order_perm.
  assert (NoDup (range_order (map_to_list m)).*1) as Hnd
    by (rewrite Hp; apply NoDup_fst_map_to_list).
  rewrite insert_all_lookup by done.
  by rewrite (list_to_map_proper _ (map_to_list m)), list_to_map_to_list.
Qed.

Lemma mergeMaps_two a b k :
  mergeMaps [a; b] !! k
  = match default ∅ b !! k with Some v => Some v | None => default ∅ a !! k end.
Proof.
  unfold mergeMaps. cbn [foldl]. rewrite !insert_map_lookup, lookup_empty.
  by destruct (default ∅ b !! k), (default ∅ a !! k).
Qed.
End MergeFacts.

(** ** The converter *)
Section ConvertSpec.
Context {S : Type} `{!CfClient S, !HttpClient S, !MapRange}.
Context (c : DropletToImageConverter).

(** The variables the launcher sets, whatever the request says. *)
Lemma to_LRP_env request vcap k :
  (lrp_Env (to_LRP request vcap)) ≫= lookup k
  = match SetupEnv (dr_StartCommand request) !! k with
    | Some v => Some v
    | None => dr_Environment request ≫= lookup k
    end.
Proof.
  unfold to_LRP. cbn [lrp_Env]. change (mergeMaps [dr_Environment request;
    Some (SetupEnv (dr_StartCommand request))] !! k = match SetupEnv (dr_StartCommand request) !! k with
    | Some v => Some v | None => dr_Environment request ≫= lookup k end).
  rewrite mergeMaps_two. unfold default, id. destruct (SetupEnv _ !! k); [done|].
  destruct (dr_Environment request); [done|]. by rewrite lookup_empty.
Qed.

Lemma metadata_lookups name id version uris guid updated :
  let m : gmap string string := list_to_map [(VcapAppName, name); (VcapAppID, id);
    (VcapVersion, version); (VcapAppUris, uris); (ProcessGUID, guid); (LastUpdated, updated)] in
  m !! VcapAppUris = Some uris ∧ m !! ProcessGUID = Some guid ∧ m !! LastUpdated = Some updated.
Proof. by split_and!. Qed.

Lemma to_LRP_metadata request vcap :
  uris_of (to_LRP request vcap) = marshal_strings (va_AppUris vcap) ∧
  gomap_get (lrp_Metadata (to_LRP request vcap)) ProcessGUID = dr_ProcessGUID request ∧
  gomap_get (lrp_Metadata (to_LRP request vcap)) LastUpdated = dr_LastUpdated request ∧
  has_metadata (to_LRP request vcap).
Proof.
  unfold uris_of, to_LRP, gomap_get. cbn [lrp_Metadata].
  pose proof (metadata_lookups (va_AppName vcap) (va_AppID vcap) (va_Version vcap)
    (marshal_strings (va_AppUris vcap)) (dr_ProcessGUID request) (dr_LastUpdated request))
    as (Hu & Hp & Hl).
  cbn [mbind option_bind]. rewrite Hu, Hp, Hl. split_and!; [done..|].
  exists VcapAppUris. cbn [lrp_Metadata mbind option_bind]. rewrite Hu. by eexists.
Qed.

(** What a conversion makes of a request, by its [VCAP_APPLICATION] and the
    image that was found. *)
Record converted (request : DesireLRPRequest) (vcap : VcapApp) (image : string) (lrp : LRP) : Prop := {
  conv_name : lrp_Name lrp = va_AppID vcap;
  conv_image : lrp_Image lrp = image;
  conv_instances : lrp_TargetInstances lrp = dr_NumInstances request;
  conv_command : lrp_Command lrp = ["/lifecycle/launch"];
  conv_health : lrp_Health lrp = {| hc_Type := dr_HealthCheckType request;
    hc_Endpoint := dr_HealthCheckHTTPEndpoint request;
    hc_TimeoutMs := dr_HealthCheckTimeoutMs request; hc_Port := 8080 |};
  conv_routes : decodeRoutes (uris_of lrp) = Ok (fmap (M := list) Utf8.sanitize <$> va_AppUris vcap);
  conv_guid : gomap_get (lrp_Metadata lrp) ProcessGUID = dr_ProcessGUID request;
  conv_updated : gomap_get (lrp_Metadata lrp) LastUpdated = dr_LastUpdated request;
  conv_names : gomap_get (lrp_Metadata lrp) VcapAppName = va_AppName vcap ∧
    gomap_get (lrp_Metadata lrp) VcapAppID = va_AppID vcap ∧
    gomap_get (lrp_Metadata lrp) VcapVersion = va_Version vcap;
  conv_metadata : has_metadata lrp;
  conv_env k : lrp_Env lrp ≫= lookup k = match SetupEnv (dr_StartCommand request) !! k with
    | Some v => Some v | None => dr_Environment request ≫= lookup k end
}.

Lemma to_LRP_converted request vcap image :
  converted request vcap image (to_LRP (with_image image request) vcap).
Proof.
  destruct (to_LRP_metadata (with_image image request) vcap) as (Hu & Hp & Hl & Hm).
  split; try done.
  - rewrite Hu. apply unmarshal_marshal_strings.
  - apply (to_LRP_env (with_image _ request)).
Qed.

(** The request the registry gets for a droplet. *)
Definition staging_request (request : DesireLRPRequest) (vcap : VcapApp) (droplet : string) : Request :=
  {| rq_Method := "POST";
     rq_URL := registryStageURI (cv_registryURL c) (va_SpaceName vcap) (va_AppName vcap)
       (dr_DropletHash request);
     rq_Header := [("Content-Type", "application/gzip")];
     rq_Body := droplet; rq_ContentLength := str_len droplet |}.

Lemma stageRequest_eq request vcap droplet (s : S) :
  http_url_valid (rq_URL (staging_request request vcap droplet)) = true →
  stageRequest c vcap (dr_DropletHash request) droplet s
  = (resp <-! http_Do (staging_request request vcap droplet);
     if negb (rs_StatusCode resp =? StatusCreated)%Z
     then λ s, (Ret (Err (ErrorString ("Invalid staging response: " +:+ http_show resp s))), s)
     else mret (Ok tt)) s.
Proof. intros Hv. unfold stageRequest, http_NewRequest. simpl in Hv. by rewrite Hv. Qed.

End ConvertSpec.

(** ** The operations on any scheduler *)
Section OperationsSpec.
Context {S : Type} `{!Converter S, !Opi.Desirer S}.

(** The update a scheduler gets. *)
Definition updated_lrp (lrp : LRP) (n : Z) (annotation : string) (hostnames : slice string) : LRP :=
  {| lrp_Name := lrp_Name lrp; lrp_Image := lrp_Image lrp; lrp_Command := lrp_Command lrp;
     lrp_Env := lrp_Env lrp; lrp_Health := lrp_Health lrp; lrp_TargetInstances := n;
     lrp_RunningInstances := lrp_RunningInstances lrp;
     lrp_Metadata := Some (<[VcapAppUris := marshal_strings hostnames]>
       (<[LastUpdated := annotation]> (default ∅ (lrp_Metadata lrp)))) |}.

Lemma UpdateApp_eq u lrp (s s1 : S) d n annotation :
  desirer_Get (ud_ProcessGuid u) s = (Ret (Ok lrp), s1) → lrp_Metadata lrp ≠ None →
  ud_Update u = Some d → du_Instances d = Some n → du_Annotation d = Some annotation →
  UpdateApp u s =
    match getURIs u with
    | Ret (Ok hostnames) => desirer_Update (updated_lrp lrp n annotation hostnames) s1
    | Ret (Err e) => (Ret (Err e), s1)
    | Panic why => (Panic why, s1)
    | Hang => (Hang, s1)
    end.
Proof.
  intros Hg Hm Hu Hn Ha. unfold UpdateApp, try_bind, mbind, M_bind. rewrite Hg, Hu.
  unfold lift_outcome. cbn [deref]. rewrite Hn, Ha. cbn [deref].
  unfold set_metadata, with_instances. destruct lrp as [? ? ? ? ? ? ? [m|]]; [|done]. cbn.
  by destruct (getURIs u) as [[hostnames|e]|why|].
Qed.

(** A request that lacks what the code dereferences. *)
Definition lacks_fields (u : UpdateDesiredLRPRequest) : Prop :=
  match ud_Update u with
  | None => True
  | Some d => du_Instances d = None ∨ du_Annotation d = None
  end.

Lemma UpdateApp_panics u lrp (s s1 : S) :
  desirer_Get (ud_ProcessGuid u) s = (Ret (Ok lrp), s1) → lacks_fields u →
  UpdateApp u s = (Panic "nil pointer dereference", s1).
Proof.
  intros Hg Hu. unfold UpdateApp, try_bind, mbind, M_bind. rewrite Hg.
  unfold lift_outcome, lacks_fields in *. destruct (ud_Update u) as [d|]; cbn [deref]; [|done].
  destruct (du_Instances d); cbn [deref]; [|done].
  by destruct Hu as [|Hu]; [|rewrite Hu].
Qed.

(** The host names of an update with router routes, in order. *)
Lemma getURIs_ok u hostnames :
  getURIs u = Ret (Ok hostnames) → is_Some hostnames.
Proof.
  unfold getURIs. destruct (ud_Update u) as [d|]; [|done].
  destruct (negb _); [intros [= <-]; by eexists|].
  destruct (default None _ ≫= _) as [[data|]|]; try done. intros [= E].
  destruct (Decode.decode_slice _ _ _ _); simpl in E; [|done]. injection E as <-. by eexists.
Qed.
End OperationsSpec.

(** ** With the Kubernetes backend *)
Section Backend.
Context {S : Type} `{!KubeClient S, !RoutesChan S, !Observed S Obs, !KubeLaws S,
  !CfClient S, !HttpClient S, !UrlLib, !MapRange}.
Context (c : DropletToImageConverter) (ns : string) (ns_ok : ns ≠ "").

(** The wiring of [initBifrost]. *)
#[local] Instance backend_converter : Converter S := NewConverter c.
#[local] Instance backend_desirer : Opi.Desirer S :=
  k8s_scheduler (NewDesirer ns UseStatefulSets WorkChan).

(** What can be read of an application: the name, the image and the counts. *)
Lemma Get_wp guid v (Q : outcome (result LRP) → Obs → Prop) :
  managed ns v →
  (∀ r v', step (λ _ _, False) v v' ∧ cluster v' = cluster v ∧ sent v' = sent v ∧
     match r with
     | Ok lrp => ∃ s, the_sts v ns guid = Some s ∧ statefulSetToLRP s = Ret lrp
     | Err _ => healthy v = true → ns ≠ "" → guid ≠ "" → the_sts v ns guid = None
     end → Q (Ret r) v') →
  wp (desirer_Get guid) Q v.
Proof. intros Hm HQ. apply sts_Get_wp; [apply Hm|done]. Qed.

Lemma read_lrp s lrp : statefulSetToLRP s = Ret lrp →
  lrp_TargetInstances lrp = 0%Z ∧ lrp_RunningInstances lrp = sts_ReadyReplicas s ∧
  lrp_Metadata lrp ≠ None.
Proof. unfold statefulSetToLRP. destruct (first_container s); [|done..]. by intros [= <-]. Qed.

Lemma Convert_docker request vcap (s : S) :
  parseVcapApplication (gomap_get (dr_Environment request) "VCAP_APPLICATION") = Ok vcap →
  dr_DockerImageURL request ≠ "" →
  Convert c request s
  = (Ret (Ok (to_LRP (with_image (dr_DockerImageURL request) request) vcap)), s).
Proof.
  intros Hv Hd. unfold Convert. rewrite Hv. unfold try_pure, dropletToImageURI.
  by destruct (String.eqb_spec (dr_DockerImageURL request) "").
Qed.

Lemma Convert_image request vcap (s : S) :
  parseVcapApplication (gomap_get (dr_Environment request) "VCAP_APPLICATION") = Ok vcap →
  Convert c request s
  = (image <-! dropletToImageURI c request vcap;
     mret (Ok (to_LRP (with_image image request) vcap))) s.
Proof. intros Hv. unfold Convert. by rewrite Hv. Qed.

Lemma Convert_droplet request vcap droplet (s s1 s2 : S) o :
  parseVcapApplication (gomap_get (dr_Environment request) "VCAP_APPLICATION") = Ok vcap →
  dr_DockerImageURL request = "" →
  cf_GetDropletByAppGuid (va_AppID vcap) s = (Ret (Ok droplet), s1) →
  http_url_valid (rq_URL (staging_request c request vcap droplet)) = true →
  http_Do (staging_request c request vcap droplet) s1 = (Ret o, s2) →
  Convert c request s = (Ret (match o with
    | Err e => Err e
    | Ok resp =>
        if (rs_StatusCode resp =? StatusCreated)%Z
        then Ok (to_LRP (with_image (cv_registryIP c +:+ "/cloudfoundry/app-name:" +:+
                   dr_DropletHash request) request) vcap)
        else Err (ErrorString ("Invalid staging response: " +:+ http_show resp s2))
    end), s2).
Proof.
  intros Hv Hd Hg Hu Ho. unfold Convert. rewrite Hv. unfold try_pure, dropletToImageURI.
  rewrite Hd. cbn [String.eqb negb]. unfold try_bind at 1, mbind, M_bind, try_bind at 1, mbind, M_bind.
  rewrite Hg. unfold try_bind at 1, mbind, M_bind.
  rewrite stageRequest_eq by done. unfold try_bind at 1, mbind, M_bind. rewrite Ho.
  destruct o as [resp|e]; [|done]. by destruct (rs_StatusCode resp =? StatusCreated)%Z.
Qed.

(** C30: conversion fails, without a call, on a [VCAP_APPLICATION] that does
    not decode.  A docker image is taken as it is, without a call.  Otherwise
    the droplet is fetched and posted, with its hash, to the repository of the
    application; the conversion fails when the droplet cannot be fetched or
    posted, with that error, or when the registry answers anything but 201, and
    panics when the registry's address makes no URL.  An LRP that is returned
    carries the application's id as name, the image, the instances, the launch
    command, the health check with port 8080, metadata whose URIs decode to
    those of the application, and an environment in which the launcher's
    variables win over the request's. *)
Theorem convert_spec request (s : S) :
  match parseVcapApplication (gomap_get (dr_Environment request) "VCAP_APPLICATION") with
  | Err e => Convert c request s = (Ret (Err e), s)
  | Ok vcap =>
      let succeeds image s' :=
        ∃ lrp, Convert c request s = (Ret (Ok lrp), s') ∧ converted request vcap image lrp in
      if decide (dr_DockerImageURL request ≠ "")
      then succeeds (dr_DockerImageURL request) s
      else match cf_GetDropletByAppGuid (va_AppID vcap) s with
        | (Ret (Err e), s1) => Convert c request s = (Ret (Err e), s1)
        | (Ret (Ok droplet), s1) =>
            let rq := staging_request c request vcap droplet in
            if http_url_valid (rq_URL rq)
            then match http_Do rq s1 with
              | (Ret (Err e), s2) => Convert c request s = (Ret (Err e), s2)
              | (Ret (Ok resp), s2) =>
                  if decide (rs_StatusCode resp = StatusCreated)
                  then succeeds (cv_registryIP c +:+ "/cloudfoundry/app-name:" +:+
                         dr_DropletHash request) s2
                  else Convert c request s = (Ret (Err (ErrorString
                         ("Invalid staging response: " +:+ http_show resp s2))), s2)
              | (Panic why, s2) => Convert c request s = (Panic why, s2)
              | (Hang, s2) => Convert c request s = (Hang, s2)
              end
            else Convert c request s = (Panic "http.NewRequest", s1)
        | (Panic why, s1) => Convert c request s = (Panic why, s1)
        | (Hang, s1) => Convert c request s = (Hang, s1)
        end
  end.
Proof.
  destruct (parseVcapApplication _) as [vcap|e] eqn:Hv; [|by unfold Convert; rewrite Hv].
  cbv zeta. destruct (decide _) as [Hd|Hd%dec_stable].
  { eexists. split; [by apply Convert_docker|]. apply to_LRP_converted. }
  destruct (cf_GetDropletByAppGuid _ s) as [[[droplet|e]|why|] s1] eqn:Hg;
    [|by rewrite (Convert_image _ vcap) by done;
      unfold dropletToImageURI, try_bind, mbind, M_bind; rewrite Hd; cbn; rewrite Hg..].
  destruct (http_url_valid _) eqn:Hu.
  2:{ rewrite (Convert_image _ vcap) by done.
      unfold dropletToImageURI, try_bind, mbind, M_bind. rewrite Hd. cbn [String.eqb negb]. rewrite Hg.
      unfold stageRequest, http_NewRequest. simpl in Hu. by rewrite Hu. }
  destruct (http_Do _ s1) as [[o|why|] s2] eqn:Ho.
  2,3: rewrite (Convert_image _ vcap) by done;
    unfold dropletToImageURI, try_bind, mbind, M_bind; rewrite Hd; cbn [String.eqb negb]; rewrite Hg;
    rewrite stageRequest_eq by done; unfold try_bind, mbind, M_bind; by rewrite Ho.
  pose proof (Convert_droplet request vcap droplet s s1 s2 o Hv Hd Hg Hu Ho) as E.
  destruct o as [resp|e]; [|done]. rewrite E. clear E.
  destruct (Z.eqb_spec (rs_StatusCode resp) StatusCreated) as [Hs|Hs];
    destruct (decide _); try done.
  eexists. split; [done|]. apply to_LRP_converted.
Qed.

(** A desire request with a docker image, for an application of which
    nothing exists, on a healthy server: it succeeds if the routes are URLs,
    and then the StatefulSet, both services, the ingress rules and the
    registration are those of the converted LRP. *)
Lemma transfer_deploys request vcap v :
  let lrp := to_LRP (with_image (dr_DockerImageURL request) request) vcap in
  managed ns v → healthy v = true →
  parseVcapApplication (gomap_get (dr_Environment request) "VCAP_APPLICATION") = Ok vcap →
  dr_DockerImageURL request ≠ "" →
  label_value (va_AppID vcap) = true → va_AppID vcap ≠ "" → routes_valid lrp = true →
  the_sts v ns (va_AppID vcap) = None →
  the_svc v ns (GetInternalServiceName (va_AppID vcap)) = None →
  the_svc v ns (GetInternalHeadlessServiceName (va_AppID vcap)) = None →
  wp (Transfer request) (λ o v', o = Ret (Ok tt) ∧ all_created ns lrp v v') v.
Proof.
  intros lrp Hm Hh Hv Hd Hlab Hne Hval Hsts Hsvc Hhsvc.
  apply wp_try. eapply wp_still; [intros s; by apply Convert_docker|].
  apply (Desire_wp ns ns_ok lrp); [done|apply to_LRP_metadata|done|].
  intros r v' (_ & _ & Hr). destruct r as [[]|e].
  - split; [done|]. destruct Hr as [([? Hs] & _)|[_ ?]]; [|done].
    by pose proof (eq_trans (eq_sym Hsts) Hs).
  - destruct (Hr Hh Hne) as (_ & [[? Hx]|[[? Hx]|Hx]]).
    + by pose proof (eq_trans (eq_sym Hhsvc) Hx).
    + by pose proof (eq_trans (eq_sym Hsvc) Hx).
    + congruence.
Qed.

(** What only reads leave. *)
Definition unchanged v v' : Prop :=
  managed ns v' ∧ cluster v' = cluster v ∧ sent v' = sent v ∧ (healthy v = true → healthy v' = true).

(** What is read names the application, and can be updated; how many
    instances are wanted is not read back. *)
Lemma Get_named guid v (Q : outcome (result LRP) → Obs → Prop) : managed ns v →
  (∀ r v', unchanged v v' →
    match r with
    | Ok lrp => lrp_Name lrp = guid ∧ lrp_Metadata lrp ≠ None ∧ lrp_TargetInstances lrp = 0%Z ∧
        is_Some (the_sts v ns guid)
    | Err _ => healthy v = true → guid ≠ "" → the_sts v ns guid = None
    end → Q (Ret r) v') →
  wp (desirer_Get guid) Q v.
Proof.
  intros Hm HQ. apply wp_wf. intros Hwf. apply Get_wp; [done|]. intros r v' (Hst & Hc & Hsent & Hr).
  apply HQ; [split_and!; [by eapply quiet_managed|done|done|apply Hst]|].
  destruct r as [lrp|e]; [|auto]. destruct Hr as (t & Ht & Hl).
  destruct (read_lrp _ _ Hl) as (H1 & _ & H2). split_and!; [|done|done|by eexists].
  destruct (Hwf StatefulSets _ _ _ Ht) as [_ <-]. unfold statefulSetToLRP in Hl.
  destruct (first_container t); [|done..]. by injection Hl as <-.
Qed.

(** What [List] tells the cloud controller of the applications. *)
Definition infos_of (m : gmap string AppState) : list DesiredLRPSchedulingInfo :=
  (λ l, {| si_ProcessGuid := l.1; si_Annotation := l.2 |}) <$> abs_List m.

Lemma ListInfos_shows v m (Q : outcome (result (list DesiredLRPSchedulingInfo)) → Obs → Prop) :
  managed ns v → represents ns v m → tidy ns v m →
  (∀ r v', cluster v' = cluster v → (healthy v = true → healthy v' = true) →
     match r with Ok infos => infos ≡ₚ infos_of m | Err _ => healthy v = false end → Q (Ret r) v') →
  wp ListInfos Q v.
Proof.
  intros Hm Hr Ht HQ. apply wp_bind, (List_shows ns ns_ok v m); [done..|].
  intros r v' Hc Hh Hres. destruct r as [lrps|e]; apply wp_ret, HQ; [done..| |done|done|done].
  unfold infos_of. rewrite <- Hres, <- list_fmap_compose. done.
Qed.

(** [GetApp] finds an application exactly when its StatefulSet exists, and
    always reports 0 instances, for [statefulSetToLRP] does not read back how
    many are wanted. *)
Lemma getapp_reports_zero guid v :
  managed ns v → healthy v = true → guid ≠ "" →
  wp (GetApp guid) (λ o v', unchanged v v' ∧ ∃ a, o = Ret a ∧
    (is_Some a ↔ is_Some (the_sts v ns guid)) ∧
    ∀ app, a = Some app → app = {| dl_ProcessGuid := guid; dl_Instances := 0 |}) v.
Proof.
  intros Hm Hh Hg. apply wp_bind, Get_named; [done|]. intros r v' Hun Hr.
  destruct r as [lrp|e]; apply wp_ret; (split; [done|]); eexists; (split; [done|]).
  - destruct Hr as (Hn & _ & Ht & Hs). split; [split; [done|by eexists]|].
    intros app [= <-]. by rewrite Hn, Ht.
  - rewrite (Hr Hh Hg). split; [split; by intros [? ?]|done].
Qed.

(** [GetInstances] lists as many running instances as replicas are ready. *)
Lemma GetInstances_wp guid v (Q : outcome (result (list Instance_)) → Obs → Prop) :
  managed ns v → healthy v = true → guid ≠ "" →
  (∀ r v', unchanged v v' →
    match the_sts v ns guid with
    | Some s => r = Ok (running_instances (sts_ReadyReplicas s))
    | None => is_ok r = false
    end → Q (Ret r) v') →
  wp (GetInstances guid) Q v.
Proof.
  intros Hm Hh Hg HQ. apply wp_try, Get_wp; [done|]. intros r v' (Hst & Hc & Hsent & Hr).
  assert (unchanged v v') as Hun by (split_and!; [by eapply quiet_managed|done|done|apply Hst]).
  destruct r as [lrp|e].
  - destruct Hr as (s & Hs & Hl). apply wp_ret, HQ; [done|]. rewrite Hs.
    by destruct (read_lrp _ _ Hl) as (_ & -> & _).
  - apply HQ; [done|]. by rewrite (Hr Hh ns_ok Hg).
Qed.

(** They are numbered from 0. *)
Lemma getinstances_lists_ready guid v :
  managed ns v → healthy v = true → guid ≠ "" →
  wp (GetInstances guid) (λ o v', cluster v' = cluster v ∧ ∃ r, o = Ret r ∧
    match the_sts v ns guid with
    | Some s => ∃ l, r = Ok l ∧ length l = Z.to_nat (sts_ReadyReplicas s) ∧
        ∀ i inst, l !! i = Some inst → inst_Index inst = Z.of_nat i ∧ inst_State inst = RunningState
    | None => is_ok r = false
    end) v.
Proof.
  intros Hm Hh Hg. apply GetInstances_wp; [done..|]. intros r v' (_ & Hc & _) Hr.
  split; [done|]. eexists; split; [done|]. destruct (the_sts v ns guid) as [s|]; [|done].
  eexists; split; [exact Hr|]. unfold running_instances. split.
  - by rewrite length_fmap, length_seq.
  - intros i inst. rewrite list_lookup_fmap_Some. intros (k & -> & [-> _]%lookup_seq). done.
Qed.

(** An update names the application by the process id of the request, a
    StatefulSet by the application's id: unless a StatefulSet has the name the
    update gives, it fails and changes nothing. *)
Lemma update_unknown_guid u v :
  managed ns v → healthy v = true → the_sts v ns (ud_ProcessGuid u) = None →
  wp (UpdateApp u) (λ o v', (∃ e, o = Ret (Err e)) ∧ cluster v' = cluster v ∧ sent v' = sent v) v.
Proof.
  intros Hm Hh Hn. apply wp_try, Get_wp; [done|]. intros r v' (_ & Hc & Hs & Hr).
  destruct r as [lrp|e]; [|by eauto]. destruct Hr as (s & Hs' & _). congruence.
Qed.

Definition update_done (guid : string) (n : Z) (annotation : string) (hostnames : slice string) (old_sent : list (list Routes))
    v' : Prop :=
  (∃ s, the_sts v' ns guid = Some s ∧ ss_Replicas (sts_Spec s) = Some n ∧
     sts_annotation s LastUpdated = annotation) ∧
  (∃ s, the_svc v' ns (GetInternalServiceName guid) = Some s ∧
     decodeRoutes (svc_annotation s RegisteredRoutes)
     = Ok (fmap (M := list) Utf8.sanitize <$> hostnames)) ∧
  ∃ old new, new = fmap (M := list) Utf8.sanitize <$> hostnames ∧
    sent v' = old_sent ++ [replacement guid old new].

(** What an update asks the scheduler for, whatever was read. *)
Definition update_of (guid : string) (n : Z) (annotation : string) (hostnames : slice string)
    (lrp : LRP) : Prop :=
  lrp_Name lrp = guid ∧ lrp_TargetInstances lrp = n ∧ uris_of lrp = marshal_strings hostnames ∧
  gomap_get (lrp_Metadata lrp) LastUpdated = annotation.

Lemma updated_lrp_of lrp n annotation hostnames :
  update_of (lrp_Name lrp) n annotation hostnames (updated_lrp lrp n annotation hostnames).
Proof.
  split_and!; [done..| |]; unfold uris_of, updated_lrp, gomap_get;
    cbn [lrp_Metadata mbind option_bind]; [by rewrite lookup_insert_eq|].
  by rewrite lookup_insert_ne, lookup_insert_eq.
Qed.

Lemma UpdateApp_wp u d n annotation uris v (Q : outcome (result unit) → Obs → Prop) :
  managed ns v → ud_Update u = Some d → du_Instances d = Some n →
  du_Annotation d = Some annotation → getURIs u = Ret uris →
  (∀ e v', unchanged v v' →
     (healthy v = true → ud_ProcessGuid u ≠ "" →
        the_sts v ns (ud_ProcessGuid u) = None ∨ is_ok uris = false) → Q (Ret (Err e)) v') →
  (∀ hostnames lrp v1 r v', uris = Ok hostnames → unchanged v v1 →
     is_Some (the_sts v ns (ud_ProcessGuid u)) →
     update_of (ud_ProcessGuid u) n annotation hostnames lrp → updated ns lrp v1 r v' → Q (Ret r) v') →
  wp (UpdateApp u) Q v.
Proof.
  intros Hm Hu Hn Ha Huris Hno Hyes s Hs Hv.
  pose (Q1 (o : outcome (result LRP)) v1 := ∃ r, o = Ret r ∧ unchanged v v1 ∧
    match r with
    | Ok lrp => lrp_Name lrp = ud_ProcessGuid u ∧ lrp_Metadata lrp ≠ None ∧
        is_Some (the_sts v ns (ud_ProcessGuid u))
    | Err _ => healthy v = true → ud_ProcessGuid u ≠ "" → the_sts v ns (ud_ProcessGuid u) = None
    end).
  destruct (Get_named (ud_ProcessGuid u) v Q1 Hm) with (s := s) as (Hg1 & r & Er & Hun & Hlrp);
    [|done|done|].
  { intros r v1 Hun Hr. exists r. split_and!; [done..|]. by destruct r as [lrp|e]; [destruct_and! Hr|]. }
  destruct (desirer_Get (ud_ProcessGuid u) s) as [o s1] eqn:Eg. cbn [fst snd] in *. subst o.
  destruct r as [lrp|e].
  2:{ unfold UpdateApp, try_bind, mbind, M_bind. rewrite Eg. split; [done|].
      apply Hno; [done|]. intros Hh Hne. left. by apply Hlrp. }
  destruct Hlrp as (Hname & Hmeta & Hsome).
  rewrite (UpdateApp_eq u lrp s s1 d n annotation), Huris by done.
  destruct uris as [hostnames|e]; [|split; [done|]; apply Hno; [done|by right]].
  refine (Update_wp ns ns_ok (updated_lrp lrp n annotation hostnames) (view s1) Q (proj1 Hun) _ s1 Hg1
    eq_refl).
  intros r v' Hr. eapply Hyes; [done..| |done]. rewrite <- Hname. apply updated_lrp_of.
Qed.

Lemma updated_done guid lrp n annotation hostnames v v' :
  is_int32 n → update_of guid n annotation hostnames lrp → all_updated ns lrp v v' →
  update_done guid n annotation hostnames (sent v) v'.
Proof.
  intros Hint (Hname & Ht & Eu & Ea) [(t & t' & _ & Ht' & Hrep & _ & Hann)
    (p & p' & old & new & _ & Hp' & Ha' & _ & Hnew & Hsent & _)].
  rewrite Eu in Ha', Hnew. rewrite Hname in *. rewrite Ht in Hrep. split_and!.
  - exists t'. split_and!; [done|by rewrite Hrep, to_int32_id|by rewrite Hann].
  - exists p'. split; [done|]. rewrite Ha'. apply unmarshal_marshal_strings.
  - exists old, new. unfold decodeRoutes in Hnew. rewrite unmarshal_marshal_strings in Hnew.
    by injection Hnew as <-.
Qed.

(** The host names make no ingress rules. *)
Definition bad_hostnames (guid : string) (hostnames : slice string) : Prop :=
  is_ok (rules_for guid (elems (fmap (M := list) Utf8.sanitize <$> hostnames))) = false.

Lemma update_of_valid guid n annotation hostnames lrp :
  update_of guid n annotation hostnames lrp → routes_valid lrp = false → bad_hostnames guid hostnames.
Proof.
  intros (Hn & _ & Hu & _). unfold routes_valid, bad_hostnames, decodeRoutes.
  by rewrite Hn, Hu, unmarshal_marshal_strings.
Qed.

(** Why an update of an application fails. *)
Definition update_refused (guid : string) (uris : result (slice string)) v v' : Prop :=
  (the_sts v ns guid = None ∨ is_ok uris = false) ∧ cluster v' = cluster v ∧ sent v' = sent v ∨
  ∃ hostnames, uris = Ok hostnames ∧ is_Some (the_sts v ns guid) ∧
    ((∀ s, the_svc v ns (GetInternalServiceName guid) = Some s →
        is_ok (decodeRoutes (svc_annotation s RegisteredRoutes)) = false) ∨
     bad_hostnames guid hostnames).

(** C31: an update that succeeds has set the replicas to the instances and
    the routes of the service to the host names of the request, has noted the
    annotation, and has
    announced these and the dropped ones; on a healthy server it fails only
    for an application that is not there or router routes that do not decode,
    which changes nothing, or on old routes that do not decode or host names
    that are not URLs. *)
Theorem update_applies u d n annotation uris v :
  managed ns v → ud_Update u = Some d → du_Instances d = Some n → is_int32 n →
  du_Annotation d = Some annotation → getURIs u = Ret uris →
  wp (UpdateApp u) (λ o v', ∃ r, o = Ret r ∧
    match r with
    | Ok _ => ∃ hostnames, uris = Ok hostnames ∧
        update_done (ud_ProcessGuid u) n annotation hostnames (sent v) v'
    | Err _ => healthy v = true → ud_ProcessGuid u ≠ "" →
        update_refused (ud_ProcessGuid u) uris v v'
    end) v.
Proof.
  intros Hm Hu Hn Hint Ha Huris. eapply UpdateApp_wp; [done..| |].
  - intros e v' (_ & Hc & Hs & _) Hr. eexists; split; [done|]. intros Hh Hne. left. auto.
  - intros hostnames lrp v1 r v' -> (_ & Hc & Hs & Hh1) Hsome Hof Hr. exists r. split; [done|].
    destruct r as [[]|e].
    + exists hostnames. split; [done|]. rewrite <- Hs. eapply updated_done; [done..|]. apply Hr.
    + intros Hh Hne. right. exists hostnames. split; [done|]. split; [done|].
      destruct Hr as (_ & _ & _ & Hr). rewrite (proj1 Hof), Hc in Hr.
      destruct (Hr (Hh1 Hh) Hne) as [[Hx _]|(_ & [Hx|Hx])].
      * destruct Hsome as [? Hsome]. by pose proof (eq_trans (eq_sym Hsome) Hx).
      * by left.
      * right. by eapply update_of_valid.
Qed.

(** An update of a deployed application that lacks the instances or the
    annotation panics. *)
Lemma UpdateApp_panics_wp u v :
  managed ns v → healthy v = true → ud_ProcessGuid u ≠ "" →
  is_Some (the_sts v ns (ud_ProcessGuid u)) → lacks_fields u →
  wp (UpdateApp u) (λ o v', o = Panic "nil pointer dereference" ∧ cluster v' = cluster v) v.
Proof.
  intros Hm Hh Hg [t Ht] Hl s Hs Hv.
  destruct (Get_wp (ud_ProcessGuid u) v (λ o v', cluster v' = cluster v ∧ ∃ lrp, o = Ret (Ok lrp)) Hm)
    with (s := s) as (Hg1 & Hc1 & lrp & Er); [|done|done|].
  { intros r v' (_ & Hc & _ & Hr). split; [done|]. destruct r as [lrp|e]; [by exists lrp|].
    by pose proof (eq_trans (eq_sym Ht) (Hr Hh ns_ok Hg)). }
  destruct (desirer_Get (ud_ProcessGuid u) s) as [o s1] eqn:Eg. cbn [fst snd] in *. subst o.
  by rewrite (UpdateApp_panics u lrp s s1).
Qed.
End Backend.

(** ** Instances of the properties *)
Section Witnesses.
#[local] Existing Instance sample_urls.
#[local] Existing Instance range_in_order.

(** A cloud controller's droplets and a registry that answers [cc_answer]. *)
Record Cc := { cc_droplets : gmap string string; cc_answer : Z; cc_requests : list Request }.

#[local] Instance cc_client : CfClient Cc := {|
  cf_GetDropletByAppGuid guid := λ s,
    (Ret match cc_droplets s !! guid with Some b => Ok b | None => Err (NotFoundError guid) end, s);
  cf_PushDroplet _ _ := mret (Ok tt);
  cf_GetAppBitsByAppGuid _ := mret (Ok {| rs_StatusCode := 200; rs_Body := "" |}) |}.

#[local] Instance cc_http : HttpClient Cc := {|
  http_url_valid url := true;
  http_Do r := λ s, (Ret (Ok {| rs_StatusCode := cc_answer s; rs_Body := "" |}),
    {| cc_droplets := cc_droplets s; cc_answer := cc_answer s;
       cc_requests := cc_requests s ++ [r] |});
  http_show _ _ := "&{}" |}.

(** Next to the Kubernetes server there is no cloud controller to ask. *)
#[local] Instance server_cc : CfClient Server := {|
  cf_GetDropletByAppGuid guid := mret (Err (NotFoundError guid));
  cf_PushDroplet _ _ := mret (Ok tt);
  cf_GetAppBitsByAppGuid guid := mret (Err (NotFoundError guid)) |}.
#[local] Instance server_http : HttpClient Server := {|
  http_url_valid url := true;
  http_Do r := mret (Err (ExternalError "connection refused"));
  http_show _ _ := "&{}" |}.

Definition sample_converter : DropletToImageConverter :=
  {| cv_registryURL := "http://127.0.0.1:8080"; cv_registryIP := "registry" |}.

Definition sample_vcap : string := Printer.print (JObj [
  ("application_id", JStr "dora-guid"); ("application_name", JStr "dora");
  ("space_name", JStr "dev"); ("version", JStr "v1");
  ("application_uris", JArr [JStr "dora.example.com"])]).

Definition sample_request (image : string) : DesireLRPRequest := {|
  dr_ProcessGUID := "dora-guid-v1"; dr_DockerImageURL := image; dr_DropletHash := "abc";
  dr_StartCommand := "run"; dr_Environment := Some {[ "VCAP_APPLICATION" := sample_vcap ]};
  dr_NumInstances := 3; dr_LastUpdated := "1"; dr_HealthCheckType := "port";
  dr_HealthCheckHTTPEndpoint := ""; dr_HealthCheckTimeoutMs := 1000 |}.

Definition dora_vcap : VcapApp := {|
  va_AppName := "dora"; va_AppID := "dora-guid"; va_Version := "v1";
  va_AppUris := Some ["dora.example.com"]; va_SpaceName := "dev" |}.

Lemma sample_vcap_parses image :
  parseVcapApplication (gomap_get (dr_Environment (sample_request image)) "VCAP_APPLICATION")
  = Ok dora_vcap.
Proof. by vm_compute. Qed.

Definition sample_cc : Cc :=
  {| cc_droplets := {[ "dora-guid" := "bits" ]}; cc_answer := 201; cc_requests := [] |}.

(** The bits are posted to the repository of the application, with the hash. *)
Lemma droplet_is_posted :
  cc_requests (Convert sample_converter (sample_request "") sample_cc).2
  = [{| rq_Method := "POST"; rq_URL := "http://127.0.0.1:8080/v2/dev/dora/blobs/?guid=abc";
        rq_Header := [("Content-Type", "application/gzip")]; rq_Body := "bits";
        rq_ContentLength := 4 |}].
Proof.
  rewrite (Convert_droplet sample_converter (sample_request "") dora_vcap "bits" sample_cc sample_cc
    {| cc_droplets := {[ "dora-guid" := "bits" ]}; cc_answer := 201;
       cc_requests := [staging_request sample_converter (sample_request "") dora_vcap "bits"] |}
    (Ok {| rs_StatusCode := 201; rs_Body := "" |}) (sample_vcap_parses "") eq_refl
    ltac:(by vm_compute) eq_refl eq_refl).
  reflexivity.
Qed.

#[local] Instance sample_desirer : Opi.Desirer Server :=
  k8s_scheduler (NewDesirer "opi" UseStatefulSets WorkChan).
#[local] Instance sample_conv : Converter Server := NewConverter sample_converter.

Lemma transfer_deploys_witness :
  (Transfer (sample_request "busybox") fresh_server).1 = Ret (Ok tt).
Proof.
  assert (label_value "dora-guid" = true) as Hl by by vm_compute.
  assert (routes_valid (to_LRP (with_image "busybox" (sample_request "busybox")) dora_vcap) = true)
    as Hv by by vm_compute.
  apply (transfer_deploys sample_converter "opi" ltac:(done) (sample_request "busybox") dora_vcap
    (view fresh_server) fresh_managed eq_refl (sample_vcap_parses "busybox") ltac:(done) Hl
    ltac:(done) Hv eq_refl eq_refl eq_refl fresh_server fresh_good eq_refl).
Defined.

Lemma dora_deployed : good (with_app dora) ∧ managed "opi" (view (with_app dora)).
Proof. apply with_app_good, usable_dora. Qed.

Lemma getapp_reports_zero_witness :
  (GetApp "dora-guid" (with_app dora)).1
  = Ret (Some {| dl_ProcessGuid := "dora-guid"; dl_Instances := 0 |}) ∧
  lrp_TargetInstances dora = 2%Z ∧
  ∃ a, (GetApp "dora-guid" (with_app dora)).1 = Ret a ∧ is_Some a.
Proof.
  destruct dora_deployed as [Hg Hm]. split; [by vm_compute|]. split; [done|].
  destruct (getapp_reports_zero "opi" ltac:(done) "dora-guid" _ Hm eq_refl ltac:(done)
    (with_app dora) Hg eq_refl) as (_ & _ & a & Ha & Hs & _).
  exists a. split; [exact Ha|]. apply Hs. vm_compute. by eexists.
Defined.

Lemma getinstances_lists_ready_witness :
  (GetInstances "dora-guid" (with_app dora)).1 = Ret (Ok []) ∧
  ∃ r, (GetInstances "dora-guid" (with_app dora)).1 = Ret r.
Proof.
  destruct dora_deployed as [Hg Hm]. split; [by vm_compute|].
  destruct (getinstances_lists_ready "opi" ltac:(done) "dora-guid" _ Hm eq_refl ltac:(done)
    (with_app dora) Hg eq_refl) as (_ & _ & r & Hr & _).
  exact (ex_intro _ r Hr).
Defined.

Definition sample_update (guid : string) (fields : option DesiredLRPUpdate) :
    UpdateDesiredLRPRequest := {| ud_ProcessGuid := guid; ud_Update := fields |}.

Definition sample_fields : DesiredLRPUpdate := {|
  du_Instances := Some 5%Z; du_Annotation := Some "2";
  du_Routes := Some (Some {[ "cf-router" := Some (JArr [JObj [
    ("hostnames", JArr [JStr "new.example.com"]); ("port", JNum "8080")]]) ]}) |}.

(** The application is deployed as [dora-guid], the cloud controller's process
    id is [dora-guid-v1]. *)
Lemma update_unknown_guid_witness :
  ∃ e, (UpdateApp (sample_update "dora-guid-v1" (Some sample_fields)) (with_app dora)).1
       = Ret (Err e).
Proof.
  destruct dora_deployed as [Hg Hm].
  apply (update_unknown_guid "opi" (sample_update "dora-guid-v1" (Some sample_fields)) _ Hm
    eq_refl eq_refl (with_app dora) Hg eq_refl).
Defined.

Lemma update_applies_witness :
  (UpdateApp (sample_update "dora-guid" (Some sample_fields)) (with_app dora)).1 = Ret (Ok tt) ∧
  update_done "opi" "dora-guid" 5 "2" (Some ["new.example.com"]) (sent (view (with_app dora)))
    (view (UpdateApp (sample_update "dora-guid" (Some sample_fields)) (with_app dora)).2).
Proof.
  destruct dora_deployed as [Hg Hm].
  assert ((UpdateApp (sample_update "dora-guid" (Some sample_fields)) (with_app dora)).1
    = Ret (Ok tt)) as E by by vm_compute.
  split; [exact E|].
  destruct (update_applies "opi" ltac:(done) (sample_update "dora-guid" (Some sample_fields))
    sample_fields 5 "2" (Ok (Some ["new.example.com"])) _ Hm eq_refl eq_refl ltac:(by split) eq_refl
    ltac:(by vm_compute) (with_app dora) Hg eq_refl) as (_ & r & Hr & Hdone).
  pose proof (eq_trans (eq_sym E) Hr) as Er. injection Er as <-.
  destruct Hdone as (hostnames & Eh & Hdone). by injection Eh as <-.
Defined.
End Witnesses.
