(* ===== verification/Filepath.v ===== *)
(** * [path/filepath] on Unix, as the code uses it

    [Clean], [Join] and [Dir] work on the segments between slashes. *)

From stdpp Require Import base list strings.
From Stdlib Require Import Ascii Lia.
From S2P Require Import Prelude Json.

Definition join_with (sep : string) (l : list string) : string :=
  match l with
  | [] => ""
  | w :: ws => foldl (λ acc w, acc +:+ sep +:+ w) w ws
  end.

(** One segment; the segments so far are in reverse. *)
Definition clean_step (rooted : bool) (out : list string) (seg : string) : list string :=
  if String.eqb seg "" || String.eqb seg "." then out
  else if String.eqb seg ".." then
    match out with
    | w :: ws => if String.eqb w ".." then seg :: out else ws
    | [] => if rooted then [] else [seg]
    end
  else seg :: out.

Definition rooted (path : string) : bool :=
  match path with String c _ => (c =? "/")%char | EmptyString => false end.

Definition clean_segments (path : string) : list string :=
  reverse (foldl (clean_step (rooted path)) [] (split_on "/" path)).

Definition Clean (path : string) : string :=
  match path with
  | EmptyString => "."
  | _ =>
      let segs := clean_segments path in
      if rooted path then "/" +:+ join_with "/" segs
      else match segs with [] => "." | _ => join_with "/" segs end
  end.

(** The empty elements before the first other are ignored. *)
Fixpoint Join (elem : list string) : string :=
  match elem with
  | [] => ""
  | e :: rest => if String.eqb e "" then Join rest else Clean (join_with "/" (e :: rest))
  end.

(** What is before the last slash, cleaned. *)
Fixpoint up_to_slash (s : string) : string :=
  match s with
  | EmptyString => ""
  | String c t =>
      let r := up_to_slash t in
      if (c =? "/")%char then String c r
      else match r with EmptyString => "" | _ => String c r end
  end.

Definition Dir (path : string) : string := Clean (up_to_slash path).

(** ** Facts *)

Lemma split_on_append sep s t :
  split_on sep (s +:+ String sep t) = split_on sep s ++ split_on sep t.
Proof.
  induction s as [|c s IH].
  - change ("" +:+ String sep t) with (String sep t). cbn [split_on]. by rewrite Ascii.eqb_refl.
  - rewrite app_cons. cbn [split_on]. destruct (c =? sep)%char; [by rewrite IH|].
    rewrite IH. destruct (split_on sep s) eqn:E; [by apply split_on_nonempty in E|done].
Qed.

(** A segment that is a name. *)
Definition is_name (seg : string) : bool :=
  negb (String.eqb seg "" || String.eqb seg "." || String.eqb seg "..").

Lemma clean_step_name r out seg : is_name seg = true → clean_step r out seg = seg :: out.
Proof.
  unfold is_name, clean_step. intros H. apply negb_true_iff, orb_false_iff in H as [H ->].
  by rewrite H.
Qed.

(** The names among segments. *)
Definition names (segs : list string) : list string := List.filter is_name segs.

(** Without [..], cleaning keeps the names. *)
Lemma clean_no_dotdot r segs out :
  forallb (λ s, negb (String.eqb s "..")) segs = true →
  foldl (clean_step r) out segs = reverse (names segs) ++ out.
Proof.
  revert out. induction segs as [|s segs IH]; intros out; [done|].
  cbn [forallb]. intros [Hs Hsegs]%andb_true_iff. cbn [foldl]. rewrite IH by done.
  apply negb_true_iff in Hs. unfold clean_step, names, is_name. cbn [List.filter].
  rewrite Hs, orb_false_r.
  destruct (String.eqb s "" || String.eqb s "."); cbn [negb]; [done|].
  by rewrite reverse_cons, <- app_assoc.
Qed.

Lemma join_with_cons sep w ws :
  ws ≠ [] → join_with sep (w :: ws) = w +:+ sep +:+ join_with sep ws.
Proof.
  destruct ws as [|v ws]; [done|]. intros _. simpl.
  assert (∀ a b, foldl (λ acc w, acc +:+ sep +:+ w) (a +:+ b) ws
    = a +:+ foldl (λ acc w, acc +:+ sep +:+ w) b ws) as Hf.
  { induction ws as [|u ws IH]; intros a b; simpl; [done|]. by rewrite app_assoc_str, IH. }
  by rewrite <- app_assoc_str, Hf, app_assoc_str.
Qed.

Lemma join_with_app sep l k :
  l ≠ [] → k ≠ [] → join_with sep (l ++ k) = join_with sep l +:+ sep +:+ join_with sep k.
Proof.
  induction l as [|w l IH]; [done|]. intros _ Hk. destruct l as [|v l].
  - change ([w] ++ k) with (w :: k). by rewrite join_with_cons.
  - change ((w :: v :: l) ++ k) with (w :: ((v :: l) ++ k)).
    rewrite join_with_cons by done. rewrite IH by done.
    rewrite (join_with_cons sep w (v :: l)) by done. by rewrite !app_assoc_str.
Qed.

(** Splitting loses nothing, and no piece has the separator. *)
Lemma join_split sep s : join_with (String sep "") (split_on sep s) = s.
Proof.
  induction s as [|c s IH]; [done|]. cbn [split_on].
  pose proof (split_on_nonempty sep s) as Hne. destruct (Ascii.eqb_spec c sep) as [->|_].
  - rewrite join_with_cons by done. by rewrite IH.
  - destruct (split_on sep s) as [|w ws]; [done|]. rewrite <- IH. destruct ws as [|u ws]; [done|].
    by rewrite (join_with_cons _ (String c w)), (join_with_cons _ w), app_cons by done.
Qed.

Lemma split_on_pieces sep s : Forall (λ w, lacks sep w = true) (split_on sep s).
Proof.
  induction s as [|c s IH]; [by repeat constructor|]. cbn [split_on].
  destruct (c =? sep)%char eqn:E; [by constructor|].
  destruct (split_on sep s) as [|w ws]; [constructor; [unfold lacks; simpl; by rewrite E|done]|].
  inversion IH; subst. constructor; [|done]. unfold lacks in *. simpl. by rewrite E.
Qed.

(** A path below a directory, or the directory. *)
Definition within (dir path : string) : Prop :=
  path = dir ∨ ∃ rest, path = dir +:+ "/" +:+ rest.

Definition no_dotdot (name : string) : bool :=
  forallb (λ s, negb (String.eqb s "..")) (split_on "/" name).

(** The names of a path are its segments when it is put together of names. *)
Lemma split_join dir : dir ≠ [] → forallb (lacks "/") dir = true →
  split_on "/" (join_with "/" dir) = dir.
Proof.
  induction dir as [|w dir IH]; [done|]. intros _ [Hw Hd]%andb_true_iff.
  destruct dir as [|v dir]; [by apply split_on_lacks|].
  rewrite join_with_cons by done.
  change ("/" +:+ join_with "/" (v :: dir)) with (String "/" (join_with "/" (v :: dir))).
  rewrite split_on_app by done. by rewrite IH.
Qed.

Lemma names_all dir : forallb is_name dir = true → names dir = dir.
Proof.
  unfold names. induction dir as [|w dir IH]; simpl; [done|].
  intros [Hw Hd]%andb_true_iff. by rewrite Hw, IH.
Qed.

Lemma names_app l k : names (l ++ k) = names l ++ names k.
Proof. apply List.filter_app. Qed.

Lemma no_dotdot_names dir : forallb is_name dir = true →
  forallb (λ s, negb (String.eqb s "..")) dir = true.
Proof.
  induction dir as [|w dir IH]; simpl; [done|]. intros [Hw Hd]%andb_true_iff.
  rewrite IH by done. unfold is_name in Hw. apply negb_true_iff, orb_false_iff in Hw as [_ ->].
  done.
Qed.

(** What joining a name to a clean rooted directory gives, segment by
    segment. *)
Lemma Join_segments dir name :
  forallb is_name dir = true → forallb (lacks "/") dir = true → dir ≠ [] →
  Join [String "/" (join_with "/" dir); name]
  = String "/" (join_with "/" (reverse (foldl (clean_step true) (reverse dir) (split_on "/" name)))).
Proof.
  intros Hd Hl Hne.
  change (Join [String "/" (join_with "/" dir); name])
    with (Clean (String "/" (join_with "/" dir +:+ String "/" name))).
  change (Clean (String "/" (join_with "/" dir +:+ String "/" name)))
    with (String "/" (join_with "/" (reverse (foldl (clean_step true) []
      ("" :: split_on "/" (join_with "/" dir +:+ String "/" name)))))).
  rewrite split_on_append, split_join by done. cbn [foldl].
  change (clean_step true [] "") with (@nil string). rewrite foldl_app.
  rewrite (clean_no_dotdot true dir) by by apply no_dotdot_names. by rewrite names_all, app_nil_r.
Qed.

(** Joining a name without [..] to a clean rooted directory stays in it. *)
Lemma Join_within dir name :
  forallb is_name dir = true → forallb (lacks "/") dir = true → dir ≠ [] →
  no_dotdot name = true →
  within (String "/" (join_with "/" dir)) (Join [String "/" (join_with "/" dir); name]).
Proof.
  intros Hd Hl Hne Hn. rewrite Join_segments, clean_no_dotdot by done.
  rewrite reverse_app, !reverse_involutive. unfold within.
  destruct (names (split_on "/" name)) as [|w ws]; [left; by rewrite app_nil_r|right].
  exists (join_with "/" (w :: ws)). by rewrite join_with_app.
Qed.

Example clean_examples :
  Clean "" = "." ∧ Clean "a//b/../c/." = "a/c" ∧ Clean "/../a" = "/a" ∧ Clean "../../a" = "../../a" ∧
  Clean "/" = "/" ∧ Dir "/workspace/a/b.txt" = "/workspace/a" ∧ Dir "x" = "." ∧
  Join ["/home/vcap"; "./app/Procfile"] = "/home/vcap/app/Procfile" ∧
  Join ["/home/vcap"; "../../etc/passwd"] = "/etc/passwd".
Proof. by vm_compute. Qed.
