(* ===== verification/Handler.v ===== *)
(** * [handler/]: the HTTP interface

    The table of routes and the handlers, on any [Bifrost] and any [Stager]. *)

From stdpp Require Import base gmap strings list.
From Stdlib Require Import ZArith Ascii Lia.
From S2P Require Import Prelude Json Filepath Opi Messages Kube Service StatefulSet.
From S2P Require Import Ingress Fixtures Desirer Bifrost.

(** [jsonpb] on the two responses. *)
Class ResponseLib := {
  jsonpb_infos : list DesiredLRPSchedulingInfo → result string;
  jsonpb_lrp : DesiredLRP → result string
}.

(** ** [app_handler.go] *)

Definition encode_Instance (i : Instance_) : json :=
  JObj [("index", JInt (inst_Index i)); ("state", JStr (inst_State i))].

(** [error] is left out when empty. *)
Definition encode_GetInstancesResponse (r : GetInstancesResponse) : json :=
  JObj ((if String.eqb (gir_Error r) "" then [] else [("error", JStr (gir_Error r))])
    ++ [("process_guid", JStr (gir_ProcessGUID r));
        ("instances", JArr (encode_Instance <$> gir_Instances r))]).

Section App.
Context {S : Type} `{!Messages.Bifrost S, !ResponseLib, !ErrorText}.

Definition AppDesire (body guid : string) : M S Answer :=
  match Reader.parse_first body ≫= decode_DesireLRPRequest with
  | Err _ => mret (status StatusBadRequest)
  | Ok request =>
      if negb (String.eqb guid (dr_ProcessGUID request)) then mret (status StatusBadRequest)
      else
        r ← bifrost_Transfer request;
        match r with
        | Err _ => mret (status StatusBadRequest)
        | Ok _ => mret (status StatusAccepted)
        end
  end.

Definition AppList : M S Answer :=
  r ← bifrost_List;
  match r with
  | Err _ => mret (status StatusInternalServerError)
  | Ok infos =>
      match jsonpb_infos infos with
      | Err _ => mret {| an_Status := StatusInternalServerError;
                         an_ContentType := "application/json"; an_Body := "" |}
      | Ok text => mret {| an_Status := StatusOK; an_ContentType := "application/json";
                           an_Body := text |}
      end
  end.

Definition AppGetApp (guid : string) : M S Answer :=
  app ← bifrost_GetApp guid;
  match app with
  | None => mret (status StatusNotFound)
  | Some desiredLRP =>
      match jsonpb_lrp desiredLRP with
      | Err _ => mret (status StatusInternalServerError)
      | Ok text => mret {| an_Status := StatusOK; an_ContentType := ""; an_Body := text |}
      end
  end.

(** The zero value of the type of a [models.Error] is written by its name. *)
Definition writeUpdateErrorResponse (err : error) (statusCode : Z) : Answer :=
  {| an_Status := statusCode; an_ContentType := "";
     an_Body := Printer.print (JObj [("error", JObj [
       ("type", JStr "UnknownError"); ("message", JStr (error_text err))])]) |}.

Definition AppUpdate (body guid : string) : M S Answer :=
  match Reader.parse_first body ≫= decode_UpdateDesiredLRPRequest with
  | Err err => mret (writeUpdateErrorResponse err StatusBadRequest)
  | Ok request =>
      if negb (String.eqb guid (ud_ProcessGuid request))
      then mret (writeUpdateErrorResponse (ErrorString "Process guid missmatch") StatusBadRequest)
      else
        r ← bifrost_Update request;
        match r with
        | Err err => mret (writeUpdateErrorResponse err StatusInternalServerError)
        | Ok _ => mret (status StatusOK)
        end
  end.

(** [if len(processGUID) > 36 { processGUID = processGUID[:36] }]. *)
Definition stop_guid (guid : string) : string :=
  if (36 <? String.length guid)%nat then String.substring 0 36 guid else guid.

Definition AppStop (guid : string) : M S Answer :=
  r ← bifrost_Stop (stop_guid guid);
  match r with
  | Err _ => mret (status StatusInternalServerError)
  | Ok _ => mret (status StatusOK)
  end.

Definition createErrorGetInstancesResponse (guid : string) (err : error) : GetInstancesResponse :=
  {| gir_ProcessGUID := guid; gir_Error := error_text err; gir_Instances := [] |}.

Definition createGetInstancesResponse (guid : string) (r : result (list Instance_)) :
    GetInstancesResponse :=
  match r with
  | Err err => createErrorGetInstancesResponse guid err
  | Ok instances => {| gir_ProcessGUID := guid; gir_Error := ""; gir_Instances := instances |}
  end.

(** The encoder ends the text with a line feed; encoding this type cannot
    fail. *)
Definition AppGetInstances (guid : string) : M S Answer :=
  r ← bifrost_GetInstances guid;
  let response := createGetInstancesResponse guid r in
  mret {| an_Status := StatusOK; an_ContentType := "";
          an_Body := Printer.print (encode_GetInstancesResponse response) +:+
            String "010" "" |}.
End App.

(** ** [stage_handler.go] *)
Section Stage.
Context {S : Type} `{!Messages.Stager S}.

Definition StageStage (body guid : string) : M S Answer :=
  match Reader.parse_first body ≫= decode_StagingRequestFromCC with
  | Err _ => mret (status StatusBadRequest)
  | Ok stagingRequest =>
      r ← stager_Stage guid stagingRequest;
      match r with
      | Err _ => mret (status StatusInternalServerError)
      | Ok _ => mret (status StatusAccepted)
      end
  end.

Definition StageStagingComplete (body guid : string) : M S Answer :=
  match Reader.parse_first body ≫= decode_TaskCallbackResponse with
  | Err _ => mret (status StatusBadRequest)
  | Ok task =>
      r ← stager_CompleteStaging task;
      match r with
      | Err _ => mret (status StatusInternalServerError)
      | Ok _ => mret (status StatusOK)
      end
  end.
End Stage.

(** ** [handler.go] *)

(** A pattern of the router: a segment of text or a parameter. *)
Inductive segment := Text (s : string) | Param.

Inductive endpoint :=
  | EList | EDesire | EUpdate | EStop | EGetApp | EGetInstances | EStage | EStagingComplete.

Definition registerAppsEndpoints : list (string * list segment * endpoint) := [
  ("GET", [Text "apps"], EList);
  ("PUT", [Text "apps"; Param], EDesire);
  ("POST", [Text "apps"; Param], EUpdate);
  ("PUT", [Text "apps"; Param; Text "stop"], EStop);
  ("GET", [Text "apps"; Param], EGetApp);
  ("GET", [Text "apps"; Param; Text "instances"], EGetInstances)].

Definition registerStageEndpoints : list (string * list segment * endpoint) := [
  ("POST", [Text "stage"; Param], EStage);
  ("PUT", [Text "stage"; Param; Text "completed"], EStagingComplete)].

Definition endpoints : list (string * list segment * endpoint) :=
  registerAppsEndpoints ++ registerStageEndpoints.

(** A parameter takes the segment, which is not empty at the end of a path. *)
Fixpoint match_segments (pat : list segment) (path : list string) (params : list string) :
    option (list string) :=
  match pat, path with
  | [], [] => Some params
  | Text s :: pat, w :: path => if String.eqb s w then match_segments pat path params else None
  | [Param], [w] => if String.eqb w "" then None else Some (params ++ [w])
  | Param :: pat, w :: path => match_segments pat path (params ++ [w])
  | _, _ => None
  end.

Definition dispatch (method path : string) : option (endpoint * string) :=
  match split_on "/" path with
  | "" :: segs =>
      list_find (λ e, e.1.1 = method ∧ is_Some (match_segments e.1.2 segs [])) endpoints
      ≫= λ ie, match match_segments ie.2.1.2 segs [] with
               | Some params => Some (ie.2.2, default "" (head params))
               | None => None
               end
  | _ => None
  end.

Section Serve.
Context {S : Type} `{!Messages.Bifrost S, !Messages.Stager S, !ResponseLib, !ErrorText}.

Definition handle (e : endpoint) (guid body : string) : M S Answer :=
  match e with
  | EList => AppList
  | EDesire => AppDesire body guid
  | EUpdate => AppUpdate body guid
  | EStop => AppStop guid
  | EGetApp => AppGetApp guid
  | EGetInstances => AppGetInstances guid
  | EStage => StageStage body guid
  | EStagingComplete => StageStagingComplete body guid
  end.

(** What the router answers itself (redirects, 404, 405) is [None]. *)
Definition ServeHTTP (method path body : string) : M S (option Answer) :=
  match dispatch method path with
  | Some (e, guid) => a ← handle e guid body; mret (Some a)
  | None => mret None
  end.
End Serve.

(** ** Lemmas *)

Lemma substring_app s t : String.substring 0 (String.length s) (s +:+ t) = s.
Proof. induction s as [|c s IH]; [by destruct t|]. rewrite app_cons. simpl. by rewrite IH. Qed.

Lemma stop_guid_long app rest :
  String.length app = 36%nat → rest ≠ "" → stop_guid (app +:+ rest) = app.
Proof.
  intros Hl Hr. unfold stop_guid. rewrite length_app_str.
  assert (36 < String.length app + String.length rest)%nat as Hlt
    by (destruct rest; [done|simpl; lia]).
  apply Nat.ltb_lt in Hlt. rewrite Hlt, <- Hl. apply substring_app.
Qed.

Lemma segments_one root guid :
  lacks "/" root = true → lacks "/" guid = true →
  split_on "/" (String "/" (root +:+ String "/" guid)) = [""; root; guid].
Proof.
  intros Hr Hg. change (split_on "/" (String "/" (root +:+ String "/" guid)))
    with ("" :: split_on "/" (root +:+ String "/" guid)).
  by rewrite split_on_app, split_on_lacks.
Qed.

Lemma segments_two root guid action :
  lacks "/" root = true → lacks "/" guid = true → lacks "/" action = true →
  split_on "/" (String "/" (root +:+ String "/" (guid +:+ String "/" action)))
  = [""; root; guid; action].
Proof.
  intros Hr Hg Ha.
  change (split_on "/" (String "/" (root +:+ String "/" (guid +:+ String "/" action))))
    with ("" :: split_on "/" (root +:+ String "/" (guid +:+ String "/" action))).
  by rewrite !split_on_app, split_on_lacks.
Qed.

(** The paths of the table. *)
Definition app_path (guid : string) : string := String "/" ("apps" +:+ String "/" guid).
Definition app_action (guid action : string) : string :=
  String "/" ("apps" +:+ String "/" (guid +:+ String "/" action)).
Definition stage_path (guid : string) : string := String "/" ("stage" +:+ String "/" guid).
Definition stage_action (guid action : string) : string :=
  String "/" ("stage" +:+ String "/" (guid +:+ String "/" action)).

Lemma dispatch_app guid :
  lacks "/" guid = true → guid ≠ "" →
  dispatch "PUT" (app_path guid) = Some (EDesire, guid) ∧
  dispatch "POST" (app_path guid) = Some (EUpdate, guid) ∧
  dispatch "GET" (app_path guid) = Some (EGetApp, guid) ∧
  dispatch "PUT" (app_action guid "stop") = Some (EStop, guid) ∧
  dispatch "GET" (app_action guid "instances") = Some (EGetInstances, guid) ∧
  dispatch "POST" (stage_path guid) = Some (EStage, guid) ∧
  dispatch "PUT" (stage_action guid "completed") = Some (EStagingComplete, guid).
Proof.
  intros Hg Hne. unfold dispatch, app_path, app_action, stage_path, stage_action.
  rewrite !(segments_one "apps"), !(segments_one "stage"), !(segments_two "apps"),
    !(segments_two "stage") by done.
  destruct guid as [|c g]; [done|]. split_and!; reflexivity.
Qed.

(** Each operation's method and path, and the ids it can be asked for. *)
Definition method_of (e : endpoint) : string :=
  match e with
  | EList | EGetApp | EGetInstances => "GET"
  | EDesire | EStop | EStagingComplete => "PUT"
  | EUpdate | EStage => "POST"
  end.

Definition path_of (e : endpoint) (guid : string) : string :=
  match e with
  | EList => "/apps"
  | EDesire | EUpdate | EGetApp => app_path guid
  | EStop => app_action guid "stop"
  | EGetInstances => app_action guid "instances"
  | EStage => stage_path guid
  | EStagingComplete => stage_action guid "completed"
  end.

Definition names_id (e : endpoint) (guid : string) : bool :=
  match e with
  | EList => String.eqb guid ""
  | EDesire | EUpdate | EGetApp | EStage => lacks "/" guid && negb (String.eqb guid "")
  | EStop | EGetInstances | EStagingComplete => lacks "/" guid
  end.

Lemma dispatch_path e guid :
  names_id e guid = true → dispatch (method_of e) (path_of e guid) = Some (e, guid).
Proof.
  intros He. unfold dispatch, path_of, app_path, app_action, stage_path, stage_action.
  destruct e; cbn [names_id] in He; [by apply String.eqb_eq in He as ->|..];
    try (apply andb_true_iff in He as [He Hne]);
    rewrite ?(segments_one "apps"), ?(segments_one "stage"), ?(segments_two "apps"),
      ?(segments_two "stage") by done;
    destruct guid as [|c g]; try done; reflexivity.
Qed.

(** The path of the segments. *)
Lemma path_segments path segs :
  split_on "/" path = segs → path = join_with "/" segs ∧ Forall (λ w, lacks "/" w = true) segs.
Proof. intros <-. split; [by rewrite (join_split "/")|apply split_on_pieces]. Qed.

(** What the patterns of the table match. *)
Lemma match_one root w segs params :
  match_segments [Text root; Param] segs params = Some w →
  ∃ g, segs = [root; g] ∧ g ≠ "" ∧ w = params ++ [g].
Proof.
  destruct segs as [|r segs]; [done|]. cbn [match_segments].
  destruct (String.eqb_spec root r) as [<-|]; [|done].
  destruct segs as [|g [|h segs]]; [done| |done]. destruct (String.eqb_spec g ""); [done|].
  intros [= <-]. by exists g.
Qed.

Lemma match_two root action w segs params :
  match_segments [Text root; Param; Text action] segs params = Some w →
  ∃ g, segs = [root; g; action] ∧ w = params ++ [g].
Proof.
  destruct segs as [|r segs]; [done|]. cbn [match_segments].
  destruct (String.eqb_spec root r) as [<-|]; [|done].
  destruct segs as [|g [|h segs]]; [done..|]. destruct (String.eqb_spec action h) as [<-|]; [|done].
  destruct segs; [|done]. intros [= <-]. by exists g.
Qed.

Lemma match_root root w segs params :
  match_segments [Text root] segs params = Some w → segs = [root] ∧ w = params.
Proof.
  destruct segs as [|r segs]; [done|]. cbn [match_segments].
  destruct (String.eqb_spec root r) as [<-|]; [|done]. destruct segs; [|done]. by intros [= <-].
Qed.

Lemma dispatch_inv method path e guid :
  dispatch method path = Some (e, guid) →
  names_id e guid = true ∧ method = method_of e ∧ path = path_of e guid.
Proof.
  unfold dispatch. destruct (split_on "/" path) as [|root segs] eqn:Es; [done|].
  destruct root; [|done]. apply path_segments in Es as [-> Hl].
  destruct (list_find _ endpoints) as [[i x]|] eqn:Ef; [|done].
  apply list_find_Some in Ef as (Hx & [<- [params Hp]] & _). cbn [mbind option_bind snd].
  rewrite Hp. intros [= <- <-].
  destruct i as [|[|[|[|[|[|[|[|i]]]]]]]]; [injection Hx as <-; cbn [fst snd] in *;
    first [apply match_root in Hp as (-> & ->)|apply match_one in Hp as (g & -> & Hne & ->)
      |apply match_two in Hp as (g & -> & ->)]; cbn [app head default names_id id]..|done].
  all: rewrite ?Forall_cons in Hl.
  all: split_and!; [|done|reflexivity].
  all: destruct_and? Hl; try done.
  all: apply andb_true_iff; split; [done|]; by apply negb_true_iff, String.eqb_neq.
Qed.

Lemma encode_instances_ok r : numbers_ok (encode_GetInstancesResponse r) = true.
Proof.
  unfold encode_GetInstancesResponse. simpl.
  assert (forallb numbers_ok (encode_Instance <$> gir_Instances r) = true) as Hl.
  { induction (gir_Instances r) as [|i l IH]; [done|]. rewrite fmap_cons. simpl.
    by rewrite int_text_ok. }
  destruct (String.eqb _ _); simpl; by rewrite Hl.
Qed.

Section Properties.
Context {S : Type} `{!Messages.Bifrost S, !Messages.Stager S, !ResponseLib, !ErrorText}.

(** C36: the table of routes is exactly the eight operations on ids: a request
    to an operation's path is served by its handler on the id that the path
    names, and every other request is left to the router. *)
Theorem requests_routed body (s : S) :
  (∀ e guid, names_id e guid = true →
     ServeHTTP (method_of e) (path_of e guid) body s
     = (a ← handle e guid body; mret (Some a)) s) ∧
  (∀ method path,
     (∀ e guid, names_id e guid = true → (method, path) ≠ (method_of e, path_of e guid)) →
     ServeHTTP method path body s = (Ret None, s)).
Proof.
  split; [intros e guid He|intros method path Hno]; unfold ServeHTTP.
  - by rewrite dispatch_path.
  - destruct (dispatch method path) as [[e guid]|] eqn:E; [|done].
    destruct (dispatch_inv _ _ _ _ E) as (Hn & -> & ->). by destruct (Hno e guid Hn).
Qed.

(** A desire request reaches the backend only if its body decodes and
    names the process id of the path; the answer is 202 exactly when the
    backend then took the application, else 400. *)
Lemma desire_answers body guid (s : S) :
  match Reader.parse_first body ≫= decode_DesireLRPRequest with
  | Ok request =>
      if String.eqb guid (dr_ProcessGUID request)
      then ∀ r s', bifrost_Transfer request s = (Ret r, s') →
        AppDesire body guid s
        = (Ret (status (if is_ok r then StatusAccepted else StatusBadRequest)), s')
      else AppDesire body guid s = (Ret (status StatusBadRequest), s)
  | Err _ => AppDesire body guid s = (Ret (status StatusBadRequest), s)
  end.
Proof.
  unfold AppDesire. destruct (Reader.parse_first body ≫= decode_DesireLRPRequest) as [request|e];
    [|done]. destruct (String.eqb guid _); cbn [negb]; [|done].
  intros r s' E. unfold mbind, M_bind. rewrite E. by destruct r.
Qed.

(** The answer to a request for instances is always 200 and JSON; a
    failure only shows in its [error] member. *)
Lemma instances_answer guid (s s' : S) r :
  bifrost_GetInstances guid s = (Ret r, s') →
  ∃ text, AppGetInstances guid s
    = (Ret {| an_Status := StatusOK; an_ContentType := ""; an_Body := text |}, s') ∧
  Reader.parse text = Ok (clean (encode_GetInstancesResponse (createGetInstancesResponse guid r))).
Proof.
  intros E. unfold AppGetInstances, mbind, M_bind. rewrite E. eexists. split; [done|].
  apply parse_print_line. apply encode_instances_ok.
Qed.
End Properties.

(** ** With the Kubernetes backend *)
Section Backend.
Context {S : Type} `{!KubeClient S, !RoutesChan S, !Observed S Obs, !KubeLaws S,
  !Converter S, !Messages.Stager S, !UrlLib, !MapRange, !ResponseLib, !ErrorText}.
Context (ns : string) (ns_ok : ns ≠ "").

#[local] Instance handler_desirer : Opi.Desirer S :=
  k8s_scheduler (NewDesirer ns UseStatefulSets WorkChan).
#[local] Instance handler_bifrost : Messages.Bifrost S := new_bifrost.

(** The cloud controller's process id of an application: its id, of 36
    characters, and a version. *)
Definition process_guid (app version : string) : string := app +:+ "-" +:+ version.

(** All that belongs to an application is there. *)
Definition complete (app : string) (v : Obs) : Prop :=
  is_Some (the_sts v ns app) ∧ is_Some (the_svc v ns (GetInternalHeadlessServiceName app)) ∧
  is_Some (the_ing v ns ingressName) ∧
  ∃ s, the_svc v ns (GetInternalServiceName app) = Some s ∧
    is_ok (decodeRoutes (svc_annotation s RegisteredRoutes)) = true.

Lemma complete_stops app v v' r :
  healthy v = true → app ≠ "" → complete app v → stopped ns app v r v' →
  r = Ok tt ∧ all_stopped ns app v v'.
Proof.
  intros Hh Hn ([s Hs] & [h Hhs] & [i Hi] & sv & Hsv & Hd) (_ & _ & Hr). destruct r as [[]|e]; [done|].
  destruct (Hr Hh Hn) as [[? _]|[[_ ?]|[_ [?|Hx]]]]; [congruence..|].
  rewrite (Hx _ Hsv) in Hd. done.
Qed.

(** C37: of the requests that name a deployed application by its process id,
    only [stop] finds it: stopping removes all of the application, while a
    request for the same id is answered 404 and an update of it 500, and both
    change nothing, for no StatefulSet has that name. *)
Theorem process_guid_found_by_stop_only app version body u v :
  managed ns v → healthy v = true → String.length app = 36%nat →
  lacks "/" (process_guid app version) = true →
  complete app v → the_sts v ns (process_guid app version) = None →
  Reader.parse_first body ≫= decode_UpdateDesiredLRPRequest = Ok u →
  ud_ProcessGuid u = process_guid app version →
  wp (ServeHTTP "PUT" (app_action (process_guid app version) "stop") body)
    (λ o v', o = Ret (Some (status StatusOK)) ∧ all_stopped ns app v v') v ∧
  wp (ServeHTTP "GET" (app_path (process_guid app version)) body)
    (λ o v', o = Ret (Some (status StatusNotFound)) ∧ cluster v' = cluster v) v ∧
  wp (ServeHTTP "POST" (app_path (process_guid app version)) body)
    (λ o v', (∃ e, o = Ret (Some (writeUpdateErrorResponse e StatusInternalServerError))) ∧
       cluster v' = cluster v ∧ sent v' = sent v) v.
Proof.
  intros Hm Hh Hl Hs Hall Hno Hu Hg.
  assert (app ≠ "") as Hn by by destruct app.
  assert (process_guid app version ≠ "") as Hne.
  { unfold process_guid. by destruct app. }
  destruct (dispatch_app _ Hs Hne) as (_ & E2 & E3 & E4 & _).
  unfold ServeHTTP. rewrite E2, E3, E4. cbn [handle]. split_and!.
  - apply wp_bind, wp_bind. unfold process_guid. rewrite stop_guid_long by done.
    apply (Stop_wp ns ns_ok app); [done|]. intros r v' Hr.
    destruct (complete_stops app v v' r) as [-> Hst]; [done..|]. by apply wp_ret, wp_ret.
  - apply wp_bind, wp_bind, wp_bind.
    apply (Get_wp ns); [done|]. intros r v' (_ & Hc & _ & Hr). destruct r as [lrp|e].
    + destruct Hr as (t & Ht & _). congruence.
    + apply wp_ret. cbv beta iota. apply wp_ret, wp_ret. by split.
  - unfold AppUpdate. rewrite Hu, Hg, String.eqb_refl. cbn [negb]. apply wp_bind, wp_bind.
    eapply wp_mono; [apply (update_unknown_guid ns u); [done..|by rewrite Hg]|].
    intros o v' ((e & ->) & Hc & Hse). cbv beta iota. apply wp_ret, wp_ret. by eauto.
Qed.

(** A request to update a deployed application whose JSON lacks the
    instances or the annotation panics in the handler instead of being
    answered. *)
Lemma bad_update_panics body guid u v :
  managed ns v → healthy v = true → lacks "/" guid = true → guid ≠ "" →
  Reader.parse_first body ≫= decode_UpdateDesiredLRPRequest = Ok u →
  ud_ProcessGuid u = guid → lacks_fields u → is_Some (the_sts v ns guid) →
  wp (ServeHTTP "POST" (app_path guid) body) (λ o v', panics o = true ∧ cluster v' = cluster v) v.
Proof.
  intros Hm Hh Hs Hne Hu Hg Hl Hsome. destruct (dispatch_app _ Hs Hne) as (_ & E2 & _).
  unfold ServeHTTP. rewrite E2. cbn [handle]. unfold AppUpdate. rewrite Hu, Hg, String.eqb_refl.
  cbn [negb]. subst guid. apply wp_bind, wp_bind.
  eapply wp_mono; [by apply (UpdateApp_panics_wp ns ns_ok u)|]. by intros o v' [-> ?].
Qed.
End Backend.

(** ** Instances of the properties *)
Section Witnesses.
#[local] Existing Instance sample_urls.
#[local] Existing Instance range_in_order.

#[local] Instance sample_responses : ResponseLib := {|
  jsonpb_infos l := Ok "{}"; jsonpb_lrp d := Ok (dl_ProcessGuid d) |}.
#[local] Instance sample_texts : ErrorText := {| error_text e := "failed" |}.
#[local] Instance sample_stager : Messages.Stager Server := {|
  stager_Stage _ _ := mret (Ok tt); stager_CompleteStaging _ := mret (Ok tt) |}.
#[local] Instance sample_converter_ : Converter Server :=
  {| converter_Convert r := mret (Ok dora) |}.
#[local] Instance sample_desirer_ : Opi.Desirer Server :=
  k8s_scheduler (NewDesirer "opi" UseStatefulSets WorkChan).
#[local] Instance sample_bifrost_ : Messages.Bifrost Server := new_bifrost.

Lemma requests_routed_witness :
  ServeHTTP "PUT" "/apps/dora-guid/stop" "" fresh_server
  = (a ← AppStop "dora-guid"; mret (Some a)) fresh_server.
Proof. exact (proj1 (requests_routed "" fresh_server) EStop "dora-guid" eq_refl). Defined.

Definition sample_desire : string :=
  Printer.print (JObj [("process_guid", JStr "dora-guid-v1"); ("instances", JNum "2")]).

Lemma desire_answers_witness :
  AppDesire sample_desire "dora-guid-v1" fresh_server
  = (Ret (status StatusAccepted), with_app dora).
Proof.
  pose proof (desire_answers sample_desire "dora-guid-v1" fresh_server) as H.
  assert (Reader.parse_first sample_desire ≫= decode_DesireLRPRequest =
    Ok {| dr_ProcessGUID := "dora-guid-v1"; dr_DockerImageURL := ""; dr_DropletHash := "";
          dr_StartCommand := ""; dr_Environment := None; dr_NumInstances := 2;
          dr_LastUpdated := ""; dr_HealthCheckType := ""; dr_HealthCheckHTTPEndpoint := "";
          dr_HealthCheckTimeoutMs := 0 |}) as E by by vm_compute.
  rewrite E in H. apply (H (Ok tt)). by vm_compute.
Defined.

Lemma instances_answer_witness :
  ∃ text, AppGetInstances "dora-guid" fresh_server
    = (Ret {| an_Status := StatusOK; an_ContentType := ""; an_Body := text |}, fresh_server).
Proof.
  destruct (instances_answer "dora-guid" fresh_server fresh_server
    (Err (NotFoundError "dora-guid")) ltac:(by vm_compute)) as (text & Htext & _).
  by exists text.
Defined.

Definition long_guid : string := "b194809b-88c0-49af-b8aa-69da097fc360".

Definition long_app : LRP := sample_lrp long_guid ["long.example.com"].

Lemma long_deployed : good (with_app long_app) ∧ managed "opi" (view (with_app long_app)).
Proof. apply with_app_good. split; [apply sample_has_metadata|by vm_compute]. Qed.

Definition long_update : UpdateDesiredLRPRequest :=
  {| ud_ProcessGuid := process_guid long_guid "v1"; ud_Update := Some zero_DesiredLRPUpdate |}.

Definition long_update_text : string :=
  Printer.print (JObj [("process_guid", JStr (process_guid long_guid "v1")); ("update", JObj [])]).

Lemma long_complete : complete "opi" long_guid (view (with_app long_app)).
Proof. split_and!; [vm_compute; by eexists..|]. eexists. split; [by vm_compute|by vm_compute]. Qed.

Lemma process_guid_found_by_stop_only_witness :
  (ServeHTTP "PUT" (app_action (process_guid long_guid "v1") "stop") long_update_text
     (with_app long_app)).1 = Ret (Some (status StatusOK)) ∧
  (ServeHTTP "GET" (app_path (process_guid long_guid "v1")) long_update_text
     (with_app long_app)).1 = Ret (Some (status StatusNotFound)).
Proof.
  destruct long_deployed as [Hg Hm].
  destruct (process_guid_found_by_stop_only "opi" ltac:(done) long_guid "v1" long_update_text
    long_update _ Hm eq_refl eq_refl ltac:(by vm_compute) long_complete ltac:(by vm_compute)
    ltac:(by vm_compute) eq_refl) as (Hstop & Hget & _).
  split; [apply (Hstop _ Hg eq_refl)|apply (Hget _ Hg eq_refl)].
Defined.

Definition empty_update : string :=
  Printer.print (JObj [("process_guid", JStr "dora-guid"); ("update", JObj [])]).

Lemma bad_update_panics_witness :
  panics (ServeHTTP "POST" (app_path "dora-guid") empty_update (with_app dora)).1 = true.
Proof.
  destruct (with_app_good dora usable_dora) as [Hg Hm].
  apply (bad_update_panics "opi" ltac:(done) empty_update "dora-guid"
    {| ud_ProcessGuid := "dora-guid"; ud_Update := Some zero_DesiredLRPUpdate |} _ Hm eq_refl
    eq_refl ltac:(done) ltac:(by vm_compute) eq_refl (or_introl eq_refl)
    ltac:(vm_compute; by eexists) (with_app dora) Hg eq_refl).
Defined.
End Witnesses.
