(* ===== verification/Stager.v ===== *)
(** * [stager/stager.go]: staging tasks and their completion *)

From stdpp Require Import base gmap strings list.
From Stdlib Require Import ZArith Ascii Lia.
From S2P Require Import Prelude Json Opi Messages Kube StatefulSet Fixtures Tasks.

Definition StagerImage : string := "eirini/recipe".

(** The desirer and the HTTP client are the instances in scope. *)
Record StagerState := { st_Config : StagerConfig }.

(** The text of a raw message as [Marshal] writes it: without the space
    outside of strings, and with the escapes that HTML needs. *)
Fixpoint compact_text (in_string escaped : bool) (s : string) : string :=
  match s with
  | EmptyString => EmptyString
  | String c t =>
      if in_string then
        let emitted :=
          if (c =? "<")%char then "\u003c"
          else if (c =? ">")%char then "\u003e"
          else if (c =? "&")%char then "\u0026"
          else String c "" in
        match t with
        | String d (String e u) =>
            if (c =? "226")%char && (d =? "128")%char && (e =? "168")%char
            then "\u2028" +:+ compact_text true false u
            else if (c =? "226")%char && (d =? "128")%char && (e =? "169")%char
            then "\u2029" +:+ compact_text true false u
            else emitted +:+ compact_text (escaped || negb (c =? dquote)%char)
                   (negb escaped && (c =? backslash)%char) t
        | _ => emitted +:+ compact_text (escaped || negb (c =? dquote)%char)
                 (negb escaped && (c =? backslash)%char) t
        end
      else if Reader.is_space c then compact_text false false t
      else String c (compact_text (c =? dquote)%char false t)
  end.

(** Marshalling a raw message fails when its text is no JSON. *)
Definition marshal_raw (text : string) : result string :=
  _ ← Reader.parse text; Ok (compact_text false false text).

Definition STAGING_ERROR : string := "StagingError".

(** [StagingResponseForCC] with the one member that is set. *)
Definition constructStagingResponse (task : TaskCallbackResponse) : result string :=
  if tc_Failed task then
    Ok (Printer.print (JObj [("error", JObj [
      ("id", JStr STAGING_ERROR); ("message", JStr (tc_FailureReason task))])]))
  else
    r ← marshal_raw (tc_Result task);
    Ok ("{" +:+ Printer.quote "result" +:+ ":" +:+ r +:+ "}").

Definition getCallbackURI (task : TaskCallbackResponse) : result string :=
  j ← Reader.parse (tc_Annotation task);
  annotation ← decode_StagingTaskAnnotation j;
  Ok (sa_CompletionCallback annotation).

Section Operations.
Context {S : Type} `{!Opi.TaskDesirer S, !HttpClient S} (st : StagerState).

(** The lifecycle data is read through a pointer. *)
Definition createStagingTask (stagingGUID : string) (request : StagingRequestFromCC) :
    outcome (result Task) :=
  match sr_LifecycleData request with
  | None => Panic "nil pointer dereference"
  | Some j =>
      Ret (lifecycleData ← decode_BuildpackStagingData j;
           let buildpacksJSON :=
             Printer.print (encode_Buildpacks (bs_Buildpacks lifecycleData)) in
           Ok {| task_Image := StagerImage;
                 task_Command := [];
                 task_Env := Some (list_to_map [
                   (EnvDownloadURL, bs_AppBitsDownloadUri lifecycleData);
                   (EnvDropletUploadURL, bs_DropletUploadUri lifecycleData);
                   (EnvBuildpacks, buildpacksJSON);
                   (EnvAppID, sr_LogGuid request);
                   (EnvStagingGUID, stagingGUID);
                   (EnvCompletionCallback, sr_CompletionCallback request);
                   (EnvCfUsername, sc_CfUsername (st_Config st));
                   (EnvCfPassword, sc_CfPassword (st_Config st));
                   (EnvAPIAddress, sc_APIAddress (st_Config st));
                   (EnvEiriniAddress, sc_EiriniAddress (st_Config st))]) |})
  end.

Definition Stage (stagingGUID : string) (request : StagingRequestFromCC) : M S (result unit) :=
  task ← lift_outcome (createStagingTask stagingGUID request);
  task <-? task;
  task_DesireStaging task.

Definition executeRequest (request : Request) : M S (result unit) :=
  resp <-! http_Do request;
  if (300 <=? rs_StatusCode resp)%Z
  then mret (Err (ErrorString
         ("callback-response-unsuccessful, code: " +:+ int_text (rs_StatusCode resp))))
  else mret (Ok tt).

Definition CompleteStaging (task : TaskCallbackResponse) : M S (result unit) :=
  callbackBody <-? constructStagingResponse task;
  callbackURI <-? getCallbackURI task;
  request <-? http_NewRequest "POST" callbackURI callbackBody;
  _ <-! executeRequest (header_Set "Content-Type" "application/json" request);
  task_Delete (tc_TaskGuid task).

Definition new_stager : Messages.Stager S :=
  {| stager_Stage := Stage; stager_CompleteStaging := CompleteStaging |}.
End Operations.

(** ** What a staging task tells the recipe *)
Lemma staging_task st guid request j data :
  sr_LifecycleData request = Some j → decode_BuildpackStagingData j = Ok data →
  ∃ task, createStagingTask st guid request = Ret (Ok task) ∧
    task_Image task = StagerImage ∧
    gomap_get (task_Env task) EnvStagingGUID = guid ∧
    gomap_get (task_Env task) EnvAppID = sr_LogGuid request ∧
    gomap_get (task_Env task) EnvDownloadURL = bs_AppBitsDownloadUri data ∧
    gomap_get (task_Env task) EnvDropletUploadURL = bs_DropletUploadUri data ∧
    gomap_get (task_Env task) EnvCompletionCallback = sr_CompletionCallback request ∧
    gomap_get (task_Env task) EnvEiriniAddress = sc_EiriniAddress (st_Config st) ∧
    (Reader.parse (gomap_get (task_Env task) EnvBuildpacks)) ≫=
      Decode.decode_slice zero_Buildpack decode_Buildpack None
    = Ok (fmap (M := list) clean_Buildpack <$> bs_Buildpacks data).
Proof.
  intros Hj Hd. unfold createStagingTask. rewrite Hj, Hd. eexists. split; [reflexivity|].
  split_and!; try reflexivity. apply decode_encode_Buildpacks.
Qed.

Section Spec.
Context {S : Type} `{!Opi.TaskDesirer S, !HttpClient S} (st : StagerState).

(** C33: staging makes one task, of the stager's image, from which the recipe
    reads back the staging id, the application (the request's log guid), the
    URLs, the callback and the buildpacks in order; lifecycle data that does not decode is the error, and a request
    without lifecycle data panics. *)
Theorem stage_desires_task guid request (s : S) :
  match sr_LifecycleData request with
  | None => Stage st guid request s = (Panic "nil pointer dereference", s)
  | Some j =>
      match decode_BuildpackStagingData j with
      | Err e => Stage st guid request s = (Ret (Err e), s)
      | Ok data => ∃ task, Stage st guid request s = task_DesireStaging task s ∧
          task_Image task = StagerImage ∧
          gomap_get (task_Env task) EnvStagingGUID = guid ∧
          gomap_get (task_Env task) EnvAppID = sr_LogGuid request ∧
          gomap_get (task_Env task) EnvDownloadURL = bs_AppBitsDownloadUri data ∧
          gomap_get (task_Env task) EnvDropletUploadURL = bs_DropletUploadUri data ∧
          gomap_get (task_Env task) EnvCompletionCallback = sr_CompletionCallback request ∧
          (Reader.parse (gomap_get (task_Env task) EnvBuildpacks)) ≫=
            Decode.decode_slice zero_Buildpack decode_Buildpack None
          = Ok (fmap (M := list) clean_Buildpack <$> bs_Buildpacks data)
      end
  end.
Proof.
  unfold Stage. destruct (sr_LifecycleData request) as [j|] eqn:Ej.
  - destruct (decode_BuildpackStagingData j) as [data|e] eqn:Ed.
    + destruct (staging_task st guid request j data Ej Ed) as (task & E & ? & ? & ? & ? & ? & ? & _ & ?).
      exists task. rewrite E. by split_and!.
    + unfold createStagingTask. by rewrite Ej, Ed.
  - unfold createStagingTask. by rewrite Ej.
Qed.

(** The request that tells the cloud controller. *)
Definition callback_request (uri body : string) : Request :=
  {| rq_Method := "POST"; rq_URL := uri;
     rq_Header := [("Content-Type", "application/json")]; rq_Body := body;
     rq_ContentLength := str_len body |}.

(** C34: a staging is completed by one POST of the result, or of the failure,
    to the callback of the task's annotation, and only when this was answered
    below 300 is the task deleted, any other status being the error that names
    it; if the result is no JSON, or the annotation does not decode, nothing is
    sent and the task stays. *)
Theorem staging_completed task (s : S) :
  match constructStagingResponse task, getCallbackURI task with
  | Ok body, Ok uri =>
      if http_url_valid uri
      then ∀ r s1, http_Do (callback_request uri body) s = (Ret r, s1) →
        CompleteStaging task s =
          match r with
          | Err e => (Ret (Err e), s1)
          | Ok resp =>
              if (rs_StatusCode resp <? 300)%Z then task_Delete (tc_TaskGuid task) s1
              else (Ret (Err (ErrorString
                ("callback-response-unsuccessful, code: " +:+ int_text (rs_StatusCode resp)))), s1)
          end
      else ∃ e, CompleteStaging task s = (Ret (Err e), s)
  | _, _ => ∃ e, CompleteStaging task s = (Ret (Err e), s)
  end.
Proof.
  unfold CompleteStaging. destruct (constructStagingResponse task) as [body|e]; [|by eexists].
  destruct (getCallbackURI task) as [uri|e]; [|by eexists]. unfold try_pure, http_NewRequest.
  destruct (http_url_valid uri); [|by eexists].
  intros r s1 E. unfold executeRequest, try_bind, mbind, M_bind.
  change (header_Set _ _ _) with (callback_request uri body). rewrite E.
  destruct r as [resp|e]; [|done]. rewrite Z.ltb_antisym.
  by destruct (300 <=? rs_StatusCode resp)%Z.
Qed.

(** The case of a callback that is accepted. *)
Lemma staging_complete_sends task body uri (s s1 : S) resp :
  constructStagingResponse task = Ok body → getCallbackURI task = Ok uri →
  http_url_valid uri = true →
  http_Do (callback_request uri body) s = (Ret (Ok resp), s1) → (rs_StatusCode resp < 300)%Z →
  CompleteStaging task s = task_Delete (tc_TaskGuid task) s1.
Proof.
  intros Eb Eu Hv Hdo Hlt. unfold CompleteStaging, executeRequest, http_NewRequest.
  rewrite Eb, Eu. cbn [try_pure]. rewrite Hv. unfold try_pure, try_bind, mbind, M_bind.
  change (header_Set _ _ _) with (callback_request uri body). rewrite Hdo.
  apply Z.ltb_lt in Hlt. rewrite Z.ltb_antisym in Hlt. apply negb_true_iff in Hlt. by rewrite Hlt.
Qed.

(** The body of a failed staging reads back as the failure and its
    reason. *)
Lemma failure_reported task :
  tc_Failed task = true →
  (body ← constructStagingResponse task; Reader.parse body)
  = Ok (JObj [("error", JObj [("id", JStr STAGING_ERROR);
      ("message", JStr (Utf8.sanitize (tc_FailureReason task)))])]).
Proof.
  intros Hf. unfold constructStagingResponse. rewrite Hf. cbn [mbind result_bind].
  by rewrite parse_print.
Qed.
End Spec.

(** ** Instances of the properties *)
Section Witnesses.
#[local] Existing Instance sample_urls.
#[local] Existing Instance range_in_order.

(** A cloud controller that answers each callback alike, and the tasks. *)
Record Callbacks := { cb_answer : Z; cb_requests : list Request; cb_deleted : list string }.

#[local] Instance callbacks_http : HttpClient Callbacks := {|
  http_url_valid url := negb (String.eqb url "");
  http_Do r := λ s, (Ret (Ok {| rs_StatusCode := cb_answer s; rs_Body := "" |}),
    {| cb_answer := cb_answer s; cb_requests := cb_requests s ++ [r];
       cb_deleted := cb_deleted s |});
  http_show _ _ := "&{}" |}.

#[local] Instance callbacks_tasks : Opi.TaskDesirer Callbacks := {|
  task_Desire _ := mret (Ok tt); task_DesireStaging _ := mret (Ok tt);
  task_Delete name := λ s, (Ret (Ok tt),
    {| cb_answer := cb_answer s; cb_requests := cb_requests s;
       cb_deleted := cb_deleted s ++ [name] |}) |}.

Definition sample_annotation : string :=
  Printer.print (JObj [("lifecycle", JStr "buildpack");
                       ("completion_callback", JStr "http://cc/done")]).

Definition sample_callback (failed : bool) : TaskCallbackResponse := {|
  tc_TaskGuid := "staging-1"; tc_Failed := failed; tc_FailureReason := "no buildpack";
  tc_Result := "{ }"; tc_Annotation := sample_annotation; tc_CreatedAt := 0 |}.

Lemma staging_completed_witness :
  CompleteStaging (sample_callback false) {| cb_answer := 200; cb_requests := []; cb_deleted := [] |}
  = (Ret (Ok tt), {| cb_answer := 200;
       cb_requests := [callback_request "http://cc/done"
         (String "{" (Printer.quote "result" +:+ ":{}}"))];
       cb_deleted := ["staging-1"] |}) ∧
  (CompleteStaging (sample_callback true)
     {| cb_answer := 503; cb_requests := []; cb_deleted := [] |}).1
  = Ret (Err (ErrorString "callback-response-unsuccessful, code: 503")).
Proof.
  split; [|by vm_compute].
  pose proof (staging_completed (sample_callback false)
    {| cb_answer := 200; cb_requests := []; cb_deleted := [] |}) as H.
  assert (constructStagingResponse (sample_callback false)
    = Ok (String "{" (Printer.quote "result" +:+ ":{}}"))) as E1 by by vm_compute.
  assert (getCallbackURI (sample_callback false) = Ok "http://cc/done") as E2 by by vm_compute.
  rewrite E1, E2 in H. exact (H _ _ eq_refl).
Defined.

Lemma failure_reported_witness :
  (body ← constructStagingResponse (sample_callback true); Reader.parse body)
  = Ok (JObj [("error", JObj [("id", JStr "StagingError"); ("message", JStr "no buildpack")])]).
Proof. exact (failure_reported (sample_callback true) eq_refl). Defined.

Lemma stage_desires_task_witness :
  Stage (S := Callbacks) {| st_Config := {| sc_CfUsername := ""; sc_CfPassword := "";
      sc_APIAddress := ""; sc_EiriniAddress := ""; sc_SkipSslValidation := false |} |} "staging-1"
    {| sr_AppId := "dora"; sr_LogGuid := "dora"; sr_Lifecycle := "docker";
       sr_LifecycleData := None; sr_CompletionCallback := "" |}
    {| cb_answer := 200; cb_requests := []; cb_deleted := [] |}
  = (Panic "nil pointer dereference", {| cb_answer := 200; cb_requests := []; cb_deleted := [] |}).
Proof.
  exact (stage_desires_task _ "staging-1"
    {| sr_AppId := "dora"; sr_LogGuid := "dora"; sr_Lifecycle := "docker";
       sr_LifecycleData := None; sr_CompletionCallback := "" |} _).
Defined.
End Witnesses.
