(* ===== verification/Sha256.v ===== *)
(** * [crypto/sha256] and [encoding/hex], as the blob store uses them

    SHA-256 of FIPS 180-4 on byte strings, with words as [N] below [2^32]. *)

From stdpp Require Import base list strings.
From Stdlib Require Import NArith Ascii Lia.
From S2P Require Import Prelude Json.

Open Scope N_scope.

Definition word (x : N) : N := x mod 2 ^ 32.
Definition add32 (x y : N) : N := word (x + y).
Definition shr (k x : N) : N := N.shiftr x k.
Definition rotr (k x : N) : N := N.lor (N.shiftr x k) (word (N.shiftl x (32 - k))).
Definition not32 (x : N) : N := N.lxor x (2 ^ 32 - 1).

Definition Ch (x y z : N) : N := N.lxor (N.land x y) (N.land (not32 x) z).
Definition Maj (x y z : N) : N := N.lxor (N.land x y) (N.lxor (N.land x z) (N.land y z)).
Definition Sum0 (x : N) : N := N.lxor (rotr 2 x) (N.lxor (rotr 13 x) (rotr 22 x)).
Definition Sum1 (x : N) : N := N.lxor (rotr 6 x) (N.lxor (rotr 11 x) (rotr 25 x)).
Definition sigma0 (x : N) : N := N.lxor (rotr 7 x) (N.lxor (rotr 18 x) (shr 3 x)).
Definition sigma1 (x : N) : N := N.lxor (rotr 17 x) (N.lxor (rotr 19 x) (shr 10 x)).

(** The constants are not a table but what FIPS 180-4 says they are: the first
    32 bits of the fractional parts of the cube roots of the first 64 primes,
    and of the square roots of the first 8. *)
Definition is_prime (p : N) : bool :=
  forallb (λ d, negb (p mod N.of_nat d =? 0)) (seq 2 (N.to_nat p - 2)).

(** 311 is the 64th prime. *)
Definition primes : list N := List.filter is_prime (N.of_nat <$> seq 2 310).

(** The greatest [r] below [2^36] with [r^3 <= n], bit by bit. *)
Definition cube_root (n : N) : N :=
  foldl (λ r b, let c := r + 2 ^ N.of_nat b in if c * c * c <=? n then c else r) 0
    (reverse (seq 0 36)).

Definition K : list N :=
  Eval vm_compute in (λ p, word (cube_root (p * 2 ^ 96))) <$> primes.

Record state := { sa : N; sb : N; sc : N; sd : N; se : N; sf : N; sg : N; sh : N }.

Definition H0 : state :=
  Eval vm_compute in
  let h i := word (N.sqrt (nth i primes 0 * 2 ^ 64)) in
  {| sa := h 0%nat; sb := h 1%nat; sc := h 2%nat; sd := h 3%nat;
     se := h 4%nat; sf := h 5%nat; sg := h 6%nat; sh := h 7%nat |}.

Definition step (s : state) (kw : N * N) : state :=
  let t1 := word (sh s + Sum1 (se s) + Ch (se s) (sf s) (sg s) + kw.1 + kw.2) in
  let t2 := word (Sum0 (sa s) + Maj (sa s) (sb s) (sc s)) in
  {| sa := add32 t1 t2; sb := sa s; sc := sb s; sd := sc s;
     se := add32 (sd s) t1; sf := se s; sg := sf s; sh := sg s |}.

(** The schedule, latest word first: [w] has at least 16 words. *)
Definition next_word (w : list N) : N :=
  word (sigma1 (nth 1 w 0) + nth 6 w 0 + sigma0 (nth 14 w 0) + nth 15 w 0).

Fixpoint schedule (n : nat) (w : list N) : list N :=
  match n with O => w | S n => schedule n (next_word w :: w) end.

Definition compress (s : state) (block : list N) : state :=
  let r := foldl step s (zip K (reverse (schedule 48 (reverse block)))) in
  {| sa := add32 (sa s) (sa r); sb := add32 (sb s) (sb r); sc := add32 (sc s) (sc r);
     sd := add32 (sd s) (sd r); se := add32 (se s) (se r); sf := add32 (sf s) (sf r);
     sg := add32 (sg s) (sg r); sh := add32 (sh s) (sh r) |}.

(** ** Bytes, words and blocks *)

Definition bytes (s : string) : list N := N_of_ascii <$> String.list_ascii_of_string s.

(** Big-endian, [n] bytes. *)
Fixpoint be_bytes (n : nat) (x : N) : list N :=
  match n with O => [] | S n => be_bytes n (x / 256) ++ [x mod 256] end.

Definition pad (s : string) : list N :=
  let l := bytes s in
  let n := N.of_nat (length l) in
  l ++ [0x80] ++ repeat 0 (N.to_nat ((119 - n mod 64) mod 64)) ++ be_bytes 8 (8 * n).

Fixpoint words (l : list N) : list N :=
  match l with
  | a :: b :: c :: d :: l => (((a * 256 + b) * 256 + c) * 256 + d) :: words l
  | _ => []
  end.

(** The blocks of 16 words; the fuel is the number of words. *)
Fixpoint blocks (fuel : nat) (l : list N) : list (list N) :=
  match fuel, l with
  | S fuel, _ :: _ => take 16 l :: blocks fuel (drop 16 l)
  | _, _ => []
  end.

Definition digest (s : string) : list N :=
  let w := words (pad s) in
  let r := foldl compress H0 (blocks (length w) w) in
  concat (be_bytes 4 <$> [sa r; sb r; sc r; sd r; se r; sf r; sg r; sh r]).

(** ** [hex.EncodeToString] *)

Definition hex_nibble (n : N) : ascii :=
  ascii_of_N (if n <? 10 then 48 + n else 87 + n).

Definition hex_byte (n : N) : string :=
  String (hex_nibble (n / 16)) (String (hex_nibble (n mod 16)) "").

Definition hex (l : list N) : string := concat_str (hex_byte <$> l).

Definition sha256_hex (s : string) : string := hex (digest s).

Close Scope N_scope.

(** ** Facts *)

Lemma be_bytes_length n x : length (be_bytes n x) = n.
Proof.
  revert x. induction n as [|n IH]; intros x; [done|]. cbn [be_bytes].
  rewrite length_app, IH. simpl. lia.
Qed.

Lemma digest_length s : length (digest s) = 32.
Proof. reflexivity. Qed.

Lemma hex_length l : String.length (hex l) = 2 * length l.
Proof.
  unfold hex. induction l as [|x l IH]; [done|]. rewrite fmap_cons, concat_str_cons, length_app_str, IH.
  simpl. lia.
Qed.

Lemma sha256_hex_length s : String.length (sha256_hex s) = 64.
Proof. unfold sha256_hex. by rewrite hex_length, digest_length. Qed.

(** Hexadecimal digits are no slashes. *)
Lemma hex_nibble_digit n : (n < 16)%N → hex_nibble n ≠ "/"%char.
Proof.
  intros Hn E. destruct n as [|p]; [done|].
  do 4 (destruct p as [p|p|]; try discriminate E); lia.
Qed.

Lemma be_bytes_small n x : Forall (λ b, b < 256)%N (be_bytes n x).
Proof.
  revert x. induction n as [|n IH]; intros x; [constructor|]. cbn [be_bytes].
  apply Forall_app. split; [apply IH|]. constructor; [|constructor]. by apply N.mod_lt.
Qed.

Lemma hex_lacks l : Forall (λ b, b < 256)%N l → lacks "/" (hex l) = true.
Proof.
  unfold hex. induction 1 as [|x l Hx _ IH]; [done|]. rewrite fmap_cons, concat_str_cons.
  rewrite lacks_app, IH, andb_true_r. unfold lacks, hex_byte.
  cbn [String.list_ascii_of_string forallb]. rewrite andb_true_r.
  apply andb_true_iff. split; apply negb_true_iff, Ascii.eqb_neq, hex_nibble_digit.
  - apply N.Div0.div_lt_upper_bound. lia.
  - by apply N.mod_lt.
Qed.

Lemma sha256_hex_lacks s : lacks "/" (sha256_hex s) = true.
Proof.
  apply hex_lacks. unfold digest. apply Forall_concat, Forall_fmap, Forall_true.
  intros x. apply be_bytes_small.
Qed.

(** Known answers: FIPS 180-4, and the test of the blob store. *)
Example sha256_abc :
  sha256_hex "abc" = "ba7816bf8f01cfea414140de5dae2223b00361a396177a9cb410ff61f20015ad".
Proof. vm_compute. reflexivity. Qed.
Example sha256_empty :
  sha256_hex "" = "e3b0c44298fc1c149afbf4c8996fb92427ae41e4649b934ca495991b7852b855".
Proof. vm_compute. reflexivity. Qed.
Example sha256_two_blocks :
  sha256_hex "abcdbcdecdefdefgefghfghighijhijkijkljklmklmnlmnomnopnopq"
  = "248d6a61d20638b8e5c026930c3e6039a33ce45964ff2167f6ecedd419db06c1".
Proof. vm_compute. reflexivity. Qed.
Example sha256_blonde :
  sha256_hex "here-is-some-content" = "e0c6189f72b0e909e963116fb71625186098e75a843abffc6f7f5ab53df8cdd3".
Proof. vm_compute. reflexivity. Qed.
