(* ===== verification/Registry.v ===== *)
(** * [registry/] and [blobondemand/]: droplets served as OCI images

    The store keeps a [bytes.Buffer] for each blob, and reading one consumes
    it.  The stager turns a droplet into a layer below [/home/vcap]; the
    manifest handler describes an image of the root file system and that
    layer. *)

From stdpp Require Import base gmap strings list relations.
From Stdlib Require Import ZArith Ascii Lia.
From S2P Require Import Prelude Json Messages Filepath.
From S2P Require Sha256.

Record BlobRef := { Digest : string; Size : Z }.

(** ** The interfaces of [registry.go] *)

Class BlobStore (S : Type) := {
  blob_Put : reader → M S (result (string * Z));
  blob_PutWithID : string → reader → M S (result (string * Z));
  blob_Has : string → M S bool;
  blob_Get : string → M S (result string)      (* what is written to [dest] *)
}.

Class DropletStore (S : Type) := {
  droplet_Get : string → M S (option BlobRef);
  droplet_Set : string → BlobRef → M S unit
}.

(** ** [blonde.go] and the droplet store: in memory

    A blob is what its buffer has not yet given. *)
Record Stores := { st_data : gmap string string; st_droplets : gmap string BlobRef }.

Definition with_data (d : gmap string string) (s : Stores) : Stores :=
  {| st_data := d; st_droplets := st_droplets s |}.

Definition blob_id (content : string) : string := "sha256:" +:+ Sha256.sha256_hex content.

(** [io.Copy] into the hash and the buffer, stored under the key if it does not
    fail. *)
Definition store_as (key : string → string) (buf : reader) : M Stores (result (string * Z)) := λ s,
  match rd_error buf with
  | Some e => (Ret (Err e), s)
  | None =>
      let id := blob_id (rd_rest buf) in
      (Ret (Ok (id, Z.of_nat (String.length (rd_rest buf)))),
       with_data (<[key id := rd_rest buf]> (st_data s)) s)
  end.

Definition Put (buf : reader) : M Stores (result (string * Z)) := store_as (λ id, id) buf.

Definition PutWithID (guid : string) (buf : reader) : M Stores (result (string * Z)) :=
  store_as (λ _, guid) buf.

Definition Has (digest : string) : M Stores bool := λ s,
  (Ret (bool_decide (is_Some (st_data s !! digest))), s).

(** [io.Copy(w, s.data[digest])] writes what is left of the buffer and leaves
    it empty; a missing buffer is a [nil] pointer. *)
Definition Get (digest : string) : M Stores (result string) := λ s,
  match st_data s !! digest with
  | Some content => (Ret (Ok content), with_data (<[digest := ""]> (st_data s)) s)
  | None => (Panic "nil pointer dereference", s)
  end.

Definition DropletGet (guid : string) : M Stores (option BlobRef) := λ s,
  (Ret (st_droplets s !! guid), s).

Definition DropletSet (guid : string) (blob : BlobRef) : M Stores unit := λ s,
  (Ret tt, {| st_data := st_data s; st_droplets := <[guid := blob]> (st_droplets s) |}).

#[global] Instance InMemoryStore : BlobStore Stores :=
  {| blob_Put := Put; blob_PutWithID := PutWithID; blob_Has := Has; blob_Get := Get |}.

#[global] Instance InMemoryDropletStore : DropletStore Stores :=
  {| droplet_Get := DropletGet; droplet_Set := DropletSet |}.

Definition NewInMemoryStore : Stores := {| st_data := ∅; st_droplets := ∅ |}.

(** ** Archives and temporary files

    [compress/gzip] and [archive/tar] are known by the entries they read and
    the bytes they write. *)
Record TarEntry := { te_Name : string; te_Meta : string; te_Body : string }.

Class Archive := {
  gzip_NewReader : string → result string;
  tar_entries : string → list TarEntry * option error;  (* up to EOF or an error *)
  tar_copy : TarEntry → option error;                   (* header and body to the layer *)
  tar_Close : list TarEntry → result string             (* the bytes of the layer *)
}.

(** A temporary file and the reader of what was written to it. *)
Class TempFiles (S : Type) := {
  tmp_TempFile : M S (result unit);
  tmp_Open : string → M S (result reader)
}.

(** ** [registry.go] *)

Definition newline : string := String "010" "".

(** [http.Error]. *)
Definition http_Error (msg : string) (code : Z) : Answer :=
  {| an_Status := code; an_ContentType := "text/plain; charset=utf-8"; an_Body := msg +:+ newline |}.

Definition home : list string := ["home"; "vcap"].
Definition homeDir : string := String "/" (join_with "/" home).

(** [hdr.Name = filepath.Join("/home/vcap", hdr.Name)]. *)
Definition relocate (e : TarEntry) : TarEntry :=
  {| te_Name := Join [homeDir; te_Name e]; te_Meta := te_Meta e; te_Body := te_Body e |}.

(** The loop over the entries of the droplet. *)
Fixpoint convert_entries `{!Archive} (entries : list TarEntry) (ending : option error)
    (layer : list TarEntry) : result (list TarEntry) :=
  match entries with
  | [] => match ending with None => Ok layer | Some e => Err e end
  | hdr :: entries =>
      let hdr := relocate hdr in
      match tar_copy hdr with
      | Some e => Err e
      | None => convert_entries entries ending (layer ++ [hdr])
      end
  end.

Definition config_json (rootfs droplet : BlobRef) : json := JObj [
  ("config", JObj [("user", JStr "vcap")]);
  ("rootfs", JObj [
    ("diff_ids", JArr [JStr (Digest rootfs); JStr (Digest droplet)]);
    ("type", JStr "layers")])].

Definition manifest_type : string := "application/vnd.docker.distribution.manifest.v2+json".

(** The members of a map are written in the order of their keys. *)
Definition manifest_json (rootfs droplet : BlobRef) (configDigest : string) (configSize : Z) : json :=
  JObj [
    ("config", JObj [
      ("digest", JStr configDigest);
      ("mediaType", JStr "application/vnd.docker.container.image.v1+json");
      ("size", JInt configSize)]);
    ("layers", JArr [
      JObj [("digest", JStr (Digest rootfs));
            ("mediaType", JStr "application/vnd.docker.image.rootfs.diff.tar");
            ("size", JInt (Size rootfs))];
      JObj [("digest", JStr (Digest droplet));
            ("mediaType", JStr "application/vnd.docker.image.rootfs.diff.tar.gzip");
            ("size", JInt (Size droplet))]]);
    ("mediaType", JStr manifest_type);
    ("schemaVersion", JInt 2)].

Section Handlers.
Context {S : Type} `{!BlobStore S, !DropletStore S, !TempFiles S, !Archive, !ErrorText}.

Definition Ping : M S Answer :=
  mret {| an_Status := StatusOK; an_ContentType := ""; an_Body := "Pong" |}.

(** A failure is answered with its text. *)
Definition or_500 {A} (c : M S (result A)) (k : A → M S Answer) : M S Answer :=
  r ← c;
  match r with
  | Ok a => k a
  | Err err => mret (http_Error (error_text err) StatusInternalServerError)
  end.

(** There is no [return] after [http.NotFound]. *)
Definition BlobServe (digest : string) : M S Answer :=
  has ← blob_Has digest;
  let found := if (has : bool) then status StatusOK
               else http_Error "404 page not found" StatusNotFound in
  r ← blob_Get digest;
  mret {| an_Status := an_Status found; an_ContentType := an_ContentType found;
          an_Body := an_Body found +:+ match r with Ok content => content | Err _ => "" end |}.

Definition ManifestServe (rootfs : BlobRef) (dropletGuid : string) : M S Answer :=
  droplet ← droplet_Get dropletGuid;
  match droplet with
  | None => throw_panic "nil pointer dereference"
  | Some droplet =>
      let config := Printer.print (config_json rootfs droplet) in
      r ← blob_Put {| rd_rest := config; rd_error := None |};
      match r with
      | Err _ => mret (http_Error "couldnt store config json for droplet" 500)
      | Ok (configDigest, configSize) =>
          mret {| an_Status := StatusOK; an_ContentType := manifest_type;
                  an_Body := Printer.print (manifest_json rootfs droplet configDigest configSize)
                    +:+ newline |}
      end
  end.

Definition StagerServe (guid body : string) : M S Answer :=
  if String.eqb guid "" then
    mret (http_Error "guid parameter is required" StatusInternalServerError)
  else
    or_500 tmp_TempFile (λ _,
    or_500 (mret (gzip_NewReader body)) (λ gz,
    let (entries, ending) := tar_entries gz in
    or_500 (mret (convert_entries entries ending [])) (λ layer,
    or_500 (mret (tar_Close layer)) (λ bytes,
    or_500 (tmp_Open bytes) (λ layerTar,
    or_500 (blob_Put layerTar) (λ '(digest, size),
    or_500 (blob_PutWithID guid (drained layerTar)) (λ _,
    _ ← droplet_Set guid {| Digest := digest; Size := size |};
    mret {| an_Status := StatusCreated; an_ContentType := ""; an_Body := digest |}))))))).

(** The routes of the router; [None] is answered by the router. *)
Definition ServeRegistry (rootfs : BlobRef) (method path form_guid body : string) :
    M S (option Answer) :=
  let seg s := negb (String.eqb s "") in
  match split_on "/" path with
  | [ ""; "v2" ] => a ← Ping; mret (Some a)
  | [ ""; "v2"; space; app; "blobs"; digest ] =>
      if seg space && seg app then
        if seg digest
        then if String.eqb method "GET" then a ← BlobServe digest; mret (Some a) else mret None
        else if String.eqb method "POST" then a ← StagerServe form_guid body; mret (Some a)
        else mret None
      else mret None
  | [ ""; "v2"; space; app; "manifests"; guid ] =>
      if seg space && seg app && seg guid
      then a ← ManifestServe rootfs guid; mret (Some a) else mret None
  | _ => mret None
  end.
End Handlers.

(** ** [cmd/registry.go]: the root file system is stored first *)
Definition start_registry (rootfsTar : reader) : M Stores (result BlobRef) :=
  r ← Put rootfsTar;
  match r with
  | Ok (rootfsDigest, rootfsSize) => mret (Ok {| Digest := rootfsDigest; Size := rootfsSize |})
  | Err e => mret (Err e)
  end.

(** ** Facts *)

Lemma relocate_within e : no_dotdot (te_Name e) = true → within homeDir (te_Name (relocate e)).
Proof. intros H. by apply (Join_within home). Qed.

Lemma convert_entries_ok `{!Archive} entries ending layer l :
  convert_entries entries ending layer = Ok l →
  ending = None ∧ l = layer ++ (relocate <$> entries).
Proof.
  revert layer. induction entries as [|hdr entries IH]; intros layer; simpl.
  - destruct ending; [done|]. intros [= <-]. by rewrite app_nil_r.
  - destruct (tar_copy _); [done|]. intros E. apply IH in E as [-> ->].
    by rewrite <- app_assoc.
Qed.

Lemma blob_id_length content : String.length (blob_id content) = 71.
Proof. unfold blob_id. rewrite length_app_str, Sha256.sha256_hex_length. done. Qed.

Section Properties.
Context `{!TempFiles Stores, !Archive, !ErrorText}.
Implicit Types (s : Stores).

(** Temporary files do not touch the stores, and give back what was written. *)
Definition temp_files_work : Prop :=
  ∀ s, tmp_TempFile s = (Ret (Ok tt), s) ∧
  ∀ bytes, tmp_Open bytes s = (Ret (Ok {| rd_rest := bytes; rd_error := None |}), s).

(** The layer of a droplet. *)
Definition droplet_layer (body : string) : result string :=
  gz ← gzip_NewReader body;
  let (entries, ending) := tar_entries gz in
  layer ← convert_entries entries ending [];
  tar_Close layer.

(** A droplet whose archive reads is stored as a layer under the digest
    of its bytes, and known by its guid; the answer is 201 with the digest.
    The blob stored under the guid itself is empty, for the layer had been
    read to its end. *)
Lemma droplet_is_stored guid body layer s :
  temp_files_work → guid ≠ "" → droplet_layer body = Ok layer →
  let id := blob_id layer in
  StagerServe guid body s
  = (Ret {| an_Status := StatusCreated; an_ContentType := ""; an_Body := id |},
     {| st_data := <[guid := ""]> (<[id := layer]> (st_data s));
        st_droplets := <[guid := {| Digest := id; Size := Z.of_nat (String.length layer) |}]>
          (st_droplets s) |}).
Proof.
  intros Htmp Hg Hl id. unfold droplet_layer in Hl. unfold StagerServe.
  destruct (String.eqb_spec guid ""); [done|]. destruct (Htmp s) as [E1 E2].
  unfold or_500, mbind, M_bind, mret, M_ret. rewrite E1.
  destruct (gzip_NewReader body) as [gz|]; [|done]. cbn [mbind result_bind] in Hl.
  destruct (tar_entries gz) as [entries ending].
  destruct (convert_entries entries ending []) as [l|]; [|done]. cbn [mbind result_bind] in Hl.
  rewrite Hl, E2. reflexivity.
Qed.

(** Every file of a stored layer lies below [/home/vcap], if no name in
    the droplet climbs with [..]; and the entries are those of the droplet, in
    order, with their contents. *)
Lemma layer_below_home entries ending l :
  convert_entries entries ending [] = Ok l →
  Forall (λ e, no_dotdot (te_Name e) = true) entries →
  Forall (λ e, within homeDir (te_Name e)) l ∧ te_Body <$> l = te_Body <$> entries.
Proof.
  intros E Hn. apply convert_entries_ok in E as [_ ->]. split.
  - apply Forall_fmap. eapply Forall_impl; [exact Hn|]. intros e. apply relocate_within.
  - rewrite app_nil_l, <- list_fmap_compose. done.
Qed.

(** A blob is served with what is left of it, and is empty afterwards, still
    with status 200. *)
Definition blob_answer (content : string) : Answer :=
  {| an_Status := StatusOK; an_ContentType := ""; an_Body := content |}.

Lemma blob_served digest content s :
  st_data s !! digest = Some content →
  BlobServe digest s = (Ret (blob_answer content), with_data (<[digest := ""]> (st_data s)) s).
Proof.
  intros E. unfold BlobServe, blob_Has, blob_Get. cbn [InMemoryStore].
  unfold mbind, M_bind, mret, M_ret, Has, Get.
  rewrite bool_decide_eq_true_2 by (rewrite E; by eexists). rewrite E. reflexivity.
Qed.

(** A request for a blob that is not stored, or for the manifest of a
    droplet that is not known, panics in its handler: the 404 of the first is
    never sent. *)
Lemma unknown_panics digest guid rootfs s :
  st_data s !! digest = None → st_droplets s !! guid = None →
  BlobServe digest s = (Panic "nil pointer dereference", s) ∧
  ManifestServe rootfs guid s = (Panic "nil pointer dereference", s).
Proof.
  intros E1 E2. unfold BlobServe, ManifestServe, mbind, M_bind, blob_Has, blob_Get, droplet_Get.
  cbn [InMemoryStore InMemoryDropletStore]. unfold Has, Get, DropletGet. by rewrite E1, E2.
Qed.

(** The manifest of a known droplet reads back as an image of two layers,
    the root file system and the droplet, with a config that is stored, under
    the digest and of the size the manifest gives, and that lists the two
    digests in the same order. *)
Definition config_text (rootfs droplet : BlobRef) : string :=
  Printer.print (config_json rootfs droplet).

Definition manifest_answer (rootfs droplet : BlobRef) : Answer :=
  {| an_Status := StatusOK; an_ContentType := manifest_type;
     an_Body := Printer.print (manifest_json rootfs droplet (blob_id (config_text rootfs droplet))
       (Z.of_nat (String.length (config_text rootfs droplet)))) +:+ newline |}.

Lemma manifest_served guid rootfs droplet s :
  st_droplets s !! guid = Some droplet →
  ManifestServe rootfs guid s
  = (Ret (manifest_answer rootfs droplet),
     with_data (<[blob_id (config_text rootfs droplet) := config_text rootfs droplet]>
       (st_data s)) s).
Proof.
  intros E. unfold ManifestServe, mbind, M_bind, droplet_Get.
  cbn [InMemoryDropletStore]. unfold DropletGet. rewrite E. reflexivity.
Qed.

Lemma manifest_describes_image rootfs droplet :
  Reader.parse (an_Body (manifest_answer rootfs droplet))
  = Ok (clean (manifest_json rootfs droplet (blob_id (config_text rootfs droplet))
      (Z.of_nat (String.length (config_text rootfs droplet))))) ∧
  Reader.parse (config_text rootfs droplet) = Ok (clean (config_json rootfs droplet)).
Proof.
  split; [|by apply parse_print]. apply parse_print_line. unfold manifest_json, JInt.
  cbn [numbers_ok forallb snd]. by rewrite !int_text_ok.
Qed.
End Properties.

(** ** The invariant of the stores *)

(** Every blob is empty, or its key is its digest; the root file system and
    the layers of all known droplets have a blob. *)
Record registry_ok (rootfs : BlobRef) (s : Stores) : Prop := {
  ok_addressed : ∀ key content,
    st_data s !! key = Some content → content = "" ∨ key = blob_id content;
  ok_rootfs : is_Some (st_data s !! Digest rootfs);
  ok_droplets : ∀ guid b, st_droplets s !! guid = Some b → is_Some (st_data s !! Digest b)
}.

(** Blobs are emptied, but never go. *)
Definition grows (s s' : Stores) : Prop :=
  ∀ key, is_Some (st_data s !! key) → is_Some (st_data s' !! key).

#[global] Instance grows_preorder : PreOrder grows.
Proof. split; [by intros s key|intros s1 s2 s3 H1 H2 key Hk; by apply H2, H1]. Qed.

(** What other requests may do to the stores at any time. *)
Definition keeps (rootfs : BlobRef) (f : Stores → Stores) : Prop :=
  ∀ s, registry_ok rootfs s → registry_ok rootfs (f s) ∧ grows s (f s).

(** ** Requests at the same time

    The server handles each request in a goroutine of its own, and they share
    the stores: here one of the others may act before each operation. *)
Record Busy := { bz_now : Stores; bz_others : list (Stores → Stores) }.

Definition amid {A} (c : M Stores A) : M Busy A := λ b,
  let s := match bz_others b with f :: _ => f (bz_now b) | [] => bz_now b end in
  let '(o, s') := c s in (o, {| bz_now := s'; bz_others := tail (bz_others b) |}).

#[global] Instance BusyStore : BlobStore Busy := {|
  blob_Put r := amid (Put r); blob_PutWithID guid r := amid (PutWithID guid r);
  blob_Has digest := amid (Has digest); blob_Get digest := amid (Get digest) |}.

#[global] Instance BusyDropletStore : DropletStore Busy := {|
  droplet_Get guid := amid (DropletGet guid);
  droplet_Set guid blob := amid (DropletSet guid blob) |}.

Section Invariant.
Context `{!TempFiles Busy, !Archive, !ErrorText}.
Variable rootfs : BlobRef.
Implicit Types (s : Stores).

(** Temporary files do not touch the stores. *)
Variable tmp_quiet : ∀ b, (tmp_TempFile b).2 = b ∧ ∀ bytes, (tmp_Open bytes b).2 = b.

#[local] Instance busy_observed : Observed Busy Stores :=
  {| view := bz_now; good b := registry_ok rootfs (bz_now b) ∧ Forall (keeps rootfs) (bz_others b) |}.

(** An operation keeps the invariant among others when it does alone, from
    every state that others may have made. *)
Lemma wp_amid {A} (c : M Stores A) (Q : outcome A → Stores → Prop) s :
  (∀ s1, registry_ok rootfs s1 → grows s s1 →
     registry_ok rootfs (c s1).2 ∧ Q (c s1).1 (c s1).2) → wp (amid c) Q s.
Proof.
  intros Hc b [Hb Ho] <-. unfold amid. cbn [view busy_observed].
  assert (∀ s1, registry_ok rootfs s1 → grows (bz_now b) s1 →
    Forall (keeps rootfs) (tail (bz_others b)) →
    let '(o, s') := c s1 in (registry_ok rootfs s' ∧ Forall (keeps rootfs) (tail (bz_others b))) ∧ Q o s')
    as Hs1.
  { intros s1 H1 H2 H3. destruct (Hc s1 H1 H2) as [? ?]. by destruct (c s1). }
  destruct (bz_others b) as [|f fs]; cbn [tail] in *.
  - specialize (Hs1 (bz_now b) Hb ltac:(done) Ho). by destruct (c (bz_now b)).
  - apply Forall_cons_1 in Ho as [Hf Hfs]. destruct (Hf _ Hb) as [H1 H2].
    specialize (Hs1 _ H1 H2 Hfs). by destruct (c (f (bz_now b))).
Qed.

Lemma insert_ok key content s :
  content = "" ∨ key = blob_id content → registry_ok rootfs s →
  registry_ok rootfs (with_data (<[key := content]> (st_data s)) s).
Proof.
  intros Hc [Ha Hr Hd]. split; cbn [st_data st_droplets with_data].
  - intros k c'. rewrite lookup_insert. case_decide; [by intros [= <-]; subst|apply Ha].
  - rewrite lookup_insert. by case_decide.
  - intros g b Hb. rewrite lookup_insert. case_decide; [done|by eapply Hd].
Qed.

Lemma insert_grows key content s : grows s (with_data (<[key := content]> (st_data s)) s).
Proof. intros k Hk. cbn [st_data with_data]. rewrite lookup_insert. by case_decide. Qed.

Lemma Put_keeps r s :
  wp (blob_Put r) (λ o v', grows s v' ∧ ∀ id n, o = Ret (Ok (id, n)) → is_Some (st_data v' !! id)) s.
Proof.
  apply wp_amid. intros s1 Hs Hg. unfold Put, store_as. destruct (rd_error r); [by split|].
  split; [by apply insert_ok; [right|]|]. split; [by etrans; [|apply insert_grows]|].
  intros id n [= <- _]. cbn [snd st_data with_data]. rewrite lookup_insert_eq. by eexists.
Qed.

(** The second reading of a layer gives nothing. *)
Lemma PutWithID_keeps guid r s : wp (blob_PutWithID guid (drained r)) (λ _ v', grows s v') s.
Proof.
  apply wp_amid. intros s1 Hs Hg. unfold PutWithID, store_as.
  destruct (rd_error (drained r)); [by split|]. split; [by apply insert_ok; [left|]|].
  by etrans; [|apply insert_grows].
Qed.

Lemma Set_keeps guid b s :
  is_Some (st_data s !! Digest b) → wp (droplet_Set guid b) (λ _ v', grows s v') s.
Proof.
  intros Hb. apply wp_amid. intros [data droplets] [Ha Hr Hd] Hg. split; [|exact Hg]. split; [done..|].
  cbn. intros g b'. rewrite lookup_insert. case_decide; [intros [= <-]; by apply Hg|apply Hd].
Qed.

Lemma Get_keeps digest s :
  wp (blob_Get digest) (λ o v', grows s v' ∧ (is_Some (st_data s !! digest) → ¬ panics o) ∧
    ∀ content, o = Ret (Ok content) → content = "" ∨ digest = blob_id content) s.
Proof.
  apply wp_amid. intros s1 Hs Hg. unfold Get.
  destruct (st_data s1 !! digest) as [content|] eqn:E.
  - split; [by apply insert_ok; [left|]|]. split_and!; [by etrans; [|apply insert_grows]|by intros ? ?|].
    intros c [= <-]. by apply (ok_addressed _ _ Hs).
  - split; [done|]. split_and!; [done| |done]. intros Hd _. apply Hg in Hd. rewrite E in Hd. by destruct Hd.
Qed.

Lemma Has_keeps digest s :
  wp (blob_Has digest) (λ o v', grows s v' ∧ ∃ has : bool, o = Ret has ∧
    (has = true → is_Some (st_data v' !! digest))) s.
Proof.
  apply wp_amid. intros s1 Hs Hg. unfold Has. split; [done|]. split; [done|].
  eexists. split; [done|]. by intros ?%bool_decide_eq_true.
Qed.

Lemma DropletGet_keeps guid s : wp (droplet_Get guid) (λ o v', grows s v' ∧ ∃ b, o = Ret b) s.
Proof. apply wp_amid. intros s1 Hs Hg. split; [done|]. split; [done|]. by eexists. Qed.

Lemma wp_or_500 {A} (c : M Busy (result A)) k (Q : outcome Answer → Stores → Prop) s :
  wp c (λ o v', match o with
    | Ret (Ok a) => wp (k a) Q v'
    | Ret (Err e) => Q (Ret (http_Error (error_text e) StatusInternalServerError)) v'
    | Panic why => Q (Panic why) v'
    | Hang => Q Hang v'
    end) s → wp (or_500 c k) Q s.
Proof.
  intros Hc. apply wp_bind. eapply wp_mono; [exact Hc|]. intros [[a|e]|why|] v'; [done|..|done|done].
  apply wp_ret.
Qed.

Lemma wp_quiet {A} (c : M Busy A) (Q : outcome A → Stores → Prop) s :
  (∀ b, (c b).2 = b) → (∀ o, Q o s) → wp c Q s.
Proof. intros E HQ b Hb <-. rewrite E. by split. Qed.

(** Keys that are there stay, whatever is done next. *)
Lemma wp_grows {A B} (c : M Busy A) (k : A → M Busy B) s (P : outcome A → Stores → Prop) :
  wp c (λ o v', grows s v' ∧ P o v') s →
  (∀ a v', grows s v' → P (Ret a) v' → wp (k a) (λ _ v2, grows v' v2) v') →
  wp (c ≫= k) (λ _ v2, grows s v2) s.
Proof.
  intros Hc Hk. apply wp_bind. eapply wp_mono; [exact Hc|]. intros [a|why|] v' [Hg HP]; [|done..].
  eapply wp_mono; [by apply Hk|]. intros o v2 Hg2. by etrans.
Qed.

Lemma StagerServe_keeps guid body s : wp (StagerServe guid body) (λ _ v', grows s v') s.
Proof.
  unfold StagerServe. destruct (String.eqb guid ""); [by apply wp_ret|].
  apply wp_or_500, wp_quiet; [apply tmp_quiet|]. intros [[[]|e]|why|]; [|done..].
  apply wp_or_500, wp_ret. destruct (gzip_NewReader body) as [gz|e]; [|done].
  destruct (tar_entries gz) as [entries ending].
  apply wp_or_500, wp_ret. destruct (convert_entries entries ending []) as [l|e]; [|done].
  apply wp_or_500, wp_ret. destruct (tar_Close l) as [bytes|e]; [|done].
  apply wp_or_500, wp_quiet; [intros b; apply tmp_quiet|]. intros [[layerTar|e]|why|]; [|done..].
  eapply wp_grows; [apply Put_keeps|]. intros [[id n]|e] v1 _ H1; [|by apply wp_ret].
  specialize (H1 id n eq_refl).
  apply (wp_grows _ _ _ (λ _ _, True)); [eapply wp_mono; [apply PutWithID_keeps|done]|].
  intros [x|e] v2 Hg2 _; [|by apply wp_ret].
  apply (wp_grows _ _ _ (λ _ _, True)); [eapply wp_mono; [by apply Set_keeps, Hg2|done]|].
  intros ? v3 _ _. by apply wp_ret.
Qed.

(** A blob that is found is still there when it is read. *)
Lemma BlobServe_keeps digest s :
  wp (BlobServe digest) (λ o v', grows s v' ∧ (is_Some (st_data s !! digest) → ¬ panics o) ∧
    ∀ a, o = Ret a → an_Status a = StatusOK → an_Body a = "" ∨ digest = blob_id (an_Body a)) s.
Proof.
  unfold BlobServe. apply wp_bind. eapply wp_mono; [apply Has_keeps|].
  intros o v1 (Hg1 & has & -> & Hhas). cbv beta iota.
  apply wp_bind. eapply wp_mono; [apply Get_keeps|]. intros o v2 (Hg2 & Hp & Hc).
  assert (grows s v2) as Hg by by etrans.
  destruct o as [[content|e]|why|]; [apply wp_ret..| |]; (split_and!; [done| |]); try by intros ? ?.
  - intros a [= <-]. destruct has; cbn; [intros _; by apply Hc|done].
  - intros a [= <-]. destruct has; cbn; [by left|done].
  - intros Hd. by apply Hp, Hg1.
Qed.

Lemma ManifestServe_keeps guid s : wp (ManifestServe rootfs guid) (λ _ v', grows s v') s.
Proof.
  unfold ManifestServe. eapply wp_grows; [apply DropletGet_keeps|].
  intros [droplet|] v1 _ _; [|by apply wp_panic].
  eapply wp_grows; [apply Put_keeps|]. intros [[id n]|e] v2 _ _; by apply wp_ret.
Qed.

Lemma ServeRegistry_keeps method path form body s :
  wp (ServeRegistry rootfs method path form body) (λ _ v', grows s v') s.
Proof.
  assert (∀ c : M Busy Answer, wp c (λ _ v', grows s v') s →
    wp (a ← c; mret (Some a)) (λ _ v', grows s v') s) as Hsome.
  { intros c Hc. apply (wp_grows _ _ _ (λ _ _, True)); [by eapply wp_mono; [exact Hc|]|].
    intros a v' _ _. by apply wp_ret. }
  assert (wp (mret (None : option Answer)) (λ _ v', grows s v') s) as Hnone by by apply wp_ret.
  unfold ServeRegistry. repeat case_match; auto; apply Hsome;
    first [by apply wp_ret|apply ManifestServe_keeps|apply StagerServe_keeps
          |eapply wp_mono; [apply BlobServe_keeps|]; by intros ? ? [? _]].
Qed.

(** The effect of a request that others interrupt. *)
Definition effect (method path form body : string) (others : list (Stores → Stores)) (s : Stores) :
    Stores :=
  bz_now (ServeRegistry rootfs method path form body {| bz_now := s; bz_others := others |}).2.

(** So a request may be one of the others, again among others. *)
Lemma effect_keeps method path form body others :
  Forall (keeps rootfs) others → keeps rootfs (effect method path form body others).
Proof.
  intros Ho s Hs. by destruct (ServeRegistry_keeps method path form body s
    {| bz_now := s; bz_others := others |} (conj Hs Ho) eq_refl) as [[? _] ?].
Qed.

(** One request, however it ends and whatever others do meanwhile. *)
Definition serves (s s' : Stores) : Prop :=
  ∃ method path form body others,
    Forall (keeps rootfs) others ∧ effect method path form body others s = s'.

Lemma start_ok rootfsTar s0 :
  start_registry rootfsTar NewInMemoryStore = (Ret (Ok rootfs), s0) → registry_ok rootfs s0.
Proof.
  unfold start_registry, Put, store_as, mbind, M_bind, mret, M_ret.
  destruct (rd_error rootfsTar) as [e|]; [done|]. intros [= <- <-].
  split; cbn [st_data st_droplets with_data NewInMemoryStore Digest].
  - intros k c. rewrite lookup_insert. case_decide; [intros [= <-]; subst; by right|].
    by rewrite lookup_empty.
  - rewrite lookup_insert_eq. by eexists.
  - intros g b. by rewrite lookup_empty.
Qed.

(** C17: however many requests a registry has answered since it stored the
    root file system, and whatever other requests do between their operations,
    every blob is empty or stored under its digest, the root file system and
    every known droplet have one; so what is served for a digest with status
    200 is nothing, or has that digest, and a blob that is stored is served. *)
Theorem registry_addressed rootfsTar s0 s digest others :
  start_registry rootfsTar NewInMemoryStore = (Ret (Ok rootfs), s0) → rtc serves s0 s →
  Forall (keeps rootfs) others →
  registry_ok rootfs s ∧
  let o := (BlobServe digest {| bz_now := s; bz_others := others |}).1 in
  (is_Some (st_data s !! digest) → ¬ panics o) ∧
  ∀ a, o = Ret a → an_Status a = StatusOK → an_Body a = "" ∨ digest = blob_id (an_Body a).
Proof.
  intros Hstart Hrun Ho. assert (registry_ok rootfs s) as Hok.
  { apply start_ok in Hstart. induction Hrun as [s|s1 s2 s3 Hstep _ IH]; [done|]. apply IH.
    destruct Hstep as (method & path & form & body & fs & Hfs & <-). by apply effect_keeps. }
  split; [done|]. by destruct (BlobServe_keeps digest s {| bz_now := s; bz_others := others |}
    (conj Hok Ho) eq_refl) as (_ & _ & ?).
Qed.
End Invariant.

(** ** Instances of the properties *)
Section Witnesses.

(** An archive of one file, whose text is its body. *)
#[local] Instance sample_archive : Archive := {|
  gzip_NewReader s := if String.eqb s "" then Err (ExternalError "EOF") else Ok s;
  tar_entries s := ([{| te_Name := "./app/Procfile"; te_Meta := ""; te_Body := s |}], None);
  tar_copy _ := None;
  tar_Close l := Ok (concat_str ((λ e, te_Name e +:+ "=" +:+ te_Body e) <$> l)) |}.

#[local] Instance sample_temp : TempFiles Stores := {|
  tmp_TempFile := mret (Ok tt);
  tmp_Open bytes := mret (Ok {| rd_rest := bytes; rd_error := None |}) |}.

#[local] Instance sample_texts_ : ErrorText := {| error_text e := "failed" |}.

Lemma sample_temp_works : temp_files_work.
Proof. intros s. split; [done|]. by intros bytes. Qed.

Definition sample_layer : string := "/home/vcap/app/Procfile=web".

Definition sample_entry (name : string) : TarEntry :=
  {| te_Name := name; te_Meta := ""; te_Body := "web" |}.

Lemma layer_below_home_witness :
  convert_entries [sample_entry "./app/Procfile"] None []
  = Ok [sample_entry "/home/vcap/app/Procfile"] ∧
  Forall (λ e, within homeDir (te_Name e)) [sample_entry "/home/vcap/app/Procfile"] ∧
  Join [homeDir; "../../etc/passwd"] = "/etc/passwd".
Proof.
  assert (convert_entries [sample_entry "./app/Procfile"] None []
    = Ok [sample_entry "/home/vcap/app/Procfile"]) as E by by vm_compute.
  split; [exact E|]. split; [|by vm_compute].
  apply (layer_below_home _ _ _ E). constructor; [by vm_compute|constructor].
Defined.

Definition one_blob : Stores := {| st_data := {[ "sha256:x" := "layer" ]}; st_droplets := ∅ |}.

Lemma unknown_panics_witness :
  BlobServe "sha256:y" one_blob = (Panic "nil pointer dereference", one_blob) ∧
  ManifestServe {| Digest := "r"; Size := 1 |} "droplet-1" one_blob
  = (Panic "nil pointer dereference", one_blob).
Proof.
  exact (unknown_panics "sha256:y" "droplet-1" {| Digest := "r"; Size := 1 |} one_blob
    eq_refl eq_refl).
Defined.

#[local] Instance sample_temp_busy : TempFiles Busy := {|
  tmp_TempFile := mret (Ok tt);
  tmp_Open bytes := mret (Ok {| rd_rest := bytes; rd_error := None |}) |}.

Lemma sample_temp_quiet (b : Busy) :
  (tmp_TempFile b).2 = b ∧ ∀ bytes, (tmp_Open bytes b).2 = b.
Proof. by split. Qed.

Definition root_tar : reader := {| rd_rest := "root"; rd_error := None |}.
Definition root_blob : BlobRef := {| Digest := blob_id "root"; Size := 4 |}.
Definition started : Stores := with_data (<[blob_id "root" := "root"]> ∅) NewInMemoryStore.

Lemma root_started : start_registry root_tar NewInMemoryStore = (Ret (Ok root_blob), started).
Proof. reflexivity. Qed.

(** A droplet is pushed while another one is: the registry has both layers,
    under their digests. *)
Definition push (guid text : string) (others : list (Stores → Stores)) : Stores → Stores :=
  effect root_blob "POST" "/v2/cloudfoundry/app/blobs/" guid text others.

Definition pushed : Stores := push "droplet-1" "web" [id; push "droplet-2" "worker" []] started.

Lemma others_keep : Forall (keeps root_blob) [id; push "droplet-2" "worker" []].
Proof.
  constructor; [by intros s Hs|]. constructor; [|constructor].
  by apply (effect_keeps root_blob sample_temp_quiet).
Qed.

Lemma registry_addressed_witness :
  registry_ok root_blob pushed ∧ st_data pushed !! blob_id sample_layer = Some sample_layer ∧
  size (st_droplets pushed) = 2%nat.
Proof.
  split; [|split; by vm_compute].
  assert (rtc (serves root_blob) started pushed) as Hrun.
  { apply rtc_once. eexists _, _, _, _, _. split; [exact others_keep|reflexivity]. }
  exact (proj1 (registry_addressed root_blob sample_temp_quiet root_tar started pushed "" []
    root_started Hrun (Forall_nil_2 _))).
Defined.
End Witnesses.
