(* ===== verification/Droplets.v ===== *)
(** * From a droplet to its image

    The converter posts an application's droplet to the registry and names an
    image; the container runtime pulls that image from the same registry: the
    manifest of the tag, then the blobs of the digests it lists. *)

From stdpp Require Import base gmap strings list.
From Stdlib Require Import ZArith Ascii Lia.
From S2P Require Import Prelude Json Opi Messages Filepath Bifrost Registry.
From S2P Require Sha256.

(** ** Names that URLs and patterns leave alone *)

Definition unreserved (c : ascii) : bool :=
  let n := N_of_ascii c in
  ((48 <=? n) && (n <=? 57) || (65 <=? n) && (n <=? 90) || (97 <=? n) && (n <=? 122)
   || (n =? 45) || (n =? 46) || (n =? 95) || (n =? 126))%N.

(** A name that is one segment of a path, and needs no escape. *)
Definition url_segment (s : string) : bool :=
  is_name s && forallb unreserved (String.list_ascii_of_string s).

Lemma unreserved_not c d : unreserved c = true → unreserved d = false → (c =? d)%char = false.
Proof. intros Hc Hd. apply Ascii.eqb_neq. intros ->. congruence. Qed.

Lemma unreserved_lacks d s :
  unreserved d = false → forallb unreserved (String.list_ascii_of_string s) = true →
  lacks d s = true.
Proof.
  intros Hd. unfold lacks. induction s as [|c s IH]; [done|].
  cbn [String.list_ascii_of_string forallb]. intros [Hc Hs]%andb_true_iff.
  by rewrite (unreserved_not c d), IH.
Qed.

Lemma segment_lacks s : url_segment s = true → lacks "/" s = true.
Proof. intros [_ H]%andb_true_iff. by apply unreserved_lacks. Qed.

Lemma segment_nonempty s : url_segment s = true → String.eqb s "" = false.
Proof.
  intros [H _]%andb_true_iff. unfold is_name in H.
  apply negb_true_iff, orb_false_iff in H as [H _]. by apply orb_false_iff in H as [H _].
Qed.

(** A digest is no such name: it has a colon. *)
Lemma blob_id_no_segment content : url_segment (blob_id content) = false.
Proof.
  unfold url_segment, blob_id. generalize (Sha256.sha256_hex content). intros h.
  apply andb_false_iff. right. reflexivity.
Qed.

Lemma blob_id_lacks content : lacks "/" (blob_id content) = true.
Proof. unfold blob_id. rewrite lacks_app. apply andb_true_iff. split; [reflexivity|].
  apply Sha256.sha256_hex_lacks. Qed.

#[local] Opaque blob_id.

(** ** Requests to the registry *)

Definition blobs_path (space app : string) : string :=
  "/v2/" +:+ space +:+ "/" +:+ app +:+ "/blobs/".

(** What a container runtime asks for to pull [repository:tag]. *)
Definition manifest_path (repository tag : string) : string :=
  "/v2/" +:+ repository +:+ "/manifests/" +:+ tag.
Definition blob_path (repository digest : string) : string :=
  "/v2/" +:+ repository +:+ "/blobs/" +:+ digest.

(** The repository in the names of the converter's images. *)
Definition app_repository : string := "cloudfoundry/app-name".

Section Pull.
Context `{!TempFiles Stores, !Archive, !ErrorText}.
Variable rootfs : BlobRef.
Implicit Types (s : Stores).

Abbreviation registry := (ServeRegistry (S := Stores) rootfs).

Lemma serve_staging space app guid body s :
  url_segment space = true → url_segment app = true →
  registry "POST" (blobs_path space app) guid body s
  = (a ← StagerServe guid body; mret (Some a)) s.
Proof.
  intros Hs Ha. unfold ServeRegistry, blobs_path.
  change (split_on "/" ("/v2/" +:+ space +:+ "/" +:+ app +:+ "/blobs/"))
    with ("" :: "v2" :: split_on "/" (space +:+ String "/" (app +:+ String "/" "blobs/"))).
  rewrite !split_on_app by by apply segment_lacks.
  cbn. by rewrite !segment_nonempty.
Qed.

Lemma serve_manifest tag s :
  url_segment tag = true →
  registry "GET" (manifest_path app_repository tag) "" "" s
  = (a ← ManifestServe rootfs tag; mret (Some a)) s.
Proof.
  intros Ht. unfold ServeRegistry.
  change (split_on "/" (manifest_path app_repository tag))
    with ("" :: "v2" :: "cloudfoundry" :: "app-name" :: "manifests" :: split_on "/" tag).
  rewrite split_on_lacks by by apply segment_lacks. cbn. by rewrite segment_nonempty.
Qed.

Lemma serve_blob content s :
  registry "GET" (blob_path app_repository (blob_id content)) "" "" s
  = (a ← BlobServe (blob_id content); mret (Some a)) s.
Proof.
  unfold ServeRegistry.
  change (split_on "/" (blob_path app_repository (blob_id content)))
    with ("" :: "v2" :: "cloudfoundry" :: "app-name" :: "blobs" :: split_on "/" (blob_id content)).
  by rewrite split_on_lacks by apply blob_id_lacks.
Qed.

(** Blobs, one after the other. *)
Fixpoint fetch (digests : list string) : M Stores (list (option Answer)) :=
  match digests with
  | [] => mret []
  | d :: digests =>
      a ← registry "GET" (blob_path app_repository d) "" "";
      l ← fetch digests; mret (a :: l)
  end.

(** An image: its manifest, and the blobs of the config and the layers. *)
Definition pull (tag : string) (digests : list string) :
    M Stores (option Answer * list (option Answer)) :=
  m ← registry "GET" (manifest_path app_repository tag) "" "";
  l ← fetch digests; mret (m, l).

(** What blobs, named by the contents they had, have left. *)
Definition hold (l : list (string * string)) s : Prop :=
  Forall (λ cr, st_data s !! blob_id cr.1 = Some cr.2) l.

Definition keys (l : list (string * string)) : list string := (λ cr, blob_id cr.1) <$> l.

Definition drained_blobs (l : list (string * string)) : list (string * string) :=
  (λ cr, (cr.1, "")) <$> l.

Lemma hold_other l s s' :
  (∀ d, d ∈ keys l → st_data s' !! d = st_data s !! d) → hold l s → hold l s'.
Proof.
  intros Hd. unfold hold. rewrite !Forall_forall. intros Hl cr Hin. rewrite Hd; [by apply Hl|].
  apply list_elem_of_fmap. by exists cr.
Qed.

Lemma fetch_spec l s :
  NoDup (keys l) → hold l s →
  ∃ s', fetch (keys l) s = (Ret ((λ cr, Some (blob_answer cr.2)) <$> l), s') ∧
    hold (drained_blobs l) s' ∧ st_droplets s' = st_droplets s ∧
    ∀ d, d ∉ keys l → st_data s' !! d = st_data s !! d.
Proof.
  revert s. induction l as [|[c r] l IH]; intros s; [intros _ _; exists s; by split_and!; [|constructor|..]|].
  unfold keys. rewrite fmap_cons. fold (keys l). cbn [fst]. intros [Hc Hnd]%NoDup_cons Hl.
  apply Forall_cons in Hl as [Hr Hl]. cbn [fst snd] in Hr.
  pose (s1 := with_data (<[blob_id c := ""]> (st_data s)) s).
  assert (∀ d, d ≠ blob_id c → st_data s1 !! d = st_data s !! d) as Hs1
    by (intros d Hd; by apply lookup_insert_ne).
  destruct (IH s1 Hnd) as (s' & E & Hdr & Hdrop & Hoth).
  { eapply hold_other; [|exact Hl]. intros d Hd. apply Hs1. by intros ->. }
  exists s'. split_and!.
  - cbn [fetch]. unfold mbind, M_bind. rewrite serve_blob. unfold mbind, M_bind.
    rewrite (blob_served _ _ _ Hr). cbn [mret M_ret]. fold s1. by rewrite E.
  - constructor; [|done]. cbn [fst snd]. rewrite Hoth by done. apply lookup_insert_eq.
  - done.
  - intros d [Hd Hd']%not_elem_of_cons. by rewrite Hoth, Hs1.
Qed.

(** Pulling a droplet's image gives all that its blobs have left. *)
Lemma pull_spec tag droplet l s :
  let config := config_text rootfs droplet in
  url_segment tag = true → st_droplets s !! tag = Some droplet →
  NoDup (keys ((config, config) :: l)) → hold l s →
  ∃ s', pull tag (keys ((config, config) :: l)) s
    = (Ret (Some (manifest_answer rootfs droplet),
            Some (blob_answer config) :: ((λ cr, Some (blob_answer cr.2)) <$> l)), s') ∧
    hold (drained_blobs l) s' ∧ st_droplets s' = st_droplets s.
Proof.
  intros config Ht Hd Hnd Hl.
  pose (s1 := with_data (<[blob_id config := config]> (st_data s)) s).
  destruct (fetch_spec ((config, config) :: l) s1 Hnd) as (s' & E & Hh & Hdr & _).
  { constructor; [apply lookup_insert_eq|]. eapply hold_other; [|exact Hl].
    intros d Hin. apply lookup_insert_ne. apply NoDup_cons in Hnd as [Hno _]. by intros <-. }
  exists s'. split_and!; [|by inversion Hh|done].
  unfold pull, mbind, M_bind. rewrite serve_manifest by done. unfold mbind, M_bind.
  rewrite (manifest_served _ _ droplet) by done. cbn [mret M_ret]. fold config s1. by rewrite E.
Qed.
End Pull.

(** ** The converter and the registry *)
Section Staged.
Context `{!TempFiles Stores, !Archive, !ErrorText, !CfClient Stores, !HttpClient Stores, !MapRange}.
Context (c : DropletToImageConverter) (rootfs : BlobRef).
Implicit Types (s : Stores).

(** The converter's client reaches this registry: the URLs it builds are
    valid, and what the registry answers comes back. *)
Definition reaches_registry : Prop := ∀ space app guid,
  url_segment space = true → url_segment app = true → url_segment guid = true →
  let url := registryStageURI (cv_registryURL c) space app guid in
  http_url_valid url = true ∧
  ∀ header body len s a s',
    ServeRegistry rootfs "POST" (blobs_path space app) guid body s = (Ret (Some a), s') →
    http_Do {| rq_Method := "POST"; rq_URL := url; rq_Header := header; rq_Body := body;
               rq_ContentLength := len |} s
    = (Ret (Ok {| rs_StatusCode := an_Status a; rs_Body := an_Body a |}), s').

(** C18: a droplet's image can be pulled, once.  For a droplet whose archive
    reads, the converter names an image under which the registry then serves a
    manifest that describes the config and the two layers; the blobs it lists
    are served with what the root file system's has left and with all of the
    droplet's layer.  When the image is pulled again, both layers are empty. *)
Theorem droplet_image_pulls request vcap droplet layer root rest s :
  let hash := dr_DropletHash request in
  let staged := {| Digest := blob_id layer; Size := Z.of_nat (String.length layer) |} in
  let config := config_text rootfs staged in
  let digests := [blob_id config; blob_id root; blob_id layer] in
  reaches_registry → temp_files_work →
  parseVcapApplication (gomap_get (dr_Environment request) "VCAP_APPLICATION") = Ok vcap →
  dr_DockerImageURL request = "" →
  url_segment (va_SpaceName vcap) = true → url_segment (va_AppName vcap) = true →
  url_segment hash = true →
  cf_GetDropletByAppGuid (va_AppID vcap) s = (Ret (Ok droplet), s) →
  droplet_layer droplet = Ok layer →
  Digest rootfs = blob_id root → st_data s !! Digest rootfs = Some rest → NoDup digests →
  ∃ lrp s1 s2 s3,
    Convert c request s = (Ret (Ok lrp), s1) ∧
    lrp_Image lrp = cv_registryIP c +:+ "/" +:+ app_repository +:+ ":" +:+ hash ∧
    pull rootfs hash digests s1
    = (Ret (Some (manifest_answer rootfs staged), Some ∘ blob_answer <$> [config; rest; layer]), s2) ∧
    pull rootfs hash digests s2
    = (Ret (Some (manifest_answer rootfs staged), Some ∘ blob_answer <$> [config; ""; ""]), s3) ∧
    Reader.parse (an_Body (manifest_answer rootfs staged))
    = Ok (clean (manifest_json rootfs staged (blob_id config) (Z.of_nat (String.length config)))).
Proof.
  intros hash staged config digests Hreg Htmp Hv Hd Hsp Hap Hh Hcf Hl Hroot Hrest Hnd.
  destruct (Hreg _ _ _ Hsp Hap Hh) as [Hurl Hdo].
  assert (hash ≠ "") as Hne by (apply segment_nonempty in Hh; by apply String.eqb_neq).
  assert (∀ x, hash ≠ blob_id x) as Hid.
  { intros x E. rewrite E, blob_id_no_segment in Hh. done. }
  pose (s1 := {| st_data := <[hash := ""]> (<[blob_id layer := layer]> (st_data s));
                 st_droplets := <[hash := staged]> (st_droplets s) |}).
  pose proof (droplet_is_stored hash droplet layer s Htmp Hne Hl) as Hst. cbn zeta in Hst.
  assert (hold [(root, rest); (layer, layer)] s1) as Hhold.
  { apply NoDup_cons in Hnd as [_ [Hrl _]%NoDup_cons].
    repeat constructor; cbn [fst snd s1 st_data]; rewrite lookup_insert_ne by done;
      [|apply lookup_insert_eq].
    rewrite lookup_insert_ne; [by rewrite <- Hroot|]. intros E. apply Hrl. rewrite E. left. }
  destruct (pull_spec rootfs hash staged [(root, rest); (layer, layer)] s1)
    as (s2 & E2 & Hh2 & Hd2); [done|apply lookup_insert_eq|done|done|].
  destruct (pull_spec rootfs hash staged [(root, ""); (layer, "")] s2)
    as (s3 & E3 & _); [done|rewrite Hd2; apply lookup_insert_eq|done|done|].
  exists (to_LRP (with_image (cv_registryIP c +:+ "/cloudfoundry/app-name:" +:+ hash) request) vcap), s1, s2, s3.
  split; [|split; [reflexivity|split; [exact E2|split; [exact E3|]]]].
  2:{ exact (proj1 (manifest_describes_image rootfs staged)). }
  erewrite (Convert_droplet c request vcap droplet s s s1); [|done|done|done|exact Hurl|
    apply Hdo; rewrite serve_staging by done; unfold mbind, M_bind; rewrite Hst; reflexivity].
  reflexivity.
Qed.
End Staged.

(** ** An instance of the property *)
Section Witnesses.
#[local] Existing Instance sample_archive.
#[local] Existing Instance sample_temp.
#[local] Existing Instance sample_texts_.
#[local] Existing Instance range_in_order.

(** A cloud controller whose droplets all are "web". *)
#[local] Instance web_droplets : CfClient Stores := {|
  cf_GetDropletByAppGuid _ := mret (Ok "web"); cf_PushDroplet _ _ := mret (Ok tt);
  cf_GetAppBitsByAppGuid _ := mret (Ok {| rs_StatusCode := 200; rs_Body := "" |}) |}.

Definition url_parts (url : string) : option (string * string) :=
  t ← Reader.strip "http://127.0.0.1:8080" url;
  match split_on "?" t with
  | [path; query] => guid ← Reader.strip "guid=" query; Some (path, guid)
  | _ => None
  end.

(** A client next to the registry. *)
#[local] Instance registry_client : HttpClient Stores := {|
  http_url_valid url := match url_parts url with Some _ => true | None => false end;
  http_Do r := λ s,
    match url_parts (rq_URL r) with
    | Some (path, guid) =>
        match ServeRegistry root_blob (rq_Method r) path guid (rq_Body r) s with
        | (Ret (Some a), s') => (Ret (Ok {| rs_StatusCode := an_Status a; rs_Body := an_Body a |}), s')
        | (Ret None, s') => (Ret (Ok {| rs_StatusCode := StatusNotFound; rs_Body := "" |}), s')
        | (_, s') => (Ret (Err (ExternalError "EOF")), s')
        end
    | None => (Ret (Err (ExternalError "no host")), s)
    end;
  http_show _ _ := "&{}" |}.

Lemma staging_url_parts space app guid :
  url_segment space = true → url_segment app = true → url_segment guid = true →
  url_parts (registryStageURI "http://127.0.0.1:8080" space app guid)
  = Some (blobs_path space app, guid).
Proof.
  intros [_ Hs]%andb_true_iff [_ Ha]%andb_true_iff [_ Hg]%andb_true_iff. unfold url_parts, registryStageURI.
  change (Reader.strip "http://127.0.0.1:8080" ("http://127.0.0.1:8080" +:+ ?t)) with (Some t).
  cbn [mbind option_bind].
  assert ("/v2/" +:+ space +:+ "/" +:+ app +:+ "/blobs/?guid=" +:+ guid
    = blobs_path space app +:+ String "?" ("guid=" +:+ guid)) as ->
    by (unfold blobs_path; by rewrite !app_assoc_str).
  rewrite split_on_app by (unfold blobs_path; rewrite !lacks_app;
    by rewrite (unreserved_lacks "?" space), (unreserved_lacks "?" app)).
  by rewrite split_on_lacks by (rewrite lacks_app; by rewrite (unreserved_lacks "?" guid)).
Qed.

Lemma client_reaches_registry : reaches_registry sample_converter root_blob.
Proof.
  intros space app guid Hs Ha Hg url. subst url. cbn [cv_registryURL sample_converter].
  split; [cbn [http_url_valid registry_client]; by rewrite staging_url_parts|].
  intros header body len s a s' E. cbn [http_Do registry_client rq_URL rq_Method rq_Body].
  rewrite staging_url_parts by done. by rewrite E.
Qed.

Definition web_blob : BlobRef := {| Digest := blob_id sample_layer; Size := 27 |}.
Definition web_digests : list string :=
  [blob_id (config_text root_blob web_blob); blob_id "root"; blob_id sample_layer].

Lemma droplet_image_pulls_witness : ∃ s1 s2 m,
  (pull root_blob "abc" web_digests s1).1
  = Ret (m, Some ∘ blob_answer <$> [config_text root_blob web_blob; "root"; sample_layer]) ∧
  (pull root_blob "abc" web_digests s2).1
  = Ret (m, Some ∘ blob_answer <$> [config_text root_blob web_blob; ""; ""]).
Proof.
  assert (NoDup web_digests) as Hnd by (apply (bool_decide_unpack _); vm_compute; exact I).
  assert (droplet_layer "web" = Ok sample_layer) as Hl by (vm_compute; reflexivity).
  assert (st_data started !! Digest root_blob = Some "root") as Hroot by apply lookup_insert_eq.
  assert (cf_GetDropletByAppGuid (va_AppID dora_vcap) started = (Ret (Ok "web"), started)) as Hcf
    by reflexivity.
  destruct (droplet_image_pulls sample_converter root_blob (sample_request "") dora_vcap "web"
    sample_layer "root" "root" started client_reaches_registry sample_temp_works
    (sample_vcap_parses "") eq_refl eq_refl eq_refl eq_refl Hcf Hl eq_refl Hroot Hnd)
    as (lrp & s1 & s2 & s3 & _ & _ & E1 & E2 & _).
  exists s1, s2, (Some (manifest_answer root_blob web_blob)).
  split; [exact (f_equal fst E1)|exact (f_equal fst E2)].
Defined.
End Witnesses.
