(* ===== verification/Unzip.v ===== *)
(** * [recipe/unzip.go]: unpacking an application

    The file system is an interface; its laws speak of the regular files, with
    their modes and contents, by path.  The archive is re-read for every entry,
    as the program does. *)

From stdpp Require Import base gmap strings list.
From Stdlib Require Import ZArith Ascii Lia.
From S2P Require Import Prelude Json Messages Filepath.

(** ** [os] and [archive/zip] *)

Class Files (S : Type) := {
  os_MkdirAll : string → Z → M S (result unit);
  os_Create : string → M S (result unit);            (* for writing, truncated *)
  os_Write : string → string → M S (result unit);    (* at the end of an open file *)
  os_Chmod : string → Z → M S (result unit);
  os_ReadFile : string → M S (result string);
  os_Stat : string → M S (result Z)                  (* the size *)
}.

Record ZipFile := { zf_Name : string; zf_Mode : Z }.

(** [FileInfo().IsDir()]: the bit [os.ModeDir] of the mode. *)
Definition IsDir (f : ZipFile) : bool := Z.testbit (zf_Mode f) 31.

(** The directory of an archive, and, from its bytes, the check of an entry's
    header and its data. *)
Class Zip := {
  zip_files : string → result (list ZipFile);
  zip_Open : string → ZipFile → result unit;
  zip_read : string → ZipFile → reader
}.

Section Operations.
Context {S : Type} `{!Files S, !Zip}.

(** What was read is written, also when the reader breaks off. *)
Definition io_Copy (path : string) (r : reader) : M S (result unit) :=
  _ <-! os_Write path (rd_rest r);
  mret (match rd_error r with Some e => Err e | None => Ok tt end).

Definition extractFile (archive : string) (src : ZipFile) (destPath : string) : M S (result unit) :=
  _ <-! os_MkdirAll (Dir destPath) 493;       (* 0755 *)
  z <-! os_ReadFile archive;
  _ <-? zip_Open z src;
  _ <-! os_Create destPath;
  z <-! os_ReadFile archive;
  _ <-! io_Copy destPath (zip_read z src);
  os_Chmod destPath (zf_Mode src).

Definition destPath (targetDir : string) (file : ZipFile) : string :=
  Join [targetDir; zf_Name file].

Fixpoint extract_files (archive targetDir : string) (files : list ZipFile) : M S (result unit) :=
  match files with
  | [] => mret (Ok tt)
  | file :: files =>
      _ <-! (if IsDir file then os_MkdirAll (destPath targetDir file) (zf_Mode file)
             else extractFile archive file (destPath targetDir file));
      extract_files archive targetDir files
  end.

Definition Extract (src targetDir : string) : M S (result unit) :=
  if String.eqb targetDir "" then mret (Err (ErrorString "target directory cannot be empty"))
  else
    z <-! os_ReadFile src;
    files <-? zip_files z;
    extract_files src targetDir files.
End Operations.

(** ** What a file system promises *)

(** The bits of an [os.FileMode] that [os.Chmod] uses: the permissions (0777)
    and [ModeSetuid], [ModeSetgid] and [ModeSticky]. *)
Definition chmod_bits (mode : Z) : Z := Z.land mode (511 + 2 ^ 23 + 2 ^ 22 + 2 ^ 20).

(** The regular files: mode and content by path. *)
Abbreviation Disk := (gmap string (Z * string)).

(** The same files, except at one path. *)
Definition same_but (p : string) (v v' : Disk) : Prop := ∀ q, q ≠ p → v' !! q = v !! q.

Class FilesLaws (S : Type) `{!Files S, !Observed S Disk} := {
  os_MkdirAll_wp p mode v :
    wp (os_MkdirAll p mode) (λ o v', (∃ r, o = Ret r) ∧ v' = v) v;
  os_Create_wp p v :
    wp (os_Create p) (λ o v',
      match o with
      | Ret (Ok _) => ∃ mode, v' = <[p := (mode, "")]> v
      | Ret (Err _) => v' = v
      | _ => False
      end) v;
  os_Write_wp p s v :
    wp (os_Write p s) (λ o v',
      match o with
      | Ret (Ok _) => ∃ mode old, v !! p = Some (mode, old) ∧ v' = <[p := (mode, old +:+ s)]> v
      | Ret (Err _) => same_but p v v'
      | _ => False
      end) v;
  os_Chmod_wp p mode v :
    wp (os_Chmod p mode) (λ o v',
      match o with
      | Ret (Ok _) => v' = alter (λ f, (chmod_bits mode, f.2)) p v
      | Ret (Err _) => v' = v
      | _ => False
      end) v;
  os_ReadFile_wp p v :
    wp (os_ReadFile p) (λ o v',
      match o with
      | Ret (Ok content) => snd <$> v !! p = Some content
      | Ret (Err _) => True
      | _ => False
      end ∧ v' = v) v
}.

(** ** The unpacked files *)
Section Spec.
Context {S : Type} `{Laws : FilesLaws S, !Zip}.
Implicit Types (v : Disk).

Lemma same_but_refl p v : same_but p v v.
Proof. by intros q _. Qed.

Lemma same_but_insert p x v v' : same_but p v v' → same_but p v (<[p := x]> v').
Proof. intros E q Hq. rewrite lookup_insert_ne by done. by apply E. Qed.

Lemma same_but_alter p g v v' : same_but p v v' → same_but p v (alter g p v').
Proof. intros E q Hq. rewrite lookup_alter_ne by done. by apply E. Qed.

(** An entry that was unpacked. *)
Definition unpack (z targetDir : string) (v : Disk) (file : ZipFile) : Disk :=
  if IsDir file then v
  else <[destPath targetDir file := (chmod_bits (zf_Mode file), rd_rest (zip_read z file))]> v.

Lemma io_Copy_wp p r v :
  wp (io_Copy p r) (λ o v',
    match o with
    | Ret (Ok _) => rd_error r = None ∧
        ∃ mode old, v !! p = Some (mode, old) ∧ v' = <[p := (mode, old +:+ rd_rest r)]> v
    | Ret (Err _) => same_but p v v'
    | _ => False
    end) v.
Proof.
  apply wp_try. eapply wp_mono; [apply os_Write_wp|].
  intros [[[]|e]|why|] v'; [|done..]. intros (mode & old & Ho & ->). apply wp_ret.
  destruct (rd_error r); [by apply same_but_insert, same_but_refl|]. eauto.
Qed.

(** Where an entry may be written. *)
Definition writes_to (targetDir : string) (file : ZipFile) (p : string) : Prop :=
  IsDir file = false ∧ p = destPath targetDir file.

Lemma extractFile_wp archive file dest v :
  wp (extractFile archive file dest) (λ o v',
    match o with
    | Ret (Ok _) => same_but dest v v' ∧
        ∀ z mode, v !! archive = Some (mode, z) → dest ≠ archive →
          rd_error (zip_read z file) = None ∧
          v' = <[dest := (chmod_bits (zf_Mode file), rd_rest (zip_read z file))]> v
    | Ret (Err _) => same_but dest v v'
    | _ => False
    end) v.
Proof.
  apply wp_try. eapply wp_mono; [apply os_MkdirAll_wp|]. intros o v0 [[[[]|e] ->] ->];
    [|by apply same_but_refl].
  apply wp_try. eapply wp_mono; [apply os_ReadFile_wp|].
  intros [[z0|e]|why|] v0 [H0 ->]; [|by apply same_but_refl|done..].
  apply wp_try_pure. destruct (zip_Open z0 file) as [[]|e]; [|by apply same_but_refl].
  apply wp_try. eapply wp_mono; [apply os_Create_wp|].
  intros [[[]|e]|why|] v1 H1; [|subst v1; by apply same_but_refl|done..].
  destruct H1 as [mode1 ->]. apply wp_try. eapply wp_mono; [apply os_ReadFile_wp|].
  intros [[z1|e]|why|] v0 [H2 ->]; [|by apply same_but_insert, same_but_refl|done..].
  apply wp_try. eapply wp_mono; [apply io_Copy_wp|]. intros [[[]|e]|why|] v2 H3; [| |done..].
  - destruct H3 as (Hr & mode2 & old & Ho & ->). rewrite lookup_insert_eq in Ho.
    simplify_eq. rewrite insert_insert_eq. eapply wp_mono; [apply os_Chmod_wp|].
    intros [[[]|e]|why|] v3; [|intros ->; by apply same_but_insert, same_but_refl|done..].
    intros ->. split; [by apply same_but_alter, same_but_insert, same_but_refl|].
    intros z mode Hz Hne. rewrite lookup_insert_ne, Hz in H2 by done. simplify_eq/=.
    split; [done|]. by rewrite alter_insert_eq.
  - intros q Hq. rewrite H3 by done. by rewrite lookup_insert_ne.
Qed.

(** Unpacking touches no path but those of its entries, and, if it succeeds
    and no entry replaces the archive, gives every entry in turn. *)
Lemma extract_files_wp archive targetDir files v :
  wp (extract_files archive targetDir files) (λ o v',
    (∃ r, o = Ret r ∧
      (is_ok r = true → ∀ z mode, v !! archive = Some (mode, z) →
        Forall (λ f, ¬ writes_to targetDir f archive) files →
        Forall (λ f, IsDir f = false → rd_error (zip_read z f) = None) files ∧
        v' = foldl (unpack z targetDir) v files)) ∧
    ∀ p, Forall (λ f, ¬ writes_to targetDir f p) files → v' !! p = v !! p) v.
Proof.
  revert v. induction files as [|f files IH]; intros v.
  { apply wp_ret. split; [|done]. eexists. split; [done|]. intros _ z mode _ _. split; [constructor|done]. }
  cbn [extract_files foldl]. apply wp_try.
  destruct (IsDir f) eqn:Ef.
  - eapply wp_mono; [apply os_MkdirAll_wp|]. intros o v0 [[[[]|e] ->] ->];
      [|by split; [eexists; split|]].
    eapply wp_mono; [apply IH|]. intros o v' [(r & -> & Hr) Hp]. split.
    + exists r. split; [done|]. intros Hok z mode Hz [_ Hall]%Forall_cons.
      destruct (Hr Hok z mode Hz Hall) as [He ->]. split; [by constructor; [congruence|]|].
      unfold unpack at 3. by rewrite Ef.
    + intros p [_ Hall]%Forall_cons. by apply Hp.
  - eapply wp_mono; [apply extractFile_wp|]. intros [[[]|e]|why|] v1; [| |done..].
    + intros [Hsame Hok1]. eapply wp_mono; [apply IH|]. intros o v' [(r & -> & Hr) Hp]. split.
      * exists r. split; [done|]. intros Hok z mode Hz [Hf Hall]%Forall_cons.
        assert (destPath targetDir f ≠ archive) as Hne by (intros E; by apply Hf).
        destruct (Hok1 z mode Hz Hne) as [He ->].
        rewrite lookup_insert_ne in Hr by done.
        destruct (Hr Hok z mode Hz Hall) as [Hes ->]. split; [by constructor|].
        unfold unpack at 3. by rewrite Ef.
      * intros p [Hf Hall]%Forall_cons. rewrite Hp by done. apply Hsame. intros ->. by apply Hf.
    + intros Hsame. split; [by eexists; split|]. intros p [Hf _]%Forall_cons.
      apply Hsame. intros ->. by apply Hf.
Qed.

Lemma Extract_wp src targetDir v z mode files :
  targetDir ≠ "" → v !! src = Some (mode, z) → zip_files z = Ok files →
  wp (Extract src targetDir) (λ o v', ∃ r, o = Ret r ∧
    (is_ok r = true → Forall (λ f, ¬ writes_to targetDir f src) files →
      Forall (λ f, IsDir f = false → rd_error (zip_read z f) = None) files ∧
      v' = foldl (unpack z targetDir) v files) ∧
    ∀ p, Forall (λ f, ¬ writes_to targetDir f p) files → v' !! p = v !! p) v.
Proof.
  intros Ht Hz Hf. unfold Extract. destruct (String.eqb_spec targetDir ""); [done|].
  apply wp_try. eapply wp_mono; [apply os_ReadFile_wp|].
  intros [[z0|e]|why|] v0 [H0 ->]; [|by eexists|done..]. rewrite Hz in H0. simplify_eq/=.
  apply wp_try_pure. rewrite Hf. eapply wp_mono; [apply extract_files_wp|].
  intros o v' [(r & -> & Hr) Hp]. exists r. split_and!; [done| |done].
  intros Hok Hall. by eapply Hr.
Qed.

(** C26: an archive that unpacks without error gives, entry by entry and in
    order, a file below the target directory with the mode (the permissions and
    the setuid, setgid and sticky bits) and the whole data
    of the entry, and changes nothing else; so of two entries with one name
    the last one stays. *)
Theorem extract_unpacks src targetDir v z mode files :
  targetDir ≠ "" → v !! src = Some (mode, z) → zip_files z = Ok files →
  Forall (λ f, ¬ writes_to targetDir f src) files →
  wp (Extract src targetDir) (λ o v', ∃ r, o = Ret r ∧
    (is_ok r = true →
      Forall (λ f, IsDir f = false → rd_error (zip_read z f) = None) files ∧
      v' = foldl (unpack z targetDir) v files)) v.
Proof.
  intros Ht Hz Hf Hall. eapply wp_mono; [by eapply Extract_wp|].
  intros o v' (r & -> & Hr & _). eauto.
Qed.

(** C27: whatever fails, unpacking never panics, and if no name in the
    archive has a [..] segment it touches no file outside of the target
    directory. *)
Theorem extract_contained src dir v z mode files :
  forallb is_name dir = true → forallb (lacks "/") dir = true → dir ≠ [] →
  v !! src = Some (mode, z) → zip_files z = Ok files →
  Forall (λ f, no_dotdot (zf_Name f) = true) files →
  let targetDir := String "/" (join_with "/" dir) in
  wp (Extract src targetDir) (λ o v', (∃ r, o = Ret r) ∧
    ∀ p, ¬ within targetDir p → v' !! p = v !! p) v.
Proof.
  intros Hd Hl Hne Hz Hf Hall targetDir. eapply wp_mono; [by eapply Extract_wp|].
  intros o v' (r & -> & _ & Hp). split; [by eexists|]. intros p Hout. apply Hp.
  eapply Forall_impl; [exact Hall|]. intros f Hn [_ ->]. apply Hout. by apply Join_within.
Qed.
End Spec.

(** ** A file system in memory, and the instances of the properties *)
Section Memory.

#[export] Instance mem_files : Files Disk := {|
  os_MkdirAll _ _ := mret (Ok tt);
  os_Create p := λ v, (Ret (Ok tt), <[p := (from_option fst 420 (v !! p), "")]> v);
  os_Write p s := λ v,
    match v !! p with
    | Some (mode, old) => (Ret (Ok tt), <[p := (mode, old +:+ s)]> v)
    | None => (Ret (Err (ExternalError "no such file or directory")), v)
    end;
  os_Chmod p mode := λ v, (Ret (Ok tt), alter (λ f, (chmod_bits mode, f.2)) p v);
  os_ReadFile p := λ v,
    (Ret (match v !! p with
          | Some (_, s) => Ok s
          | None => Err (ExternalError "no such file or directory")
          end), v);
  os_Stat p := λ v,
    (Ret (match v !! p with
          | Some (_, s) => Ok (str_len s)
          | None => Err (ExternalError "no such file or directory")
          end), v) |}%Z.

#[export] Instance mem_observed : Observed Disk Disk := {| view v := v; good _ := True |}.

#[export] Instance mem_laws : FilesLaws Disk.
Proof.
  split.
  - intros p mode v s _ <-. simpl. split; [done|]. by split; [eexists|].
  - intros p v s _ <-. simpl. split; [done|]. by eexists.
  - intros p str v s _ <-. simpl. split; [by destruct (s !! p) as [[]|]|].
    destruct (s !! p) as [[mode old]|]; simpl; [by eexists _, _|]. by intros q _.
  - intros p mode v s _ <-. by split.
  - intros p v s _ <-. simpl. split; [done|]. split; [|done]. by destruct (s !! p) as [[]|].
Qed.

(** Archives of a line for each entry. *)
#[export] Instance sample_zip : Zip := {|
  zip_files z := Ok ((λ e, {| zf_Name := default "" (head (split_on "=" e)); zf_Mode := 420 |})
    <$> split_on ";" z);
  zip_Open _ _ := Ok tt;
  zip_read z f := {| rd_error := None; rd_rest :=
    default "" (list_find (λ e, head (split_on "=" e) = Some (zf_Name f)) (split_on ";" z)
      ≫= λ ie, split_on "=" ie.2 !! 1) |} |}%nat.

Definition zip_at (z : string) : Disk := {[ "/workspace/app.zip" := (420, z)%Z ]}.

Lemma extract_unpacks_witness :
  ∃ r v', Extract "/workspace/app.zip" "/workspace" (zip_at "a/Procfile=web;main.go=go") = (Ret r, v') ∧
  (is_ok r = true → v' = <["/workspace/main.go" := (420%Z, "go")]>
    (<["/workspace/a/Procfile" := (420%Z, "web")]> (zip_at "a/Procfile=web;main.go=go"))).
Proof.
  pose (files := [{| zf_Name := "a/Procfile"; zf_Mode := 420 |};
                  {| zf_Name := "main.go"; zf_Mode := 420 |}]).
  assert ("/workspace" ≠ "") as Ht by by vm_compute.
  assert (zip_at "a/Procfile=web;main.go=go" !! "/workspace/app.zip"
    = Some (420%Z, "a/Procfile=web;main.go=go")) as Hz by by vm_compute.
  assert (zip_files "a/Procfile=web;main.go=go" = Ok files) as Hf by by vm_compute.
  assert (Forall (λ f, ¬ writes_to "/workspace" f "/workspace/app.zip") files) as Hall
    by (repeat constructor; by intros [_ [=]%(f_equal (String.eqb "/workspace/app.zip"))]).
  pose proof (extract_unpacks (S := Disk) _ _ _ _ _ _ Ht Hz Hf Hall) as W.
  destruct (W _ I eq_refl) as [_ (r & E & Hr)].
  eexists r, _. split; [rewrite <- E; apply surjective_pairing|].
  intros Hok. apply Hr in Hok as [_ Hok]. exact Hok.
Defined.

(** The second part is an archive that is not contained. *)
Lemma extract_contained_witness :
  (∀ p, ¬ within "/workspace" p →
    (Extract "/workspace/app.zip" "/workspace" (zip_at "a/b=1")).2 !! p = zip_at "a/b=1" !! p) ∧
  (Extract "/workspace/app.zip" "/workspace" (zip_at "../etc/passwd=root")).2 !! "/etc/passwd"
  = Some (420%Z, "root").
Proof.
  split; [|by vm_compute].
  assert (zip_at "a/b=1" !! "/workspace/app.zip" = Some (420%Z, "a/b=1")) as Hz by by vm_compute.
  assert (zip_files "a/b=1" = Ok [{| zf_Name := "a/b"; zf_Mode := 420 |}]) as Hf by by vm_compute.
  assert (Forall (λ f, no_dotdot (zf_Name f) = true) [{| zf_Name := "a/b"; zf_Mode := 420 |}])
    as Hn by (constructor; [by vm_compute|constructor]).
  assert (["workspace"] ≠ []) as Hne by done.
  pose proof (extract_contained (S := Disk) "/workspace/app.zip" ["workspace"] _ _ _ _
    eq_refl eq_refl Hne Hz Hf Hn) as W.
  destruct (W _ I eq_refl) as [_ [_ Hp]].
  exact Hp.
Defined.
End Memory.
