(* ===== verification/Recipe.v ===== *)
(** * [recipe/]: what runs in a staging container

    The recipe fetches and unpacks the application, runs the builder, uploads
    the droplet and reports to Eirini.  The types of [buildpackapplifecycle]
    are vendored; their JSON is what their tags give. *)

From stdpp Require Import base gmap strings list sorting.
From Stdlib Require Import ZArith Ascii Lia.
From S2P Require Import Prelude Json Printed Opi Messages Filepath Unzip.

(** ** [buildpackapplifecycle] *)
Record BuildpackMetadata := { bm_Key : string; bm_Name : string; bm_Version : string }.

Record LifecycleMetadata := {
  lm_BuildpackKey : string;
  lm_DetectedBuildpack : string;
  lm_Buildpacks : slice BuildpackMetadata
}.

Record StagingResult := {
  res_LifecycleMetadata : LifecycleMetadata;
  res_ProcessTypes : gomap string;
  res_ExecutionMetadata : string;
  res_LifecycleType : string
}.

Definition zero_BuildpackMetadata : BuildpackMetadata :=
  {| bm_Key := ""; bm_Name := ""; bm_Version := "" |}.

Definition zero_LifecycleMetadata : LifecycleMetadata :=
  {| lm_BuildpackKey := ""; lm_DetectedBuildpack := ""; lm_Buildpacks := None |}.

Definition decode_BuildpackMetadata (old : BuildpackMetadata) (j : json) : result BuildpackMetadata :=
  let names := ["key"; "name"; "version"] in
  ms ← Decode.members j;
  key ← Decode.field names ms "key" (bm_Key old) Decode.decode_string;
  name ← Decode.field names ms "name" (bm_Name old) Decode.decode_string;
  version ← Decode.field names ms "version" (bm_Version old) Decode.decode_string;
  Ok {| bm_Key := key; bm_Name := name; bm_Version := version |}.

Definition decode_LifecycleMetadata (old : LifecycleMetadata) (j : json) : result LifecycleMetadata :=
  let names := ["buildpack_key"; "detected_buildpack"; "buildpacks"] in
  ms ← Decode.members j;
  key ← Decode.field names ms "buildpack_key" (lm_BuildpackKey old) Decode.decode_string;
  detected ← Decode.field names ms "detected_buildpack" (lm_DetectedBuildpack old)
    Decode.decode_string;
  packs ← Decode.field names ms "buildpacks" (lm_Buildpacks old)
    (Decode.decode_slice zero_BuildpackMetadata decode_BuildpackMetadata);
  Ok {| lm_BuildpackKey := key; lm_DetectedBuildpack := detected; lm_Buildpacks := packs |}.

Definition decode_StagingResult (j : json) : result StagingResult :=
  let names := ["lifecycle_metadata"; "process_types"; "execution_metadata"; "lifecycle_type"] in
  ms ← Decode.members j;
  metadata ← Decode.field names ms "lifecycle_metadata" zero_LifecycleMetadata
    decode_LifecycleMetadata;
  types ← Decode.field names ms "process_types" None (Decode.decode_map "" Decode.decode_string);
  execution ← Decode.field names ms "execution_metadata" "" Decode.decode_string;
  type ← Decode.field names ms "lifecycle_type" "" Decode.decode_string;
  Ok {| res_LifecycleMetadata := metadata; res_ProcessTypes := types;
        res_ExecutionMetadata := execution; res_LifecycleType := type |}.

(** A member with [omitempty]. *)
Definition omitempty (name s : string) : list (string * json) :=
  if String.eqb s "" then [] else [(name, JStr s)].

Definition encode_BuildpackMetadata (b : BuildpackMetadata) : json :=
  JObj ([("key", JStr (bm_Key b)); ("name", JStr (bm_Name b))] ++ omitempty "version" (bm_Version b)).

(** [Marshal] writes the members of a map in the order of their keys. *)
Definition encode_map (m : gomap string) : json :=
  match m with
  | None => JNull
  | Some m => JObj ((λ kv, (kv.1, JStr kv.2))
      <$> merge_sort (λ a b : string * string, String.le a.1 b.1) (map_to_list m))
  end.

Definition encode_StagingResult (r : StagingResult) : json :=
  let metadata := res_LifecycleMetadata r in
  JObj [("lifecycle_metadata", JObj (omitempty "buildpack_key" (lm_BuildpackKey metadata) ++
          [("detected_buildpack", JStr (lm_DetectedBuildpack metadata));
           ("buildpacks", match lm_Buildpacks metadata with
                          | Some l => JArr (encode_BuildpackMetadata <$> l)
                          | None => JNull
                          end)]));
        ("process_types", encode_map (res_ProcessTypes r));
        ("execution_metadata", JStr (res_ExecutionMetadata r));
        ("lifecycle_type", JStr (res_LifecycleType r))].

(** ** [models.go] *)
Class StagingResultModifier := { Modify : StagingResult → result StagingResult }.
Class Uploader (S : Type) := { Upload : string → string → M S (result unit) }.
Class Installer (S : Type) := { Install : string → string → M S (result unit) }.
Class Commander (S : Type) := { Exec : string → list string → M S (result unit) }.
Class Extractor (S : Type) := { ex_Extract : string → string → M S (result unit) }.

(** ** [installer.go] *)
Section Installing.
Context {S : Type} `{!CfClient S, !Files S, !Extractor S}.

Definition download (appID filepath : string) : M S (result unit) :=
  _ <-! os_Create filepath;
  resp ← cf_GetAppBitsByAppGuid appID;
  match resp with
  | Err err => mret (Err (WrapError "failed to perform request" err))
  | Ok resp =>
      if negb (rs_StatusCode resp =? StatusOK)%Z
      then mret (Err (ErrorString ("Download failed. Status Code " +:+ int_text (rs_StatusCode resp))))
      else
        r ← os_Write filepath (rs_Body resp);
        match r with
        | Err err => mret (Err (WrapError "failed to copy content to file" err))
        | Ok _ => mret (Ok tt)
        end
  end.

Definition zipPath (appID targetDir : string) : string := Join [targetDir; appID] +:+ ".zip".

Definition PackageInstall (appID targetDir : string) : M S (result unit) :=
  if String.eqb appID "" then mret (Err (ErrorString "empty appID provided"))
  else if String.eqb targetDir "" then mret (Err (ErrorString "empty targetDir provided"))
  else
    _ <-! download appID (zipPath appID targetDir);
    ex_Extract (zipPath appID targetDir) targetDir.
End Installing.

(** ** [uploader.go] *)
Section Uploading.
Context {S : Type} `{!Files S, !HttpClient S}.

Definition upload_do (req : Request) : M S (result unit) :=
  resp <-! http_Do req;
  if (400 <=? rs_StatusCode resp)%Z
  then mret (Err (ErrorString ("Upload failed: Status code " +:+ int_text (rs_StatusCode resp))))
  else mret (Ok tt).

(** The open file is the body, of the length that [Stat] gives. *)
Definition uploadFile (fileLocation url : string) : M S (result unit) :=
  body <-! os_ReadFile fileLocation;
  request <-? http_NewRequest "POST" url body;
  contentLength <-! os_Stat fileLocation;
  upload_do (header_Set "Content-Type" "application/octet-stream"
    (with_ContentLength contentLength request)).

Definition DropletUpload (path url : string) : M S (result unit) :=
  if String.eqb path "" then mret (Err (ErrorString "empty path parameter"))
  else if String.eqb url "" then mret (Err (ErrorString "empty url parameter"))
  else uploadFile path url.
End Uploading.

(** ** [staging_result_modifier.go] *)
Section Modifying.
Context (CCBuildpacksJSON : string).

Definition getProvidedBuildpacks : result (list Buildpack) :=
  j ← Reader.parse CCBuildpacksJSON;
  elems <$> Decode.decode_slice zero_Buildpack decode_Buildpack None j.

(** The key of the first buildpack of the name. *)
Fixpoint getBuildpackKey (name : string) (providedBuildpacks : list Buildpack) : result string :=
  match providedBuildpacks with
  | [] => Err (ErrorString ("could not find buildpack with name: " +:+ name))
  | b :: rest => if String.eqb (bp_Name b) name then Ok (bp_Key b) else getBuildpackKey name rest
  end.

Definition with_buildpacks (f : LifecycleMetadata → LifecycleMetadata) (r : StagingResult) :
    StagingResult :=
  {| res_LifecycleMetadata := f (res_LifecycleMetadata r); res_ProcessTypes := res_ProcessTypes r;
     res_ExecutionMetadata := res_ExecutionMetadata r; res_LifecycleType := res_LifecycleType r |}.

Definition modifyBuildpackKey (r : StagingResult) (buildpacks : list Buildpack) :
    result StagingResult :=
  key ← getBuildpackKey (lm_BuildpackKey (res_LifecycleMetadata r)) buildpacks;
  Ok (with_buildpacks (λ m, {| lm_BuildpackKey := key;
    lm_DetectedBuildpack := lm_DetectedBuildpack m; lm_Buildpacks := lm_Buildpacks m |}) r).

Definition modifyBuildpackMetadata (b : BuildpackMetadata) (buildpacks : list Buildpack) :
    result BuildpackMetadata :=
  key ← getBuildpackKey (bm_Key b) buildpacks;
  Ok {| bm_Key := key; bm_Name := bm_Name b; bm_Version := bm_Version b |}.

(** The loop over the slice, which is changed in place. *)
Fixpoint modify_all (buildpacks : list Buildpack) (l : list BuildpackMetadata) :
    result (list BuildpackMetadata) :=
  match l with
  | [] => Ok []
  | b :: l =>
      modified ← modifyBuildpackMetadata b buildpacks;
      rest ← modify_all buildpacks l;
      Ok (modified :: rest)
  end.

Definition modifyBuildpacks (r : StagingResult) (buildpacks : list Buildpack) :
    result StagingResult :=
  match lm_Buildpacks (res_LifecycleMetadata r) with
  | None => Ok r
  | Some l =>
      l ← modify_all buildpacks l;
      Ok (with_buildpacks (λ m, {| lm_BuildpackKey := lm_BuildpackKey m;
        lm_DetectedBuildpack := lm_DetectedBuildpack m; lm_Buildpacks := Some l |}) r)
  end.

Definition BuildpacksModify (r : StagingResult) : result StagingResult :=
  buildpacks ← getProvidedBuildpacks;
  r ← modifyBuildpackKey r buildpacks;
  modifyBuildpacks r buildpacks.
End Modifying.

(** ** [execute.go] *)
Definition workspaceDir : string := "/workspace".

Record PacksBuilderConf := {
  BuildpacksDir : string;
  OutputDropletLocation : string;
  OutputBuildArtifactsCache : string;
  OutputMetadataLocation : string
}.

Record Config := {
  cfg_AppID : string;
  cfg_StagingGUID : string;
  cfg_CompletionCallback : string;
  cfg_EiriniAddr : string;
  cfg_DropletUploadURL : string
}.

Definition annotation_text (completionCallback : string) : string :=
  Printer.print (encode_StagingTaskAnnotation
    {| sa_Lifecycle := ""; sa_CompletionCallback := completionCallback |}).

Definition createFailureResponse `{!ErrorText} (failure : error)
    (stagingGUID completionCallback : string) : TaskCallbackResponse := {|
  tc_TaskGuid := stagingGUID;
  tc_Failed := true;
  tc_FailureReason := error_text failure;
  tc_Result := "";
  tc_Annotation := annotation_text completionCallback;
  tc_CreatedAt := 0 |}.

Definition completed_uri (eiriniAddress taskGuid : string) : string :=
  eiriniAddress +:+ "/stage/" +:+ taskGuid +:+ "/completed".

Section Executing.
Context {S : Type} `{!Installer S, !Uploader S, !Commander S, Modifier : !StagingResultModifier,
  !Files S, !HttpClient S, !ErrorText}.
Variable Conf : PacksBuilderConf.

Definition sendCompleteResponse (eiriniAddress : string) (response : TaskCallbackResponse) :
    M S (result unit) :=
  let responseJSON := Printer.print (encode_TaskCallbackResponse response) in
  match http_NewRequest "PUT" (completed_uri eiriniAddress (tc_TaskGuid response)) responseJSON with
  | Err err => mret (Err (WrapError "failed to create request" err))
  | Ok req =>
      resp ← http_Do (header_Set "Content-Type" "application/json" req);
      match resp with
      | Err err => mret (Err (WrapError "request failed" err))
      | Ok resp =>
          if (400 <=? rs_StatusCode resp)%Z then mret (Err (ErrorString "Request not successful"))
          else mret (Ok tt)
      end
  end.

(** That the report failed is only printed. *)
Definition respondWithFailure (failure : error) (recipeConf : Config) : M S unit :=
  _ ← sendCompleteResponse (cfg_EiriniAddr recipeConf)
        (createFailureResponse failure (cfg_StagingGUID recipeConf)
           (cfg_CompletionCallback recipeConf));
  mret tt.

Definition getStagingResult (path : string) : M S (result StagingResult) :=
  contents ← os_ReadFile path;
  match contents with
  | Err err => mret (Err (WrapError "failed to read result.json" err))
  | Ok contents => mret (Reader.parse contents ≫= decode_StagingResult)
  end.

Definition success_response (recipeConf : Config) (stagingResult : StagingResult) :
    TaskCallbackResponse := {|
  tc_TaskGuid := cfg_StagingGUID recipeConf;
  tc_Failed := false;
  tc_FailureReason := "";
  tc_Result := Printer.print (encode_StagingResult stagingResult);
  tc_Annotation := annotation_text (cfg_CompletionCallback recipeConf);
  tc_CreatedAt := 0 |}.

Definition createSuccessResponse (recipeConf : Config) : M S (result TaskCallbackResponse) :=
  stagingResult <-! getStagingResult (OutputMetadataLocation Conf);
  stagingResult <-? Modify stagingResult;
  mret (Ok (success_response recipeConf stagingResult)).

Definition builder_args : list string := [
  "-buildpacksDir"; BuildpacksDir Conf;
  "-outputDroplet"; OutputDropletLocation Conf;
  "-outputBuildArtifactsCache"; OutputBuildArtifactsCache Conf;
  "-outputMetadata"; OutputMetadataLocation Conf].

(** [if err != nil { respondWithFailure(err, recipeConf); return err }]. *)
Definition or_report (recipeConf : Config) (c : M S (result unit)) (k : M S (result unit)) :
    M S (result unit) :=
  r ← c;
  match r with
  | Err err => _ ← respondWithFailure err recipeConf; mret (Err err)
  | Ok _ => k
  end.

Definition ExecuteRecipe (recipeConf : Config) : M S (result unit) :=
  or_report recipeConf (Install (cfg_AppID recipeConf) workspaceDir) (
  or_report recipeConf (Exec "/packs/builder" builder_args) (
  or_report recipeConf (Upload (OutputDropletLocation Conf) (cfg_DropletUploadURL recipeConf)) (
  cbResponse <-! createSuccessResponse recipeConf;
  sendCompleteResponse (cfg_EiriniAddr recipeConf) cbResponse))).
End Executing.

(** ** [cmd/recipe.go] *)
Definition packsConf : PacksBuilderConf := {|
  BuildpacksDir := "/var/lib/buildpacks";
  OutputDropletLocation := "/out/droplet.tgz";
  OutputBuildArtifactsCache := "/cache/cache.tgz";
  OutputMetadataLocation := "/out/result.json" |}.

Definition recipe_config (getenv : string → string) : Config := {|
  cfg_AppID := getenv EnvAppID;
  cfg_StagingGUID := getenv EnvStagingGUID;
  cfg_CompletionCallback := getenv EnvCompletionCallback;
  cfg_EiriniAddr := getenv EnvEiriniAddress;
  cfg_DropletUploadURL := getenv EnvDropletUploadURL |}.

(** [crypto/tls], [crypto/x509] and the constructor of the vendored client. *)
Class MainLib (S : Type) := {
  tls_LoadX509KeyPair : string → string → M S (result unit);
  x509_AppendCertsFromPEM : string → bool;
  cfclient_NewClient : (string → string) → M S (result unit)
}.

(** The parts as [main] puts them together: the client with certificates
    uploads, a plain client reports. *)
Section Main.
Context {S : Type} `{!CfClient S, !Files S, !Zip, !Commander S, !ErrorText, !MainLib S}.
Context (tls_client plain_client : HttpClient S).

Definition main_extractor : Extractor S := {| ex_Extract := Extract |}.
Definition main_installer : Installer S :=
  {| Install := PackageInstall (Extractor0 := main_extractor) |}.
Definition main_uploader : Uploader S :=
  {| Upload := DropletUpload (HttpClient0 := tls_client) |}.
Definition main_modifier (getenv : string → string) : StagingResultModifier :=
  {| Modify := BuildpacksModify (getenv EnvBuildpacks) |}.

(** The client is [tls_client], once its certificates were read. *)
Definition createHTTPClient : M S unit :=
  let location name := Join [CCCertsMountPath; name] in
  cert ← tls_LoadX509KeyPair (location "cc_cert") (location "cc_priv");
  match cert with
  | Err _ => throw_panic "createHTTPClient"
  | Ok _ =>
      cacert ← os_ReadFile (location "cc_ca");
      match cacert with
      | Err _ => throw_panic "createHTTPClient"
      | Ok cacert =>
          if x509_AppendCertsFromPEM cacert then mret tt
          else throw_panic "append certs from pem failed"
      end
  end.

(** The exit code. *)
Definition recipe_main (getenv : string → string) : M S Z :=
  _ ← createHTTPClient;
  cfclient ← cfclient_NewClient getenv;
  match cfclient with
  | Err _ => mret 1%Z
  | Ok _ =>
      _ ← createHTTPClient;
      err ← ExecuteRecipe (Installer0 := main_installer) (Uploader0 := main_uploader)
        (Modifier := main_modifier getenv) (HttpClient0 := plain_client)
        packsConf (recipe_config getenv);
      mret (if is_ok err then 0 else 1)%Z
  end.
End Main.

(** ** Keys of buildpacks *)

(** The first buildpack of the name has the key. *)
Definition first_named (packs : list Buildpack) (name key : string) : Prop :=
  ∃ pre b post, packs = pre ++ b :: post ∧ Forall (λ b, bp_Name b ≠ name) pre ∧
    bp_Name b = name ∧ bp_Key b = key.

Lemma getBuildpackKey_spec name packs :
  match getBuildpackKey name packs with
  | Ok key => first_named packs name key
  | Err e => e = ErrorString ("could not find buildpack with name: " +:+ name) ∧
      Forall (λ b, bp_Name b ≠ name) packs
  end.
Proof.
  induction packs as [|b packs IH]; simpl; [by split|].
  destruct (String.eqb_spec (bp_Name b) name) as [E|E].
  - by exists [], b, packs.
  - destruct (getBuildpackKey name packs) as [key|e].
    + destruct IH as (pre & c & post & -> & ? & ? & ?). exists (b :: pre), c, post.
      by repeat split; [constructor|..].
    + destruct IH. by split; [|constructor].
Qed.

(** All the keys of a staging result, and what is left without them. *)
Definition result_keys (r : StagingResult) : list string :=
  lm_BuildpackKey (res_LifecycleMetadata r) :: (bm_Key <$> elems (lm_Buildpacks (res_LifecycleMetadata r))).

Definition without_keys (r : StagingResult) : StagingResult :=
  with_buildpacks (λ m, {| lm_BuildpackKey := ""; lm_DetectedBuildpack := lm_DetectedBuildpack m;
    lm_Buildpacks := fmap (M := list) (λ b, {| bm_Key := ""; bm_Name := bm_Name b;
      bm_Version := bm_Version b |}) <$> lm_Buildpacks m |}) r.

(** Why a name is refused. *)
Definition names_nothing (packs : list Buildpack) (names : list string) (e : error) : Prop :=
  ∃ name, name ∈ names ∧ e = ErrorString ("could not find buildpack with name: " +:+ name) ∧
    Forall (λ b, bp_Name b ≠ name) packs.

Lemma modify_all_spec packs l :
  match modify_all packs l with
  | Ok l' => Forall2 (first_named packs) (bm_Key <$> l) (bm_Key <$> l') ∧
      bm_Name <$> l' = bm_Name <$> l ∧ bm_Version <$> l' = bm_Version <$> l
  | Err e => names_nothing packs (bm_Key <$> l) e
  end.
Proof.
  induction l as [|b l IH]; simpl; [by repeat constructor|]. unfold modifyBuildpackMetadata.
  pose proof (getBuildpackKey_spec (bm_Key b) packs) as Hb.
  destruct (getBuildpackKey (bm_Key b) packs) as [key|e]; cbn [mbind result_bind].
  - destruct (modify_all packs l) as [l'|e]; cbn [mbind result_bind].
    + destruct IH as (? & En & Ev). rewrite !fmap_cons. cbn [bm_Key bm_Name bm_Version].
      by rewrite En, Ev; split_and!; [constructor|..].
    + destruct IH as (name & Hin & ?). exists name. split; [by right|done].
  - destruct Hb. exists (bm_Key b). split; [by left|done].
Qed.

Lemma erase_eq (l l' : list BuildpackMetadata) :
  bm_Name <$> l' = bm_Name <$> l → bm_Version <$> l' = bm_Version <$> l →
  (λ b, {| bm_Key := ""; bm_Name := bm_Name b; bm_Version := bm_Version b |}) <$> l'
  = (λ b, {| bm_Key := ""; bm_Name := bm_Name b; bm_Version := bm_Version b |}) <$> l.
Proof.
  revert l'. induction l as [|b l IH]; intros [|b' l']; try done. rewrite !fmap_cons.
  intros [= En Enl] [= Ev Evl]. by rewrite (IH l'), En, Ev.
Qed.

(** C29: the modifier replaces each name that the builder left as a key, the
    main one and that of each buildpack in order, by the key of the first
    provided buildpack of the name, and changes nothing else; it fails when the
    provided buildpacks do not decode, with that error, and on a name that none
    of them has, which the error names, and in no other case. *)
Theorem modify_replaces_keys text r :
  match getProvidedBuildpacks text with
  | Err e => BuildpacksModify text r = Err e
  | Ok packs =>
      match BuildpacksModify text r with
      | Ok r' => Forall2 (first_named packs) (result_keys r) (result_keys r') ∧
          without_keys r' = without_keys r
      | Err e => names_nothing packs (result_keys r) e
      end
  end.
Proof.
  unfold BuildpacksModify, modifyBuildpackKey, modifyBuildpacks, result_keys, without_keys.
  destruct (getProvidedBuildpacks text) as [packs|e]; [|done].
  destruct r as [[key detected bs] types exec ty]. cbn [mbind result_bind].
  unfold with_buildpacks. cbn.
  pose proof (getBuildpackKey_spec key packs) as Hk.
  destruct (getBuildpackKey key packs) as [key'|e]; cbn.
  - destruct bs as [l|]; cbn; [|by split; [repeat constructor|]].
    pose proof (modify_all_spec packs l) as Hl. destruct (modify_all packs l) as [l'|e]; cbn.
    + destruct Hl as (? & En & Ev). split; [by constructor|]. by rewrite (erase_eq l l').
    + destruct Hl as (name & Hin & ?). exists name. split; [by right|done].
  - destruct Hk. exists key. split; [by left|done].
Qed.

(** ** What the recipe does *)
Section Spec.
Context {S : Type} `{!Installer S, !Uploader S, !Commander S, Modifier : !StagingResultModifier,
  !Files S, !HttpClient S, !ErrorText}.
Variable Conf : PacksBuilderConf.

(** The steps before the report. *)
Definition build_droplet (c : Config) : M S (result unit) :=
  _ <-! Install (cfg_AppID c) workspaceDir;
  _ <-! Exec "/packs/builder" (builder_args Conf);
  Upload (OutputDropletLocation Conf) (cfg_DropletUploadURL c).

Lemma ExecuteRecipe_failed c err (s s1 s2 : S) answer :
  build_droplet c s = (Ret (Err err), s1) →
  sendCompleteResponse (cfg_EiriniAddr c)
    (createFailureResponse err (cfg_StagingGUID c) (cfg_CompletionCallback c)) s1
    = (Ret answer, s2) →
  ExecuteRecipe Conf c s = (Ret (Err err), s2).
Proof.
  unfold build_droplet, ExecuteRecipe, or_report, respondWithFailure, try_bind, mbind, M_bind, mret, M_ret.
  intros Hb Hs. destruct (Install _ _ s) as [[[[]|e]|why|] s0]; [|by simplify_eq; rewrite Hs|done..].
  destruct (Exec _ _ s0) as [[[[]|e]|why|] s3]; [|by simplify_eq; rewrite Hs|done..].
  rewrite Hb. by rewrite Hs.
Qed.

Lemma or_report_ok c (k op : M S (result unit)) (s s1 : S) :
  op s = (Ret (Ok tt), s1) → or_report c op k s = k s1.
Proof. unfold or_report, mbind, M_bind. by intros ->. Qed.

Lemma ExecuteRecipe_built c (s s1 : S) :
  build_droplet c s = (Ret (Ok tt), s1) →
  ExecuteRecipe Conf c s
  = (cbResponse <-! createSuccessResponse Conf c;
     sendCompleteResponse (cfg_EiriniAddr c) cbResponse) s1.
Proof.
  intros ([] & s2 & E1 & ([] & s3 & E2 & E3)%try_bind_ok)%try_bind_ok.
  unfold ExecuteRecipe. by rewrite (or_report_ok _ _ _ _ _ E1), (or_report_ok _ _ _ _ _ E2),
    (or_report_ok _ _ _ _ _ E3).
Qed.

(** C16: the recipe installs, builds and uploads, up to the first failure, and
    reports that failure to Eirini and returns it whether or not the report
    arrives.  After an upload it reports the modified result of the builder;
    but if that result cannot be read or modified it returns the error and
    reports nothing. *)
Theorem recipe_reports c (s s1 s2 : S) r :
  build_droplet c s = (Ret r, s1) →
  match r with
  | Err err => ∀ answer,
      sendCompleteResponse (cfg_EiriniAddr c)
        (createFailureResponse err (cfg_StagingGUID c) (cfg_CompletionCallback c)) s1
      = (Ret answer, s2) → ExecuteRecipe Conf c s = (Ret (Err err), s2)
  | Ok _ => ∀ built, getStagingResult (OutputMetadataLocation Conf) s1 = (Ret built, s2) →
      ExecuteRecipe Conf c s =
        match built ≫= Modify with
        | Ok res => sendCompleteResponse (cfg_EiriniAddr c) (success_response c res) s2
        | Err e => (Ret (Err e), s2)
        end
  end.
Proof.
  intros Hb. destruct r as [[]|err].
  - intros built Hr. rewrite (ExecuteRecipe_built c s s1 Hb).
    unfold createSuccessResponse, try_bind, mbind, M_bind. rewrite Hr.
    destruct built as [res|e]; [|done]. cbn [result_bind]. by destruct (Modify res).
  - intros answer. by apply ExecuteRecipe_failed.
Qed.
End Spec.

(** ** The installed application *)
Section Installed.
Context {S : Type} `{Laws : FilesLaws S, !Zip, !CfClient S}.

(** The cloud controller's client answers, with what it has, and leaves the
    files alone. *)
Variable served : string → Response → Prop.
Hypothesis cf_bits_wp : ∀ appID v,
  wp (cf_GetAppBitsByAppGuid appID) (λ o v',
    match o with Ret (Ok resp) => served appID resp | Ret (Err _) => True | _ => False end
    ∧ v' = v) v.

Lemma download_wp appID path v :
  wp (download appID path) (λ o v',
    match o with
    | Ret (Ok _) => ∃ resp mode, served appID resp ∧ rs_StatusCode resp = StatusOK ∧
        v' = <[path := (mode, rs_Body resp)]> v
    | Ret (Err _) => same_but path v v'
    | _ => False
    end) v.
Proof.
  apply wp_try. eapply wp_mono; [apply os_Create_wp|].
  intros [[[]|e]|why|] v1 H1; [|subst v1; by apply same_but_refl|done..].
  destruct H1 as [mode ->]. apply wp_bind. eapply wp_mono; [apply cf_bits_wp|].
  intros [[resp|e]|why|] v1 [Hr ->]; [|by apply wp_ret, same_but_insert, same_but_refl|done..].
  destruct (Z.eqb_spec (rs_StatusCode resp) StatusOK); cbn [negb];
    [|by apply wp_ret, same_but_insert, same_but_refl].
  apply wp_bind. eapply wp_mono; [apply os_Write_wp|]. intros [[[]|e']|why|] v2 H2; [| |done..].
  - destruct H2 as (m & old & Ho & ->). rewrite lookup_insert_eq in Ho. simplify_eq.
    apply wp_ret. rewrite insert_insert_eq. by exists resp, m.
  - apply wp_ret. intros q Hq. rewrite H2 by done. by rewrite lookup_insert_ne.
Qed.

(** C28: an application that installs without error was served with status
    200 as an archive; the archive stays next to the unpacked files, and every
    other file is as it was. *)
Theorem install_unpacks appID targetDir v :
  wp (PackageInstall (Extractor0 := main_extractor) appID targetDir) (λ o v', ∃ r, o = Ret r ∧
    (is_ok r = true → ∃ resp mode files,
      served appID resp ∧ rs_StatusCode resp = StatusOK ∧ zip_files (rs_Body resp) = Ok files ∧
      (Forall (λ f, ¬ writes_to targetDir f (zipPath appID targetDir)) files →
       v' = foldl (unpack (rs_Body resp) targetDir)
              (<[zipPath appID targetDir := (mode, rs_Body resp)]> v) files))) v.
Proof.
  unfold PackageInstall. destruct (String.eqb_spec appID "") as [_|_]; [by apply wp_ret; eexists|].
  destruct (String.eqb_spec targetDir "") as [_|Ht]; [by apply wp_ret; eexists|].
  apply wp_try. eapply wp_mono; [apply download_wp|].
  intros [[[]|e]|why|] v1 H1; [|by eexists|done..]. destruct H1 as (resp & mode & Hs & Hst & ->).
  cbn [ex_Extract main_extractor].
  destruct (zip_files (rs_Body resp)) as [files|e] eqn:Ef.
  - eapply wp_mono; [eapply Extract_wp; [done|by apply lookup_insert_eq|exact Ef]|].
    intros o v' (r & -> & Hr & _). exists r. split; [done|]. intros Hok.
    exists resp, mode, files. split_and!; [done..|]. intros Hall. by apply Hr.
  - unfold Extract. destruct (String.eqb_spec targetDir ""); [done|].
    apply wp_try. eapply wp_mono; [apply os_ReadFile_wp|].
    intros [[z0|e0]|why|] v2 [H0 ->]; [|by eexists|done..]. rewrite lookup_insert_eq in H0.
    simplify_eq/=. apply wp_try_pure. rewrite Ef. by eexists.
Qed.
End Installed.

(** ** Instances of the properties *)
Section Witnesses.

Definition provided : list Buildpack := [
  {| bp_Name := "ruby"; bp_Key := "key-1"; bp_Url := ""; bp_SkipDetect := false |};
  {| bp_Name := "ruby"; bp_Key := "key-2"; bp_Url := ""; bp_SkipDetect := false |}].

Definition provided_text : string := Printer.print (encode_Buildpacks (Some provided)).

Definition built (name : string) : StagingResult := {|
  res_LifecycleMetadata := {| lm_BuildpackKey := "ruby"; lm_DetectedBuildpack := "Ruby";
    lm_Buildpacks := Some [{| bm_Key := name; bm_Name := "Ruby"; bm_Version := "2" |}] |};
  res_ProcessTypes := Some {[ "web" := "rackup" ]}; res_ExecutionMetadata := "";
  res_LifecycleType := "buildpack" |}.

Lemma modify_replaces_keys_witness :
  is_ok (BuildpacksModify provided_text (built "ruby")) = true ∧
  is_ok (BuildpacksModify "{not valid json" (built "ruby")) = false ∧
  match BuildpacksModify provided_text (built "ruby") with
  | Ok r' => Forall2 (first_named provided) ["ruby"; "ruby"] (result_keys r') ∧
      without_keys r' = without_keys (built "ruby")
  | Err e => names_nothing provided ["ruby"; "ruby"] e
  end.
Proof.
  split; [by vm_compute|]. split; [by vm_compute|].
  assert (getProvidedBuildpacks provided_text = Ok provided) as E by by vm_compute.
  pose proof (modify_replaces_keys provided_text (built "ruby")) as W. rewrite E in W. exact W.
Defined.

(** A container with a result file, that logs what it sends. *)
Record Box := { bx_result : string; bx_sent : list Request }.

#[local] Instance box_installer : Installer Box := {| Install _ _ := mret (Ok tt) |}.
#[local] Instance box_uploader : Uploader Box := {| Upload _ _ := mret (Ok tt) |}.
#[local] Instance box_commander : Commander Box := {| Exec _ _ := mret (Ok tt) |}.
#[local] Instance box_files : Files Box := {|
  os_MkdirAll _ _ := mret (Ok tt); os_Create _ := mret (Ok tt); os_Write _ _ := mret (Ok tt);
  os_Chmod _ _ := mret (Ok tt); os_ReadFile _ := λ s, (Ret (Ok (bx_result s)), s);
  os_Stat _ := mret (Ok 0%Z) |}.
#[local] Instance box_http : HttpClient Box := {|
  http_url_valid _ := true;
  http_Do r := λ s, (Ret (Ok {| rs_StatusCode := 200; rs_Body := "" |}),
    {| bx_result := bx_result s; bx_sent := bx_sent s ++ [r] |});
  http_show _ _ := "&{}" |}.
#[local] Instance box_texts : ErrorText := {| error_text _ := "failed" |}.
#[local] Instance box_modifier : StagingResultModifier :=
  {| Modify := BuildpacksModify provided_text |}.

Definition sample_config : Config := {|
  cfg_AppID := "dora"; cfg_StagingGUID := "staging-1"; cfg_CompletionCallback := "http://cc/done";
  cfg_EiriniAddr := "http://eirini"; cfg_DropletUploadURL := "http://cc/droplet" |}.

(** A result that names an unknown buildpack: the recipe fails and Eirini is
    told nothing. *)
Lemma recipe_reports_witness :
  let s := {| bx_result := Printer.print (encode_StagingResult (built "go")); bx_sent := [] |} in
  build_droplet packsConf sample_config s = (Ret (Ok tt), s) ∧
  ExecuteRecipe packsConf sample_config s
  = (Ret (Err (ErrorString "could not find buildpack with name: go")), s).
Proof.
  intros s. assert (build_droplet packsConf sample_config s = (Ret (Ok tt), s)) as Hb by done.
  split; [exact Hb|].
  assert (getStagingResult "/out/result.json" s = (Ret (Ok (built "go")), s)) as Hr
    by by vm_compute.
  assert (Modify (built "go") = Err (ErrorString "could not find buildpack with name: go")) as Hm
    by by vm_compute.
  pose proof (recipe_reports packsConf sample_config s s s (Ok tt) Hb _ Hr) as W.
  cbn [mbind result_bind] in W. rewrite Hm in W. exact W.
Defined.

#[local] Instance disk_cf : CfClient Disk := {|
  cf_GetDropletByAppGuid _ := mret (Err (ExternalError "none"));
  cf_PushDroplet _ _ := mret (Err (ExternalError "none"));
  cf_GetAppBitsByAppGuid _ := mret (Ok {| rs_StatusCode := 200; rs_Body := "a/Procfile=web" |}) |}.

Lemma install_unpacks_witness :
  (PackageInstall (Extractor0 := main_extractor) "dora" "/workspace" ∅).1 = Ret (Ok tt) ∧
  ∃ r, (PackageInstall (Extractor0 := main_extractor) "dora" "/workspace" ∅).1 = Ret r ∧
    (is_ok r = true → ∃ resp mode files,
      rs_Body resp = "a/Procfile=web" ∧ zip_files (rs_Body resp) = Ok files ∧
      (Forall (λ f, ¬ writes_to "/workspace" f (zipPath "dora" "/workspace")) files →
       (PackageInstall (Extractor0 := main_extractor) "dora" "/workspace" ∅).2
       = foldl (unpack (rs_Body resp) "/workspace")
           (<[zipPath "dora" "/workspace" := (mode, rs_Body resp)]> ∅) files)).
Proof.
  split; [by vm_compute|].
  assert (∀ appID (v : Disk), wp (cf_GetAppBitsByAppGuid appID) (λ o v',
    match o with Ret (Ok resp) => rs_Body resp = "a/Procfile=web" | Ret (Err _) => True | _ => False end
    ∧ v' = v) v) as Hcf by by intros appID v s _ <-.
  pose proof (install_unpacks (S := Disk) (λ _ resp, rs_Body resp = "a/Procfile=web") Hcf
    "dora" "/workspace" ∅) as W.
  destruct (W _ I eq_refl) as (_ & r & Hr & Hok). exists r. split; [exact Hr|].
  intros Ht. destruct (Hok Ht) as (resp & mode & files & Hs & _ & Hf & Hv).
  exists resp, mode, files. split_and!; [exact Hs|exact Hf|exact Hv].
Defined.
End Witnesses.
