(* ===== verification/Environ.v ===== *)
(** * The environment of a container

    What Kubernetes makes of the [Env] of a container, as far as the code
    relies on it: the class [ContainerEnv] with the documented behaviour
    ([EnvVar] of the vendored [k8s.io/api/core/v1/types.go]) as its laws.  A
    container may have more variables: those of its image and of the services of
    the namespace. *)

From stdpp Require Import base gmap strings list.
From Stdlib Require Import ZArith Ascii Lia.
From S2P Require Import Prelude Kube StatefulSet.

(** Text in which nothing is expanded or unescaped: no [$] is followed by
    another or by a parenthesis. *)
Fixpoint literal (s : string) : bool :=
  match s with
  | "" => true
  | String c t =>
      negb ((c =? "$")%char &&
            match t with String d _ => (d =? "$")%char || (d =? "(")%char | "" => false end)
      && literal t
  end.

(** What the processes of a pod's container find: by the pod's name and the
    list in its template. *)
Class ContainerEnv := container_env : string → list EnvVar → gmap string string.

(** The entries of a list that names no variable twice. *)
Class ContainerEnvLaws `{ContainerEnv} := {
  env_value : ∀ pod l x, NoDup (ev_Name <$> l) → x ∈ l →
    ev_FieldPath x = None → literal (ev_Value x) = true →
    container_env pod l !! ev_Name x = Some (ev_Value x);
  env_pod_name : ∀ pod l x, NoDup (ev_Name <$> l) → x ∈ l →
    ev_FieldPath x = Some "metadata.name" → container_env pod l !! ev_Name x = Some pod
}.

(** [os.Getenv] in such a process. *)
Definition getenv (env : gmap string string) (name : string) : string :=
  default "" (env !! name).

(** ** Lists made from maps *)
Section Laws.
Context `{!MapRange}.

Lemma MapToEnvVar_nodup env : NoDup (ev_Name <$> MapToEnvVar env).
Proof. rewrite MapToEnvVar_names. apply NoDup_fst_map_to_list. Qed.

Lemma elem_of_env_names env k :
  k ∈ ev_Name <$> MapToEnvVar env ↔ is_Some (default ∅ env !! k).
Proof.
  rewrite list_elem_of_fmap. split.
  - intros (x & -> & [Hx _]%elem_of_MapToEnvVar). by eexists.
  - intros [w Hw]. exists {| ev_Name := k; ev_Value := w; ev_FieldPath := None |}.
    by rewrite elem_of_MapToEnvVar.
Qed.

Context `{!ContainerEnv, !ContainerEnvLaws}.

Lemma mapped_env pod env k w :
  env ≫= lookup k = Some w → literal w = true →
  container_env pod (MapToEnvVar env) !! k = Some w.
Proof.
  destruct env as [m|]; [|done]. cbn. intros Hk Hw.
  apply (env_value pod _ {| ev_Name := k; ev_Value := w; ev_FieldPath := None |});
    [apply MapToEnvVar_nodup|by apply elem_of_MapToEnvVar|done..].
Qed.
End Laws.

(** ** A concrete environment

    References are replaced by the values so far and double signs by one; a
    reference that is not closed or not known stays. *)
Fixpoint closing (s : string) : option (string * string) :=
  match s with
  | "" => None
  | String c t => if (c =? ")")%char then Some ("", t)
                  else '(name, rest) ← closing t; Some (String c name, rest)
  end.

Fixpoint expand (m : gmap string string) (fuel : nat) (s : string) : string :=
  match fuel, s with
  | S n, String "$" (String "$" t) => String "$" (expand m n t)
  | S n, String "$" (String "(" t) =>
      match closing t with
      | Some (name, rest) =>
          default ("$(" +:+ name +:+ ")") (m !! name) +:+ expand m n rest
      | None => "$(" +:+ expand m n t
      end
  | S n, String c t => String c (expand m n t)
  | _, _ => s
  end.

Lemma expand_literal m n s : literal s = true → expand m n s = s.
Proof.
  revert s. induction n as [|n IH]; intros s Hs; [by destruct s|].
  destruct s as [|c t]; [done|]. cbn [literal] in Hs. apply andb_true_iff in Hs as [Hc Ht].
  specialize (IH t Ht). destruct t as [|d u].
  - destruct c as [[] [] [] [] [] [] [] []]; cbn; by rewrite ?IH.
  - destruct (decide (c = "$"%char)) as [E|Hne]; [subst c|].
    + cbn in Hc. apply negb_true_iff, orb_false_iff in Hc as [Hd Hp].
      destruct d as [[] [] [] [] [] [] [] []]; try done; cbn [expand]; by f_equal.
    + destruct c as [[] [] [] [] [] [] [] []]; try done; cbn [expand]; by f_equal.
Qed.

Definition add_var (pod : string) (m : gmap string string) (x : EnvVar) : gmap string string :=
  <[ev_Name x := match ev_FieldPath x with
                 | Some _ => pod
                 | None => expand m (String.length (ev_Value x)) (ev_Value x)
                 end]> m.

(** The variables of the image and of the services come first. *)
Definition expanded (others : gmap string string) : ContainerEnv :=
  λ pod l, foldl (add_var pod) others l.

Lemma add_vars_spare pod l m k :
  k ∉ ev_Name <$> l → foldl (add_var pod) m l !! k = m !! k.
Proof.
  revert m. induction l as [|x l IH]; intros m Hk; [done|]. cbn in Hk |- *.
  apply not_elem_of_cons in Hk as [Hne Hk]. rewrite IH by done. by apply lookup_insert_ne.
Qed.

Lemma add_vars_entry pod l m x :
  NoDup (ev_Name <$> l) → x ∈ l →
  ∃ m', foldl (add_var pod) m l !! ev_Name x = add_var pod m' x !! ev_Name x.
Proof.
  revert m. induction l as [|y l IH]; intros m Hnd Hx; [by apply not_elem_of_nil in Hx|].
  cbn in Hnd. apply NoDup_cons in Hnd as [Hy Hnd]. apply elem_of_cons in Hx as [->|Hx].
  - exists m. cbn. by apply add_vars_spare.
  - cbn. by apply IH.
Qed.

Lemma expanded_laws others : @ContainerEnvLaws (expanded others).
Proof.
  split; intros pod l x Hnd Hx Hf; [intros Hlit|];
    unfold container_env, expanded;
    destruct (add_vars_entry pod l others x Hnd Hx) as [m ->];
    unfold add_var; rewrite lookup_insert_eq, Hf; [|done].
  by rewrite expand_literal.
Qed.
