(* ===== verification/Staging.v ===== *)
(** * A staging from end to end

    What [stager] puts into a task is what [recipe] reads from its environment,
    and what [recipe] reports is what [handler] and [stager] pass on to the
    cloud controller. *)

From stdpp Require Import base gmap strings list sorting.
From Stdlib Require Import ZArith Ascii Lia.
From S2P Require Import Prelude Json Printed Opi Messages Kube StatefulSet Fixtures Tasks.
From S2P Require Import Stager Handler Filepath Unzip Recipe Environ.

Import Utf8 Printer.

(** ** Printed text is compact already *)

(** Text that [compact_text] copies. *)
Definition stable (s : string) : Prop :=
  ∀ t, compact_text false false (s +:+ t) = s +:+ compact_text false false t.

Lemma stable_empty : stable "".
Proof. by intros t. Qed.

Lemma stable_app s t : stable s → stable t → stable (s +:+ t).
Proof. intros Hs Ht u. by rewrite app_assoc_str, Hs, Ht, app_assoc_str. Qed.

Lemma stable_cons c s :
  Reader.is_space c = false → (c =? dquote)%char = false → stable s → stable (String c s).
Proof. intros Hc Hq Hs t. rewrite !app_cons. cbn [compact_text]. by rewrite Hc, Hq, Hs. Qed.

Create HintDb stable.
#[local] Hint Resolve stable_empty stable_app stable_cons : stable.

Definition emitted (c : ascii) : string :=
  if (c =? "<")%char then "\u003c"
  else if (c =? ">")%char then "\u003e"
  else if (c =? "&")%char then "\u0026"
  else String c "".

(** In a string, a byte that does not start U+2028 or U+2029. *)
Lemma compact_step esc c t :
  (c =? "226")%char = false →
  compact_text true esc (String c t)
  = emitted c +:+ compact_text (esc || negb (c =? dquote)%char) (negb esc && (c =? backslash)%char) t.
Proof. intros Hc. destruct t as [|d [|e u]]; cbn [compact_text]; rewrite ?Hc; done. Qed.

(** Text that is copied inside a string. *)
Definition stable_in (s : string) : Prop :=
  ∀ t, compact_text true false (s +:+ t) = s +:+ compact_text true false t.

Ltac copy_ascii := repeat (rewrite app_cons, compact_step by reflexivity); reflexivity.

Lemma escape_byte_stable c : classify c = One → stable_in (escape_byte c).
Proof.
  destruct c as [[] [] [] [] [] [] [] []]; intros H; try discriminate H; intros t;
    vm_compute escape_byte; copy_ascii.
Qed.

(** A byte of a character of several bytes. *)
Lemma compact_high c t :
  byte_in 0x80 0xFF c = true → (c =? "226")%char = false →
  compact_text true false (String c t) = String c (compact_text true false t).
Proof.
  intros Hb Hc. rewrite compact_step by done. revert Hb.
  destruct c as [[] [] [] [] [] [] [] []]; intros Hb; try discriminate Hb; reflexivity.
Qed.

(** A leading byte 226 whose character is not U+2028 or U+2029. *)
Lemma compact_three d e t :
  String.eqb (String "226" (String d (String e ""))) (bytes_of [0xE2; 0x80; 0xA8]%N) = false →
  String.eqb (String "226" (String d (String e ""))) (bytes_of [0xE2; 0x80; 0xA9]%N) = false →
  compact_text true false (String "226" (String d (String e t)))
  = String "226" (compact_text true false (String d (String e t))).
Proof.
  intros H8 H9.
  assert ((d =? "128")%char && (e =? "168")%char = false) as E8.
  { destruct (Ascii.eqb_spec d "128") as [->|_]; [|done].
    by destruct (Ascii.eqb_spec e "168") as [->|_]. }
  assert ((d =? "128")%char && (e =? "169")%char = false) as E9.
  { destruct (Ascii.eqb_spec d "128") as [->|_]; [|done].
    by destruct (Ascii.eqb_spec e "169") as [->|_]. }
  cbn [compact_text]. change ("226" =? "226")%char with true. cbn [andb].
  by rewrite E8, E9.
Qed.

Lemma cont_high c : cont c = true → byte_in 0x80 0xFF c = true ∧ (c =? "226")%char = false.
Proof. destruct c as [[] [] [] [] [] [] [] []]; intros H; try discriminate H; done. Qed.

Lemma range_cont lo hi c :
  (0x80 ≤ lo)%N → (hi ≤ 0xBF)%N → byte_in lo hi c = true → cont c = true.
Proof.
  unfold cont, byte_in. intros Hl Hh [H1%N.leb_le H2%N.leb_le]%andb_true_iff.
  apply andb_true_iff. rewrite !N.leb_le. lia.
Qed.

Lemma classify_three c lo hi :
  classify c = Three lo hi → (0x80 ≤ lo)%N ∧ (hi ≤ 0xBF)%N ∧ byte_in 0x80 0xFF c = true.
Proof.
  destruct c as [[] [] [] [] [] [] [] []]; intros H; try discriminate H;
    injection H as <- <-; by split_and!.
Qed.

Lemma classify_wide c :
  (classify c = Two ∨ ∃ lo hi, classify c = Four lo hi ∧ (0x80 ≤ lo)%N ∧ (hi ≤ 0xBF)%N) ∨
  classify c = One ∨ classify c = Invalid ∨ (∃ lo hi, classify c = Three lo hi).
Proof.
  unfold classify. repeat case_match; eauto 10;
    left; right; do 2 eexists; (split; [done|]); lia.
Qed.

Lemma wide_high c :
  (classify c = Two ∨ ∃ lo hi, classify c = Four lo hi) →
  byte_in 0x80 0xFF c = true ∧ (c =? "226")%char = false.
Proof.
  destruct c as [[] [] [] [] [] [] [] []]; intros [H|(lo & hi & H)];
    try discriminate H; by split.
Qed.

Lemma compact_cont s t :
  Forall (λ c, cont c = true) (String.list_ascii_of_string s) →
  compact_text true false (s +:+ t) = s +:+ compact_text true false t.
Proof.
  induction s as [|c s IH]; intros Hs; [done|]. apply Forall_cons in Hs as [Hc Hs].
  apply cont_high in Hc as [Hb Hn]. rewrite !app_cons, compact_high by done. by rewrite IH.
Qed.

(** The bytes after the first of a character. *)
Lemma wide_tail c s :
  wf_chunk (Chunk (String c s)) →
  (classify c = One ∧ s = "") ∨
  (Forall (λ c, cont c = true) (String.list_ascii_of_string s) ∧
    byte_in 0x80 0xFF c = true ∧
    ((c =? "226")%char = false ∨ ∃ d e, s = String d (String e ""))).
Proof.
  intros Hwf. cbn [wf_chunk] in Hwf. unfold next_chunk in Hwf.
  destruct (classify_wide c) as [[E|(lo & hi & E & Hl & Hh)]|[E|[E|(lo & hi & E)]]];
    rewrite E in Hwf.
  - destruct (wide_high c) as [? ?]; [by left|].
    destruct s as [|d s]; [done|]. destruct (cont d) eqn:Ed; [|done]. simplify_eq.
    right. split_and!; [by repeat constructor|done|by left].
  - destruct (wide_high c) as [? ?]; [right; eauto|].
    destruct s as [|d [|e [|f s]]]; try done. destruct (byte_in lo hi d && cont e && cont f) eqn:Ed;
      [|done]. simplify_eq. apply andb_true_iff in Ed as [[Hd He]%andb_true_iff Hf].
    right. split_and!; [|done|by left]. repeat constructor; [by eapply range_cont|done..].
  - left. by simplify_eq.
  - done.
  - destruct (classify_three c lo hi E) as (Hl & Hh & ?).
    destruct s as [|d [|e s]]; try done. destruct (byte_in lo hi d && cont e) eqn:Ed; [|done].
    simplify_eq. apply andb_true_iff in Ed as [Hd He].
    right. split_and!; [|done|right; eauto]. repeat constructor; [by eapply range_cont|done].
Qed.

Lemma escape_stable ch : wf_chunk ch → stable_in (escape ch).
Proof.
  destruct ch as [[|c0 s]|]; intros Hwf t; [done| |].
  - destruct (wide_tail c0 s Hwf) as [[Hc ->]|(Hs & Hb & H226)]; [by apply escape_byte_stable|].
    destruct s as [|c1 s].
    { destruct (Ascii.eqb_spec c0 "226") as [->|Hn]; [destruct H226 as [|(? & ? & ?)]; done|].
      cbn [wf_chunk] in Hwf. unfold next_chunk in Hwf. destruct (classify c0) eqn:Ec; try done.
      by apply escape_byte_stable. }
    cbn [escape]. destruct (String.eqb (String c0 (String c1 s)) (bytes_of [0xE2; 0x80; 0xA8]%N))
      eqn:E8; [copy_ascii|].
    destruct (String.eqb (String c0 (String c1 s)) (bytes_of [0xE2; 0x80; 0xA9]%N)) eqn:E9;
      [copy_ascii|].
    rewrite !(app_cons c0). destruct (Ascii.eqb_spec c0 "226") as [->|Hn].
    + destruct H226 as [|(d & e & [= -> ->])]; [done|].
      change (String d (String e "") +:+ t) with (String d (String e t)).
      rewrite compact_three by done. f_equal. by apply (compact_cont (String d (String e ""))).
    + apply Ascii.eqb_neq in Hn. rewrite compact_high by done. f_equal. by apply compact_cont.
  - cbn [escape]. copy_ascii.
Qed.

Lemma escapes_stable chs : Forall wf_chunk chs → stable_in (concat_str (escape <$> chs)).
Proof.
  induction 1 as [|ch chs Hch _ IH]; intros t; [done|].
  by rewrite fmap_cons, concat_str_cons, app_assoc_str, escape_stable, IH, app_assoc_str.
Qed.

Lemma quote_stable s : stable (quote s).
Proof.
  intros t. rewrite quote_app. cbn [compact_text].
  change (Reader.is_space dquote) with false. change (dquote =? dquote)%char with true.
  cbv iota. rewrite escapes_stable by apply chunks_wf.
  rewrite compact_step by done. unfold quote. rewrite app_cons, app_assoc_str. reflexivity.
Qed.

Lemma num_char_stable st c st' :
  Reader.num_step st c = Some st' ∨ Reader.num_start c = Some st' →
  Reader.is_space c = false ∧ (c =? dquote)%char = false.
Proof.
  destruct c as [[] [] [] [] [] [] [] []]; intros [H|H]; try discriminate H; try (by split);
    destruct st; try discriminate H; by split.
Qed.

Lemma lex_num_stable st n m : Reader.lex_num st n = Some (m, "") → stable n.
Proof.
  revert st m. induction n as [|c n IH]; intros st m Hn; [apply stable_empty|]. simpl in Hn.
  destruct (Reader.num_step st c) as [st'|] eqn:Ec; [|by case_match].
  destruct (Reader.lex_num st' n) as [[m' u]|] eqn:E; [|done].
  simpl in Hn. simplify_eq. destruct (num_char_stable st c st'); [by left|].
  apply stable_cons; [done..|by eapply IH].
Qed.

Lemma number_stable lit : number_ok lit = true → stable lit.
Proof.
  destruct lit as [|c n]; [done|]. simpl. destruct (Reader.num_start c) as [st|] eqn:Ec; [|done].
  simpl. destruct (Reader.lex_num st n) as [[m [|]]|] eqn:E; [|done..]. intros _.
  destruct (num_char_stable st c st); [by right|]. apply stable_cons; [done..|].
  by eapply lex_num_stable.
Qed.

#[local] Hint Resolve quote_stable number_stable : stable.

Lemma print_elems_stable l : Forall (λ j, stable (print j)) l → stable (print_elems l).
Proof.
  induction 1 as [|v l Hv Hl IH]; [by apply stable_cons, stable_empty|].
  destruct l as [|w l]; [rewrite print_elems_one|rewrite print_elems_cons]; auto 20 with stable.
Qed.

Lemma print_members_stable l :
  Forall (λ kv : string * json, stable (print kv.2)) l → stable (print_members l).
Proof.
  induction 1 as [|[k v] l Hv Hl IH]; [by apply stable_cons, stable_empty|]. simpl in Hv.
  destruct l as [|w l]; [rewrite print_members_one|rewrite print_members_cons];
    auto 20 with stable.
Qed.

Lemma print_stable j : numbers_ok j = true → stable (print j).
Proof.
  induction j as [|[]|n|s|l IH|l IH] using json_ind'; intros Hok;
    try (repeat (apply stable_cons; [reflexivity..|]); apply stable_empty).
  - by apply number_stable.
  - apply quote_stable.
  - rewrite print_arr. apply stable_app; [by apply stable_cons, stable_empty|].
    apply print_elems_stable. cbn [numbers_ok] in Hok. rewrite forallb_forall in Hok.
    apply Forall_forall. intros v Hv. rewrite Forall_forall in IH. apply IH; [done|].
    by apply Hok, list_elem_of_In.
  - rewrite print_obj. apply stable_app; [by apply stable_cons, stable_empty|].
    apply print_members_stable. cbn [numbers_ok] in Hok. rewrite forallb_forall in Hok.
    apply Forall_forall. intros kv Hv. rewrite Forall_forall in IH. apply (IH kv Hv).
    by apply (Hok kv), list_elem_of_In.
Qed.

(** A printed value is marshalled as it is. *)
Lemma marshal_raw_print j : numbers_ok j = true → marshal_raw (print j) = Ok (print j).
Proof.
  intros Hok. unfold marshal_raw. rewrite parse_print by done. cbn [mbind result_bind]. f_equal.
  rewrite <- (app_empty_r (print j)) at 1. rewrite print_stable by done. apply app_empty_r.
Qed.

(** ** From the stager to the recipe *)

(** What the request and the stager's configuration say of a staging, as the
    values of the variables that the recipe reads. *)
Definition staging_values (st : StagerState) (guid : string) (request : StagingRequestFromCC)
    (data : BuildpackStagingData) : list (string * string) :=
  [(EnvAppID, sr_LogGuid request); (EnvStagingGUID, guid);
   (EnvCompletionCallback, sr_CompletionCallback request);
   (EnvEiriniAddress, sc_EiriniAddress (st_Config st));
   (EnvDropletUploadURL, bs_DropletUploadUri data);
   (EnvBuildpacks, print (encode_Buildpacks (bs_Buildpacks data)))].

Lemma staging_task_values st guid request j data task :
  sr_LifecycleData request = Some j → decode_BuildpackStagingData j = Ok data →
  createStagingTask st guid request = Ret (Ok task) →
  Forall (λ kv, task_Env task ≫= lookup kv.1 = Some kv.2) (staging_values st guid request data).
Proof.
  unfold createStagingTask. intros -> ->. intros [= <-].
  repeat constructor; by cbn [fst snd task_Env mbind option_bind].
Qed.

Lemma recipe_reads `{!ContainerEnv, !ContainerEnvLaws, !MapRange} pod env l :
  Forall (λ kv, env ≫= lookup kv.1 = Some kv.2) l → Forall (λ kv, literal kv.2 = true) l →
  Forall (λ kv, getenv (container_env pod (MapToEnvVar env)) kv.1 = kv.2) l.
Proof.
  intros Henv Hlit. apply Forall_forall. intros [k w] Hin. unfold getenv. cbn.
  rewrite Forall_forall in Henv, Hlit. by rewrite (mapped_env pod env k w (Henv _ Hin) (Hlit _ Hin)).
Qed.

(** C15: the recipe that runs in the container of a staging job has the
    configuration that the staging request asked for: the same staging id,
    application, callback, upload URL and Eirini, whatever the order of the
    environment, and its modifier knows the request's buildpacks in order.
    Kubernetes expands [$(NAME)] and unescapes [$$] in values, and [stager]
    does not escape them: the values have neither, that of the buildpacks as
    it is printed. *)
Theorem env_reaches_recipe `{!ContainerEnv, !ContainerEnvLaws, !MapRange}
    st d guid request j data pod :
  sr_LifecycleData request = Some j → decode_BuildpackStagingData j = Ok data →
  Forall (λ kv, literal kv.2 = true) (staging_values st guid request data) →
  ∃ task job container,
    createStagingTask st guid request = Ret (Ok task) ∧ toStagingJob d task = Ret job ∧
    pt_Containers (js_Template (job_Spec job)) = [container] ∧
    let env := getenv (container_env pod (ct_Env container)) in
    recipe_config env = {|
      cfg_AppID := sr_LogGuid request; cfg_StagingGUID := guid;
      cfg_CompletionCallback := sr_CompletionCallback request;
      cfg_EiriniAddr := sc_EiriniAddress (st_Config st);
      cfg_DropletUploadURL := bs_DropletUploadUri data |} ∧
    getProvidedBuildpacks (env EnvBuildpacks)
    = Ok (clean_Buildpack <$> elems (bs_Buildpacks data)).
Proof.
  intros Hj Hd Hlit. destruct (staging_task st guid request j data Hj Hd)
    as (task & E & _ & _ & _ & _ & _ & _ & _ & E6).
  destruct (toStagingJob_spec d task) as (job & Ejob & _ & _ & _ & _ & c & v & m & Hc & _ & Henv & _).
  exists task, job, c. split_and!; [done..|]. cbn zeta. rewrite Henv.
  pose proof (staging_task_values _ _ _ _ _ _ Hj Hd E) as Hvals.
  pose proof (recipe_reads pod _ _ Hvals Hlit) as Hget.
  unfold staging_values in Hvals, Hget. rewrite !Forall_cons in Hvals, Hget.
  cbn [fst snd] in Hvals, Hget. destruct Hget as (G1 & G2 & G3 & G4 & G5 & G6 & _).
  destruct Hvals as (_ & _ & _ & _ & _ & V6 & _).
  unfold recipe_config. rewrite G1, G2, G3, G4, G5, G6. split; [done|].
  unfold gomap_get in E6. rewrite V6 in E6. cbn [default] in E6.
  unfold getProvidedBuildpacks. destruct (Reader.parse _) as [k|]; [|done].
  cbn [mbind result_bind] in *. rewrite E6. cbn. f_equal. by destruct (bs_Buildpacks data).
Qed.

(** ** From the recipe to the cloud controller *)

Lemma parse_first_print j : numbers_ok j = true → Reader.parse_first (print j) = Ok (clean j).
Proof.
  intros Hok. unfold Reader.parse_first. rewrite <- (app_empty_r (print j)).
  rewrite print_reads_back; [done|done| |done]. unfold Reader.fuel_for. rewrite app_empty_r. lia.
Qed.

Definition clean_TaskCallbackResponse (t : TaskCallbackResponse) : TaskCallbackResponse := {|
  tc_TaskGuid := sanitize (tc_TaskGuid t); tc_Failed := tc_Failed t;
  tc_FailureReason := sanitize (tc_FailureReason t); tc_Result := sanitize (tc_Result t);
  tc_Annotation := sanitize (tc_Annotation t); tc_CreatedAt := tc_CreatedAt t |}.

Lemma decode_encode_TaskCallbackResponse t :
  (- 2 ^ 63 ≤ tc_CreatedAt t ≤ 2 ^ 63 - 1)%Z →
  decode_TaskCallbackResponse (clean (encode_TaskCallbackResponse t))
  = Ok (clean_TaskCallbackResponse t).
Proof.
  destruct t as [guid failed reason res annotation created]. intros Hr. cbn [tc_CreatedAt] in Hr.
  unfold decode_TaskCallbackResponse, encode_TaskCallbackResponse, clean_TaskCallbackResponse.
  cbn [tc_TaskGuid tc_Failed tc_FailureReason tc_Result tc_Annotation tc_CreatedAt].
  destruct (String.eqb_spec annotation "") as [->|_]; simpl; unfold Decode.field; simpl;
    read_fields; cbn [mbind result_bind Decode.decode_string Decode.decode_bool];
    by rewrite parse_int_text, in_range.
Qed.

Lemma getCallbackURI_annotation t cb :
  tc_Annotation t = annotation_text cb → getCallbackURI t = Ok (sanitize cb).
Proof.
  intros E. unfold getCallbackURI. rewrite E. unfold annotation_text.
  rewrite parse_print by done. simpl. unfold Decode.field. simpl. read_fields. reflexivity.
Qed.

(** *** What the builder reports is printable *)

Lemma numbers_ok_map m : numbers_ok (encode_map m) = true.
Proof.
  destruct m as [m|]; [|done]. simpl. by induction (merge_sort _ _) as [|kv l IH].
Qed.

Lemma numbers_ok_result r : numbers_ok (encode_StagingResult r) = true.
Proof.
  unfold encode_StagingResult. cbn [numbers_ok forallb snd]. rewrite numbers_ok_map.
  unfold omitempty. rewrite !andb_true_r.
  assert (numbers_ok match lm_Buildpacks (res_LifecycleMetadata r) with
    | Some l => JArr (encode_BuildpackMetadata <$> l) | None => JNull end = true) as Hl.
  { destruct (lm_Buildpacks _) as [l|]; [|done]. simpl. induction l as [|b l IH]; [done|].
    rewrite fmap_cons. simpl. rewrite IH. unfold omitempty. by destruct (String.eqb _ _). }
  destruct (String.eqb _ _); simpl; by rewrite Hl.
Qed.

(** What the recipe reports of a staging. *)
Definition report `{!ErrorText} (c : Config) (outcome : result StagingResult) :
    TaskCallbackResponse :=
  match outcome with
  | Ok res => success_response c res
  | Err err => createFailureResponse err (cfg_StagingGUID c) (cfg_CompletionCallback c)
  end.

(** What the cloud controller is told of it. *)
Definition cc_message `{!ErrorText} (outcome : result StagingResult) : json :=
  match outcome with
  | Ok res => JObj [("result", encode_StagingResult res)]
  | Err err => JObj [("error", JObj [("id", JStr STAGING_ERROR);
      ("message", JStr (sanitize (error_text err)))])]
  end.

Section EndToEnd.
Context {S : Type} `{!Messages.Bifrost S, !ResponseLib, Texts : !ErrorText}.
Context `{!Opi.TaskDesirer S, !HttpClient S} (st : StagerState).

#[local] Instance the_stager : Messages.Stager S := new_stager st.

Definition report_body (c : Config) (outcome : result StagingResult) : string :=
  print (encode_TaskCallbackResponse (report c outcome)).

Lemma report_decodes c outcome :
  (Reader.parse_first (report_body c outcome)) ≫= decode_TaskCallbackResponse
  = Ok (clean_TaskCallbackResponse (report c outcome)).
Proof.
  unfold report_body. rewrite parse_first_print.
  - cbn [mbind result_bind]. apply decode_encode_TaskCallbackResponse.
    destruct outcome; simpl; lia.
  - unfold encode_TaskCallbackResponse. by destruct outcome, (String.eqb _ _).
Qed.

Lemma report_response c outcome :
  constructStagingResponse (clean_TaskCallbackResponse (report c outcome))
  = Ok (print (cc_message outcome)).
Proof.
  unfold constructStagingResponse. destruct outcome as [res|err]; [|done].
  cbn [report clean_TaskCallbackResponse success_response tc_Failed tc_Result].
  rewrite sanitize_print by apply numbers_ok_result.
  rewrite marshal_raw_print by apply numbers_ok_result. cbn [mbind result_bind cc_message].
  by rewrite print_obj, print_members_one.
Qed.

Lemma report_uri c outcome :
  getCallbackURI (clean_TaskCallbackResponse (report c outcome))
  = Ok (sanitize (cfg_CompletionCallback c)).
Proof.
  apply getCallbackURI_annotation. transitivity (sanitize (annotation_text (cfg_CompletionCallback c))).
  - by destruct outcome.
  - by apply sanitize_print.
Qed.

(** C14: a report of the recipe, sent to the URL it builds, is routed to the
    completion handler; Eirini then posts to the callback of the staging
    request the builder's result, byte for byte, or the failure and its
    reason, and once this is accepted deletes the job of the staging id. *)
Theorem report_reaches_cc c outcome (s s1 : S) resp :
  let guid := cfg_StagingGUID c in
  let callback := sanitize (cfg_CompletionCallback c) in
  lacks "/" guid = true → guid ≠ "" → http_url_valid callback = true →
  http_Do (callback_request callback (print (cc_message outcome))) s = (Ret (Ok resp), s1) →
  (rs_StatusCode resp < 300)%Z →
  completed_uri (cfg_EiriniAddr c) guid = cfg_EiriniAddr c +:+ stage_action guid "completed" ∧
  ServeHTTP "PUT" (stage_action guid "completed") (report_body c outcome) s
  = (r ← task_Delete (sanitize guid);
     mret (Some (status (if is_ok r then StatusOK else StatusInternalServerError)))) s1.
Proof.
  intros guid callback Hl Hne Hv Hdo Hst. split; [done|].
  destruct (dispatch_app guid Hl Hne) as (_ & _ & _ & _ & _ & _ & E).
  unfold ServeHTTP. rewrite E. cbn [handle]. unfold StageStagingComplete. rewrite report_decodes.
  pose proof (staging_complete_sends _ _ _ s s1 resp (report_response c outcome)
    (report_uri c outcome) Hv Hdo Hst) as Hc.
  unfold mbind, M_bind. cbn [stager_CompleteStaging the_stager new_stager]. rewrite Hc.
  assert (tc_TaskGuid (clean_TaskCallbackResponse (report c outcome)) = sanitize guid) as ->
    by by destruct outcome.
  by destruct (task_Delete (sanitize guid) s1) as [[[]|why|] s2].
Qed.
End EndToEnd.

(** ** Instances of the properties *)
Section Witnesses.
#[local] Existing Instance sample_urls.
#[local] Existing Instance range_in_order.

Definition no_config : StagerState := {| st_Config := {| sc_CfUsername := ""; sc_CfPassword := "";
  sc_APIAddress := ""; sc_EiriniAddress := "http://eirini"; sc_SkipSslValidation := false |} |}.

Definition lifecycle_data : json := JObj [
  ("droplet_upload_uri", JStr "http://cc/droplet");
  ("buildpacks", JArr [JObj [("name", JStr "ruby"); ("key", JStr "key-1")]])].

Definition sample_staging : StagingRequestFromCC := {|
  sr_AppId := "dora"; sr_LogGuid := "dora"; sr_Lifecycle := "buildpack";
  sr_LifecycleData := Some lifecycle_data; sr_CompletionCallback := "http://cc/done" |}.

(** A container with variables of its image and of a service. *)
Definition node_env : gmap string string :=
  {[ "PATH" := "/bin"; "KUBERNETES_SERVICE_HOST" := "10.0.0.1" ]}.

#[local] Instance node : ContainerEnv := expanded node_env.

(** The callback of a request, as the recipe finds it. *)
Definition callback_read (callback : string) : outcome (result string) :=
  match createStagingTask no_config "staging-1"
    {| sr_AppId := "dora"; sr_LogGuid := "dora"; sr_Lifecycle := "buildpack";
       sr_LifecycleData := Some lifecycle_data; sr_CompletionCallback := callback |} with
  | Ret (Ok task) => Ret (Ok (cfg_CompletionCallback (recipe_config
      (getenv (container_env "pod" (MapToEnvVar (H := range_in_order) (task_Env task)))))))
  | Ret (Err e) => Ret (Err e)
  | Panic why => Panic why
  | Hang => Hang
  end.

(** A callback with a double sign does not arrive as it was sent. *)
Lemma env_reaches_recipe_witness :
  callback_read "http://cc/done?token=a$$b" = Ret (Ok "http://cc/done?token=a$b") ∧
  ∃ container : Container,
    recipe_config (getenv (container_env "staging-1-x" (ct_Env container))) = {|
      cfg_AppID := "dora"; cfg_StagingGUID := "staging-1";
      cfg_CompletionCallback := "http://cc/done"; cfg_EiriniAddr := "http://eirini";
      cfg_DropletUploadURL := "http://cc/droplet" |} ∧
    getProvidedBuildpacks (getenv (container_env "staging-1-x" (ct_Env container)) EnvBuildpacks)
    = Ok [{| bp_Name := "ruby"; bp_Key := "key-1"; bp_Url := ""; bp_SkipDetect := false |}].
Proof.
  split; [by vm_compute|].
  pose (data := {| bs_AppBitsDownloadUri := ""; bs_DropletUploadUri := "http://cc/droplet";
    bs_Buildpacks := Some [{| bp_Name := "ruby"; bp_Key := "key-1"; bp_Url := "";
                              bp_SkipDetect := false |}] |}).
  assert (decode_BuildpackStagingData lifecycle_data = Ok data) as E by by vm_compute.
  assert (Forall (λ kv, literal kv.2 = true)
    (staging_values no_config "staging-1" sample_staging data)) as Hlit
    by (repeat constructor; by vm_compute).
  destruct (env_reaches_recipe (H0 := expanded_laws node_env)
    (H1 := range_reversed) no_config sample_desirer "staging-1"
    sample_staging lifecycle_data data "staging-1-x" eq_refl E Hlit)
    as (task & job & c & _ & _ & _ & W1 & W2).
  exists c. split; [exact W1|]. refine (eq_trans W2 _). by vm_compute.
Defined.

#[local] Instance callbacks_bifrost : Messages.Bifrost Callbacks := {|
  bifrost_Transfer _ := mret (Ok tt); bifrost_List := mret (Ok []);
  bifrost_Update _ := mret (Ok tt); bifrost_Stop _ := mret (Ok tt);
  bifrost_GetApp _ := mret None; bifrost_GetInstances _ := mret (Ok []) |}.
#[local] Instance no_lib : ResponseLib :=
  {| jsonpb_infos _ := Ok ""; jsonpb_lrp _ := Ok "" |}.
#[local] Instance boom : ErrorText := {| error_text _ := "boom" |}.
#[local] Existing Instance callbacks_http.
#[local] Existing Instance callbacks_tasks.

#[local] Instance quiet_stager : Messages.Stager Callbacks := new_stager no_config.

Definition failed : result StagingResult := Err (ErrorString "boom").
Definition quiet : Callbacks := {| cb_answer := 200; cb_requests := []; cb_deleted := [] |}.

Lemma report_reaches_cc_witness :
  ServeHTTP "PUT" (stage_action "staging-1" "completed")
    (report_body sample_config failed) quiet
  = (Ret (Some (status StatusOK)),
     {| cb_answer := 200;
        cb_requests := [callback_request "http://cc/done" (print (cc_message failed))];
        cb_deleted := ["staging-1"] |}).
Proof.
  assert ("staging-1" ≠ "") as Hne by done.
  assert (http_url_valid (S := Callbacks) (sanitize (cfg_CompletionCallback sample_config)) = true)
    as Hv by by vm_compute.
  assert (200 < 300)%Z as Hlt by done.
  destruct (report_reaches_cc no_config sample_config failed quiet _
    {| rs_StatusCode := 200; rs_Body := "" |} eq_refl Hne Hv eq_refl Hlt) as [_ W].
  exact W.
Defined.
End Witnesses.
