(* ===== verification/Launch.v ===== *)
(** * [launcher/launchcmd/launch.go]: what starts in an application container

    [launch] finds the start command and the index of the instance and
    replaces itself by the launcher. *)

From stdpp Require Import base gmap strings list pretty.
From Stdlib Require Import ZArith Ascii Lia.
From S2P Require Import Prelude Json Opi Messages Kube StatefulSet Fixtures Filepath Bifrost Environ.

(** How the process goes on: it ends, with a status, or it becomes another. *)
Inductive process :=
  | Exit (status : Z)
  | Execed (path : string) (args : list string) (env : gmap string string).

(** The files, and whether the kernel takes a program. *)
Class Machine := {
  os_Open : string → result string;
  syscall_Exec : string → list string → gmap string string → option error
}.

(** A program with an environment that it changes; [check] ends it with
    status 1. *)
Definition P (A : Type) : Type := gmap string string → process + A * gmap string string.

#[global] Instance P_ret : MRet P := λ A a env, inr (a, env).
#[global] Instance P_bind : MBind P := λ A B k c env,
  match c env with inl p => inl p | inr (a, env') => k a env' end.

Definition check {A} (r : result A) : P A := λ env,
  match r with Ok a => inr (a, env) | Err _ => inl (Exit 1) end.

Definition os_Getenv (k : string) : P string := λ env, inr (default "" (env !! k), env).

(** A value with a zero byte is refused. *)
Definition os_Setenv (k v : string) : P (result unit) := λ env,
  if lacks "000" v then inr (Ok tt, <[k := v]> env)
  else inr (Err (ExternalError "invalid argument"), env).

(** The part after the last dash. *)
Definition parsePodIndex (podName : string) : result string :=
  let sl := split_on "-" podName in
  if (length sl <=? 1)%nat
  then Err (ErrorString ("Could not parse pod name from " +:+ podName))
  else Ok (default "" (last sl)).

Definition decode_start_command (j : json) : result string :=
  let names := ["start_command"] in
  ms ← Decode.members j; Decode.field names ms "start_command" "" Decode.decode_string.

Section Program.
Context `{!Machine}.

Definition readCommand (path : string) : P string :=
  stagingInfo ← check (os_Open path);
  check (Reader.parse_first stagingInfo ≫= decode_start_command).

(** It returns only when it fails. *)
Definition exec (path : string) (args : list string) : P (result unit) := λ env,
  match syscall_Exec path args env with
  | None => inl (Execed path args env)
  | Some err => inr (Err err, env)
  end.

Definition launch_main (os_Args : list string) : P unit :=
  command ← os_Getenv "START_COMMAND";
  command ← (if String.eqb command "" then readCommand "/home/vcap/staging_info.yml"
             else mret command);
  podName ← os_Getenv "POD_NAME";
  index ← check (parsePodIndex podName);
  r ← os_Setenv "INSTANCE_INDEX" index;
  _ ← check r;
  r ← os_Setenv "CF_INSTANCE_INDEX" index;
  _ ← check r;
  let launcherPath := default "" (os_Args !! 1%nat) in
  let launcherPath := if String.eqb launcherPath "" then "/lifecycle/launcher" else launcherPath in
  let args := [launcherPath; "/home/vcap/app"; command; ""] in
  r ← exec launcherPath args;
  _ ← check r;
  mret tt.

(** The process that is left; a [main] that returns ends it with status 0. *)
Definition launch (os_Args : list string) (env : gmap string string) : process :=
  match launch_main os_Args env with inl p => p | inr _ => Exit 0 end.
End Program.

(** ** The index of an instance *)

Lemma last_split name i :
  lacks "-" i = true → last (split_on "-" (name +:+ "-" +:+ i)) = Some i.
Proof.
  intros Hi. change ("-" +:+ i) with (String "-" i). rewrite split_on_append.
  rewrite (split_on_lacks _ i) by done. by rewrite last_snoc.
Qed.

(** A pod of a StatefulSet is named after it and its ordinal. *)
Definition pod_name (set : string) (ordinal : nat) : string :=
  set +:+ "-" +:+ int_text (Z.of_nat ordinal).

Lemma ordinal_text n :
  lacks "-" (int_text (Z.of_nat n)) = true ∧ lacks "000" (int_text (Z.of_nat n)) = true.
Proof.
  assert (∀ s, digits s = true → lacks "-" s = true ∧ lacks "000" s = true) as Hd.
  { unfold lacks. induction s as [|c s IH]; [done|]. simpl. intros [Hc Hs]%andb_true_iff.
    destruct (IH Hs) as [-> ->]. rewrite !andb_true_r.
    destruct c as [[] [] [] [] [] [] [] []]; try discriminate Hc; done. }
  apply Hd. destruct n as [|n]; [done|].
  change (Z.of_nat (S n)) with (Z.pos (Pos.of_succ_nat n)). rewrite int_text_pos.
  destruct (pretty_N_go_digits (N.pos (Pos.of_succ_nat n)) "") as (c & t & -> & Hc & Ht); [lia|].
  rewrite app_empty_r. simpl. rewrite Ht, andb_true_r.
  by destruct c as [[] [] [] [] [] [] [] []].
Qed.

Lemma parse_pod_name set ordinal :
  parsePodIndex (pod_name set ordinal) = Ok (int_text (Z.of_nat ordinal)).
Proof.
  destruct (ordinal_text ordinal) as [Hd _]. unfold parsePodIndex, pod_name.
  rewrite (last_split set _ Hd). cbn [default].
  change ("-" +:+ ?i) with (String "-" i). rewrite split_on_append, length_app.
  destruct (split_on "-" set) eqn:E1; [by apply split_on_nonempty in E1|].
  destruct (split_on "-" (int_text _)) eqn:E2; [by apply split_on_nonempty in E2|].
  simpl. by rewrite Nat.add_comm.
Qed.

(** The environment the launcher sees. *)
Definition indexed (i : string) (env : gmap string string) : gmap string string :=
  <["CF_INSTANCE_INDEX" := i]> (<["INSTANCE_INDEX" := i]> env).

(** The command of an application, if it can be found. *)
Definition start_command `{!Machine} (env : gmap string string) : result string :=
  let command := default "" (env !! "START_COMMAND") in
  if String.eqb command ""
  then info ← os_Open "/home/vcap/staging_info.yml"; Reader.parse_first info ≫= decode_start_command
  else Ok command.

Section Properties.
Context `{!Machine}.

Lemma launch_eq set ordinal os_Args env :
  env !! "POD_NAME" = Some (pod_name set ordinal) →
  let i := int_text (Z.of_nat ordinal) in
  let path := match os_Args !! 1%nat with
              | Some (String _ _ as path) => path
              | _ => "/lifecycle/launcher"
              end in
  launch os_Args env =
    match start_command env with
    | Err _ => Exit 1
    | Ok command =>
        let args := [path; "/home/vcap/app"; command; ""] in
        match syscall_Exec path args (indexed i env) with
        | Some _ => Exit 1
        | None => Execed path args (indexed i env)
        end
    end.
Proof.
  intros Hpod i path. destruct (ordinal_text ordinal) as [_ H0].
  unfold launch, launch_main, start_command, readCommand, exec, indexed, mbind, P_bind, mret, P_ret,
    os_Getenv, os_Setenv.
  assert ((if String.eqb (default "" (os_Args !! 1%nat)) "" then "/lifecycle/launcher"
    else default "" (os_Args !! 1%nat)) = path) as Hpath.
  { unfold path. by destruct (os_Args !! 1%nat) as [[|]|]. }
  rewrite Hpath. destruct (String.eqb (default "" (env !! "START_COMMAND")) "").
  - destruct (os_Open _) as [info|e]; [|done]. cbn [check result_bind].
    destruct (Reader.parse_first info) as [j|e]; [|done]. cbn [result_bind].
    destruct (decode_start_command j) as [command|e]; [|done]. cbn [check].
    rewrite Hpod. cbn [from_option id]. rewrite parse_pod_name. cbn [check].
    rewrite H0. cbn [check]. by destruct (syscall_Exec _ _ _).
  - rewrite Hpod. cbn [from_option id]. rewrite parse_pod_name. cbn [check]. rewrite H0. cbn [check]. by destruct (syscall_Exec _ _ _).
Qed.

(** In pod number [i] of a StatefulSet [launch] becomes the launcher, of
    its first argument or else the default one, with the application's
    directory and the start command, from the environment or else from the
    staging info, and with [i] as instance index in both variables; it ends
    with status 1 exactly when there is no start command to be read or the
    launcher cannot be run. *)
Lemma launched set ordinal os_Args env :
  env !! "POD_NAME" = Some (pod_name set ordinal) →
  let i := int_text (Z.of_nat ordinal) in
  let path := match os_Args !! 1%nat with
              | Some (String _ _ as path) => path
              | _ => "/lifecycle/launcher"
              end in
  launch os_Args env =
    match start_command env with
    | Err _ => Exit 1
    | Ok command =>
        let args := [path; "/home/vcap/app"; command; ""] in
        match syscall_Exec path args (indexed i env) with
        | Some _ => Exit 1
        | None => Execed path args (indexed i env)
        end
    end.
Proof. apply launch_eq. Qed.
End Properties.

(** ** From the desire request to the running instance *)

Section Started.
Context `{!Machine, !MapRange, !ContainerEnv, !ContainerEnvLaws}.
Context (live ready : LRP → option Probe).





End Started.

(** ** Instances of the properties *)
Section Witnesses.
#[local] Existing Instance sample_urls.
#[local] Existing Instance range_in_order.

#[local] Instance sample_machine : Machine := {|
  os_Open path := if String.eqb path "/home/vcap/staging_info.yml"
                  then Ok (Printer.print (JObj [("start_command", JStr "rackup")]))
                  else Err (ExternalError "no such file or directory");
  syscall_Exec _ _ _ := None |}.

Definition bare_env : gmap string string := {[ "POD_NAME" := "dora-guid-11" ]}.

Lemma launched_witness :
  launch ["launch"] bare_env
  = Execed "/lifecycle/launcher" ["/lifecycle/launcher"; "/home/vcap/app"; "rackup"; ""]
      (indexed "11" bare_env) ∧
  launch ["launch"] ∅ = Exit 1.
Proof.
  split; [|by vm_compute].
  assert (bare_env !! "POD_NAME" = Some (pod_name "dora-guid" 11)) as E by by vm_compute.
  assert (start_command bare_env = Ok "rackup") as Ec by by vm_compute.
  pose proof (launched "dora-guid" 11 ["launch"] bare_env E) as W. rewrite Ec in W. exact W.
Defined.

#[local] Instance node : ContainerEnv := expanded {[ "PATH" := "/bin" ]}.


End Witnesses.
