(* ===== verification/Cmd.v ===== *)
(** * [cmd/opi/cmd/]: how the parts are put together

    [connect] serves the handler on Bifrost and the stager over Kubernetes, and
    starts the emitter and the collector of routes; [simulator] serves the same
    handler on fixed answers.  What a client of [connect] may rely on is the
    abstract scheduler of [Desirer.v], request by request. *)

From stdpp Require Import base gmap strings list.
From Stdlib Require Import ZArith Ascii Lia.
From S2P Require Import Prelude Json Opi Messages Kube Service StatefulSet Ingress Fixtures.
From S2P Require Import Desirer Listing Tasks Routes Bifrost Handler Stager.

(** ** [connect.go] *)
Section Connect.
Context {S : Type} `{!KubeClient S, !RoutesChan S, !CfClient S, !UrlLib, !MapRange}.
Context (plain_client tls_client : HttpClient S).
Variable cfg : Properties.

Definition initStager : Messages.Stager S :=
  let taskDesirer := k8s_task_scheduler
    {| td_Namespace := KubeNamespace cfg; td_CCUploaderIP := CcUploaderIP cfg |} in
  @new_stager S taskDesirer plain_client
    {| st_Config := {| sc_CfUsername := CfUsername cfg; sc_CfPassword := CfPassword cfg;
         sc_APIAddress := CcAPI cfg; sc_EiriniAddress := EiriniAddress cfg;
         sc_SkipSslValidation := SkipSslValidation cfg |} |}.

Definition initConverter : Converter S :=
  @NewConverter S _ tls_client _
    {| cv_registryURL := "http://127.0.0.1:8080"; cv_registryIP := RegistryAddress cfg |}.

Definition initDesirer : Opi.Desirer S :=
  k8s_scheduler (NewDesirer (KubeNamespace cfg) UseStatefulSets WorkChan).

Definition initBifrost : Messages.Bifrost S :=
  @new_bifrost S initConverter initDesirer.

(** What is served on port 8085. *)
Definition connect `{!ResponseLib, !ErrorText} (method path body : string) : M S (option Answer) :=
  @ServeHTTP S initBifrost initStager _ _ method path body.

(** The two loops of [launchRouteEmitter]. *)
Definition route_emitter : Emitter := {| em_kubeEndpoint := KubeEndpoint cfg |}.

Definition route_collector (rounds : nat) : M S unit :=
  Schedule_rounds rounds
    (@collectRoutes S (NewServiceRouteLister (KubeNamespace cfg)) _).
End Connect.

(** ** [simulator.go] *)
Section Simulator.
Context {S : Type}.

Definition jeff : LRP := {|
  lrp_Name := "jeff"; lrp_Image := ""; lrp_Command := []; lrp_Env := None;
  lrp_Health := zero_Healtcheck; lrp_TargetInstances := 4; lrp_RunningInstances := 2; lrp_Metadata := Some ∅ |}.

Definition DesirerSimulator : Opi.Desirer S := {|
  desirer_Desire _ := mret (Ok tt);
  desirer_List := throw_panic "not implemented";
  desirer_Get name := if negb (String.eqb name "jeff")
                      then mret (Err (ErrorString "this is not jeff")) else mret (Ok jeff);
  desirer_Update _ := mret (Ok tt);
  desirer_Stop _ := throw_panic "not implemented" |}.

Definition ConverterSimulator : Converter S :=
  {| converter_Convert _ := mret (Ok zero_LRP) |}.

Definition StagerSimulator : Messages.Stager S :=
  {| stager_Stage _ _ := mret (Ok tt); stager_CompleteStaging _ := mret (Ok tt) |}.

Definition simulate `{!ResponseLib, !ErrorText} (method path body : string) : M S (option Answer) :=
  @ServeHTTP S (@new_bifrost S ConverterSimulator DesirerSimulator) StagerSimulator _ _
    method path body.
End Simulator.

(** ** What a client of [connect] may rely on *)

(** What a client asks for: a command of the abstract scheduler; the same for an
    application whose droplet is still to be made an image; whether an
    application runs, and which of its instances; what runs at all. *)
Inductive call :=
  | Command (c : command) | Attempt (lrp : LRP) | Lookup (guid : string)
  | Instances (guid : string) | Listing.

(** What it is told: of instances how many, if the application is there. *)
Inductive reply :=
  | Done (b : bool) | Running (n : option Z) | Told (infos : list DesiredLRPSchedulingInfo).

(** The abstract scheduler: a droplet may not be found or not be taken by the
    registry, any number of instances may be ready, and the list is in no
    particular order. *)
Inductive abs_call : call → gmap string AppState → reply → gmap string AppState → Prop :=
  | abs_does c m : abs_call (Command c) m (Done (abs_command c m).1) (abs_command c m).2
  | abs_declines lrp m : abs_call (Attempt lrp) m (Done false) m
  | abs_attempts lrp m :
      abs_call (Attempt lrp) m (Done (abs_command (CDesire lrp) m).1) (abs_command (CDesire lrp) m).2
  | abs_finds guid m : abs_call (Lookup guid) m (Done (bool_decide (is_Some (m !! guid)))) m
  | abs_counts guid n m :
      is_Some n ↔ is_Some (m !! guid) → abs_call (Instances guid) m (Running n) m
  | abs_lists infos m : infos ≡ₚ infos_of m → abs_call Listing m (Told infos) m.

Inductive abs_calls : list call → gmap string AppState → list reply → gmap string AppState → Prop :=
  | abs_end m : abs_calls [] m [] m
  | abs_next c cs m r m1 rs m2 :
      abs_call c m r m1 → abs_calls cs m1 rs m2 → abs_calls (c :: cs) m (r :: rs) m2.

(** The requests that ask for it: to run an image or a droplet, to update or
    find an application or its instances by its id, to stop one by its process
    id, to list. *)
Section Asks.
Context `{!MapRange, !ResponseLib}.
Context (valid_url : string → bool) (cfg : Properties).

(** The image that a droplet becomes, and where it is posted. *)
Definition droplet_image (request : DesireLRPRequest) : string :=
  RegistryAddress cfg +:+ "/cloudfoundry/app-name:" +:+ dr_DropletHash request.
Definition droplet_url (request : DesireLRPRequest) (vcap : VcapApp) : string :=
  registryStageURI "http://127.0.0.1:8080" (va_SpaceName vcap) (va_AppName vcap) (dr_DropletHash request).

Inductive asks : string * string * string → call → Prop :=
  | asks_desire body request vcap :
      Reader.parse_first body ≫= decode_DesireLRPRequest = Ok request →
      lacks "/" (dr_ProcessGUID request) = true → dr_ProcessGUID request ≠ "" →
      parseVcapApplication (gomap_get (dr_Environment request) "VCAP_APPLICATION") = Ok vcap →
      dr_DockerImageURL request ≠ "" →
      asks ("PUT", app_path (dr_ProcessGUID request), body)
        (Command (CDesire (to_LRP (with_image (dr_DockerImageURL request) request) vcap)))
  | asks_attempt body request vcap :
      Reader.parse_first body ≫= decode_DesireLRPRequest = Ok request →
      lacks "/" (dr_ProcessGUID request) = true → dr_ProcessGUID request ≠ "" →
      parseVcapApplication (gomap_get (dr_Environment request) "VCAP_APPLICATION") = Ok vcap →
      dr_DockerImageURL request = "" → valid_url (droplet_url request vcap) = true →
      asks ("PUT", app_path (dr_ProcessGUID request), body)
        (Attempt (to_LRP (with_image (droplet_image request) request) vcap))
  | asks_update body u d n annotation hostnames lrp :
      Reader.parse_first body ≫= decode_UpdateDesiredLRPRequest = Ok u →
      lacks "/" (ud_ProcessGuid u) = true → ud_ProcessGuid u ≠ "" →
      ud_Update u = Some d → du_Instances d = Some n → du_Annotation d = Some annotation →
      getURIs u = Ret (Ok hostnames) → update_of (ud_ProcessGuid u) n annotation hostnames lrp →
      asks ("POST", app_path (ud_ProcessGuid u), body) (Command (CUpdate lrp))
  | asks_stop app version body :
      lacks "/" (process_guid app version) = true → String.length app = 36%nat →
      asks ("PUT", app_action (process_guid app version) "stop", body) (Command (CStop app))
  | asks_lookup guid body text :
      lacks "/" guid = true → guid ≠ "" →
      jsonpb_lrp {| dl_ProcessGuid := guid; dl_Instances := 0 |} = Ok text →
      asks ("GET", app_path guid, body) (Lookup guid)
  | asks_instances guid body :
      lacks "/" guid = true → guid ≠ "" →
      asks ("GET", app_action guid "instances", body) (Instances guid)
  | asks_list body : asks ("GET", "/apps", body) Listing.
End Asks.

(** The answer that gives the reply. *)
Definition answered `{!ResponseLib, !ErrorText} (c : call) (r : reply) (a : Answer) : Prop :=
  match c, r with
  | Command (CDesire _), Done b | Attempt _, Done b =>
      a = status (if b then StatusAccepted else StatusBadRequest)
  | Command (CUpdate _), Done b =>
      if b then a = status StatusOK
      else ∃ e, a = writeUpdateErrorResponse e StatusInternalServerError
  | Command (CStop _), Done b => a = status (if b then StatusOK else StatusInternalServerError)
  | Lookup guid, Done b =>
      if b then an_Status a = StatusOK ∧
        jsonpb_lrp {| dl_ProcessGuid := guid; dl_Instances := 0 |} = Ok (an_Body a)
      else a = status StatusNotFound
  | Instances guid, Running n =>
      an_Status a = StatusOK ∧ ∃ e, an_Body a = Printer.print (encode_GetInstancesResponse
        (match n with
         | Some n => {| gir_ProcessGUID := guid; gir_Error := ""; gir_Instances := running_instances n |}
         | None => createErrorGetInstancesResponse guid e
         end)) +:+ String "010" ""
  | Listing, Told infos =>
      match jsonpb_infos infos with
      | Ok text => an_Status a = StatusOK ∧ an_Body a = text
      | Err _ => an_Status a = StatusInternalServerError
      end
  | _, _ => False
  end.

Definition call_allowed `{!UrlLib} (c : call) (m : gmap string AppState) : Prop :=
  match c with
  | Command c => allowed c m
  | Attempt lrp => allowed (CDesire lrp) m
  | Lookup guid | Instances guid => plain guid
  | Listing => True
  end.

(** Whatever becomes of the calls before it. *)
Fixpoint calls_allowed `{!UrlLib} (cs : list call) (m : gmap string AppState) : Prop :=
  match cs with
  | [] => True
  | c :: cs => call_allowed c m ∧ ∀ r m', abs_call c m r m' → calls_allowed cs m'
  end.

Section Allowed.
Context `{!UrlLib}.
Implicit Types (cs : list call) (m : gmap string AppState).

Lemma then_command c cs m :
  allowed c m → calls_allowed cs (abs_command c m).2 → calls_allowed (Command c :: cs) m.
Proof. intros Ha Hcs. split; [done|]. intros r m' Hr. by inversion Hr; subst. Qed.

Lemma then_attempt lrp cs m :
  allowed (CDesire lrp) m → calls_allowed cs m → calls_allowed cs (abs_command (CDesire lrp) m).2 →
  calls_allowed (Attempt lrp :: cs) m.
Proof. intros Ha H1 H2. split; [done|]. intros r m' Hr. by inversion Hr; subst. Qed.

Lemma then_lookup guid cs m : plain guid → calls_allowed cs m → calls_allowed (Lookup guid :: cs) m.
Proof. intros Ha Hcs. split; [done|]. intros r m' Hr. by inversion Hr; subst. Qed.

Lemma then_instances guid cs m :
  plain guid → calls_allowed cs m → calls_allowed (Instances guid :: cs) m.
Proof. intros Ha Hcs. split; [done|]. intros r m' Hr. by inversion Hr; subst. Qed.

Lemma then_listing cs m : calls_allowed cs m → calls_allowed (Listing :: cs) m.
Proof. intros Hcs. split; [done|]. intros r m' Hr. by inversion Hr; subst. Qed.
End Allowed.

(** Updates that ask for the same are the same to the abstract scheduler. *)
Lemma update_of_same `{!UrlLib} guid n annotation hostnames lrp lrp' m :
  update_of guid n annotation hostnames lrp → update_of guid n annotation hostnames lrp' →
  abs_command (CUpdate lrp') m = abs_command (CUpdate lrp) m ∧
  (allowed (CUpdate lrp) m → allowed (CUpdate lrp') m).
Proof.
  intros (E1 & E2 & E3 & E4) (F1 & F2 & F3 & F4). unfold allowed, abs_command, abs_Update,
    next_state, decoded_uris, routes_valid. cbn [command_app].
  by rewrite E1, E2, E3, E4, F1, F2, F3, F4.
Qed.

Section Spec.
Context {S : Type} `{!KubeClient S, !RoutesChan S, !Observed S Obs, !KubeLaws S,
  !CfClient S, !UrlLib, !MapRange, !ResponseLib, !ErrorText}.
Context (plain_client tls_client : HttpClient S) (cfg : Properties).
Context (ns_ok : KubeNamespace cfg ≠ "").
Implicit Types (v : Obs) (m : gmap string AppState).

Abbreviation serve := (connect plain_client tls_client cfg).
Abbreviation ns := (KubeNamespace cfg).

(** The cloud controller and the registry are not the API server: whatever they
    answer, the cluster stays. *)
Record elsewhere : Prop := {
  droplet_elsewhere guid v : wp (cf_GetDropletByAppGuid guid) (λ o v', (∃ r, o = Ret r) ∧ v' = v) v;
  registry_elsewhere rq v : wp (@http_Do S tls_client rq) (λ o v', (∃ r, o = Ret r) ∧ v' = v) v
}.

(** A cluster that the backend can handle and that shows a map. *)
Definition showing m v : Prop :=
  (healthy v = true ∧ tidy ns v m) ∧ managed ns v ∧ represents ns v m.

Lemma showing_unchanged m v v' : showing m v → unchanged ns v v' → showing m v'.
Proof.
  intros ((Hh & Ht) & _ & Hr) (Hm & Hc & _ & Hh').
  split_and!; [auto|by eapply tidy_same|done|by eapply represents_same].
Qed.

Lemma present_sts m v guid : showing m v → plain guid → (is_Some (the_sts v ns guid) ↔ is_Some (m !! guid)).
Proof.
  intros (_ & _ & Hr) Hp. specialize (Hr guid Hp). destruct (m !! guid) as [a|].
  - destruct Hr as ((s & _ & Hs & _) & _). rewrite Hs. split; by eexists.
  - destruct Hr as (Hs & _). rewrite Hs. by split; intros [? ?].
Qed.

Lemma command_showing c m v r v' :
  showing m v → allowed c m → commanded ns c v r v' →
  is_ok r = (abs_command c m).1 ∧ showing (abs_command c m).2 v'.
Proof.
  intros ((Hh & Ht) & Hm & Hr) Ha Hc. destruct (command_refines ns c v m r v') as [Hok Hrep]; [done..|].
  destruct (commanded_isolated ns c v r v' Hc) as [Hi Hm']. split; [done|].
  split_and!; [by apply (isolated_step _ _ _ _ Hi)| |done|done].
  eapply tidy_command; [apply Ha|done|done].
Qed.

(** What serving a call does to a cluster that shows [m]. *)
Definition served (c : call) m (o : outcome (option Answer)) v' : Prop :=
  ∃ a r m', o = Ret (Some a) ∧ abs_call c m r m' ∧ answered c r a ∧ showing m' v'.

Lemma run_replies c m v (Q : outcome (result unit) → Obs → Prop) :
  showing m v → allowed c m →
  (∀ r v', is_ok r = (abs_command c m).1 → showing (abs_command c m).2 v' → Q (Ret r) v') →
  wp (run_command ns c) Q v.
Proof.
  intros Hs Ha HQ. destruct (Hs) as (_ & Hm & _). apply run_command_wp;
    [done|done|by eapply allowed_well_formed|]. intros r v' Hc.
  destruct (command_showing c m v r v') as [Hok Hs']; [done..|]. by apply HQ.
Qed.

Lemma run_served c m v (f : result unit → Answer) :
  showing m v → allowed c m →
  (∀ r, is_ok r = (abs_command c m).1 → answered (Command c) (Done (abs_command c m).1) (f r)) →
  wp (r ← run_command ns c; mret (Some (f r))) (served (Command c) m) v.
Proof.
  intros Hs Ha Hf. apply wp_bind, (run_replies c m); [done..|]. intros r v' Hok Hs'.
  apply wp_ret. exists (f r), (Done (abs_command c m).1), (abs_command c m).2.
  split_and!; [done|constructor|by apply Hf|done].
Qed.

Lemma serve_desire body request vcap m v :
  let lrp := to_LRP (with_image (dr_DockerImageURL request) request) vcap in
  Reader.parse_first body ≫= decode_DesireLRPRequest = Ok request →
  lacks "/" (dr_ProcessGUID request) = true → dr_ProcessGUID request ≠ "" →
  parseVcapApplication (gomap_get (dr_Environment request) "VCAP_APPLICATION") = Ok vcap →
  dr_DockerImageURL request ≠ "" → showing m v → allowed (CDesire lrp) m →
  wp (serve "PUT" (app_path (dr_ProcessGUID request)) body) (served (Command (CDesire lrp)) m) v.
Proof.
  intros lrp Hb Hs Hne Hv Hd Hsh Ha. destruct (dispatch_app _ Hs Hne) as (E & _).
  eapply wp_ext; [|apply (run_served (CDesire lrp) m v (λ r, status (if is_ok r then StatusAccepted
    else StatusBadRequest))); [done..|by intros r <-]].
  intros s. unfold connect, ServeHTTP. rewrite E.
  cbn [handle]. unfold AppDesire. rewrite Hb, String.eqb_refl. cbn [negb].
  cbn [bifrost_Transfer initBifrost new_bifrost]. unfold Transfer, try_bind at 1.
  unfold mbind, M_bind. cbn [converter_Convert initConverter NewConverter].
  rewrite (Convert_docker _ _ vcap) by done. cbn [run_command desirer_Desire].
  unfold initDesirer, k8s_scheduler. cbn [desirer_Desire].
  by destruct (Desirer.Desire _ _ s) as [[[]|why|] s'].
Qed.

(** A droplet is fetched and posted, which may fail. *)
Lemma Convert_elsewhere request vcap v (Q : outcome (result LRP) → Obs → Prop) :
  elsewhere →
  parseVcapApplication (gomap_get (dr_Environment request) "VCAP_APPLICATION") = Ok vcap →
  dr_DockerImageURL request = "" → http_url_valid (droplet_url request vcap) = true →
  (∀ r, (∀ lrp, r = Ok lrp → lrp = to_LRP (with_image (droplet_image cfg request) request) vcap) →
     Q (Ret r) v) →
  wp (converter_Convert (Converter := initConverter tls_client cfg) request) Q v.
Proof.
  intros [Hdroplet Hregistry] Hv Hd Hurl HQ. cbn [converter_Convert initConverter NewConverter].
  unfold Convert. rewrite Hv. apply wp_try_pure, wp_try. unfold dropletToImageURI. rewrite Hd.
  cbn [String.eqb negb]. apply wp_try. eapply wp_mono; [apply Hdroplet|]. intros o v' [[r ->] ->].
  destruct r as [bits|e]; [|by apply HQ]. apply wp_try. unfold stageRequest, http_NewRequest.
  cbn [cv_registryURL]. fold (droplet_url request vcap). rewrite Hurl.
  apply wp_try. eapply wp_mono; [apply Hregistry|]. intros o v' [[r ->] ->].
  destruct r as [resp|e]; [|by apply HQ]. destruct (rs_StatusCode resp =? StatusCreated)%Z;
    cbn [negb]; [|intros s Hs <-; split; [done|by apply HQ]].
  apply wp_ret, wp_ret, wp_ret, HQ. by intros lrp [= <-].
Qed.

Lemma serve_attempt body request vcap m v :
  let lrp := to_LRP (with_image (droplet_image cfg request) request) vcap in
  elsewhere → Reader.parse_first body ≫= decode_DesireLRPRequest = Ok request →
  lacks "/" (dr_ProcessGUID request) = true → dr_ProcessGUID request ≠ "" →
  parseVcapApplication (gomap_get (dr_Environment request) "VCAP_APPLICATION") = Ok vcap →
  dr_DockerImageURL request = "" → http_url_valid (droplet_url request vcap) = true →
  showing m v → allowed (CDesire lrp) m →
  wp (serve "PUT" (app_path (dr_ProcessGUID request)) body) (served (Attempt lrp) m) v.
Proof.
  intros lrp Hout Hb Hs Hne Hv Hd Hurl Hsh Ha. destruct (dispatch_app _ Hs Hne) as (E & _).
  unfold connect, ServeHTTP. rewrite E. cbn [handle]. unfold AppDesire.
  rewrite Hb, String.eqb_refl. cbn [negb]. apply wp_bind, wp_bind.
  cbn [bifrost_Transfer initBifrost new_bifrost]. apply wp_try.
  apply (Convert_elsewhere request vcap); [done..|]. intros r Hr.
  destruct r as [lrp'|e].
  - rewrite (Hr lrp' eq_refl). apply (run_replies (CDesire lrp) m); [done..|]. intros r v' Hok Hs'.
    destruct r as [[]|e]; apply wp_ret, wp_ret; eexists _, _, _;
      (split_and!; [done|apply abs_attempts| |done]); by rewrite <- Hok.
  - apply wp_ret, wp_ret. eexists _, _, _. split_and!; [done|apply abs_declines|done|done].
Qed.

Lemma serve_list body m v : showing m v → wp (serve "GET" "/apps" body) (served Listing m) v.
Proof.
  intros Hsh. destruct (Hsh) as ((Hh & Ht) & Hm & Hr). unfold connect, ServeHTTP.
  change (dispatch "GET" "/apps") with (Some (EList, "")). cbn [handle]. unfold AppList.
  apply wp_bind, wp_bind, (ListInfos_shows ns ns_ok v m); [done..|]. intros r v' Hc Hh' Hinfos.
  destruct r as [infos|e]; [|congruence]. cbv beta iota.
  assert (showing m v') as Hsh'.
  { split_and!; [auto|by eapply tidy_same| |by eapply represents_same].
    by apply (quiet_managed ns v). }
  destruct (jsonpb_infos infos) as [text|e] eqn:Ej; apply wp_ret, wp_ret;
    (eexists _, (Told infos), m; split_and!; [done|by constructor| |done]);
    unfold answered; rewrite Ej; done.
Qed.

Lemma serve_stop app version body m v :
  lacks "/" (process_guid app version) = true → String.length app = 36%nat →
  showing m v → allowed (CStop app) m →
  wp (serve "PUT" (app_action (process_guid app version) "stop") body)
    (served (Command (CStop app)) m) v.
Proof.
  intros Hs Hl Hsh Ha.
  assert (process_guid app version ≠ "") as Hne by (unfold process_guid; by destruct app).
  destruct (dispatch_app _ Hs Hne) as (_ & _ & _ & E & _).
  eapply wp_ext; [|apply (run_served (CStop app) m v (λ r, status (if is_ok r then StatusOK
    else StatusInternalServerError))); [done..|by intros r <-]].
  intros s. unfold connect, ServeHTTP. rewrite E.
  cbn [handle]. unfold AppStop, process_guid. rewrite stop_guid_long by done.
  cbn [bifrost_Stop initBifrost new_bifrost run_command]. unfold StopApp.
  unfold initDesirer, k8s_scheduler. cbn [desirer_Stop]. unfold mbind, M_bind.
  by destruct (Stop _ _ s) as [[[]|why|] s'].
Qed.

Lemma serve_update body u d n annotation hostnames lrp m v :
  Reader.parse_first body ≫= decode_UpdateDesiredLRPRequest = Ok u →
  lacks "/" (ud_ProcessGuid u) = true → ud_ProcessGuid u ≠ "" →
  ud_Update u = Some d → du_Instances d = Some n → du_Annotation d = Some annotation →
  getURIs u = Ret (Ok hostnames) → update_of (ud_ProcessGuid u) n annotation hostnames lrp →
  showing m v → allowed (CUpdate lrp) m →
  wp (serve "POST" (app_path (ud_ProcessGuid u)) body) (served (Command (CUpdate lrp)) m) v.
Proof.
  intros Hb Hs Hne Hu Hn Ha Huris Hof Hsh Hal. destruct (dispatch_app _ Hs Hne) as (_ & E & _).
  unfold connect, ServeHTTP. rewrite E. cbn [handle]. unfold AppUpdate.
  rewrite Hb, String.eqb_refl. cbn [negb]. apply wp_bind, wp_bind.
  destruct (Hsh) as ([Hh _] & Hm & _).
  eapply (UpdateApp_wp ns ns_ok u d n annotation); [done..| |].
  - intros e v' Hun [Hno|?]; [done..| |done]. apply wp_ret, wp_ret.
    assert (m !! lrp_Name lrp = None) as Em.
    { rewrite (proj1 Hof). apply eq_None_not_Some. rewrite <- (present_sts m v) by
        (done || rewrite <- (proj1 Hof); apply Hal). rewrite Hno. by intros [? ?]. }
    eexists _, _, _. split_and!; [done|constructor| |]; cbn [abs_command]; unfold abs_Update;
      rewrite Em; [by exists e|by eapply showing_unchanged].
  - intros hostnames' lrp' v1 r v' [= <-] Hun _ Hof' Hr.
    destruct (update_of_same _ _ _ _ lrp lrp' m Hof Hof') as [Eabs Hal'].
    destruct (command_showing (CUpdate lrp') m v1 r v') as [Hok Hs'];
      [by eapply showing_unchanged|by apply Hal'|done|].
    rewrite Eabs in Hok, Hs'.
    destruct r as [[]|e]; apply wp_ret, wp_ret; eexists _, _, _;
      (split_and!; [done|constructor| |done]); cbn [answered]; rewrite <- Hok; [done|by exists e].
Qed.

Lemma serve_lookup guid body text m v :
  lacks "/" guid = true → guid ≠ "" →
  jsonpb_lrp {| dl_ProcessGuid := guid; dl_Instances := 0 |} = Ok text →
  showing m v → plain guid →
  wp (serve "GET" (app_path guid) body) (served (Lookup guid) m) v.
Proof.
  intros Hs Hne Ht Hsh Hp. destruct (dispatch_app _ Hs Hne) as (_ & _ & E & _).
  unfold connect, ServeHTTP. rewrite E. cbn [handle]. unfold AppGetApp. apply wp_bind, wp_bind.
  destruct (Hsh) as ([Hh _] & Hm & _).
  eapply wp_mono; [by apply (getapp_reports_zero ns ns_ok guid)|].
  intros o v' (Hun & a & -> & Hiff & Hval). cbv beta iota.
  assert (is_Some a ↔ is_Some (m !! guid)) as Hiff' by (by rewrite Hiff, present_sts).
  destruct a as [app|].
  - rewrite (Hval app eq_refl), Ht. apply wp_ret, wp_ret. eexists _, _, _.
    split_and!; [done|constructor| |by eapply showing_unchanged]. cbn [answered].
    by rewrite bool_decide_true by (apply Hiff'; by eexists).
  - apply wp_ret, wp_ret. eexists _, _, _.
    split_and!; [done|constructor| |by eapply showing_unchanged]. cbn [answered].
    by rewrite bool_decide_false by (intros Hx; apply Hiff' in Hx; by destruct Hx).
Qed.

Lemma serve_instances guid body m v :
  lacks "/" guid = true → guid ≠ "" → showing m v → plain guid →
  wp (serve "GET" (app_action guid "instances") body) (served (Instances guid) m) v.
Proof.
  intros Hs Hne Hsh Hp. destruct (dispatch_app _ Hs Hne) as (_ & _ & _ & _ & E & _).
  unfold connect, ServeHTTP. rewrite E. cbn [handle]. unfold AppGetInstances. apply wp_bind, wp_bind.
  destruct (Hsh) as ([Hh _] & Hm & _). apply (GetInstances_wp ns ns_ok guid); [done..|].
  intros r v' Hun Hr. apply wp_ret, wp_ret. pose proof (present_sts m v guid Hsh Hp) as Hiff.
  exists {| an_Status := StatusOK; an_ContentType := "";
            an_Body := Printer.print (encode_GetInstancesResponse (createGetInstancesResponse guid r))
              +:+ String "010" "" |}, (Running (sts_ReadyReplicas <$> the_sts v ns guid)), m.
  split_and!; [done|constructor; by rewrite fmap_is_Some| |by eapply showing_unchanged].
  cbn [answered]. destruct (the_sts v ns guid) as [s|].
  - rewrite Hr. split; [done|]. by exists JsonSyntaxError.
  - destruct r as [l|e]; [done|]. split; [done|]. by exists e.
Qed.

Lemma serve_asks rq c m v :
  elsewhere → asks (@http_url_valid S tls_client) cfg rq c → showing m v → call_allowed c m →
  wp (serve rq.1.1 rq.1.2 rq.2) (served c m) v.
Proof.
  intros Hout Ha Hs Hc. destruct Ha; cbn [fst snd].
  - by apply serve_desire.
  - by apply serve_attempt.
  - by eapply serve_update.
  - by apply serve_stop.
  - by eapply serve_lookup.
  - by apply serve_instances.
  - by apply serve_list.
Qed.

Fixpoint serve_all (rqs : list (string * string * string)) : M S (list (option Answer)) :=
  match rqs with
  | [] => mret []
  | rq :: rqs => a ← serve rq.1.1 rq.1.2 rq.2; l ← serve_all rqs; mret (a :: l)
  end.

(** C8: through its HTTP interface [connect] is the abstract scheduler: on a
    healthy API server any sequence of requests that run images or droplets,
    update, find, stop or list applications or their instances is answered,
    request by request, as the map of applications says, and ends in a cluster
    that shows that map; only a droplet may be refused, and then nothing
    changes. *)
Theorem http_refinement rqs cs v m :
  elsewhere → Forall2 (asks (@http_url_valid S tls_client) cfg) rqs cs →
  healthy v = true → managed ns v → represents ns v m → tidy ns v m → calls_allowed cs m →
  wp (serve_all rqs) (λ o v', ∃ answers replies m', o = Ret (Some <$> answers) ∧
    abs_calls cs m replies m' ∧ Forall3 answered cs replies answers ∧
    represents ns v' m') v.
Proof.
  intros Hout Ha Hh Hm Hr Ht. assert (showing m v) as Hs by done. clear Hh Hm Hr Ht.
  revert m v Hs. induction Ha as [|rq c rqs cs Hrq _ IH]; intros m v Hs Hall; cbn [serve_all].
  - apply wp_ret. exists [], [], m. split_and!; [done|constructor..|apply Hs].
  - destruct Hall as [Hc Hall]. apply wp_bind.
    eapply wp_mono; [by apply serve_asks|]. intros o v1 (a & r & m1 & -> & Habs & Hans & Hs1).
    apply wp_bind. eapply wp_mono; [by apply (IH m1); [|eapply Hall]|].
    intros o v2 (answers & rs & m2 & -> & Hrun & Hf & Hrep). apply wp_ret.
    exists (a :: answers), (r :: rs), m2. split_and!; [done|by econstructor|by constructor|done].
Qed.
End Spec.

(** ** Instances of the properties *)
Section Witnesses.
#[local] Existing Instance sample_urls.
#[local] Existing Instance range_in_order.

#[local] Instance cmd_cc : CfClient Server := {|
  cf_GetDropletByAppGuid _ := mret (Err (ExternalError "none"));
  cf_PushDroplet _ _ := mret (Err (ExternalError "none"));
  cf_GetAppBitsByAppGuid _ := mret (Err (ExternalError "none")) |}.

Definition no_http : HttpClient Server :=
  {| http_url_valid _ := true; http_Do _ := mret (Err (ExternalError "unreachable"));
     http_show _ _ := "&{}" |}.

#[local] Instance cmd_lib : ResponseLib :=
  {| jsonpb_infos l := match l with
                       | [i] => Ok (si_ProcessGuid i +:+ " " +:+ si_Annotation i)
                       | _ => Err (ExternalError "not one")
                       end;
     jsonpb_lrp d := Ok (dl_ProcessGuid d) |}.
#[local] Instance cmd_texts : ErrorText := {| error_text _ := "failed" |}.

Definition cmd_config : Properties := {|
  KubeConfig := ""; KubeNamespace := "opi"; KubeEndpoint := "cf.example.com"; NatsPassword := "";
  NatsIP := ""; RegistryEndpoint := ""; CcUploaderIP := ""; CcAPI := ""; Backend := "";
  CfUsername := ""; CfPassword := ""; CcUser := ""; CcPassword := ""; RegistryAddress := "";
  EiriniAddress := ""; SkipSslValidation := true; InsecureSkipVerify := true |}.

Definition vcap_text : string := Printer.print (JObj [
  ("application_id", JStr long_guid); ("application_name", JStr "dora");
  ("application_uris", JArr [JStr "dora.example.com"])]).

(** With the image, or for a droplet with none. *)
Definition desire_body (image : string) : string := Printer.print (JObj [
  ("process_guid", JStr (process_guid long_guid "v1")); ("docker_image", JStr image);
  ("droplet_hash", JStr "abc"); ("instances", JNum "2"); ("last_updated", JStr "1");
  ("environment", JObj [("VCAP_APPLICATION", JStr vcap_text)])]).

Definition update_body : string := Printer.print (JObj [
  ("process_guid", JStr long_guid); ("update", JObj [
    ("instances", JNum "5"); ("annotation", JStr "2"); ("routes", JObj [("cf-router", JArr [JObj [
      ("hostnames", JArr [JStr "new.example.com"]); ("port", JNum "8080")]])])])]).

(** An application is run, updated, found, with its instances, listed and
    stopped; then it is run again from its droplet, which the cloud controller
    does not have. *)
Definition requests : list (string * string * string) := [
  ("PUT", app_path (process_guid long_guid "v1"), desire_body "busybox");
  ("POST", app_path long_guid, update_body);
  ("GET", app_path long_guid, "");
  ("GET", app_action long_guid "instances", "");
  ("GET", "/apps", "");
  ("PUT", app_action (process_guid long_guid "v1") "stop", "");
  ("PUT", app_path (process_guid long_guid "v1"), desire_body "")].

Definition new_uris : LRP := sample_lrp long_guid ["new.example.com"].

(** The update gives the time as its annotation. *)
Definition new_lrp : LRP :=
  updated_lrp (with_instances 5 new_uris) 5 "2" (Some ["new.example.com"]).

Definition calls (lrp lrp' : LRP) : list call := [
  Command (CDesire lrp); Command (CUpdate new_lrp); Lookup long_guid; Instances long_guid; Listing;
  Command (CStop long_guid); Attempt lrp'].

Abbreviation asked := (asks (@http_url_valid Server no_http) cmd_config).

Definition runs_dora (lrp : LRP) : Prop :=
  lrp_Name lrp = long_guid ∧ usable lrp ∧ routes_valid lrp = true ∧
  decoded_uris lrp = ["dora.example.com"] ∧
  gomap_get (lrp_Metadata lrp) ProcessGUID = process_guid long_guid "v1".

Lemma desire_body_parses image request :
  Reader.parse_first (desire_body image) ≫= decode_DesireLRPRequest = Ok request →
  image = "busybox" ∨ image = "" →
  dr_ProcessGUID request = process_guid long_guid "v1" ∧ dr_DockerImageURL request = image ∧
  ∃ vcap, parseVcapApplication (gomap_get (dr_Environment request) "VCAP_APPLICATION") = Ok vcap ∧
    ∀ url, runs_dora (to_LRP (with_image url request) vcap).
Proof.
  intros Hb Himage.
  destruct (parseVcapApplication vcap_text) as [vcap|] eqn:Hv; [|by vm_compute in Hv].
  assert (dr_ProcessGUID request = process_guid long_guid "v1" ∧ dr_DockerImageURL request = image ∧
    gomap_get (dr_Environment request) "VCAP_APPLICATION" = vcap_text) as (H1 & H2 & H3)
    by (destruct Himage as [-> | ->]; vm_compute in Hb; injection Hb as <-; by vm_compute).
  split_and!; [done..|]. exists vcap. rewrite H3. split; [done|]. intros url.
  vm_compute in Hv. injection Hv as <-. clear - H1.
  split_and!; [done|split; [apply to_LRP_metadata|by vm_compute]|by vm_compute|by vm_compute|].
  rewrite <- H1. reflexivity.
Qed.

Lemma desire_asks : ∃ lrp, asked ("PUT", app_path (process_guid long_guid "v1"), desire_body "busybox")
    (Command (CDesire lrp)) ∧ runs_dora lrp.
Proof.
  destruct (Reader.parse_first (desire_body "busybox") ≫= decode_DesireLRPRequest) as [request|e] eqn:Hb;
    [|vm_compute in Hb; discriminate Hb].
  destruct (desire_body_parses "busybox" request) as (Hg & Hd & vcap & Hv & Hlrp); [done|by left|].
  exists (to_LRP (with_image (dr_DockerImageURL request) request) vcap). split; [|apply Hlrp].
  rewrite <- Hg. by constructor; rewrite ?Hg, ?Hd.
Qed.

Lemma attempt_asks : ∃ lrp, asked ("PUT", app_path (process_guid long_guid "v1"), desire_body "")
    (Attempt lrp) ∧ runs_dora lrp.
Proof.
  destruct (Reader.parse_first (desire_body "") ≫= decode_DesireLRPRequest) as [request|e] eqn:Hb;
    [|vm_compute in Hb; discriminate Hb].
  destruct (desire_body_parses "" request) as (Hg & Hd & vcap & Hv & Hlrp); [done|by right|].
  exists (to_LRP (with_image (droplet_image cmd_config request) request) vcap). split; [|apply Hlrp].
  rewrite <- Hg. by constructor; rewrite ?Hg.
Qed.

Lemma update_body_asks : asked ("POST", app_path long_guid, update_body) (Command (CUpdate new_lrp)).
Proof.
  assert (Reader.parse_first update_body ≫= decode_UpdateDesiredLRPRequest
    = Ok (sample_update long_guid (Some sample_fields))) as Hb by (vm_compute; reflexivity).
  assert (getURIs (sample_update long_guid (Some sample_fields)) = Ret (Ok (Some ["new.example.com"])))
    as Hr by (vm_compute; reflexivity).
  apply (asks_update _ _ update_body (sample_update long_guid (Some sample_fields)) sample_fields 5 "2"
    (Some ["new.example.com"])); [exact Hb|reflexivity|done|reflexivity..|exact Hr|].
  apply updated_lrp_of.
Qed.

Lemma requests_ask lrp lrp' :
  asked ("PUT", app_path (process_guid long_guid "v1"), desire_body "busybox") (Command (CDesire lrp)) →
  asked ("PUT", app_path (process_guid long_guid "v1"), desire_body "") (Attempt lrp') →
  Forall2 asked requests (calls lrp lrp').
Proof.
  intros Hd Ha. unfold requests, calls. rewrite !Forall2_cons, Forall2_nil.
  split_and!; [exact Hd|exact update_body_asks|by eapply asks_lookup|by apply asks_instances
    |by apply asks_list| |exact Ha|done].
  by apply asks_stop; vm_compute.
Qed.

Lemma runs_allowed lrp m : runs_dora lrp → plain long_guid → allowed (CDesire lrp) m.
Proof. intros (Hn & Hu & Hr & _) Hp. unfold allowed. cbn [command_app]. by rewrite Hn. Qed.

Lemma calls_may lrp lrp' : runs_dora lrp → runs_dora lrp' → calls_allowed (calls lrp lrp') ∅.
Proof.
  intros Hlrp Hlrp'. assert (plain long_guid) as Hp by by apply plain_check.
  destruct (Hlrp) as (Hn & _).
  assert (decoded_uris new_lrp = ["new.example.com"]) as Hd by by vm_compute.
  assert (routes_valid new_lrp = true) as Hr by by vm_compute.
  apply then_command; [by apply runs_allowed|].
  cbn [abs_command]. unfold abs_Desire. rewrite Hn, lookup_empty. cbn [snd].
  apply then_command; [done|]. cbn [abs_command]. unfold abs_Update.
  change (lrp_Name new_lrp) with long_guid. rewrite lookup_insert_eq. cbn [snd].
  apply then_lookup, then_instances, then_listing, then_command; [done..| |].
  - split_and!; [done|done|]. intros _. eexists long_guid, _.
    split_and!; [done|by apply lookup_insert_eq|]. cbn [next_state as_uris]. by rewrite Hd.
  - apply then_attempt; [by apply runs_allowed|done|done].
Qed.

Lemma fresh_tidy : tidy "opi" (view fresh_server) ∅.
Proof. intros app [Hs|Hm]; [by destruct Hs|]. rewrite lookup_empty in Hm. by destruct Hm. Qed.

Lemma cc_elsewhere : elsewhere no_http.
Proof. split; intros; apply wp_ret; split; by eauto. Qed.

(** The next call of a run, and its reply. *)
Ltac next_call :=
    match goal with Hc : abs_calls (_ :: _) _ _ _ |- _ =>
      let H := fresh in inversion Hc as [|? ? ? ? ? ? ? H]; subst; clear Hc;
      inversion H; subst; clear H end.

(** What the abstract scheduler replies. *)
Lemma calls_replies lrp lrp' rs m' :
  runs_dora lrp → abs_calls (calls lrp lrp') ∅ rs m' →
  ∃ n r, rs = [Done true; Done true; Done true; Running (Some n);
    Told [{| si_ProcessGuid := process_guid long_guid "v1"; si_Annotation := "2" |}]; Done true; r].
Proof.
  intros (Hn & _ & _ & _ & Hg) Hc. unfold calls in Hc.
  next_call. cbn [abs_command] in *. unfold abs_Desire in *. rewrite Hn, lookup_empty in *.
  next_call. cbn [abs_command fst snd] in *. unfold abs_Update in *.
  change (lrp_Name new_lrp) with long_guid in *. rewrite lookup_insert_eq, insert_insert_eq in *.
  next_call. next_call. cbn [fst snd] in *. rewrite lookup_insert_eq in *.
  match goal with Hk : is_Some ?k ↔ _ |- _ =>
    assert (is_Some k) as [count ->] by (apply Hk; by eexists); clear Hk; exists count end.
  next_call. next_call. cbn [abs_command fst snd] in *. unfold abs_Stop in *.
  rewrite lookup_insert_eq in *. cbn [fst snd] in *.
  rewrite bool_decide_true by by eexists.
  match goal with Hc : abs_calls [_] _ _ _ |- _ =>
    inversion Hc as [|? ? ? r ? ? ? ? Hend]; inversion Hend; subst end.
  exists r. do 5 f_equal. f_equal.
  match goal with Hp : infos ≡ₚ _ |- _ => unfold infos_of, abs_List in Hp;
    rewrite insert_empty, map_to_list_singleton in Hp; apply Permutation_singleton_r in Hp; rewrite Hp end.
  cbn. rewrite Hg. by vm_compute.
Qed.

(** The list of the one application: its process id, and when it was updated. *)
Lemma http_refinement_witness :
  ∃ found counted listed last, (serve_all no_http no_http cmd_config requests fresh_server).1
  = Ret [Some (status StatusAccepted); Some (status StatusOK); Some found; Some counted; Some listed;
         Some (status StatusOK); Some last] ∧
    an_Status found = StatusOK ∧ an_Status counted = StatusOK ∧
    an_Body listed = process_guid long_guid "v1" +:+ " 2".
Proof.
  destruct desire_asks as (lrp & Hd & Hlrp). destruct attempt_asks as (lrp' & Ha & Hlrp').
  pose proof (requests_ask lrp lrp' Hd Ha) as Hasks.
  pose proof (calls_may lrp lrp' Hlrp Hlrp') as Hmay.
  destruct (http_refinement no_http no_http cmd_config ltac:(done) requests _
    (view fresh_server) ∅ cc_elsewhere Hasks ltac:(done) fresh_managed fresh_represents fresh_tidy
    Hmay fresh_server fresh_good eq_refl) as (_ & answers & replies & m' & E & Hcalls & Hf & _).
  destruct (calls_replies lrp lrp' replies m') as (n & last & ->); [done..|].
  rewrite E. clear - Hf. unfold calls in Hf.
  repeat match goal with Hf : Forall3 _ _ _ _ |- _ => inversion Hf; subst; clear Hf end.
  cbn [answered jsonpb_infos cmd_lib si_ProcessGuid si_Annotation] in *. destruct_and!. subst.
  eexists _, _, _, _. split_and!; [done..|by etransitivity].
Defined.
End Witnesses.
