(* ===== verification/Startup.v ===== *)
(** * [cmd/opi/]: from the command line to what runs

    [opi] finds its subcommand, reads the configuration, makes the clients one
    after the other and serves.  The first failure ends the process with
    status 1, before anything is served. *)

From stdpp Require Import base gmap strings list.
From Stdlib Require Import ZArith Lia.
From S2P Require Import Prelude Json Opi Messages Kube Ingress Fixtures Routes Bifrost Handler.
From S2P Require Import Stager Registry Cmd.

(** ** Programs that may exit *)

(** A step of [main]: it goes on, or [os.Exit] ends the process. *)
Inductive goes (A : Type) := Runs (a : A) | Exits (code : Z).
Arguments Runs {_} _.
Arguments Exits {_} _.

Abbreviation Boot S A := (M S (goes A)).

Definition boot_ret {S A} (a : A) : Boot S A := mret (Runs a).
Definition boot_bind {S A B} (c : Boot S A) (k : A → Boot S B) : Boot S B :=
  g ← c; match g with Runs a => k a | Exits code => mret (Exits code) end.

Notation "x <~ c ; k" := (boot_bind c (λ x, k))
  (at level 20, c at level 100, k at level 200, right associativity) : go_scope.

(** [v, err := c; exitWithError(err)]. *)
Definition exitWithError {S A} (c : M S (result A)) : Boot S A :=
  r ← c; match r with Ok a => mret (Runs a) | Err _ => mret (Exits 1) end.

(** ** [root.go]: the commands *)

Record Flag := { fl_Name : string; fl_Shorthand : string; fl_Default : string; fl_Usage : string }.

Record Subcommand := { sub_Use : string; sub_Short : string; sub_Flags : list Flag }.

Record Command := { cm_Use : string; cm_Short : string; cm_Long : string; cm_Commands : list Subcommand }.

Definition initConnect : list Flag :=
  [{| fl_Name := "config"; fl_Shorthand := "c"; fl_Default := ""; fl_Usage := "Path to the erini config file" |}].

Definition connectCmd : Subcommand :=
  {| sub_Use := "connect"; sub_Short := "connects CloudFoundry with Kubernetes"; sub_Flags := initConnect |}.

Definition initRegistry : list Flag :=
  [{| fl_Name := "rootfs"; fl_Shorthand := "r"; fl_Default := ""; fl_Usage := "Path to the rootfs tarball" |}].

Definition registryCmd : Subcommand :=
  {| sub_Use := "registry"; sub_Short := "starts the eirini registry"; sub_Flags := initRegistry |}.

Definition simulatorCmd : Subcommand :=
  {| sub_Use := "simulator"; sub_Short := "Simulate pre-defined state of the Kubernetes cluster.";
     sub_Flags := [] |}.

(** With what [init] adds to it. *)
Definition rootCmd : Command :=
  {| cm_Use := "opi"; cm_Short := "put a K8s behind CF"; cm_Long := "some long description";
     cm_Commands := [connectCmd; registryCmd; simulatorCmd] |}.

(** Cobra: it finds the subcommand that the arguments name, with its flags, or
    prints the help. *)
Class Cobra := {
  Flags : Type;
  Flags_GetString : Flags → string → result string;
  cobra_Execute : Command → list string → result (option (Subcommand * Flags))
}.

(** ** What the program is linked with *)

Record Config := { cf_Properties : Properties }.

Record CfConfig := {
  cc_SkipSslValidation : bool;
  cc_Username : string;
  cc_Password : string;
  cc_ApiAddress : string
}.

(** The constructors of the clients, [S] being the state of all there is to
    talk to.  [http_Client b] is [&http.Client{...}] with
    [InsecureSkipVerify: b]; [http_Listen] is the part of [ListenAndServe]
    that can fail at once. *)
Class Linked (S C : Type) := {
  RestConfig : Type;
  ioutil_ReadFile : string → M S (result string);
  os_Open : string → M S (result reader);
  yaml_Unmarshal : string → result Config;
  clientcmd_BuildConfigFromFlags : string → string → M S (result RestConfig);
  kubernetes_NewForConfig : RestConfig → M S (result (KubeClient S));
  cfclient_New : CfConfig → M S (result (CfClient S));
  nats_Connect : string → M S (result (Publisher C));
  http_Client : bool → HttpClient S;
  http_Listen : string → M S (result unit)
}.

(** What runs once everything is made: a handler is served at an address, with
    the two loops of the route emitter behind the one of [connect]. *)
Inductive service (S C : Type) :=
  | Connected (addr : string) (handle : string → string → string → M S (option Answer))
      (emitter : Publisher C * Emitter) (collector : Lister S)
  | Simulating (addr : string) (handle : string → string → string → M S (option Answer))
  | Pulling (addr : string) (rootfs : BlobRef) (stores : Stores).
Arguments Connected {_ _} _ _ _ _.
Arguments Simulating {_ _} _ _.
Arguments Pulling {_ _} _ _ _.

Section Programs.
Context {S C : Type} `{!Linked S C, !RoutesChan S, !UrlLib, !MapRange, !ResponseLib, !ErrorText, !Cobra}.

(** ** [connect.go] *)

Definition setConfigFromFile (path : string) : Boot S Config :=
  fileBytes <~ exitWithError (ioutil_ReadFile path);
  exitWithError (mret (yaml_Unmarshal fileBytes)).

Definition createKubeClient (KubeConfig : string) : Boot S (KubeClient S) :=
  config <~ exitWithError (clientcmd_BuildConfigFromFlags "" KubeConfig);
  exitWithError (kubernetes_NewForConfig config).

Definition start_stager (cfg : Properties) : Boot S (Messages.Stager S) :=
  clientset <~ createKubeClient (KubeConfig cfg);
  boot_ret (initStager (KubeClient0 := clientset) (http_Client (SkipSslValidation cfg)) cfg).

Definition cfClientConfig (cfg : Properties) : CfConfig :=
  {| cc_SkipSslValidation := SkipSslValidation cfg; cc_Username := CfUsername cfg;
     cc_Password := CfPassword cfg; cc_ApiAddress := CcAPI cfg |}.

Definition start_bifrost (cfg : Properties) : Boot S (Messages.Bifrost S) :=
  cfClient <~ exitWithError (cfclient_New (cfClientConfig cfg));
  clientset <~ createKubeClient (KubeConfig cfg);
  boot_ret (initBifrost (KubeClient0 := clientset) (CfClient0 := cfClient)
    (http_Client (InsecureSkipVerify cfg)) cfg).

(** The connection of the emitter and the lister of the collector. *)
Definition launchRouteEmitter (kubeConf namespace natsPassword natsIP : string) :
    Boot S (Publisher C * Lister S) :=
  nc <~ exitWithError (nats_Connect ("nats://nats:" +:+ natsPassword +:+ "@" +:+ natsIP +:+ ":4222"));
  clientset <~ createKubeClient kubeConf;
  boot_ret (nc, @NewServiceRouteLister S clientset namespace).

(** [log.Fatal(http.ListenAndServe(addr, ...))]. *)
Definition serve_at {A} (addr : string) (running : A) : Boot S A :=
  _ <~ exitWithError (http_Listen addr); boot_ret running.

Definition connect_main (flags : Flags) : Boot S (service S C) :=
  path <~ exitWithError (mret (Flags_GetString flags "config"));
  Conf <~ setConfigFromFile path;
  let cfg := cf_Properties Conf in
  stager <~ start_stager cfg;
  bifrost <~ start_bifrost cfg;
  emitter <~ launchRouteEmitter (KubeConfig cfg) (KubeNamespace cfg) (NatsPassword cfg) (NatsIP cfg);
  serve_at "0.0.0.0:8085" (Connected "0.0.0.0:8085"
    (@ServeHTTP S bifrost stager _ _) (fst emitter, route_emitter cfg) (snd emitter)).

(** ** [simulator.go], [registry.go] *)

Definition simulate_main : Boot S (service S C) :=
  serve_at "0.0.0.0:8085" (Simulating "0.0.0.0:8085" simulate).

Definition reg (flags : Flags) : Boot S (service S C) :=
  path <~ exitWithError (mret (Flags_GetString flags "rootfs"));
  rootfsTar <~ exitWithError (os_Open path);
  let '(o, blobstore) := start_registry rootfsTar NewInMemoryStore in
  rootfs <~ exitWithError (lift_outcome o);
  serve_at "0.0.0.0:8080" (Pulling "0.0.0.0:8080" rootfs blobstore).

(** ** [root.go]: [Execute], which is [main] *)

(** The [Run] of a subcommand. *)
Definition run_subcommand (use : string) (flags : Flags) : Boot S (service S C) :=
  if String.eqb use (sub_Use connectCmd) then connect_main flags
  else if String.eqb use (sub_Use registryCmd) then reg flags
  else simulate_main.

(** Help that was printed ends the process with status 0. *)
Definition Execute (args : list string) : Boot S (service S C) :=
  match cobra_Execute rootCmd args with
  | Err _ => mret (Exits 1)
  | Ok None => mret (Exits 0)
  | Ok (Some (c, flags)) => run_subcommand (sub_Use c) flags
  end.
End Programs.

(** ** How a start goes *)

(** The calls that may fail. *)
Inductive contact :=
  | Reads (path : string)
  | Opens (path : string)
  | LoadsKubeConfig (path : string)
  | MakesKubeClient
  | LogsIn (config : CfConfig)
  | Dials (url : string)
  | Listens (addr : string).

(** They return; files do not change while the program starts, and a client
    is that of its configuration. *)
Class LinkedLaws (S C : Type) `{!Linked S C, !Observed S (list (contact * bool))} := {
  file : string → option string;
  tarball : string → reader;
  rest_config : string → RestConfig;
  kube_client : RestConfig → KubeClient S;
  cf_client : CfConfig → CfClient S;
  nats_client : string → Publisher C;
  ReadFile_law path v : wp (ioutil_ReadFile path) (λ o v', ∃ r, o = Ret r ∧
    v' = v ++ [(Reads path, is_ok r)] ∧ ∀ text, r = Ok text → file path = Some text) v;
  Open_law path v : wp (os_Open path) (λ o v', ∃ r, o = Ret r ∧
    v' = v ++ [(Opens path, is_ok r)] ∧ ∀ tar, r = Ok tar → tarball path = tar) v;
  BuildConfig_law path v : wp (clientcmd_BuildConfigFromFlags "" path) (λ o v', ∃ r, o = Ret r ∧
    v' = v ++ [(LoadsKubeConfig path, is_ok r)] ∧ ∀ c, r = Ok c → rest_config path = c) v;
  NewForConfig_law c v : wp (kubernetes_NewForConfig c) (λ o v', ∃ r, o = Ret r ∧
    v' = v ++ [(MakesKubeClient, is_ok r)] ∧ ∀ k, r = Ok k → kube_client c = k) v;
  cfclient_law c v : wp (cfclient_New c) (λ o v', ∃ r, o = Ret r ∧
    v' = v ++ [(LogsIn c, is_ok r)] ∧ ∀ cf, r = Ok cf → cf_client c = cf) v;
  nats_law url v : wp (nats_Connect url) (λ o v', ∃ r, o = Ret r ∧
    v' = v ++ [(Dials url, is_ok r)] ∧ ∀ nc, r = Ok nc → nats_client url = nc) v;
  Listen_law addr v : wp (http_Listen addr) (λ o v', ∃ r, o = Ret r ∧
    v' = v ++ [(Listens addr, is_ok r)]) v
}.

(** All of a plan was done, or the first part of it up to a failure. *)
Definition completed (plan : list contact) (done : list (contact * bool)) : Prop :=
  done = (λ c, (c, true)) <$> plan.
Definition cut_short (plan : list contact) (done : list (contact * bool)) : Prop :=
  ∃ pre c post, plan = pre ++ c :: post ∧ done = ((λ c, (c, true)) <$> pre) ++ [(c, false)].

Section Starts.
Context {S C : Type} `{!Linked S C, !Observed S (list (contact * bool)), !LinkedLaws S C,
  !RoutesChan S, !UrlLib, !MapRange, !ResponseLib, !ErrorText, !Cobra}.
Implicit Types (plan : list contact) (v : list (contact * bool)).

(** A program carries out a plan, and what it then is is [R]; or it exits with
    status 1 at the first failure. *)
Definition carries_out {A} (c : Boot S A) plan (R : A → Prop) : Prop :=
  ∀ v, wp c (λ o v', ∃ done, v' = v ++ done ∧
    (o = Ret (Exits 1) ∧ cut_short plan done ∨
     ∃ a, o = Ret (Runs a) ∧ completed plan done ∧ R a)) v.

Lemma carries_ret {A} (a : A) (R : A → Prop) : R a → carries_out (boot_ret a) [] R.
Proof. intros HR v. apply wp_ret. exists []. rewrite app_nil_r. split; [done|]. right. by exists a. Qed.

Lemma carries_pure {A} (a : A) (R : A → Prop) :
  R a → carries_out (exitWithError (mret (Ok a))) [] R.
Proof. intros HR. by apply (carries_ret a). Qed.

Lemma carries_call {A} (c : M S (result A)) e (R : A → Prop) :
  (∀ v, wp c (λ o v', ∃ r, o = Ret r ∧ v' = v ++ [(e, is_ok r)] ∧ ∀ a, r = Ok a → R a) v) →
  carries_out (exitWithError c) [e] R.
Proof.
  intros Hc v. apply wp_bind. eapply wp_mono; [apply Hc|]. intros o v' (r & -> & -> & HR).
  destruct r as [a|err]; apply wp_ret; eexists; (split; [done|]); [right|left].
  - exists a. split_and!; [done|done|by apply HR].
  - split; [done|]. by exists [], e, [].
Qed.

Lemma carries_bind {A B} (c : Boot S A) (k : A → Boot S B) p1 p2 R1 R :
  carries_out c p1 R1 → (∀ a, R1 a → carries_out (k a) p2 R) →
  carries_out (boot_bind c k) (p1 ++ p2) R.
Proof.
  intros Hc Hk v. apply wp_bind. eapply wp_mono; [apply Hc|].
  intros o v1 (d1 & -> & [[-> Hcut]|(a & -> & -> & HR)]).
  - apply wp_ret. exists d1. split; [done|]. left. split; [done|].
    destruct Hcut as (pre & e & post & -> & ->). exists pre, e, (post ++ p2).
    by rewrite <- app_assoc.
  - eapply wp_mono; [by apply Hk|]. intros o v2 (d2 & -> & Hd).
    exists (((λ c, (c, true)) <$> p1) ++ d2). split; [by rewrite app_assoc|].
    destruct Hd as [[-> (pre & e & post & -> & ->)]|(b & -> & Hd & HR')].
    + left. split; [done|]. exists (p1 ++ pre), e, post. rewrite fmap_app, <- !app_assoc. by split.
    + right. exists b. split_and!; [done|unfold completed|done]. by rewrite Hd, fmap_app.
Qed.

Lemma config_read path text Conf :
  file path = Some text → yaml_Unmarshal text = Ok Conf →
  carries_out (setConfigFromFile path) [Reads path] (eq Conf).
Proof.
  intros Hf Hy. apply (carries_bind _ _ [Reads path] [] (eq text)).
  - apply carries_call. intros v. eapply wp_mono; [apply ReadFile_law|].
    intros o v' (r & -> & -> & Hr). exists r. split_and!; [done..|].
    intros t Ht. apply Hr in Ht. congruence.
  - intros ? <-. rewrite Hy. by apply carries_pure.
Qed.

Definition client_of (path : string) : KubeClient S := kube_client (rest_config path).

Lemma kube_client_made path :
  carries_out (createKubeClient path) [LoadsKubeConfig path; MakesKubeClient] (eq (client_of path)).
Proof.
  apply (carries_bind _ _ [LoadsKubeConfig path] [MakesKubeClient] (eq (rest_config path))).
  - apply carries_call, BuildConfig_law.
  - intros ? <-. apply carries_call, NewForConfig_law.
Qed.

Lemma served_at {A} addr (a : A) : carries_out (serve_at addr a) [Listens addr] (eq a).
Proof.
  apply (carries_bind _ _ [Listens addr] [] (λ _, True)); [|intros; by apply carries_ret].
  apply carries_call. intros v. eapply wp_mono; [apply Listen_law|].
  intros o v' (r & -> & ->). exists r. by split_and!.
Qed.

(** ** What [connect] does before it serves *)
Definition nats_url (cfg : Properties) : string :=
  "nats://nats:" +:+ NatsPassword cfg +:+ "@" +:+ NatsIP cfg +:+ ":4222".

Definition kube_plan (cfg : Properties) : list contact :=
  [LoadsKubeConfig (KubeConfig cfg); MakesKubeClient].

Definition connect_plan (path : string) (cfg : Properties) : list contact :=
  [Reads path] ++ kube_plan cfg ++
  ([LogsIn (cfClientConfig cfg)] ++ kube_plan cfg) ++
  ([Dials (nats_url cfg)] ++ kube_plan cfg) ++ [Listens "0.0.0.0:8085"].

(** The parts of [Cmd], over the clients of the configuration. *)
Definition connected (cfg : Properties) : service S C :=
  let k := client_of (KubeConfig cfg) in
  Connected "0.0.0.0:8085"
    (connect (KubeClient0 := k) (CfClient0 := cf_client (cfClientConfig cfg))
      (http_Client (SkipSslValidation cfg)) (http_Client (InsecureSkipVerify cfg)) cfg)
    (nats_client (nats_url cfg), route_emitter cfg)
    (@NewServiceRouteLister S k (KubeNamespace cfg)).

Lemma stager_started cfg :
  carries_out (start_stager cfg) (kube_plan cfg) (eq (initStager
    (KubeClient0 := client_of (KubeConfig cfg)) (http_Client (SkipSslValidation cfg)) cfg)).
Proof.
  eapply (carries_bind _ _ (kube_plan cfg) [] (eq _)); [apply kube_client_made|].
  intros ? <-. by apply carries_ret.
Qed.

Lemma bifrost_started cfg :
  carries_out (start_bifrost cfg) ([LogsIn (cfClientConfig cfg)] ++ kube_plan cfg) (eq (initBifrost
    (KubeClient0 := client_of (KubeConfig cfg)) (CfClient0 := cf_client (cfClientConfig cfg))
    (http_Client (InsecureSkipVerify cfg)) cfg)).
Proof.
  eapply (carries_bind _ _ [_] _ (eq _)); [apply carries_call, cfclient_law|]. intros ? <-.
  eapply (carries_bind _ _ (kube_plan cfg) [] (eq _)); [apply kube_client_made|].
  intros ? <-. by apply carries_ret.
Qed.

Lemma emitter_launched cfg :
  carries_out (launchRouteEmitter (KubeConfig cfg) (KubeNamespace cfg) (NatsPassword cfg) (NatsIP cfg))
    ([Dials (nats_url cfg)] ++ kube_plan cfg)
    (eq (nats_client (nats_url cfg), @NewServiceRouteLister S (client_of (KubeConfig cfg)) (KubeNamespace cfg))).
Proof.
  eapply (carries_bind _ _ [_] _ (eq _)); [apply carries_call, nats_law|]. intros ? <-.
  eapply (carries_bind _ _ (kube_plan cfg) [] (eq _)); [apply kube_client_made|].
  intros ? <-. by apply carries_ret.
Qed.

Lemma connect_main_starts flags path text Conf :
  Flags_GetString flags "config" = Ok path → file path = Some text →
  yaml_Unmarshal text = Ok Conf →
  let cfg := cf_Properties Conf in
  carries_out (connect_main flags) (connect_plan path cfg) (eq (connected cfg)).
Proof.
  intros Hfl Hf Hy cfg. unfold connect_main. rewrite Hfl.
  eapply (carries_bind _ _ [] _ (eq path)); [by apply carries_pure|]. intros ? <-.
  eapply (carries_bind _ _ [_] _ (eq Conf)); [by eapply config_read|]. intros ? <-.
  eapply (carries_bind _ _ _ _ (eq _)); [by apply stager_started|]. intros ? <-.
  eapply (carries_bind _ _ _ _ (eq _)); [by apply bifrost_started|]. intros ? <-.
  eapply (carries_bind _ _ _ _ (eq _)); [by apply emitter_launched|]. intros ? <-.
  by apply served_at.
Qed.

(** [registry] serves the stores that have the root file system. *)
Lemma reg_starts flags path rootfs stores :
  Flags_GetString flags "rootfs" = Ok path →
  start_registry (tarball path) NewInMemoryStore = (Ret (Ok rootfs), stores) →
  carries_out (reg flags) [Opens path; Listens "0.0.0.0:8080"]
    (eq (Pulling "0.0.0.0:8080" rootfs stores : service S C)).
Proof.
  intros Hfl Hput. unfold reg. rewrite Hfl.
  eapply (carries_bind _ _ [] _ (eq path)); [by apply carries_pure|]. intros ? <-.
  eapply (carries_bind _ _ [_] [_] (eq _)); [apply carries_call, Open_law|]. intros ? <-.
  rewrite Hput. eapply (carries_bind _ _ [] _ (eq rootfs)); [by apply carries_pure|]. intros ? <-.
  by apply served_at.
Qed.

Lemma simulator_starts : carries_out simulate_main [Listens "0.0.0.0:8085"]
  (eq (Simulating "0.0.0.0:8085" simulate : service S C)).
Proof. by apply served_at. Qed.
End Starts.

(** ** The property *)

(** C22: [opi connect] with a configuration that can be read makes its clients
    in one order: for the stager, for the cloud controller, for the desirer, to
    NATS, for the lister of routes.  If all can be made and the port is free, it
    serves the handler on Bifrost and the stager and runs the emitter and the
    collector, all with the clients of the configuration; at the first
    failure it exits with status 1, makes nothing more and serves nothing. *)
Theorem connect_starts {S C} `{LinkedLaws S C, !RoutesChan S, !UrlLib, !MapRange,
    !ResponseLib, !ErrorText, !Cobra} args flags path text Conf v :
  cobra_Execute rootCmd args = Ok (Some (connectCmd, flags)) →
  Flags_GetString flags "config" = Ok path →
  file path = Some text → yaml_Unmarshal text = Ok Conf →
  let cfg := cf_Properties Conf in
  wp (Execute args) (λ o v', ∃ done, v' = v ++ done ∧
    (o = Ret (Exits 1) ∧ cut_short (connect_plan path cfg) done ∨
     o = Ret (Runs (connected cfg)) ∧ completed (connect_plan path cfg) done)) v.
Proof.
  intros Hc Hfl Hf Hy cfg. unfold Execute. rewrite Hc.
  eapply wp_mono; [by apply (connect_main_starts flags path text Conf)|].
  intros o v' (done & Hv & [Hcut|(a & Ho & Hd & <-)]); exists done; auto.
Qed.

(** ** An instance: a machine on which the third client cannot be made *)
Section Witnesses.
#[local] Existing Instance sample_urls.
#[local] Existing Instance range_in_order.

Record Machine := { mc_log : list (contact * bool); mc_refusals : list bool }.

Definition contacted {A} (c : contact) (a : A) : M Machine (result A) := λ m,
  let ok := match mc_refusals m with true :: _ => false | _ => true end in
  (Ret (if ok then Ok a else Err (ExternalError "refused")),
   {| mc_log := mc_log m ++ [(c, ok)]; mc_refusals := tail (mc_refusals m) |}).

Definition no_kube : KubeClient Machine := {|
  kube_create _ _ _ := mret (Err (ExternalError "refused"));
  kube_update _ _ _ := mret (Err (ExternalError "refused"));
  kube_get _ _ _ := mret (Err (ExternalError "refused"));
  kube_list _ _ _ := mret (Err (ExternalError "refused"));
  kube_delete _ _ _ := mret (Err (ExternalError "refused")) |}.

Definition no_cf : CfClient Machine := {|
  cf_GetDropletByAppGuid _ := mret (Err (ExternalError "none"));
  cf_PushDroplet _ _ := mret (Err (ExternalError "none"));
  cf_GetAppBitsByAppGuid _ := mret (Err (ExternalError "none")) |}.

#[local] Instance machine_linked : Linked Machine Broker := {|
  RestConfig := unit;
  ioutil_ReadFile path := contacted (Reads path) "opi: {}";
  Startup.os_Open path := contacted (Opens path) {| rd_rest := "tar"; rd_error := None |};
  yaml_Unmarshal _ := Ok {| cf_Properties := cmd_config |};
  clientcmd_BuildConfigFromFlags _ path := contacted (LoadsKubeConfig path) tt;
  kubernetes_NewForConfig _ := contacted MakesKubeClient no_kube;
  cfclient_New c := contacted (LogsIn c) no_cf;
  nats_Connect url := contacted (Dials url) broker_publisher;
  http_Client _ := {| http_url_valid _ := true; http_Do _ := mret (Err (ExternalError "unreachable"));
    http_show _ _ := "&{}" |};
  http_Listen addr := contacted (Listens addr) tt
|}.

#[local] Instance machine_observed : Observed Machine (list (contact * bool)) :=
  {| view := mc_log; good := λ _, True |}.

Lemma contacted_wp {A} c (a : A) (P : A → Prop) v : P a →
  wp (contacted c a) (λ o v', ∃ r, o = Ret r ∧ v' = v ++ [(c, is_ok r)] ∧ ∀ b, r = Ok b → P b) v.
Proof.
  intros HP m _ <-. split; [done|]. cbn. eexists. split; [done|].
  destruct (mc_refusals m) as [|[] ?]; (split; [done|]); [by intros ? [= <-]|done|by intros ? [= <-]].
Qed.

#[local] Instance machine_laws : LinkedLaws Machine Broker.
Proof.
  refine {| file _ := Some "opi: {}"; tarball _ := {| rd_rest := "tar"; rd_error := None |};
    rest_config _ := (tt : RestConfig); kube_client _ := no_kube; cf_client _ := no_cf;
    nats_client _ := broker_publisher |}; intros; try by apply contacted_wp.
  eapply wp_mono; [by apply (contacted_wp _ _ (λ _, True))|]. intros o v' (r & ? & ? & _). by exists r.
Defined.

#[local] Instance machine_chan : RoutesChan Machine := {| chan_send _ := mret tt |}.

#[local] Instance flag_cobra : Cobra := {|
  Flags := list (string * string);
  Flags_GetString fs name :=
    match list_find (λ f, f.1 = name) fs with
    | Some (_, (_, value)) => Ok value
    | None => Err (ErrorString "flag accessed but not defined")
    end;
  cobra_Execute root args :=
    match args with
    | use :: args =>
        match list_find (λ c, sub_Use c = use) (cm_Commands root) with
        | Some (_, c) => Ok (Some (c, (λ f, (fl_Name f, default (fl_Default f) (last args))) <$> sub_Flags c))
        | None => Err (ErrorString "unknown command")
        end
    | [] => Ok None
    end
|}.

#[local] Instance machine_lib : ResponseLib :=
  {| jsonpb_infos _ := Ok "{}"; jsonpb_lrp d := Ok (dl_ProcessGuid d) |}.
#[local] Instance machine_texts : ErrorText := {| error_text _ := "failed" |}.

Definition third_refused : Machine :=
  {| mc_log := []; mc_refusals := [false; false; false; false; false; false; true] |}.

Definition config_flags : Flags := [("config", "opi.yml")] : list (string * string).

Lemma connect_starts_witness :
  ∃ done, mc_log (Execute (C := Broker) ["connect"; "-c"; "opi.yml"] third_refused).2 = done ∧
    (Execute (C := Broker) ["connect"; "-c"; "opi.yml"] third_refused).1 = Ret (Exits 1) ∧
    cut_short (connect_plan "opi.yml" cmd_config) done ∧ length done = 7%nat.
Proof.
  destruct (connect_starts ["connect"; "-c"; "opi.yml"] config_flags "opi.yml" "opi: {}"
    {| cf_Properties := cmd_config |} [] ltac:(reflexivity) ltac:(reflexivity)
    ltac:(reflexivity) ltac:(reflexivity) third_refused I eq_refl)
    as (_ & done & E & [[Ho Hcut]|[Ho _]]); [|discriminate Ho].
  exists done. split_and!; [exact E|exact Ho|exact Hcut|].
  rewrite app_nil_l in E. by rewrite <- E.
Defined.
End Witnesses.
