(* ===== verification/Doubles.v ===== *)
(** * The test doubles, once for all of them

    The doubles of [opi/opifakes], [k8s/k8sfakes], [eirinifakes],
    [route/routefakes], [bifrost/bifrostfakes] and [recipe/recipefakes] are
    written by one generator and differ in the interface they stand for.  Here
    an interface is a [Signature]: its methods, and for each its name, its
    arguments, its results and what of the arguments is recorded.  The fields
    of a double and its methods are given over a signature; [Fakes] has the
    signatures.

    Arguments and results are values: a pointer argument is what it points to
    when it is passed, a pointer result may be [None].  A method that returns
    [(T, error)] returns a pair, the error being [None] for [nil].  The doubles
    guard their fields with mutexes;
    the calls of a test are taken one after the other. *)

From stdpp Require Import base gmap strings list.
From Stdlib Require Import ZArith Lia.
From S2P Require Import Prelude Json Opi Messages Kube Recipe.

(** ** Signatures and fields *)

(** Contexts and functions are passed on and never looked into. *)
Class GoTypes := { Ctx : Type; Fn : Type }.

(** The dynamic values that the doubles keep as [interface{}]. *)
Inductive value `{!GoTypes} :=
  | VString (s : string)
  | VStrings (l : list string)
  | VBytes (b : option string)
  | VLRP (lrp : LRP)
  | VTask (task : Task)
  | VContext (ctx : Ctx)
  | VFunc (f : Fn)
  | VDesireLRPRequest (r : DesireLRPRequest)
  | VUpdateDesiredLRPRequest (r : UpdateDesiredLRPRequest)
  | VStagingRequest (r : StagingRequestFromCC)
  | VTaskCallbackResponse (r : TaskCallbackResponse)
  | VStagingResult (r : StagingResult).

Record Signature `{!GoTypes} := {
  method : Type;
  method_dec : EqDecision method;
  name : method → string;
  name_inj : Inj (=) (=) name;
  args : method → Type;
  recorded : ∀ m, args m → list value;
  results : method → Type;
  zero : ∀ m, results m
}.
Arguments name {_} _ _.
Arguments args {_} _ _.
Arguments recorded {_} _ _ _.
Arguments results {_} _ _.
Arguments zero {_} _ _.
#[global] Existing Instance method_dec.
#[global] Existing Instance name_inj.

(** The fields of one method: [updateArgsForCall], [updateReturns] and so on.
    A stub is a function of the arguments; a stub with a state of its own is
    not modelled. *)
Record Fields (A R : Type) := {
  Stub : option (A → outcome R);
  argsForCall : list A;
  returns : R;
  returnsOnCall : option (gmap Z R)
}.
Arguments Stub {_ _} _.
Arguments argsForCall {_ _} _.
Arguments returns {_ _} _.
Arguments returnsOnCall {_ _} _.

Definition no_fields {A R} (zero : R) : Fields A R :=
  {| Stub := None; argsForCall := []; returns := zero; returnsOnCall := None |}.

Definition with_Stub {A R} (stub : option (A → outcome R)) (s : Fields A R) : Fields A R :=
  {| Stub := stub; argsForCall := argsForCall s; returns := returns s;
     returnsOnCall := returnsOnCall s |}.
Definition with_args {A R} (l : list A) (s : Fields A R) : Fields A R :=
  {| Stub := Stub s; argsForCall := l; returns := returns s; returnsOnCall := returnsOnCall s |}.
Definition with_returns {A R} (r : R) (s : Fields A R) : Fields A R :=
  {| Stub := Stub s; argsForCall := argsForCall s; returns := r;
     returnsOnCall := returnsOnCall s |}.
Definition with_returnsOnCall {A R} (m : option (gmap Z R)) (s : Fields A R) : Fields A R :=
  {| Stub := Stub s; argsForCall := argsForCall s; returns := returns s; returnsOnCall := m |}.

(** ** The struct of a double and its methods *)
Section Double.
Context `{!GoTypes} (sig : Signature).

Record Fake := {
  fields : ∀ m, Fields (args sig m) (results sig m);
  invocations : option (gmap string (list (list value)))
}.

(** [new(FakeX)]. *)
Definition new : Fake := {| fields := λ m, no_fields (zero sig m); invocations := None |}.

(** Assigning to fields of method [m]. *)
Definition set_fields (m : method sig)
    (g : Fields (args sig m) (results sig m) → Fields (args sig m) (results sig m))
    (f : Fake) : Fake :=
  {| fields := λ m', match decide (m = m') with
                     | left E => eq_rect m (λ m, Fields (args sig m) (results sig m))
                                   (g (fields f m)) m' E
                     | right _ => fields f m'
                     end;
     invocations := invocations f |}.

Definition recordInvocation (key : string) (l : list value) (f : Fake) : Fake :=
  let all := default ∅ (invocations f) in
  let calls := default [] (all !! key) in
  {| fields := fields f; invocations := Some (<[key := calls ++ [l]]> all) |}.

(** A copy of the map, never [nil]. *)
Definition Invocations (f : Fake) : gmap string (list (list value)) :=
  default ∅ (invocations f).

(** A call: what was set for this call is looked up before the call is counted;
    a stub goes first. *)
Definition call (m : method sig) (a : args sig m) : M Fake (results sig m) := λ f,
  let s := fields f m in
  let ret := returnsOnCall s ≫= lookup (Z.of_nat (length (argsForCall s))) in
  let f := set_fields m (λ s, with_args (argsForCall s ++ [a]) s) f in
  let f := recordInvocation (name sig m) (recorded sig m a) f in
  match Stub s with
  | Some stub => (stub a, f)
  | None => match ret with
            | Some result => (Ret result, f)
            | None => (Ret (returns s), f)
            end
  end.

Definition CallCount (m : method sig) (f : Fake) : Z :=
  Z.of_nat (length (argsForCall (fields f m))).

Definition ArgsForCall (m : method sig) (i : Z) (f : Fake) : outcome (args sig m) :=
  if decide (i < 0)%Z then Panic "index out of range" else
  match argsForCall (fields f m) !! Z.to_nat i with
  | Some a => Ret a
  | None => Panic "index out of range"
  end.

Definition Returns (m : method sig) (r : results sig m) (f : Fake) : Fake :=
  set_fields m (λ s, with_returns r (with_Stub None s)) f.

Definition ReturnsOnCall (m : method sig) (i : Z) (r : results sig m) (f : Fake) : Fake :=
  set_fields m (λ s, let all := default ∅ (returnsOnCall s) in
                     with_returnsOnCall (Some (<[i := r]> all)) (with_Stub None s)) f.

(** The assignment [fake.XStub = stub]. *)
Definition set_Stub (m : method sig) (stub : option (args sig m → outcome (results sig m)))
    (f : Fake) : Fake :=
  set_fields m (with_Stub stub) f.
End Double.
Arguments fields {_ _} _ _.
Arguments invocations {_ _} _.
Arguments set_fields {_ _} _ _ _.
Arguments recordInvocation {_ _} _ _ _.
Arguments Invocations {_ _} _.
Arguments call {_ _} _ _ _.
Arguments CallCount {_ _} _ _.
Arguments ArgsForCall {_ _} _ _ _.
Arguments Returns {_ _} _ _ _.
Arguments ReturnsOnCall {_ _} _ _ _ _.
Arguments set_Stub {_ _} _ _ _.

(** The methods that the generator writes for one method of the interface.  A
    method without arguments has no [ArgsForCall], one without results no
    [Returns]. *)
Record Counted `{!GoTypes} {sig : Signature} (m : method sig) := {
  Call : args sig m → M (Fake sig) (results sig m);
  Count : Fake sig → Z
}.
Arguments Call {_ _ _} _ _ _.
Arguments Count {_ _ _} _ _.

Record Recorded `{!GoTypes} {sig : Signature} (m : method sig) := {
  rec_counted :> Counted m;
  Args : Z → Fake sig → outcome (args sig m)
}.
Arguments rec_counted {_ _ _} _.
Arguments Args {_ _ _} _ _ _.

Record Answering `{!GoTypes} {sig : Signature} (m : method sig) := {
  Returning : results sig m → Fake sig → Fake sig;
  ReturningOnCall : Z → results sig m → Fake sig → Fake sig
}.
Arguments Returning {_ _ _} _ _ _.
Arguments ReturningOnCall {_ _ _} _ _ _ _.

Definition counted `{!GoTypes} {sig : Signature} (m : method sig) : Counted m :=
  {| Call := call m; Count := CallCount m |}.
Definition recording `{!GoTypes} {sig : Signature} (m : method sig) : Recorded m :=
  {| rec_counted := counted m; Args := ArgsForCall m |}.
Definition answering `{!GoTypes} {sig : Signature} (m : method sig) : Answering m :=
  {| Returning := Returns m; ReturningOnCall := ReturnsOnCall m |}.

(** For a method with arguments and results, and for one with results only. *)
Definition double `{!GoTypes} (sig : Signature) (m : method sig) : Recorded m * Answering m :=
  (recording m, answering m).
Definition double_ `{!GoTypes} (sig : Signature) (m : method sig) : Counted m * Answering m :=
  (counted m, answering m).

(** [Invocations] and [recordInvocation]. *)
Definition invoked `{!GoTypes} (sig : Signature) :=
  (Invocations (sig := sig), recordInvocation (sig := sig)).

(** ** What a double answers, from the history of its uses *)

(** The uses of one method: a call, [Returns], [ReturnsOnCall], and setting the
    stub. *)
Inductive use (A R : Type) :=
  | UCall (a : A)
  | UReturns (r : R)
  | UReturnsOnCall (i : Z) (r : R)
  | UStub (stub : option (A → outcome R)).
Arguments UCall {_ _} _.
Arguments UReturns {_ _} _.
Arguments UReturnsOnCall {_ _} _ _.
Arguments UStub {_ _} _.

Section Reference.
Context {A R : Type} (zero : R).
Implicit Types (h : list (use A R)).

(** The arguments of the calls so far. *)
Definition calls_in h : list A :=
  omap (λ u, match u with UCall a => Some a | _ => None end) h.

(** The last of the values that [g] finds in the history. *)
Definition latest {B} (g : use A R → option B) h : option B := last (omap g h).

(** The stub set last, unless [Returns] or [ReturnsOnCall] came after it. *)
Definition stub_of h : option (A → outcome R) :=
  default None (latest (λ u, match u with
                             | UCall _ => None
                             | UStub stub => Some stub
                             | UReturns _ | UReturnsOnCall _ _ => Some None
                             end) h).

Definition set_for (i : Z) h : option R :=
  latest (λ u, match u with
               | UReturnsOnCall k r => if decide (k = i) then Some r else None
               | _ => None
               end) h.

Definition set_for_all h : R :=
  default zero (latest (λ u, match u with UReturns r => Some r | _ => None end) h).

(** The answer to the next call. *)
Definition expected h (a : A) : outcome R :=
  match stub_of h with
  | Some stub => stub a
  | None => Ret (default (set_for_all h) (set_for (Z.of_nat (length (calls_in h))) h))
  end.

(** The fields hold what the history says. *)
Record fields_of h (s : Fields A R) : Prop := {
  of_stub : Stub s = stub_of h;
  of_args : argsForCall s = calls_in h;
  of_returns : returns s = set_for_all h;
  of_onCall : ∀ i, returnsOnCall s ≫= lookup i = set_for i h
}.

Lemma latest_snoc {B} (g : use A R → option B) h u :
  latest g (h ++ [u]) = match g u with Some b => Some b | None => latest g h end.
Proof.
  unfold latest. rewrite omap_app. simpl. destruct (g u); simpl.
  - by rewrite last_snoc.
  - by rewrite app_nil_r.
Qed.

Lemma calls_snoc h u :
  calls_in (h ++ [u]) = match u with UCall a => calls_in h ++ [a] | _ => calls_in h end.
Proof. unfold calls_in. rewrite omap_app. destruct u; simpl; by rewrite ?app_nil_r. Qed.

Lemma no_fields_of : fields_of [] (no_fields zero).
Proof. by split. Qed.

Ltac fields_step :=
  split; unfold stub_of, set_for_all, set_for in *; rewrite ?latest_snoc, ?calls_snoc; simpl;
  try congruence; try done; intros; rewrite ?latest_snoc; simpl; eauto with congruence.

Lemma fields_call h s a :
  fields_of h s → fields_of (h ++ [UCall a]) (with_args (argsForCall s ++ [a]) s).
Proof. intros []. fields_step. Qed.

Lemma fields_returns h s r :
  fields_of h s → fields_of (h ++ [UReturns r]) (with_returns r (with_Stub None s)).
Proof. intros []. fields_step. Qed.

Lemma fields_stub h s stub :
  fields_of h s → fields_of (h ++ [UStub stub]) (with_Stub stub s).
Proof. intros []. fields_step. Qed.

Lemma fields_onCall h s i r :
  fields_of h s →
  fields_of (h ++ [UReturnsOnCall i r])
    (with_returnsOnCall (Some (<[i := r]> (default ∅ (returnsOnCall s)))) (with_Stub None s)).
Proof.
  intros [? ? ? Hon]. fields_step. case_decide as E; [subst; apply lookup_insert_eq|].
  rewrite lookup_insert_ne by done. rewrite <- Hon. by destruct (returnsOnCall s).
Qed.
End Reference.

Section History.
Context `{!GoTypes} {sig : Signature}.

(** A use of some method of the double. *)
Record event := At {
  at_method : method sig;
  at_use : use (args sig at_method) (results sig at_method)
}.

Implicit Types (h : list event) (m : method sig) (f : Fake sig).

Definition use_fake (e : event) f : Fake sig :=
  match e with
  | At m (UCall a) => (call m a f).2
  | At m (UReturns r) => Returns m r f
  | At m (UReturnsOnCall i r) => ReturnsOnCall m i r f
  | At m (UStub stub) => set_Stub m stub f
  end.

Definition after h : Fake sig := foldl (λ f e, use_fake e f) (new sig) h.

(** The uses of [m] alone. *)
Definition use_of m (e : event) : option (use (args sig m) (results sig m)) :=
  match decide (at_method e = m) with
  | left E => Some (eq_rect (at_method e) (λ m, use (args sig m) (results sig m)) (at_use e) m E)
  | right _ => None
  end.

Definition uses_of m h : list (use (args sig m) (results sig m)) := omap (use_of m) h.

Lemma after_snoc h e : after (h ++ [e]) = use_fake e (after h).
Proof. unfold after. by rewrite foldl_snoc. Qed.

Lemma uses_snoc m h e :
  uses_of m (h ++ [e]) = match use_of m e with Some u => uses_of m h ++ [u] | None => uses_of m h end.
Proof. unfold uses_of. rewrite omap_app. simpl. destruct (use_of m e); by rewrite ?app_nil_r. Qed.

Lemma use_of_same m u : use_of m (At m u) = Some u.
Proof.
  unfold use_of. simpl. destruct (decide (m = m)) as [E|]; [|done].
  by rewrite (proof_irrel E eq_refl).
Qed.

Lemma use_of_other m m' u : m' ≠ m → use_of m (At m' u) = None.
Proof. intros. unfold use_of. simpl. by destruct (decide (m' = m)). Qed.

Lemma set_fields_same m g f : fields (set_fields m g f) m = g (fields f m).
Proof.
  simpl. destruct (decide (m = m)) as [E|]; [|done]. by rewrite (proof_irrel E eq_refl).
Qed.

Lemma set_fields_other m m' g f : m ≠ m' → fields (set_fields m g f) m' = fields f m'.
Proof. intros. simpl. by destruct (decide (m = m')). Qed.

Lemma call_state m a f :
  (call m a f).2 = recordInvocation (name sig m) (recorded sig m a)
    (set_fields m (λ s, with_args (argsForCall s ++ [a]) s) f).
Proof. unfold call. destruct (Stub _); [done|]. by destruct (_ ≫= _). Qed.

(** A use of another method leaves the fields alone. *)
Lemma use_other m m' u f : m' ≠ m → fields (use_fake (At m' u) f) m = fields f m.
Proof.
  intros. destruct u; simpl; rewrite ?call_state; simpl; by destruct (decide (m' = m)).
Qed.

Lemma use_fields m (u : use (args sig m) (results sig m)) us f :
  fields_of (zero sig m) us (fields f m) →
  fields_of (zero sig m) (us ++ [u]) (fields (use_fake (At m u) f) m).
Proof.
  intros Hf. destruct u.
  - simpl. rewrite call_state. cbn [fields recordInvocation].
    rewrite set_fields_same. by apply fields_call.
  - unfold use_fake, Returns. rewrite set_fields_same. by apply fields_returns.
  - unfold use_fake, ReturnsOnCall. rewrite set_fields_same. by apply fields_onCall.
  - unfold use_fake, set_Stub. rewrite set_fields_same. by apply fields_stub.
Qed.

Lemma after_fields m h : fields_of (zero sig m) (uses_of m h) (fields (after h) m).
Proof.
  induction h as [|[m' u] h IH] using rev_ind; [apply no_fields_of|].
  rewrite after_snoc, uses_snoc. destruct (decide (m' = m)) as [->|Hm].
  - rewrite use_of_same. by apply use_fields.
  - rewrite use_of_other, use_other by done. done.
Qed.

(** The invocations of [m] that a history leaves. *)
Definition invocations_of m h : list (list value) :=
  recorded sig m <$> calls_in (uses_of m h).

Lemma invocations_use e f :
  invocations (use_fake e f) =
    match e with
    | At m (UCall a) =>
        Some (<[name sig m := default [] (Invocations f !! name sig m) ++ [recorded sig m a]]>
                (Invocations f))
    | _ => invocations f
    end.
Proof. destruct e as [m [a|r|i r|stub]]; simpl; rewrite ?call_state; done. Qed.

Lemma after_invocations m h :
  Invocations (after h) !! name sig m =
    match invocations_of m h with [] => None | l => Some l end.
Proof.
  induction h as [|[m' u] h IH] using rev_ind; [done|].
  rewrite after_snoc. unfold invocations_of in *. rewrite uses_snoc.
  unfold Invocations at 1. rewrite invocations_use. destruct (decide (m' = m)) as [->|Hm].
  - rewrite use_of_same, calls_snoc. destruct u; simpl; [|exact IH..].
    rewrite lookup_insert_eq, IH, fmap_app. simpl.
    by destruct (recorded sig m <$> calls_in (uses_of m h)).
  - rewrite use_of_other by done. destruct u; simpl; [|exact IH..].
    rewrite lookup_insert_ne; [exact IH|]. intros E. by apply Hm, (inj (name sig)).
Qed.

(** The keys of the invocations are names of methods. *)
Lemma after_keys k h : is_Some (Invocations (after h) !! k) → ∃ m, k = name sig m.
Proof.
  induction h as [|[m u] h IH] using rev_ind; [by intros [? ?]|].
  rewrite after_snoc. unfold Invocations at 1. rewrite invocations_use.
  destruct u; simpl; [|exact IH..].
  destruct (decide (name sig m = k)) as [<-|]; [by exists m|by rewrite lookup_insert_ne].
Qed.
End History.

(** ** The property *)
Section Properties.
Context `{!GoTypes} {sig : Signature}.

(** C40: a double answers as its history says.  After any uses of its methods, a
    call of [m] is answered by the stub set last, unless [Returns] or
    [ReturnsOnCall] of [m] came later; else by what was set last for the call of
    this number; else by what was set last for all; else by zero values.  The
    count, the arguments and the invocations are those of the calls of [m], in
    order, and an index out of range panics. *)
Theorem fake_answers (h : list event) (m : method sig) (a : args sig m) :
  let past := uses_of m h in
  (call m a (after h)).1 = expected (zero sig m) past a ∧
  CallCount m (after h) = Z.of_nat (length (calls_in past)) ∧
  (∀ i, ArgsForCall m i (after h) =
     match (if decide (i < 0)%Z then None else calls_in past !! Z.to_nat i) with
     | Some a => Ret a
     | None => Panic "index out of range"
     end) ∧
  Invocations (after h) !! name sig m =
    match invocations_of m h with [] => None | l => Some l end.
Proof.
  intros past. destruct (after_fields m h) as [Hs Ha Hr Hon]. fold past in Hs, Ha, Hr, Hon.
  split_and!; [|by unfold CallCount; rewrite Ha|
    |apply after_invocations].
  - unfold call, expected. rewrite Hs, Hr, Ha, Hon. destruct (stub_of past); [done|].
    by destruct (set_for _ past).
  - intros i. unfold ArgsForCall. rewrite Ha. by case_decide.
Qed.
End Properties.
