(* ===== verification/Fakes.v ===== *)
(** * The test doubles, interface by interface

    The signatures of the 18 doubles, one Module per Go package, and what the
    generator wrote for each method of each: the call with its count and
    arguments, [Returns] and [ReturnsOnCall], and [Invocations]. *)

From stdpp Require Import base gmap strings list.
From Stdlib Require Import ZArith Lia.
From S2P Require Import Prelude Json Opi Messages Kube Recipe Doubles.

(** ** [opi/opifakes] *)
Module opifakes.
Section opifakes.
Context `{!GoTypes}.

Inductive Desirer_method :=
  | Desirer_Desire | Desirer_List | Desirer_Get | Desirer_Update | Desirer_Stop.
#[export] Instance Desirer_method_dec : EqDecision Desirer_method.
Proof. solve_decision. Defined.

Definition FakeDesirer : Signature := {|
  method := Desirer_method;
  method_dec := Desirer_method_dec;
  name m := match m with
    | Desirer_Desire => "Desire" | Desirer_List => "List" | Desirer_Get => "Get"
    | Desirer_Update => "Update" | Desirer_Stop => "Stop"
    end;
  name_inj := ltac:(by intros [] []);
  args m := match m with
    | Desirer_Desire => LRP | Desirer_List => unit | Desirer_Get => string
    | Desirer_Update => LRP | Desirer_Stop => string
    end;
  recorded m := match m with
    | Desirer_Desire => λ a, [VLRP a] | Desirer_List => λ _, []
    | Desirer_Get => λ a, [VString a] | Desirer_Update => λ a, [VLRP a]
    | Desirer_Stop => λ a, [VString a]
    end;
  results m := match m with
    | Desirer_Desire => option error | Desirer_List => (slice LRP * option error)%type
    | Desirer_Get => (option LRP * option error)%type | Desirer_Update => option error
    | Desirer_Stop => option error
    end;
  zero m := match m with
    | Desirer_Desire => None | Desirer_List => (None, None) | Desirer_Get => (None, None)
    | Desirer_Update => None | Desirer_Stop => None
    end
|}.

Definition FakeDesirer_Desire := double FakeDesirer Desirer_Desire.
Definition FakeDesirer_List := double_ FakeDesirer Desirer_List.
Definition FakeDesirer_Get := double FakeDesirer Desirer_Get.
Definition FakeDesirer_Update := double FakeDesirer Desirer_Update.
Definition FakeDesirer_Stop := double FakeDesirer Desirer_Stop.
Definition FakeDesirer_Invocations := invoked FakeDesirer.

Inductive TaskDesirer_method :=
  | TaskDesirer_Desire | TaskDesirer_DesireStaging | TaskDesirer_Delete.
#[export] Instance TaskDesirer_method_dec : EqDecision TaskDesirer_method.
Proof. solve_decision. Defined.

Definition FakeTaskDesirer : Signature := {|
  method := TaskDesirer_method;
  method_dec := TaskDesirer_method_dec;
  name m := match m with
    | TaskDesirer_Desire => "Desire" | TaskDesirer_DesireStaging => "DesireStaging"
    | TaskDesirer_Delete => "Delete"
    end;
  name_inj := ltac:(by intros [] []);
  args m := match m with
    | TaskDesirer_Desire => Task | TaskDesirer_DesireStaging => Task
    | TaskDesirer_Delete => string
    end;
  recorded m := match m with
    | TaskDesirer_Desire => λ a, [VTask a] | TaskDesirer_DesireStaging => λ a, [VTask a]
    | TaskDesirer_Delete => λ a, [VString a]
    end;
  results _ := option error;
  zero _ := None
|}.

Definition FakeTaskDesirer_Desire := double FakeTaskDesirer TaskDesirer_Desire.
Definition FakeTaskDesirer_DesireStaging := double FakeTaskDesirer TaskDesirer_DesireStaging.
Definition FakeTaskDesirer_Delete := double FakeTaskDesirer TaskDesirer_Delete.
Definition FakeTaskDesirer_Invocations := invoked FakeTaskDesirer.

End opifakes.
End opifakes.

(** ** [k8s/k8sfakes] *)
Module k8sfakes.
Section k8sfakes.
Context `{!GoTypes}.

Inductive InstanceManager_method :=
  | InstanceManager_List | InstanceManager_Exists | InstanceManager_Get
  | InstanceManager_Create | InstanceManager_Delete | InstanceManager_Update.
#[export] Instance InstanceManager_method_dec : EqDecision InstanceManager_method.
Proof. solve_decision. Defined.

Definition FakeInstanceManager : Signature := {|
  method := InstanceManager_method;
  method_dec := InstanceManager_method_dec;
  name m := match m with
    | InstanceManager_List => "List" | InstanceManager_Exists => "Exists"
    | InstanceManager_Get => "Get" | InstanceManager_Create => "Create"
    | InstanceManager_Delete => "Delete" | InstanceManager_Update => "Update"
    end;
  name_inj := ltac:(by intros [] []);
  args m := match m with
    | InstanceManager_List => unit | InstanceManager_Exists => string
    | InstanceManager_Get => string | InstanceManager_Create => LRP
    | InstanceManager_Delete => string | InstanceManager_Update => LRP
    end;
  recorded m := match m with
    | InstanceManager_List => λ _, [] | InstanceManager_Exists => λ a, [VString a]
    | InstanceManager_Get => λ a, [VString a] | InstanceManager_Create => λ a, [VLRP a]
    | InstanceManager_Delete => λ a, [VString a] | InstanceManager_Update => λ a, [VLRP a]
    end;
  results m := match m with
    | InstanceManager_List => (slice LRP * option error)%type
    | InstanceManager_Exists => (bool * option error)%type
    | InstanceManager_Get => (option LRP * option error)%type
    | InstanceManager_Create => option error | InstanceManager_Delete => option error
    | InstanceManager_Update => option error
    end;
  zero m := match m with
    | InstanceManager_List => (None, None) | InstanceManager_Exists => (false, None)
    | InstanceManager_Get => (None, None) | InstanceManager_Create => None
    | InstanceManager_Delete => None | InstanceManager_Update => None
    end
|}.

Definition FakeInstanceManager_List := double_ FakeInstanceManager InstanceManager_List.
Definition FakeInstanceManager_Exists := double FakeInstanceManager InstanceManager_Exists.
Definition FakeInstanceManager_Get := double FakeInstanceManager InstanceManager_Get.
Definition FakeInstanceManager_Create := double FakeInstanceManager InstanceManager_Create.
Definition FakeInstanceManager_Delete := double FakeInstanceManager InstanceManager_Delete.
Definition FakeInstanceManager_Update := double FakeInstanceManager InstanceManager_Update.
Definition FakeInstanceManager_Invocations := invoked FakeInstanceManager.

Inductive ServiceManager_method :=
  | ServiceManager_Create | ServiceManager_CreateHeadless | ServiceManager_Update
  | ServiceManager_Delete | ServiceManager_DeleteHeadless.
#[export] Instance ServiceManager_method_dec : EqDecision ServiceManager_method.
Proof. solve_decision. Defined.

Definition FakeServiceManager : Signature := {|
  method := ServiceManager_method;
  method_dec := ServiceManager_method_dec;
  name m := match m with
    | ServiceManager_Create => "Create" | ServiceManager_CreateHeadless => "CreateHeadless"
    | ServiceManager_Update => "Update" | ServiceManager_Delete => "Delete"
    | ServiceManager_DeleteHeadless => "DeleteHeadless"
    end;
  name_inj := ltac:(by intros [] []);
  args m := match m with
    | ServiceManager_Create => LRP | ServiceManager_CreateHeadless => LRP
    | ServiceManager_Update => LRP | ServiceManager_Delete => string
    | ServiceManager_DeleteHeadless => string
    end;
  recorded m := match m with
    | ServiceManager_Create => λ a, [VLRP a]
    | ServiceManager_CreateHeadless => λ a, [VLRP a]
    | ServiceManager_Update => λ a, [VLRP a] | ServiceManager_Delete => λ a, [VString a]
    | ServiceManager_DeleteHeadless => λ a, [VString a]
    end;
  results _ := option error;
  zero _ := None
|}.

Definition FakeServiceManager_Create := double FakeServiceManager ServiceManager_Create.
Definition FakeServiceManager_CreateHeadless := double FakeServiceManager ServiceManager_CreateHeadless.
Definition FakeServiceManager_Update := double FakeServiceManager ServiceManager_Update.
Definition FakeServiceManager_Delete := double FakeServiceManager ServiceManager_Delete.
Definition FakeServiceManager_DeleteHeadless := double FakeServiceManager ServiceManager_DeleteHeadless.
Definition FakeServiceManager_Invocations := invoked FakeServiceManager.

Inductive IngressManager_method := IngressManager_Update | IngressManager_Delete.
#[export] Instance IngressManager_method_dec : EqDecision IngressManager_method.
Proof. solve_decision. Defined.

Definition FakeIngressManager : Signature := {|
  method := IngressManager_method;
  method_dec := IngressManager_method_dec;
  name m := match m with
    | IngressManager_Update => "Update" | IngressManager_Delete => "Delete"
    end;
  name_inj := ltac:(by intros [] []);
  args m := match m with
    | IngressManager_Update => LRP | IngressManager_Delete => string
    end;
  recorded m := match m with
    | IngressManager_Update => λ a, [VLRP a] | IngressManager_Delete => λ a, [VString a]
    end;
  results _ := option error;
  zero _ := None
|}.

Definition FakeIngressManager_Update := double FakeIngressManager IngressManager_Update.
Definition FakeIngressManager_Delete := double FakeIngressManager IngressManager_Delete.
Definition FakeIngressManager_Invocations := invoked FakeIngressManager.

Inductive ProbeCreator_method := ProbeCreator_Spy.
#[export] Instance ProbeCreator_method_dec : EqDecision ProbeCreator_method.
Proof. solve_decision. Defined.

Definition FakeProbeCreator : Signature := {|
  method := ProbeCreator_method;
  method_dec := ProbeCreator_method_dec;
  name m := match m with ProbeCreator_Spy => "ProbeCreator" end;
  name_inj := ltac:(by intros [] []);
  args m := match m with ProbeCreator_Spy => LRP end;
  recorded m := match m with ProbeCreator_Spy => λ a, [VLRP a] end;
  results m := match m with ProbeCreator_Spy => option Probe end;
  zero m := match m with ProbeCreator_Spy => None end
|}.

Definition FakeProbeCreator_Spy := double FakeProbeCreator ProbeCreator_Spy.
Definition FakeProbeCreator_Invocations := invoked FakeProbeCreator.

End k8sfakes.
End k8sfakes.

(** ** [eirinifakes] *)
Module eirinifakes.
Section eirinifakes.
Context `{!GoTypes}.

Inductive Bifrost_method :=
  | Bifrost_Transfer | Bifrost_List | Bifrost_Update | Bifrost_Stop | Bifrost_GetApp
  | Bifrost_GetInstances.
#[export] Instance Bifrost_method_dec : EqDecision Bifrost_method.
Proof. solve_decision. Defined.

Definition FakeBifrost : Signature := {|
  method := Bifrost_method;
  method_dec := Bifrost_method_dec;
  name m := match m with
    | Bifrost_Transfer => "Transfer" | Bifrost_List => "List" | Bifrost_Update => "Update"
    | Bifrost_Stop => "Stop" | Bifrost_GetApp => "GetApp"
    | Bifrost_GetInstances => "GetInstances"
    end;
  name_inj := ltac:(by intros [] []);
  args m := match m with
    | Bifrost_Transfer => (Ctx * DesireLRPRequest)%type | Bifrost_List => Ctx
    | Bifrost_Update => (Ctx * UpdateDesiredLRPRequest)%type
    | Bifrost_Stop => (Ctx * string)%type | Bifrost_GetApp => (Ctx * string)%type
    | Bifrost_GetInstances => (Ctx * string)%type
    end;
  recorded m := match m with
    | Bifrost_Transfer => λ '(a, b), [VContext a; VDesireLRPRequest b]
    | Bifrost_List => λ a, [VContext a]
    | Bifrost_Update => λ '(a, b), [VContext a; VUpdateDesiredLRPRequest b]
    | Bifrost_Stop => λ '(a, b), [VContext a; VString b]
    | Bifrost_GetApp => λ '(a, b), [VContext a; VString b]
    | Bifrost_GetInstances => λ '(a, b), [VContext a; VString b]
    end;
  results m := match m with
    | Bifrost_Transfer => option error
    | Bifrost_List => (slice DesiredLRPSchedulingInfo * option error)%type
    | Bifrost_Update => option error | Bifrost_Stop => option error
    | Bifrost_GetApp => option DesiredLRP
    | Bifrost_GetInstances => (slice Instance_ * option error)%type
    end;
  zero m := match m with
    | Bifrost_Transfer => None | Bifrost_List => (None, None) | Bifrost_Update => None
    | Bifrost_Stop => None | Bifrost_GetApp => None | Bifrost_GetInstances => (None, None)
    end
|}.

Definition FakeBifrost_Transfer := double FakeBifrost Bifrost_Transfer.
Definition FakeBifrost_List := double FakeBifrost Bifrost_List.
Definition FakeBifrost_Update := double FakeBifrost Bifrost_Update.
Definition FakeBifrost_Stop := double FakeBifrost Bifrost_Stop.
Definition FakeBifrost_GetApp := double FakeBifrost Bifrost_GetApp.
Definition FakeBifrost_GetInstances := double FakeBifrost Bifrost_GetInstances.
Definition FakeBifrost_Invocations := invoked FakeBifrost.

Inductive Stager_method := Stager_Stage | Stager_CompleteStaging.
#[export] Instance Stager_method_dec : EqDecision Stager_method.
Proof. solve_decision. Defined.

Definition FakeStager : Signature := {|
  method := Stager_method;
  method_dec := Stager_method_dec;
  name m := match m with
    | Stager_Stage => "Stage" | Stager_CompleteStaging => "CompleteStaging"
    end;
  name_inj := ltac:(by intros [] []);
  args m := match m with
    | Stager_Stage => (string * StagingRequestFromCC)%type
    | Stager_CompleteStaging => TaskCallbackResponse
    end;
  recorded m := match m with
    | Stager_Stage => λ '(a, b), [VString a; VStagingRequest b]
    | Stager_CompleteStaging => λ a, [VTaskCallbackResponse a]
    end;
  results _ := option error;
  zero _ := None
|}.

Definition FakeStager_Stage := double FakeStager Stager_Stage.
Definition FakeStager_CompleteStaging := double FakeStager Stager_CompleteStaging.
Definition FakeStager_Invocations := invoked FakeStager.

Inductive CfClient_method :=
  | CfClient_GetDropletByAppGuid | CfClient_PushDroplet | CfClient_GetAppBitsByAppGuid.
#[export] Instance CfClient_method_dec : EqDecision CfClient_method.
Proof. solve_decision. Defined.

Definition FakeCfClient : Signature := {|
  method := CfClient_method;
  method_dec := CfClient_method_dec;
  name m := match m with
    | CfClient_GetDropletByAppGuid => "GetDropletByAppGuid"
    | CfClient_PushDroplet => "PushDroplet"
    | CfClient_GetAppBitsByAppGuid => "GetAppBitsByAppGuid"
    end;
  name_inj := ltac:(by intros [] []);
  args m := match m with
    | CfClient_GetDropletByAppGuid => string
    | CfClient_PushDroplet => (string * string)%type
    | CfClient_GetAppBitsByAppGuid => string
    end;
  recorded m := match m with
    | CfClient_GetDropletByAppGuid => λ a, [VString a]
    | CfClient_PushDroplet => λ '(a, b), [VString a; VString b]
    | CfClient_GetAppBitsByAppGuid => λ a, [VString a]
    end;
  results m := match m with
    | CfClient_GetDropletByAppGuid => (option string * option error)%type
    | CfClient_PushDroplet => option error
    | CfClient_GetAppBitsByAppGuid => (option Response * option error)%type
    end;
  zero m := match m with
    | CfClient_GetDropletByAppGuid => (None, None) | CfClient_PushDroplet => None
    | CfClient_GetAppBitsByAppGuid => (None, None)
    end
|}.

Definition FakeCfClient_GetDropletByAppGuid := double FakeCfClient CfClient_GetDropletByAppGuid.
Definition FakeCfClient_PushDroplet := double FakeCfClient CfClient_PushDroplet.
Definition FakeCfClient_GetAppBitsByAppGuid := double FakeCfClient CfClient_GetAppBitsByAppGuid.
Definition FakeCfClient_Invocations := invoked FakeCfClient.

Inductive Extractor_method := Extractor_Extract.
#[export] Instance Extractor_method_dec : EqDecision Extractor_method.
Proof. solve_decision. Defined.

Definition FakeExtractor : Signature := {|
  method := Extractor_method;
  method_dec := Extractor_method_dec;
  name m := match m with Extractor_Extract => "Extract" end;
  name_inj := ltac:(by intros [] []);
  args m := match m with Extractor_Extract => (string * string)%type end;
  recorded m := match m with Extractor_Extract => λ '(a, b), [VString a; VString b] end;
  results m := match m with Extractor_Extract => option error end;
  zero m := match m with Extractor_Extract => None end
|}.

Definition FakeExtractor_Extract := double FakeExtractor Extractor_Extract.
Definition FakeExtractor_Invocations := invoked FakeExtractor.

End eirinifakes.
End eirinifakes.

(** ** [route/routefakes] *)
Module routefakes.
Section routefakes.
Context `{!GoTypes}.

Inductive Lister_method := Lister_ListRoutes.
#[export] Instance Lister_method_dec : EqDecision Lister_method.
Proof. solve_decision. Defined.

Definition FakeLister : Signature := {|
  method := Lister_method;
  method_dec := Lister_method_dec;
  name m := match m with Lister_ListRoutes => "ListRoutes" end;
  name_inj := ltac:(by intros [] []);
  args m := match m with Lister_ListRoutes => unit end;
  recorded m := match m with Lister_ListRoutes => λ _, [] end;
  results m := match m with Lister_ListRoutes => (slice Routes * option error)%type end;
  zero m := match m with Lister_ListRoutes => (None, None) end
|}.

Definition FakeLister_ListRoutes := double_ FakeLister Lister_ListRoutes.
Definition FakeLister_Invocations := invoked FakeLister.

Inductive Publisher_method := Publisher_Publish.
#[export] Instance Publisher_method_dec : EqDecision Publisher_method.
Proof. solve_decision. Defined.

Definition FakePublisher : Signature := {|
  method := Publisher_method;
  method_dec := Publisher_method_dec;
  name m := match m with Publisher_Publish => "Publish" end;
  name_inj := ltac:(by intros [] []);
  args m := match m with Publisher_Publish => (string * option string)%type end;
  recorded m := match m with Publisher_Publish => λ '(a, b), [VString a; VBytes b] end;
  results m := match m with Publisher_Publish => option error end;
  zero m := match m with Publisher_Publish => None end
|}.

Definition FakePublisher_Publish := double FakePublisher Publisher_Publish.
Definition FakePublisher_Invocations := invoked FakePublisher.

Inductive TaskScheduler_method := TaskScheduler_Schedule.
#[export] Instance TaskScheduler_method_dec : EqDecision TaskScheduler_method.
Proof. solve_decision. Defined.

Definition FakeTaskScheduler : Signature := {|
  method := TaskScheduler_method;
  method_dec := TaskScheduler_method_dec;
  name m := match m with TaskScheduler_Schedule => "Schedule" end;
  name_inj := ltac:(by intros [] []);
  args m := match m with TaskScheduler_Schedule => Fn end;
  recorded m := match m with TaskScheduler_Schedule => λ a, [VFunc a] end;
  results m := match m with TaskScheduler_Schedule => unit end;
  zero m := match m with TaskScheduler_Schedule => tt end
|}.

Definition FakeTaskScheduler_Schedule := recording (sig := FakeTaskScheduler) TaskScheduler_Schedule.
Definition FakeTaskScheduler_Invocations := invoked FakeTaskScheduler.

End routefakes.
End routefakes.

(** ** [bifrost/bifrostfakes] *)
Module bifrostfakes.
Section bifrostfakes.
Context `{!GoTypes}.

Inductive Converter_method := Converter_Convert.
#[export] Instance Converter_method_dec : EqDecision Converter_method.
Proof. solve_decision. Defined.

Definition FakeConverter : Signature := {|
  method := Converter_method;
  method_dec := Converter_method_dec;
  name m := match m with Converter_Convert => "Convert" end;
  name_inj := ltac:(by intros [] []);
  args m := match m with Converter_Convert => DesireLRPRequest end;
  recorded m := match m with Converter_Convert => λ a, [VDesireLRPRequest a] end;
  results m := match m with Converter_Convert => (LRP * option error)%type end;
  zero m := match m with Converter_Convert => (zero_LRP, None) end
|}.

Definition FakeConverter_Convert := double FakeConverter Converter_Convert.
Definition FakeConverter_Invocations := invoked FakeConverter.

End bifrostfakes.
End bifrostfakes.

(** ** [recipe/recipefakes] *)
Module recipefakes.
Section recipefakes.
Context `{!GoTypes}.

Inductive Installer_method := Installer_Install.
#[export] Instance Installer_method_dec : EqDecision Installer_method.
Proof. solve_decision. Defined.

Definition FakeInstaller : Signature := {|
  method := Installer_method;
  method_dec := Installer_method_dec;
  name m := match m with Installer_Install => "Install" end;
  name_inj := ltac:(by intros [] []);
  args m := match m with Installer_Install => (string * string)%type end;
  recorded m := match m with Installer_Install => λ '(a, b), [VString a; VString b] end;
  results m := match m with Installer_Install => option error end;
  zero m := match m with Installer_Install => None end
|}.

Definition FakeInstaller_Install := double FakeInstaller Installer_Install.
Definition FakeInstaller_Invocations := invoked FakeInstaller.

Inductive Uploader_method := Uploader_Upload.
#[export] Instance Uploader_method_dec : EqDecision Uploader_method.
Proof. solve_decision. Defined.

Definition FakeUploader : Signature := {|
  method := Uploader_method;
  method_dec := Uploader_method_dec;
  name m := match m with Uploader_Upload => "Upload" end;
  name_inj := ltac:(by intros [] []);
  args m := match m with Uploader_Upload => (string * string)%type end;
  recorded m := match m with Uploader_Upload => λ '(a, b), [VString a; VString b] end;
  results m := match m with Uploader_Upload => option error end;
  zero m := match m with Uploader_Upload => None end
|}.

Definition FakeUploader_Upload := double FakeUploader Uploader_Upload.
Definition FakeUploader_Invocations := invoked FakeUploader.

Inductive Commander_method := Commander_Exec.
#[export] Instance Commander_method_dec : EqDecision Commander_method.
Proof. solve_decision. Defined.

Definition FakeCommander : Signature := {|
  method := Commander_method;
  method_dec := Commander_method_dec;
  name m := match m with Commander_Exec => "Exec" end;
  name_inj := ltac:(by intros [] []);
  args m := match m with Commander_Exec => (string * list string)%type end;
  recorded m := match m with Commander_Exec => λ '(a, b), [VString a; VStrings b] end;
  results m := match m with Commander_Exec => option error end;
  zero m := match m with Commander_Exec => None end
|}.

Definition FakeCommander_Exec := double FakeCommander Commander_Exec.
Definition FakeCommander_Invocations := invoked FakeCommander.

Definition zero_StagingResult : StagingResult :=
  {| res_LifecycleMetadata := zero_LifecycleMetadata; res_ProcessTypes := None;
     res_ExecutionMetadata := ""; res_LifecycleType := "" |}.

Inductive StagingResultModifier_method := StagingResultModifier_Modify.
#[export] Instance StagingResultModifier_method_dec : EqDecision StagingResultModifier_method.
Proof. solve_decision. Defined.

Definition FakeStagingResultModifier : Signature := {|
  method := StagingResultModifier_method;
  method_dec := StagingResultModifier_method_dec;
  name m := match m with StagingResultModifier_Modify => "Modify" end;
  name_inj := ltac:(by intros [] []);
  args m := match m with StagingResultModifier_Modify => StagingResult end;
  recorded m := match m with StagingResultModifier_Modify => λ a, [VStagingResult a] end;
  results m := match m with StagingResultModifier_Modify => (StagingResult * option error)%type end;
  zero m := match m with StagingResultModifier_Modify => (zero_StagingResult, None) end
|}.

Definition FakeStagingResultModifier_Modify := double FakeStagingResultModifier StagingResultModifier_Modify.
Definition FakeStagingResultModifier_Invocations := invoked FakeStagingResultModifier.

End recipefakes.
End recipefakes.

