(* ===== verification/Tested.v ===== *)
(** * The components and the doubles they are tested with

    A component is tested with doubles in place of what it calls: the backend
    with those of its managers ([k8s/desire_test.go]), Bifrost with those of the
    converter and of the scheduler ([bifrost/bifrost_test.go]).  The tests tell
    the doubles what to answer, run an operation and look at its answer and at
    the calls that were recorded, for a few answers; here this is done for all
    of them. *)

From stdpp Require Import base gmap strings list.
From Stdlib Require Import ZArith Lia.
From S2P Require Import Prelude Json Opi Messages Kube Service StatefulSet Ingress Fixtures Desirer Bifrost Doubles Fakes.

(** ** The doubles as an implementation of interfaces *)
Section Clients.
Context `{!GoTypes} {I : Type} `{!EqDecision I} (sigs : I → Signature).

(** An implementation of the interfaces over a state. *)
Definition Implementation (S : Type) : Type :=
  ∀ i (m : method (sigs i)), args (sigs i) m → M S (results (sigs i) m).

Definition Doubles : Type := ∀ i, Fake (sigs i).

Definition set_double (i : I) (f : Fake (sigs i)) (fs : Doubles) : Doubles := λ j,
  match decide (i = j) with
  | left E => eq_rect i (λ i, Fake (sigs i)) f j E
  | right _ => fs j
  end.

Definition doubles : Implementation Doubles := λ i m a fs,
  let '(o, f) := call m a (fs i) in (o, set_double i f fs).

End Clients.

(** ** The interfaces of the program, from such an implementation

    A result of the doubles is a Go tuple.  The callers use the first component
    only when the error is [nil]; a [nil] pointer is a panic where it is used. *)

Definition as_error (e : option error) : outcome (result unit) :=
  Ret (match e with None => Ok tt | Some e => Err e end).

Definition as_result {A B} (g : A → outcome B) (r : A * option error) : outcome (result B) :=
  match r.2 with
  | Some e => Ret (Err e)
  | None => match g r.1 with Ret b => Ret (Ok b) | Panic why => Panic why | Hang => Hang end
  end.

Definition as_list {A} (l : slice A) : outcome (list A) := Ret (elems l).

Definition asked {S R A} (out : R → outcome A) (c : M S R) : M S A := r ← c; lift_outcome (out r).

(** *** The managers of the backend *)
Section Interfaces.
Context `{!GoTypes}.
Import k8sfakes opifakes bifrostfakes.

Inductive manager := Instances_ | Services_ | Ingresses_.
#[global] Instance manager_dec : EqDecision manager.
Proof. solve_decision. Defined.

Definition manager_sigs (i : manager) : Signature :=
  match i with
  | Instances_ => FakeInstanceManager
  | Services_ => FakeServiceManager
  | Ingresses_ => FakeIngressManager
  end.

Definition tested_desirer {S} (h : Implementation manager_sigs S) : K8sDesirer S := {|
  InstanceManager_ := {|
    im_List := asked (as_result as_list) (h Instances_ InstanceManager_List tt);
    im_Exists := λ name, asked (as_result Ret) (h Instances_ InstanceManager_Exists name);
    im_Get := λ name, asked (as_result deref) (h Instances_ InstanceManager_Get name);
    im_Create := λ lrp, asked as_error (h Instances_ InstanceManager_Create lrp);
    im_Delete := λ name, asked as_error (h Instances_ InstanceManager_Delete name);
    im_Update := λ lrp, asked as_error (h Instances_ InstanceManager_Update lrp) |};
  ServiceManager_ := {|
    sm_Create := λ lrp, asked as_error (h Services_ ServiceManager_Create lrp);
    sm_CreateHeadless := λ lrp, asked as_error (h Services_ ServiceManager_CreateHeadless lrp);
    sm_Update := λ lrp, asked as_error (h Services_ ServiceManager_Update lrp);
    sm_Delete := λ name, asked as_error (h Services_ ServiceManager_Delete name);
    sm_DeleteHeadless := λ name, asked as_error (h Services_ ServiceManager_DeleteHeadless name) |};
  IngressManager_ := {|
    ig_Update := λ lrp, asked as_error (h Ingresses_ IngressManager_Update lrp);
    ig_Delete := λ name, asked as_error (h Ingresses_ IngressManager_Delete name) |}
|}.

(** *** What Bifrost calls *)
Inductive backend_part := Conversion | Scheduler_.
#[global] Instance backend_part_dec : EqDecision backend_part.
Proof. solve_decision. Defined.

Definition backend_sigs (i : backend_part) : Signature :=
  match i with Conversion => FakeConverter | Scheduler_ => FakeDesirer end.

Definition tested_converter {S} (h : Implementation backend_sigs S) : Bifrost.Converter S :=
  {| converter_Convert := λ request, asked (as_result Ret) (h Conversion Converter_Convert request) |}.

Definition tested_scheduler {S} (h : Implementation backend_sigs S) : Opi.Desirer S := {|
  desirer_Desire := λ lrp, asked as_error (h Scheduler_ Desirer_Desire lrp);
  desirer_List := asked (as_result as_list) (h Scheduler_ Desirer_List tt);
  desirer_Get := λ name, asked (as_result deref) (h Scheduler_ Desirer_Get name);
  desirer_Update := λ lrp, asked as_error (h Scheduler_ Desirer_Update lrp);
  desirer_Stop := λ name, asked as_error (h Scheduler_ Desirer_Stop name)
|}.

Definition tested_bifrost {S} (h : Implementation backend_sigs S) : Messages.Bifrost S :=
  @new_bifrost S (tested_converter h) (tested_scheduler h).

(** ** The backend's tests, for all answers of the managers

    [desire_test.go] runs each command of the backend on fresh doubles, some of
    which it tells to fail. *)

Definition fresh {I} (sigs : I → Signature) : Doubles sigs := λ i, new (sigs i).

(** [xManager.XReturns(r)]. *)
Definition tell {I} `{!EqDecision I} {sigs : I → Signature} (i : I)
    (d : Fake (sigs i) → Fake (sigs i)) (fs : Doubles sigs) : Doubles sigs :=
  set_double sigs i (d (fs i)) fs.

(** The error of the first that fails. *)
Fixpoint first_failure (errors : list (option error)) : result unit :=
  match errors with
  | [] => Ok tt
  | Some e :: _ => Err e
  | None :: errors => first_failure errors
  end.

(** One invocation of each of these methods, if [b]. *)
Definition once (b : bool) (method : string) (l : list value) : list (string * list (list value)) :=
  if b then [(method, [l])] else [].

Definition made (l : list (list (string * list (list value)))) :
    gmap string (list (list value)) :=
  list_to_map (concat l).

Definition told_to_desire (exists_ : bool * option error) (create service ingress : option error) :
    Doubles manager_sigs :=
  tell Instances_ (Returning FakeInstanceManager_Exists.2 exists_)
    (tell Instances_ (Returning FakeInstanceManager_Create.2 create)
      (tell Services_ (Returning FakeServiceManager_Create.2 service)
        (tell Ingresses_ (Returning FakeIngressManager_Update.2 ingress) (fresh manager_sigs)))).

Definition told_to_update (instance service ingress : option error) : Doubles manager_sigs :=
  tell Instances_ (Returning FakeInstanceManager_Update.2 instance)
    (tell Services_ (Returning FakeServiceManager_Update.2 service)
      (tell Ingresses_ (Returning FakeIngressManager_Update.2 ingress) (fresh manager_sigs))).

Definition told_to_stop (instance ingress service : option error) : Doubles manager_sigs :=
  tell Instances_ (Returning FakeInstanceManager_Delete.2 instance)
    (tell Ingresses_ (Returning FakeIngressManager_Delete.2 ingress)
      (tell Services_ (Returning FakeServiceManager_Delete.2 service) (fresh manager_sigs))).

(** What the managers' doubles have recorded. *)
Definition all_invocations (fs : Doubles manager_sigs) :=
  (FakeInstanceManager_Invocations.1 (fs Instances_), FakeServiceManager_Invocations.1 (fs Services_),
   FakeIngressManager_Invocations.1 (fs Ingresses_)).

(** C38: the backend calls its managers in order up to the first that fails.
    Whatever [Exists] and the managers answer: [Desire] asks for the
    application, does nothing if it is there, and else creates the instances and
    the service and updates the ingress; [Update] updates the instances, the
    service and the ingress; [Stop] deletes the instances, from the ingress, and
    the service.  The answer is the first error; the calls before it, with it,
    and no others, were made once, with the argument of the command. *)
Theorem backend_calls_managers lrp app (found : bool) (e0 e1 e2 e3 : option error) :
  (let new_app := negb found && is_ok (first_failure [e0]) in
   let '(o, fs) := Desire (tested_desirer (doubles manager_sigs)) lrp
                     (told_to_desire (found, e0) e1 e2 e3) in
   o = Ret (if new_app then first_failure [e1; e2; e3] else first_failure [e0]) ∧
   all_invocations fs =
     (made [once true "Exists" [VString (lrp_Name lrp)]; once new_app "Create" [VLRP lrp]],
      made [once (new_app && is_ok (first_failure [e1])) "Create" [VLRP lrp]],
      made [once (new_app && is_ok (first_failure [e1; e2])) "Update" [VLRP lrp]])) ∧
  (let '(o, fs) := Desirer.Update (tested_desirer (doubles manager_sigs)) lrp
                     (told_to_update e1 e2 e3) in
   o = Ret (first_failure [e1; e2; e3]) ∧
   all_invocations fs =
     (made [once true "Update" [VLRP lrp]],
      made [once (is_ok (first_failure [e1])) "Update" [VLRP lrp]],
      made [once (is_ok (first_failure [e1; e2])) "Update" [VLRP lrp]])) ∧
  (let '(o, fs) := Stop (tested_desirer (doubles manager_sigs)) app (told_to_stop e1 e2 e3) in
   o = Ret (first_failure [e1; e2; e3]) ∧
   all_invocations fs =
     (made [once true "Delete" [VString app]],
      made [once (is_ok (first_failure [e1; e2])) "Delete" [VString app]],
      made [once (is_ok (first_failure [e1])) "Delete" [VString app]])).
Proof. split_and!; destruct found, e0, e1, e2, e3; by split. Qed.

(** ** Bifrost's tests, for all answers of the converter and the scheduler *)

Definition told_to_bifrost (convert : LRP * option error) (desire update stop : option error)
    (got : option LRP * option error) (listed : slice LRP * option error) : Doubles backend_sigs :=
  tell Conversion (Returning FakeConverter_Convert.2 convert)
    (tell Scheduler_ (Returning FakeDesirer_Desire.2 desire)
      (tell Scheduler_ (Returning FakeDesirer_Update.2 update)
        (tell Scheduler_ (Returning FakeDesirer_Stop.2 stop)
          (tell Scheduler_ (Returning FakeDesirer_Get.2 got)
            (tell Scheduler_ (Returning FakeDesirer_List.2 listed) (fresh backend_sigs)))))).

(** The operation answers this, having made these calls of the converter and
    the scheduler and no others. *)
Definition answers {A} (c : M (Doubles backend_sigs) A) (fs : Doubles backend_sigs) (o : outcome A)
    (conversions calls : list (list (string * list (list value)))) : Prop :=
  (c fs).1 = o ∧
  FakeConverter_Invocations.1 ((c fs).2 Conversion) = made conversions ∧
  FakeDesirer_Invocations.1 ((c fs).2 Scheduler_) = made calls.

Abbreviation bifrost_tested := (tested_bifrost (doubles backend_sigs)).

Lemma tested_get convert desire update stop lrp listed guid :
  let fs := told_to_bifrost convert desire update stop (Some lrp, None) listed in
  @desirer_Get _ (tested_scheduler (doubles backend_sigs)) guid fs
  = (Ret (Ok lrp), (doubles backend_sigs Scheduler_ Desirer_Get guid fs).2).
Proof. reflexivity. Qed.

(** C39: whatever the converter and the scheduler answer, Bifrost makes exactly
    its calls.  [Transfer] converts the request and desires the LRP it gets;
    [List] gives the process id and the time of each LRP, in order; [GetApp]
    and [GetInstances] read the application and give its count and one entry
    per running instance; [Stop] passes the id on.  [Update] reads the
    application and passes on the LRP it got with the instances, the time and
    the host names of the request, and panics after reading it when the request
    lacks its update, its instances or its annotation; nothing is passed on
    either when the routes of the request do not decode.  A failing call is the
    answer, and nothing is called after it. *)
Theorem bifrost_calls_scheduler request u guid convert desire update stop got listed :
  let fs := told_to_bifrost convert desire update stop got listed in
  let get := once true "Get" [VString guid] in
  let get_ := once true "Get" [VString (ud_ProcessGuid u)] in
  answers (@bifrost_Transfer _ bifrost_tested request) fs (Ret (first_failure [convert.2; desire]))
    [once true "Convert" [VDesireLRPRequest request]]
    [once (is_ok (first_failure [convert.2])) "Desire" [VLRP convert.1]] ∧
  answers (@bifrost_List _ bifrost_tested) fs
    (Ret match listed.2 with
         | Some e => Err (WrapError "failed to list desired LRPs" e)
         | None => Ok ((λ l, {| si_ProcessGuid := gomap_get (lrp_Metadata l) "process_guid";
                                si_Annotation := gomap_get (lrp_Metadata l) "last_updated" |})
                         <$> elems listed.1)
         end) [] [once true "List" []] ∧
  answers (@bifrost_Stop _ bifrost_tested guid) fs (Ret (first_failure [stop])) []
    [once true "Stop" [VString guid]] ∧
  (∀ e, got.2 = Some e →
     answers (@bifrost_GetApp _ bifrost_tested guid) fs (Ret None) [] [get] ∧
     answers (@bifrost_GetInstances _ bifrost_tested guid) fs (Ret (Err e)) [] [get] ∧
     answers (@bifrost_Update _ bifrost_tested u) fs (Ret (Err e)) [] [get_]) ∧
  ∀ lrp, got = (Some lrp, None) →
    answers (@bifrost_GetApp _ bifrost_tested guid) fs
      (Ret (Some {| dl_ProcessGuid := lrp_Name lrp;
                    dl_Instances := to_int32 (lrp_TargetInstances lrp) |})) [] [get] ∧
    (∃ l, answers (@bifrost_GetInstances _ bifrost_tested guid) fs (Ret (Ok l)) [] [get] ∧
       length l = Z.to_nat (lrp_RunningInstances lrp) ∧
       ∀ i x, l !! i = Some x → inst_Index x = Z.of_nat i ∧ inst_State x = "RUNNING") ∧
    (lacks_fields u →
       answers (@bifrost_Update _ bifrost_tested u) fs (Panic "nil pointer dereference") [] [get_]) ∧
    (∀ d n annotation, lrp_Metadata lrp ≠ None → ud_Update u = Some d →
       du_Instances d = Some n → du_Annotation d = Some annotation →
       let answers_update := answers (@bifrost_Update _ bifrost_tested u) fs in
       match getURIs u with
       | Ret (Ok hostnames) => answers_update (Ret (first_failure [update])) []
           [get_; once true "Update" [VLRP (updated_lrp lrp n annotation hostnames)]]
       | Ret (Err e) => answers_update (Ret (Err e)) [] [get_]
       | Panic why => answers_update (Panic why) [] [get_]
       | Hang => answers_update Hang [] [get_]
       end).
Proof.
  intros fs get get_. destruct convert as [conv ce], listed as [ll le]. split_and!.
  - destruct ce, desire; by split_and!.
  - destruct le; by split_and!.
  - destruct stop; by split_and!.
  - intros e He. destruct got as [g ge]. simpl in He. subst ge. split_and!; by split_and!.
  - intros lrp ->. split_and!; [by split_and!| | |].
    + exists (running_instances (lrp_RunningInstances lrp)). split_and!; [by split_and!|..].
      * unfold running_instances. by rewrite length_fmap, length_seq.
      * intros i x. unfold running_instances. rewrite list_lookup_fmap.
        intros (k & Hk & ->)%fmap_Some. apply lookup_seq in Hk as [-> _]. by split.
    + intros Hu. unfold answers. cbn [bifrost_Update tested_bifrost new_bifrost].
      erewrite UpdateApp_panics; [|apply tested_get|done]. by split_and!.
    + intros d n annotation Hm Hd Hn Ha. cbv zeta. unfold answers.
      cbn [bifrost_Update tested_bifrost new_bifrost].
      erewrite UpdateApp_eq; [|apply tested_get|done..].
      destruct (getURIs u) as [[hostnames|e]|why|]; [destruct update|..]; by split_and!.
Qed.
End Interfaces.

(** ** An instance of the property *)
Section Witnesses.
#[local] Instance plain_types : GoTypes := {| Ctx := unit; Fn := unit |}.

(** The scheduler knows the application and refuses its update. *)
Definition told_refusing : Doubles backend_sigs :=
  told_to_bifrost (dora, None) None (Some (ErrorString "failed")) None (Some dora, None) (None, None).

Definition new_dora : LRP := updated_lrp dora 5 "2" (Some ["new.example.com"]).

Lemma bifrost_calls_scheduler_witness :
  lrp_TargetInstances dora = 2%Z ∧ lrp_TargetInstances new_dora = 5%Z ∧
  answers (@bifrost_Update _ (tested_bifrost (doubles backend_sigs))
      (sample_update "dora-guid" (Some sample_fields))) told_refusing
    (Ret (Err (ErrorString "failed"))) []
    [once true "Get" [VString "dora-guid"]; once true "Update" [VLRP new_dora]] ∧
  answers (@bifrost_Update _ (tested_bifrost (doubles backend_sigs))
      (sample_update "dora-guid" None)) told_refusing
    (Panic "nil pointer dereference") [] [once true "Get" [VString "dora-guid"]].
Proof.
  split; [done|]. split; [done|].
  assert (lrp_Metadata dora ≠ None) as Hm by done.
  assert (getURIs (sample_update "dora-guid" (Some sample_fields))
    = Ret (Ok (Some ["new.example.com"]))) as E by by vm_compute.
  destruct (bifrost_calls_scheduler (sample_request "") (sample_update "dora-guid" (Some sample_fields))
    "dora-guid" (dora, None) None (Some (ErrorString "failed")) None (Some dora, None) (None, None))
    as (_ & _ & _ & _ & W1).
  destruct (W1 dora eq_refl) as (_ & _ & _ & W).
  specialize (W sample_fields 5%Z "2" Hm eq_refl eq_refl eq_refl). cbv zeta in W. rewrite E in W.
  destruct (bifrost_calls_scheduler (sample_request "") (sample_update "dora-guid" None)
    "dora-guid" (dora, None) None (Some (ErrorString "failed")) None (Some dora, None) (None, None))
    as (_ & _ & _ & _ & W2).
  destruct (W2 dora eq_refl) as (_ & _ & W3 & _).
  split; [exact W|exact (W3 I)].
Defined.
End Witnesses.
